(* ===== verification/_CoqProject ===== *)
-Q . S2P
Prelude.v
Interleave.v
GoStd.v
Crypto.v
Errors.v
Env.v
Cipher.v
Base64.v
Scope.v
User.v
Token.v
Client.v
Validator.v
AuthFlow.v
Jwt.v
Cache.v
CacheLocks.v
Redis.v
FileRepo.v
Ports.v
Adapters.v
Contract.v
Mongo.v
MongoAdapters.v
MongoRows.v
MongoCodecs.v
MongoContract.v
Forward.v
Services.v
Responses.v
CmdTokens.v
CmdUsers.v
Races.v
MongoFlow.v
Queries.v
Web.v
Registry.v
Binding.v
Router.v
Frame.v
TokenFlow.v
MongoTxn.v
WebFlow.v
AccountFlow.v
LoginFlow.v
System.v
Invariant.v
RouterFlow.v
Limits.v
Mail.v
Config.v
Boot.v
Disk.v
Relying.v
RelyingFlow.v
Pages.v
Demo.v
Witnesses.v
RouterWitnesses.v
HostWitnesses.v
RelyingWitnesses.v
MongoWitnesses.v
RedisWitnesses.v
DiskWitnesses.v
RaceWitnesses.v
