(* ===== verification/Prelude.v ===== *)
(** * An OpenID Connect server and its demo client: verification library

    The repository holds two programs in Go.  The auth server (cmd/auth) issues,
    rotates, introspects and revokes OAuth 2 tokens for the users it registers; the
    backend (cmd/backend) is a relying party that logs its users in there.  This
    library models both, from the source, as executable functions, and proves what
    the server promises: that codes and refresh tokens are used once, that what was
    ended stays ended, that a request acts for the user who made it, that the stored
    data stay consistent, that no request is left without an answer.

    *** The parts of the server and how they interact

    A request enters the gin engine (handler/web), passes the middlewares, is bound
    to a command struct, and the module's dispatcher (core/usecase, modules/auth)
    runs the use case registered for the command.  Use cases (application/command,
    application/query) work on entities (domain/entity), share services
    (application/service), and reach storage, cache, tokens and mail through ports
    (modules/auth/port).  Adapters implement the ports (adapter/out over
    infrastructure).  main reads the configuration and wires the adapters.

    *** How it is modelled

    A Go function that touches state is a function in the monad [ST] of this file:
    it takes the state and gives an outcome, a value or a panic, and the new state.
    Error results are values ([goerr], Errors.v); 64-bit integers are Z with
    [wrap64] written out; strings are byte strings; instants are nanoseconds.

    - Go's library and the outside: GoStd.v (UTF-8, strings, time), Crypto.v
      (SHA-256, hex, base64), Base64.v (decoding), Env.v.  Env.v is a record of what
      the program asks of the outside - the n-th clock reading, the n-th random
      bytes, the n-th uuid, bcrypt, net/url, the n-th disk write, the order of map
      iteration - and [Sys] counts how much of it was consumed.
    - Errors.v: core/error, core/web/oauth2.go, modules/auth/errors.
    - Entities: Scope.v (scope.go, ids.go), User.v, Token.v (tokens.go, grant.go),
      Client.v (client.go, the configured registry), AuthFlow.v (auth_code.go,
      auth_request.go).  Validator.v: the validations of core/validator.
    - Cipher.v: core/crypto.  Jwt.v: core/jwt and infrastructure/jwt behind the
      class [TokenServiceI] with [TokenServiceLaws].
    - Cache.v: the cache port as [CacheI] with [CacheLaws], which allow every
      operation to fail, and [CacheReliable] for one that does not; the keys, and
      MemoryCache as an instance of both.  CacheLocks.v: its operations as the critical
      sections they are made of, the janitor and closing.  FileRepo.v: the generic file repository with its
      pointers, indexes and write-through file.  Ports.v: the repositories as
      classes with laws, and [World], the state a use case runs on.  Adapters.v and
      Forward.v: the file adapters as instances.  Disk.v: the temporary file behind
      a write of the repository, call by call, with failures and crashes.
    - MongoDB: Mongo.v is the driver as a class with its documented laws and a
      server in memory that meets them; MongoAdapters.v the three adapters of
      adapter/out, one definition per method; MongoRows.v and MongoCodecs.v their
      documents; Contract.v what both backends promise, MongoContract.v that the
      adapters keep it; MongoTxn.v client.go and unit_of_work.go.
    - Redis.v: infrastructure/cache/redis.go over a server as a parameter.
    - Services.v, Responses.v, CmdTokens.v, CmdUsers.v, Queries.v: the application
      layer, one definition per method, named Type_Method.
    - Interleave.v: processes, sequences of calls on a shared state, advanced by a
      schedule.  Races.v: exchange, sign-in, refresh and logout as processes
      (Type_Method_proc), each proved to be the handler of CmdTokens.v or CmdUsers.v
      when it runs alone.
    - Web.v: middlewares, dispatcher, module, responder.  Registry.v: the registry of
      use cases by command type, what the module registers, and the metrics recorder
      (core/usecase, module.go, core/metrics, infrastructure/metrics).  Binding.v: the reflection
      walk that fills a command.  Router.v: the routes and the middleware order; which
      chain a request gets is gin's ([GinEngine]), and [serve] puts the two together.
    - Mail.v: the SMTP client and the messages.  Config.v: the settings.  Boot.v:
      key loading, dependencies, wiring, shutdown, the exit code.
    - Relying.v: every handler of cmd/backend/main.go and its session store.
      Pages.v: its pages, with their text.

    Code that is not in the repository is a parameter: a class of functions (Env,
    JwtLib, Aead, StructValidator, GinBinding, GinEngine, CorsHandler, Relay, ConfigLib,
    BootLib, Remote, BackendLib, MongoDriver, MongoSession, RedisServer), with what
    the code relies on as a class of its own (ClockMono, UuidFresh, BcryptSpec,
    JwtSpec, AeadSpec, GinTyped, GinLaws, CorsLaws, RelayLaws, SecretsDistinct, MongoSpec,
    MongoSessionSpec, RedisSpec).  Demo.v and the witness files give concrete functions for
    each of them, prove that these meet the hypotheses, and apply the theorems to
    computed runs.

    *** What the theorems show

    - Tokens (TokenFlow.v, System.v, Limits.v, WebFlow.v): rotation, exchange,
      replay detection, revocation, logout, introspection and the bearer check on every
      branch, for tokens with a grant and for those from before there were grants; over
      arbitrary traffic an ended grant or session is never accepted again while its
      tokens live.  [serves] in System.v is that traffic: requests through any chain
      of the server's handlers, pauses in between, expired cache entries dropped.
    - Accounts (AccountFlow.v, LoginFlow.v, User.v): registration, reset, sign-in
      with its attempt limit, the password grant, lockout.
    - The data (Invariant.v): whatever is served, every refresh token belongs to a
      stored grant of the same user and client, every grant to a stored user, and no
      identifier or secret handed out later is in use; so the freshness hypotheses
      of the theorems on single requests hold in every reachable state.
    - Routes (RouterFlow.v): the protected routes act for the caller of the bearer
      token, the token endpoint picks its use case by grant type alone, every
      request is answered - something is written -, and every answer of a chain
      carries the hardening headers (gin's own redirects do not).
    - Contracts: the file backend, the memory cache and the JWT service implement
      their ports (Forward.v, Adapters.v, Cache.v, Jwt.v), and the JWT service accepts
      exactly the tokens of its own key, method, issuer, audience and use; the use
      cases are proved against the port classes only.  MongoDB keeps instants in milliseconds and
      compares e-mails by their index, so it implements the weaker contract of
      Contract.v, which the file backend implements too (MongoFlow.v).
    - Shared storage (MongoFlow.v, MongoTxn.v, Redis.v): however requests interleave,
      a reset token is consumed once, unless a stale copy of its user is saved (each
      such save is counted), a rotation is serialised with what commits at the same
      time, a cached code is taken once, and a counter lets on no more than its limit
      in a window besides the requests it has no count for.
    - Concurrent requests (Interleave.v, Races.v): in every schedule of any number of
      requests, at most one exchange of a code gets tokens and at most three sign-in
      forms of a session get at the password; [tickets_bound] is the argument they
      share, and [CacheTake] what it needs of the cache, which both caches have.  The
      operations of the memory cache, interleaved section by section, have the results
      of a cache without concurrency and without garbage (CacheLocks.v).
      RaceWitnesses.v computes schedules, among them two in which a check of the
      code is passed by: a refresh that undoes a logout on the file backend, and
      wrong passwords that are counted once on MongoDB.
    - Crashes (Disk.v): the file of a store always holds one complete set of
      documents, and a write is the single step the rest of the library takes it for.
    - Dispatch (Registry.v): every command reaches the use case of its own type, by
      value or by pointer, and nothing registered is of another type.
    - Limits and failures (Limits.v, Mail.v): the rate limiter and the mail limiter
      are exact while the cache answers, and off by no more than the counts that
      failed otherwise; a panic is answered, in the format of its route; a mail goes on
      the wire at most once.
    - Start and stop (Config.v, Boot.v): what runs after a boot is what was
      configured, variable by variable; the client loop ends; the published key is the loaded one; exit
      code 0 means a clean shutdown.
    - The relying party (RelyingFlow.v): a session comes only from the answer to its
      own login, state changes need the CSRF token, sessions are well-formed, and
      the login request is one the server's own checks accept, PKCE included; no
      request adds markup to a page (Pages.v).

    *** Fuel

    Recursion is structural on the data everywhere but in three places, each with a
    bound that is enough: [sha_blocks] (Crypto.v) gets one turn per byte of the
    padded message and uses one per 64; [extra_clients] (Config.v) gets one turn more than there are variables, and
    [client_loop_reaches_gap] shows that no more are ever needed; [magnitude_bytes]
    (Boot.v) gets one turn per bit of the number, and [big_Bytes_numeral] shows the
    result is the whole number.

    *** Not modelled

    - The log lines of the use cases (the record of a request is modelled, Web.v); the
      templates of the sign-in and error pages; constructors that only store their
      arguments.
    - Interleaving where no theorem speaks of it: outside Races.v a request is one
      step.  In Races.v a port operation is one step, which the mutex of the file
      repository makes it, and which CacheLocks.v justifies for the memory cache.  The relying
      party's refresh, which drops its lock, is split at that point; password resets
      and rotations on MongoDB and the uses of a Redis key are interleaved as far as
      their theorems need it.
    - Sockets, deadlines and contexts; gin's routing and its binders, which are
      parameters; go-playground's tag language; directories of the file system.
    - What MongoDB does on its own: the TTL indexes the adapters create make it delete
      documents some time after they expired.  In the laws of Mongo.v a document stays
      until it is written, so the theorems on MongoDB do not speak of a row after such
      a deletion.
    - The first write of a store's file: the runs of Disk.v begin with a file that is
      complete and synced, as every write leaves it.

    *** What could come next

    The invariant of Invariant.v for interleaved requests on MongoDB, under the
    contract of Contract.v instead of the laws; the remaining handlers as processes. *)

From stdpp Require Export base gmap strings list option sets fin_maps.
From Stdlib Require Export Ascii ZArith Lia.

(** ** Machine integers

    Go's [int] and [int64] are 64 bits wide on every platform the server is
    built for; [wrap64] is two's-complement reduction. *)

Definition two64 : Z := 18446744073709551616.
Definition two63 : Z := 9223372036854775808.

Definition wrap64 (z : Z) : Z := (z + two63) mod two64 - two63.

Lemma wrap64_id (z : Z) : (- two63 <= z < two63)%Z -> wrap64 z = z.
Proof.
  unfold wrap64, two63, two64. intros H.
  rewrite Z.mod_small by lia. lia.
Qed.

Lemma wrap64_range (z : Z) : (- two63 <= wrap64 z < two63)%Z.
Proof.
  unfold wrap64, two63, two64.
  pose proof (Z.mod_pos_bound (z + 9223372036854775808) 18446744073709551616 ltac:(lia)).
  lia.
Qed.

(** ** Outcomes, state passing and panics

    A handler is a function of the state it runs in.  Go errors are ordinary
    values (see [Errors.v]); a Go [panic] is the [Panic] outcome, which skips
    the rest of the computation and keeps the state reached so far. *)

Inductive outcome (A : Type) : Type :=
| Ret (a : A)
| Panic (msg : string).

Arguments Ret {A} a.
Arguments Panic {A} msg.

Definition ST (S A : Type) : Type := S -> outcome A * S.

#[export] Instance ST_ret {S} : MRet (ST S) := fun A a s => (Ret a, s).

Definition bind {S A B} (m : ST S A) (f : A -> ST S B) : ST S B := fun s =>
  match m s with
  | (Ret a, s') => f a s'
  | (Panic e, s') => (Panic e, s')
  end.

Declare Scope go_scope.
Notation "x ← m ; k" := (bind m (fun x => k))
  (at level 20, m at level 100, k at level 200, only parsing) : go_scope.
Notation "' p ← m ; k" := (bind m (fun p => k))
  (at level 20, p pattern, m at level 100, k at level 200, only parsing) : go_scope.
Notation "m ;; k" := (bind m (fun _ => k))
  (at level 100, k at level 200, right associativity) : go_scope.
Global Open Scope go_scope.

Definition panic {S A} (msg : string) : ST S A := fun s => (Panic msg, s).
Definition get {S} : ST S S := fun s => (Ret s, s).
Definition modify {S} (f : S -> S) : ST S unit := fun s => (Ret tt, f s).

(** A component's operations run on its own part of the state. *)

Class Lens (S T : Type) := {
  lget : S -> T;
  lset : T -> S -> S;
}.

Definition zoom {S T A} `{Lens S T} (m : ST T A) : ST S A := fun s =>
  match m (lget s) with (o, t) => (o, lset t s) end.

(** ** Weakest preconditions

    [wp m Q s]: running [m] from [s] ends in an outcome and a state that
    satisfy [Q].  Interface laws are stated with it, and the proofs about
    handlers step through a handler one bind at a time. *)

Definition wp {S A} (m : ST S A) (Q : outcome A -> S -> Prop) (s : S) : Prop :=
  Q (m s).1 (m s).2.

Section wp.
  Context {S : Type}.

Lemma wp_ret {A} (a : A) (Q : outcome A -> S -> Prop) s :
  Q (Ret a) s -> wp (mret a) Q s.
Proof. done. Qed.

Lemma wp_bind {A B} (m : ST S A) (f : A -> ST S B) Q s :
  wp m (fun o s' => match o with
                    | Ret a => wp (f a) Q s'
                    | Panic e => Q (Panic e) s'
                    end) s ->
  wp (bind m f) Q s.
Proof. unfold wp, bind. destruct (m s) as [[a|e] s']; done. Qed.

Lemma wp_mono {A} (m : ST S A) (P Q : outcome A -> S -> Prop) s :
  wp m P s -> (forall o s', P o s' -> Q o s') -> wp m Q s.
Proof. unfold wp. auto. Qed.

Lemma wp_run {A} (m : ST S A) Q s o s' : m s = (o, s') -> wp m Q s -> Q o s'.
Proof. unfold wp. intros ->. done. Qed.

Lemma wp_eq {A} (m : ST S A) Q s o s' : m s = (o, s') -> Q o s' -> wp m Q s.
Proof. unfold wp. intros ->. done. Qed.

Lemma wp_zoom {T A} `{Lens S T} (m : ST T A) Q s :
  wp m (fun o t => Q o (lset t s)) (lget s) -> wp (zoom m) Q s.
Proof. unfold wp, zoom. destruct (m (lget s)). done. Qed.

End wp.

(** Reading the equation of a bind backwards: the first computation returned,
    or it panicked and the panic is the result. *)

Lemma bind_Ret_inv {S A B} (m : ST S A) (f : A -> ST S B) s b s' :
  bind m f s = (Ret b, s') ->
  exists a s1, m s = (Ret a, s1) /\ f a s1 = (Ret b, s').
Proof.
  unfold bind. destruct (m s) as [[a|e] s1] eqn:E; [eauto|done].
Qed.

Lemma ret_inv {S A} (a b : A) (s s' : S) : (mret a : ST S A) s = (Ret b, s') -> a = b /\ s = s'.
Proof. by intros [= <- <-]. Qed.

Lemma bind_run {S A B} (m : ST S A) (f : A -> ST S B) s a s' :
  m s = (Ret a, s') -> bind m f s = f a s'.
Proof. unfold bind. by intros ->. Qed.

Lemma bind_panic {S A B} (m : ST S A) (f : A -> ST S B) s e s' :
  m s = (Panic e, s') -> bind m f s = (Panic e, s').
Proof. unfold bind. by intros ->. Qed.

Lemma zoom_Ret_inv {S T A} `{Lens S T} (m : ST T A) s a s' :
  zoom m s = (Ret a, s') -> exists t, m (lget s) = (Ret a, t) /\ s' = lset t s.
Proof.
  unfold zoom. destruct (m (lget s)) as [o t]. intros [= -> <-]. eauto.
Qed.

(** ** What a computation does to the state

    [respects R m]: whatever the outcome, the state [m] leaves behind is related
    by [R] to the state it started from.  For a preorder this composes, so it is
    proved by walking through the code. *)

Definition respects {S A} (R : relation S) (m : ST S A) : Prop := forall s, R s (m s).2.

Section respects.
  Context {S : Type} (R : relation S) `{!PreOrder R}.

Lemma respects_ret {A} (a : A) : respects R (mret a).
Proof. intros s. change (R s s). reflexivity. Qed.

Lemma respects_panic {A} msg : respects R (panic (A := A) msg).
Proof. intros s. change (R s s). reflexivity. Qed.

Lemma respects_bind {A B} (m : ST S A) (f : A -> ST S B) :
  respects R m -> (forall a, respects R (f a)) -> respects R (bind m f).
Proof.
  intros Hm Hf s. unfold bind. specialize (Hm s). destruct (m s) as [[a|e] s']; [|done].
  etrans; [exact Hm|apply Hf].
Qed.

End respects.

Create HintDb respects discriminated.

(** Walks through binds, matches and calls; what is left are the calls no
    hint covers. *)
Ltac solve_respects :=
  repeat match goal with
  | |- respects _ (bind _ _) => apply respects_bind; [exact _| |intros ?]
  | |- respects _ (mret _) => apply respects_ret; exact _
  | |- respects _ (panic _) => apply respects_panic; exact _
  | |- respects _ (match ?x with _ => _ end) => destruct x
  | |- respects _ (let _ := _ in _) => cbv zeta
  | |- respects _ _ => solve [eauto with respects]
  end.

(** [ensures P m]: whatever [m] returns satisfies [P]. *)

Definition ensures {S A} (P : A -> Prop) (m : ST S A) : Prop := forall s a s', m s = (Ret a, s') -> P a.

Lemma ensures_ret {S A} (P : A -> Prop) (a : A) : P a -> ensures (S := S) P (mret a).
Proof. intros Ha s b s' [= <- _]. exact Ha. Qed.

Lemma ensures_bind {S A B} (P : B -> Prop) (m : ST S A) (f : A -> ST S B) :
  (forall a, ensures P (f a)) -> ensures P (bind m f).
Proof. intros Hf s b s' (a & s1 & _ & H)%bind_Ret_inv. exact (Hf a _ _ _ H). Qed.

Lemma ensures_bind_with {S A B} (Q : A -> Prop) (P : B -> Prop) (m : ST S A) (f : A -> ST S B) :
  ensures Q m -> (forall a, Q a -> ensures P (f a)) -> ensures P (bind m f).
Proof. intros Hm Hf s b s' (a & s1 & H1 & H)%bind_Ret_inv. exact (Hf a (Hm _ _ _ H1) _ _ _ H). Qed.

(** [answers m]: [m] returns, from every state. *)

Definition answers {S A} (m : ST S A) : Prop := forall s, exists a s', m s = (Ret a, s').

Lemma answers_ret {S A} (a : A) : answers (S := S) (mret a).
Proof. intros s. by eexists _, _. Qed.

Lemma answers_bind {S A B} (m : ST S A) (f : A -> ST S B) :
  answers m -> (forall a, answers (f a)) -> answers (bind m f).
Proof. intros Hm Hf s. destruct (Hm s) as (a & s1 & H). rewrite (bind_run _ _ _ _ _ H). apply Hf. Qed.

Create HintDb answers discriminated.
#[export] Hint Resolve answers_ret : answers.

(** Walks through binds and matches, like [solve_respects]. *)
Ltac solve_answers :=
  repeat match goal with
  | |- answers (bind _ _) => apply answers_bind; [|intros ?]
  | |- answers (match ?x with _ => _ end) => destruct x
  | |- answers (let _ := _ in _) => cbv zeta
  | |- answers _ => solve [eauto with answers]
  end.

(** ** Generic list lemmas *)

#[global] Arguments String.eqb : simpl never.

Fixpoint contains (l : list string) (x : string) : bool :=
  match l with
  | [] => false
  | y :: l' => if String.eqb y x then true else contains l' x
  end.

Lemma contains_spec l x : contains l x = true <-> x ∈ l.
Proof.
  induction l as [|y l IH]; simpl.
  - split; [done|]. by intros ?%elem_of_nil.
  - destruct (String.eqb_spec y x) as [->|Hne].
    + split; [intros _; constructor|done].
    + rewrite IH, elem_of_cons. split; [auto|]. by intros [->|].
Qed.

(** ** Automation *)

Create HintDb auth discriminated.
#[export] Hint Resolve wrap64_range : auth.

(** Case analysis on every [match] and [if] a hypothesis or the goal is stuck
    on, keeping the equations. *)

Ltac split_match :=
  repeat match goal with
  | H : context [match ?x with _ => _ end] |- _ =>
      lazymatch x with context [match _ with _ => _ end] => fail | _ => destruct x eqn:? end
  | |- context [match ?x with _ => _ end] =>
      lazymatch x with context [match _ with _ => _ end] => fail | _ => destruct x eqn:? end
  end.
