(* ===== verification/Interleave.v ===== *)
(** * Requests that interleave

    A request as the sequence of the calls it makes ([proc]): each call is one
    step on the shared state, as the mutexes and servers behind the ports make
    it, and between two calls of one request any calls of others may run.
    [exec] runs a request alone; [run_schedule] runs a pool of requests in the
    order a schedule gives.

    [tickets_bound] is the argument about resources that are taken from the shared
    state and perhaps put back: codes, sign-in sessions. *)

From S2P Require Import Prelude.

Local Open Scope Z_scope.

(** ** Processes *)

Inductive proc (S A : Type) : Type :=
| Done (a : A)
| Crash (msg : string)
| Step (X : Type) (m : ST S X) (k : X -> proc S A).
Arguments Done {S A} a.
Arguments Crash {S A} msg.
Arguments Step {S A X} m k.

Fixpoint pbind {S A B} (p : proc S A) (f : A -> proc S B) : proc S B :=
  match p with
  | Done a => f a
  | Crash msg => Crash msg
  | Step m k => Step m (fun x => pbind (k x) f)
  end.

Definition call {S A} (m : ST S A) : proc S A := Step m Done.

Declare Scope proc_scope.
Delimit Scope proc_scope with proc.
Notation "x ⇐ p ; q" := (pbind p (fun x => q)) (at level 100, p at next level, q at level 200, right associativity) : proc_scope.
Notation "p ⨾ q" := (pbind p (fun _ => q)) (at level 100, q at level 200, right associativity) : proc_scope.

(** A request alone. *)
Fixpoint exec {S A} (p : proc S A) : ST S A :=
  match p with
  | Done a => mret a
  | Crash msg => panic msg
  | Step m k => bind m (fun x => exec (k x))
  end.

(** The next call of a request. *)
Definition advance {S A} (p : proc S A) (s : S) : proc S A * S :=
  match p with
  | Step m k => match m s with (Ret x, s') => (k x, s') | (Panic msg, s') => (Crash msg, s') end
  | _ => (p, s)
  end.

(** The requests in flight, and the order in which their calls happen. *)
Fixpoint run_schedule {S A} (sched : list nat) (ts : list (proc S A)) (s : S) : list (proc S A) * S :=
  match sched with
  | [] => (ts, s)
  | i :: sched' =>
    match ts !! i with
    | None => run_schedule sched' ts s
    | Some p => let '(p', s') := advance p s in run_schedule sched' (<[i := p']> ts) s'
    end
  end.

(** *** Alone is one of the schedules *)

Section Exec.
  Context {S : Type}.

Lemma exec_call {A} (m : ST S A) s : exec (call m) s = m s.
Proof. simpl. unfold bind. by destruct (m s) as [[x|msg] s']. Qed.

Lemma exec_pbind {A B} (p : proc S A) (f : A -> proc S B) s :
  exec (pbind p f) s = bind (exec p) (fun a => exec (f a)) s.
Proof.
  revert s. induction p as [a|msg|X m k IH]; intros s; [done|done|]. simpl. unfold bind at 1 2 3.
  destruct (m s) as [[x|msg] s']; [apply IH|done].
Qed.

(** Congruence for the proofs that a process is the handler it stands for. *)
Lemma exec_bind_eq {A B} (p : proc S A) (m : ST S A) (f : A -> proc S B) (g : A -> ST S B) s :
  (forall s, exec p s = m s) -> (forall a s, exec (f a) s = g a s) -> exec (pbind p f) s = bind m g s.
Proof.
  intros Hp Hf. rewrite exec_pbind. unfold bind. rewrite Hp. destruct (m s) as [[a|msg] s']; [apply Hf|done].
Qed.

Lemma exec_alone {A} (p : proc S A) s :
  exists n, match run_schedule (repeat 0%nat n) [p] s with
            | ([Done a], s') => exec p s = (Ret a, s')
            | ([Crash msg], s') => exec p s = (Panic msg, s')
            | _ => False
            end.
Proof.
  revert s. induction p as [a|msg|X m k IH]; intros s; [by exists 0%nat..|].
  destruct (m s) as [[x|msg] s'] eqn:Hm.
  - destruct (IH x s') as [n Hn]. exists (Datatypes.S n). simpl. rewrite Hm. unfold bind. rewrite Hm. exact Hn.
  - exists 1%nat. simpl. rewrite Hm. unfold bind. by rewrite Hm.
Qed.

End Exec.

(** Walks through a process and its handler together. *)
Ltac solve_exec :=
  repeat match goal with
  | |- exec (pbind _ _) _ = bind _ _ _ => apply exec_bind_eq; intros
  | |- exec (call _) _ = _ => apply exec_call
  | |- exec (Done _) _ = _ => reflexivity
  | |- exec (Crash _) _ = _ => reflexivity
  | |- exec (match ?x with _ => _ end) _ = _ => destruct x
  | |- exec (if ?x then _ else _) _ = _ => destruct x
  | |- exec (let _ := _ in _) _ = _ => cbv zeta
  end; try reflexivity.

(** A pool made of two groups. *)
Lemma pool_of {C P} (f : C -> P) (cs : list C) (others : list P) (Q1 Q2 : P -> Prop) i p :
  Forall (fun c => Q1 (f c)) cs -> Forall Q2 others -> (map f cs ++ others) !! i = Some p ->
  if (i <? length cs)%nat then Q1 p else Q2 p.
Proof.
  intros H1 H2 Hp. destruct (Nat.ltb_spec i (length cs)) as [Hi|Hi].
  - rewrite lookup_app_l in Hp by (rewrite length_map; lia).
    apply list_lookup_fmap_Some in Hp as (c & -> & Hc). exact (Forall_lookup_1 _ _ _ _ H1 Hc).
  - rewrite lookup_app_r in Hp by (rewrite length_map; lia). exact (Forall_lookup_1 _ _ _ _ H2 Hp).
Qed.

(** ** Tickets

    [level s]: the resource is there, at this level; [None] when it is not.  A
    contender may take it, once; who took it at level [c] may put it back at
    level [c + 1], if that is below [N]; nobody else raises it. *)

Section Tickets.
  Context {S A : Type} (level : S -> option Z) (N : Z) (took : A -> bool).

Definition not_raised (s s' : S) : Prop := level s' = level s \/ level s' = None.

Fixpoint bystander (p : proc S A) : Prop :=
  match p with
  | Step m k => (forall s, not_raised s (m s).2) /\ forall x, bystander (k x)
  | _ => True
  end.

(** Holds the resource, taken at level [c]. *)
Fixpoint holder (c : Z) (p : proc S A) : Prop :=
  match p with
  | Step m k =>
    ((forall s, not_raised s (m s).2) /\ forall x, holder c (k x)) \/
    ((forall s, not_raised s (m s).2 \/ (level (m s).2 = Some (c + 1) /\ c + 1 < N)) /\ forall x, bystander (k x))
  | _ => True
  end.

Fixpoint contender (p : proc S A) : Prop :=
  match p with
  | Done a => took a = false
  | Crash _ => True
  | Step m k => forall s, not_raised s (m s).2 /\
    forall x, (m s).1 = Ret x ->
      contender (k x) \/ exists c, level s = Some c /\ level (m s).2 = None /\ (0 <= c < N -> holder c (k x))
  end.

(** The first [n] requests of the pool are contenders, the others bystanders. *)
Context (n : nat).

(** [T] took the resource so far; [h] still holds it, taken at the level given. *)
Record pool_ok (T : gset nat) (h : option (nat * Z)) (ts : list (proc S A)) (s : S) : Prop := {
  pool_contenders : forall i p, ts !! i = Some p -> (i < n)%nat -> i ∉ T -> contender p;
  pool_bystanders : forall i p, ts !! i = Some p -> (n <= i)%nat \/ i ∈ T -> (forall c, h <> Some (i, c)) -> bystander p;
  pool_holder : forall i c, h = Some (i, c) -> i ∈ T /\ c < N /\ level s = None /\ Z.of_nat (size T) <= c + 1 /\
    forall p, ts !! i = Some p -> holder c p;
  pool_size : Z.of_nat (size T) <= Z.max 0 N;
  pool_level : forall c, level s = Some c -> Z.of_nat (size T) <= c < N;
}.

(** A step of one request, described by what became of it and of the level. *)
Lemma pool_same T h ts s i q s' :
  pool_ok T h ts s -> not_raised s s' ->
  ((i < n)%nat -> i ∉ T -> contender q) ->
  ((n <= i)%nat \/ i ∈ T -> (forall c, h <> Some (i, c)) -> bystander q) ->
  (forall c, h = Some (i, c) -> holder c q) ->
  pool_ok T h (<[i := q]> ts) s'.
Proof.
  intros [Hc Hb Hh Hs Hl] Hr Qc Qb Qh. split.
  - intros j p Hp. destruct (decide (j = i)) as [->|Hne]; [|rewrite list_lookup_insert_ne in Hp by done; eauto].
    apply list_lookup_insert_Some in Hp as [(_ & <- & _)|[? _]]; [apply Qc|done].
  - intros j p Hp. destruct (decide (j = i)) as [->|Hne]; [|rewrite list_lookup_insert_ne in Hp by done; eauto].
    apply list_lookup_insert_Some in Hp as [(_ & <- & _)|[? _]]; [apply Qb|done].
  - intros j c Hj. destruct (Hh j c Hj) as (? & ? & Hn & ? & Hp). split_and!; try done.
    { by destruct Hr as [->|]. }
    intros p. destruct (decide (j = i)) as [->|Hne]; [|rewrite list_lookup_insert_ne by done; apply Hp].
    intros [(_ & <- & _)|[? _]]%list_lookup_insert_Some; [by apply Qh|done].
  - done.
  - intros c Hc'. apply Hl. destruct Hr as [<-|]; [done|congruence].
Qed.

(** A contender takes the resource. *)
Lemma pool_take T h ts s i q s' c :
  pool_ok T h ts s -> (i < n)%nat -> i ∉ T -> level s = Some c -> level s' = None -> (0 <= c < N -> holder c q) ->
  pool_ok ({[i]} ∪ T) (Some (i, c)) (<[i := q]> ts) s'.
Proof.
  intros [Hc Hb Hh Hs Hl] Hi HT Hlev Hnone Hq. pose proof (Hl c Hlev) as Hcn.
  assert (h = None) as ->. { destruct h as [[j c']|]; [|done]. destruct (Hh j c' eq_refl) as (_ & _ & ? & _). congruence. }
  assert (Z.of_nat (size ({[i]} ∪ T)) <= c + 1) as Hsz.
  { rewrite size_union by set_solver. rewrite size_singleton. lia. }
  split.
  - intros j p Hp Hj HjT. rewrite list_lookup_insert_ne in Hp by set_solver. eapply Hc; [done..|set_solver].
  - intros j p Hp Hj Hne. rewrite list_lookup_insert_ne in Hp by (intros <-; by apply (Hne c)).
    eapply Hb; [done| |done]. destruct Hj as [?|Hj]; [by left|right]. assert (j <> i) by (intros ->; by apply (Hne c)). set_solver.
  - intros j c' [= <- <-]. split_and!; [set_solver|lia|done..|]. intros p. intros [(_ & <- & _)|[? _]]%list_lookup_insert_Some; [apply Hq; lia|done].
  - lia.
  - congruence.
Qed.

(** Its holder puts it back, or drops it. *)
Lemma pool_put T ts s i q s' c :
  pool_ok T (Some (i, c)) ts s -> bystander q ->
  not_raised s s' \/ (level s' = Some (c + 1) /\ c + 1 < N) -> pool_ok T None (<[i := q]> ts) s'.
Proof.
  intros [Hc Hb Hh Hs Hl] Hq Hr. destruct (Hh i c eq_refl) as (HiT & Hcn & Hnone & Hsz & _).
  split.
  - intros j p Hp Hj HjT. rewrite list_lookup_insert_ne in Hp by (intros <-; done). eauto.
  - intros j p Hp Hj _. destruct (decide (j = i)) as [->|Hne].
    + by apply list_lookup_insert_Some in Hp as [(_ & <- & _)|[? _]].
    + rewrite list_lookup_insert_ne in Hp by done. eapply Hb; [done..|congruence].
  - done.
  - done.
  - intros c' Hc'. destruct Hr as [[Hr|Hr]|[Hr ?]]; [congruence..|]. rewrite Hr in Hc'. injection Hc' as <-. lia.
Qed.

Lemma pool_step T h ts s i p : pool_ok T h ts s -> ts !! i = Some p ->
  exists T' h', pool_ok T' h' (<[i := (advance p s).1]> ts) (advance p s).2.
Proof.
  intros Hok Hp. pose proof Hok as [Hc Hb Hh _ _].
  destruct p as [a|msg|X m k]; [by exists T, h; rewrite list_insert_id..|]. simpl.
  assert ((exists c, h = Some (i, c)) \/ forall c, h <> Some (i, c)) as [[c ->]|Hne].
  { destruct h as [[j c]|]; [|right; congruence]. destruct (decide (j = i)) as [->|]; [left; eauto|right; congruence]. }
  - destruct (Hh i c eq_refl) as (HiT & _ & _ & _ & Hq). destruct (Hq _ Hp) as [[Hr Hk]|[Hr Hk]].
    + specialize (Hr s). exists T, (Some (i, c)). destruct (m s) as [[x|msg] s']; simpl in *;
        (apply (pool_same T _ ts s); [done..|set_solver|intros _ Hne; by destruct (Hne c)|]); intros c' [= <-]; [apply Hk|done].
    + specialize (Hr s). exists T, None. destruct (m s) as [[x|msg] s']; simpl in *; by apply (pool_put T ts s i _ s' c).
  - destruct (decide ((i < n)%nat /\ i ∉ T)) as [[Hi HiT]|Hin].
    + destruct (Hc i _ Hp Hi HiT s) as [Hr Hx]. destruct (m s) as [[x|msg] s']; simpl in *.
      * destruct (Hx x eq_refl) as [Hq|(c & Hlev & Hnone & Hq)].
        -- exists T, h. apply (pool_same T h ts s); try done; [|by intros c Hh'; destruct (Hne c)]. intros [?|?]; [lia|done].
        -- exists ({[i]} ∪ T), (Some (i, c)). by apply (pool_take T h ts s).
      * exists T, h. by apply (pool_same T h ts s).
    + assert ((n <= i)%nat \/ i ∈ T) as Hin'. { destruct (decide (i ∈ T)); [by right|left]. apply Nat.nlt_ge. tauto. }
      destruct (Hb i _ Hp Hin' Hne) as [Hr Hk]. specialize (Hr s). exists T, h.
      destruct (m s) as [[x|msg] s']; simpl in *;
        (apply (pool_same T h ts s); [done|done|tauto| |by intros c Hh'; destruct (Hne c)]); [intros; apply Hk|done].
Qed.

Lemma pool_run sched T h ts s : pool_ok T h ts s ->
  exists T' h', pool_ok T' h' (run_schedule sched ts s).1 (run_schedule sched ts s).2.
Proof.
  revert T h ts s. induction sched as [|i sched IH]; intros T h ts s Hok; [by exists T, h|]. simpl.
  destruct (ts !! i) as [p|] eqn:Hp; [|by eapply IH].
  destruct (pool_step T h ts s i p Hok Hp) as (T1 & h1 & H1). destruct (advance p s) as [p' s']. by eapply IH.
Qed.

(** The requests that ended having taken the resource. *)
Definition takers (ts : list (proc S A)) : list nat :=
  List.filter (fun i => match ts !! i with Some (Done a) => took a | _ => false end) (seq 0 n).

Theorem tickets_bound (sched : list nat) (ts : list (proc S A)) (s : S) :
  (forall i p, ts !! i = Some p -> if (i <? n)%nat then contender p else bystander p) ->
  (forall c, level s = Some c -> 0 <= c < N) ->
  Z.of_nat (length (takers (run_schedule sched ts s).1)) <= Z.max 0 N.
Proof.
  intros Hts Hlev. destruct (pool_run sched ∅ None ts s) as (T & h & [Hc _ _ Hs _]).
  { split; [| |done|rewrite size_empty; lia|intros c Hl; rewrite size_empty; specialize (Hlev c Hl); lia].
    - intros i p Hp Hi _. specialize (Hts i p Hp). by destruct (Nat.ltb_spec i n); [|lia].
    - intros i p Hp [Hi|Hi] _; [|set_solver]. specialize (Hts i p Hp). by destruct (Nat.ltb_spec i n); [lia|]. }
  set (ts' := (run_schedule sched ts s).1) in *.
  assert (list_to_set (C := gset nat) (takers ts') ⊆ T) as Hsub.
  { intros i [Hi Ht]%elem_of_list_to_set%list_elem_of_In%filter_In. apply in_seq in Hi.
    destruct (ts' !! i) as [[a|msg|X m k]|] eqn:Hp; try done. destruct (decide (i ∈ T)) as [|HiT]; [done|].
    specialize (Hc i _ Hp ltac:(lia) HiT). simpl in Hc. congruence. }
  apply subseteq_size in Hsub. rewrite size_list_to_set in Hsub; [lia|].
  apply NoDup_ListNoDup, List.NoDup_filter, seq_NoDup.
Qed.

End Tickets.

(** ** Linearization

    Operations of several steps that take effect in one of them, the last: every
    other step is silent.  However they interleave, the order in which they end
    ([commit_log]) is then an order in which they could have run one at a time. *)

Section Linear.
  Context {S A O : Type} (later silent : S -> S -> Prop) (effect : O -> S -> A -> S -> Prop).
  Context {PO : PreOrder later} (silent_later : forall s s', silent s s' -> later s s').
  Context (effect_later : forall o s a s', effect o s a s' -> later s s').

(** From [s0] on, [p] ends with the effect of [o]; before that it is silent. *)
Fixpoint commits (o : O) (s0 : S) (p : proc S A) : Prop :=
  match p with
  | Step m k => forall s, later s0 s ->
    match m s with
    | (Ret x, s') => (exists a, k x = Done a /\ effect o s a s') \/ (silent s s' /\ commits o s' (k x))
    | (Panic _, _) => False
    end
  | _ => False
  end.

(** The operations as they end, with their results. *)
Fixpoint commit_log (sched : list nat) (ts : list (proc S A)) (s : S) : list (nat * A) :=
  match sched with
  | [] => []
  | i :: sched' =>
    match ts !! i with
    | Some (Step m k) =>
      let r := advance (Step m k) s in
      match r.1 with Done a => [(i, a)] | _ => [] end ++ commit_log sched' (<[i := r.1]> ts) r.2
    | _ => commit_log sched' ts s
    end
  end.

(** One at a time, in the order given. *)
Inductive replay (os : list O) : S -> list (nat * A) -> S -> Prop :=
| replay_nil s : replay os s [] s
| replay_silent s s1 l s' : silent s s1 -> replay os s1 l s' -> replay os s l s'
| replay_effect s i o a s1 l s' :
    os !! i = Some o -> effect o s a s1 -> replay os s1 l s' -> replay os s ((i, a) :: l) s'.

(** A pool that runs the operations [os]. *)
Definition running (os : list O) (ts : list (proc S A)) (s : S) : Prop :=
  forall i p, ts !! i = Some p -> exists o, os !! i = Some o /\ (commits o s p \/ exists a, p = Done a).

Lemma commits_later o s s' p : later s s' -> commits o s p -> commits o s' p.
Proof. intros Hl. destruct p as [| |X m k]; [done..|]. simpl. intros H s1 H1. apply H. by etrans. Qed.

Lemma running_step os ts s i q s' :
  running os ts s -> later s s' ->
  (forall p, ts !! i = Some p -> exists o, os !! i = Some o /\ (commits o s' q \/ exists a, q = Done a)) ->
  running os (<[i := q]> ts) s'.
Proof.
  intros Hrun Hl Hq j p Hp. destruct (decide (j = i)) as [->|Hne].
  - apply list_lookup_insert_Some in Hp as [(_ & <- & Hi)|[? _]]; [|done].
    apply lookup_lt_is_Some in Hi as [p0 Hp0]. eauto.
  - rewrite list_lookup_insert_ne in Hp by done. destruct (Hrun j p Hp) as (o & Ho & [Hc|Hd]); exists o; (split; [done|]);
      [left; by eapply commits_later|by right].
Qed.

Lemma linearizes os sched ts s :
  running os ts s ->
  replay os s (commit_log sched ts s) (run_schedule sched ts s).2 /\
  running os (run_schedule sched ts s).1 (run_schedule sched ts s).2.
Proof.
  revert ts s. induction sched as [|i sched IH]; intros ts s Hrun; [by split; [constructor|]|]. simpl.
  destruct (ts !! i) as [p|] eqn:Hp; [|by apply IH]. destruct (Hrun i p Hp) as (o & Ho & [Hc|[a ->]]).
  2: { simpl. rewrite list_insert_id by done. by apply IH. }
  destruct p as [| |X m k]; [done..|]. simpl. specialize (Hc s (reflexivity s)).
  destruct (m s) as [[x|msg] s1]; [|done]. simpl. destruct Hc as [(a & -> & He)|[Hs Hk]].
  - destruct (IH (<[i := Done a]> ts) s1) as [Hre Hru]; [|split; [by eapply replay_effect|done]].
    apply (running_step os ts s); [done|by eapply effect_later|]. eauto.
  - destruct (k x) as [a|msg|Y m' k'] eqn:Hkx; [done..|].
    destruct (IH (<[i := Step m' k']> ts) s1) as [Hre Hru]; [|split; [by eapply replay_silent|done]].
    apply (running_step os ts s); [done|by apply silent_later|]. eauto.
Qed.

End Linear.

(** *** The log is the results *)

Section Log.
  Context {S A : Type}.

Lemma run_done sched (ts : list (proc S A)) s i a :
  ts !! i = Some (Done a) -> (run_schedule sched ts s).1 !! i = Some (Done a).
Proof.
  revert ts s. induction sched as [|j sched IH]; intros ts s Hi; [done|]. simpl.
  destruct (ts !! j) as [p|] eqn:Hj; [|by apply IH]. destruct (advance p s) as [p' s'] eqn:Ha. apply IH.
  destruct (decide (j = i)) as [->|]; [|by rewrite list_lookup_insert_ne].
  rewrite Hi in Hj. injection Hj as <-. injection Ha as <- <-. by rewrite list_insert_id.
Qed.

(** What has ended is not logged again. *)
Lemma log_done sched (ts : list (proc S A)) s i b : ts !! i = Some (Done b) -> i ∉ (commit_log sched ts s).*1.
Proof.
  revert ts s. induction sched as [|j sched IH]; intros ts s Hi; cbn [commit_log]; [apply not_elem_of_nil|].
  destruct (ts !! j) as [[c|msg|X m k]|] eqn:Hj; [by apply IH..| |by apply IH].
  assert (j <> i) as Hne by congruence. destruct (advance (Step m k) s) as [q s1]. cbn [fst snd].
  rewrite fmap_app, elem_of_app. intros [H|H]; [|by apply (IH _ s1) in H; [|rewrite list_lookup_insert_ne]].
  destruct q; [apply list_elem_of_singleton in H; by simplify_eq|by apply elem_of_nil in H..].
Qed.

Lemma log_nodup sched (ts : list (proc S A)) s : NoDup (commit_log sched ts s).*1.
Proof.
  revert ts s. induction sched as [|j sched IH]; intros ts s; cbn [commit_log]; [constructor|].
  destruct (ts !! j) as [[c|msg|X m k]|] eqn:Hj; [by apply IH..| |by apply IH].
  destruct (advance (Step m k) s) as [[a| |] s1]; [|apply IH..]. simpl. constructor; [|apply IH].
  apply (log_done _ _ _ _ a), list_lookup_insert_eq. by eapply lookup_lt_Some.
Qed.

Lemma log_results sched (ts : list (proc S A)) s i a :
  (forall b, ts !! i <> Some (Done b)) ->
  (i, a) ∈ commit_log sched ts s <-> (run_schedule sched ts s).1 !! i = Some (Done a).
Proof.
  revert ts s. induction sched as [|j sched IH]; intros ts s Hi; simpl.
  { rewrite elem_of_nil. split; [done|]. intros H. by destruct (Hi a). }
  destruct (ts !! j) as [p|] eqn:Hj; [|by apply IH].
  destruct p as [b|msg|X m k]; [simpl; rewrite list_insert_id by done; by apply IH..|].
  destruct (advance (Step m k) s) as [q s1] eqn:Ha. simpl in Ha. rewrite Ha. cbn [fst snd]. rewrite elem_of_app.
  pose proof (lookup_lt_Some _ _ _ Hj) as Hlt. destruct (decide (j = i)) as [->|Hne].
  - assert (<[i := q]> ts !! i = Some q) as Hq by (by apply list_lookup_insert_eq).
    destruct q as [b|msg|Y m' k'].
    + rewrite (run_done sched _ s1 i b Hq). split.
      * intros [H%list_elem_of_singleton|H]; [by simplify_eq|].
        destruct (log_done sched _ s1 i b Hq). by apply list_elem_of_fmap_2 with (f := fst) in H.
      * intros [= ->]. left. by apply list_elem_of_singleton.
    + rewrite elem_of_nil, (IH _ s1); [|congruence]. naive_solver.
    + rewrite elem_of_nil, (IH _ s1); [|congruence]. naive_solver.
  - rewrite (IH _ s1); [|intros b; rewrite list_lookup_insert_ne by done; apply Hi].
    split; [|by right]. intros [H|H]; [|done]. destruct q; [apply list_elem_of_singleton in H|by apply elem_of_nil in H..]. by simplify_eq.
Qed.

(** [within n p]: [p] takes no more than [n] steps.  Who is scheduled that often
    has ended. *)
Fixpoint within (n : nat) (p : proc S A) : Prop :=
  match p, n with
  | Step m k, 0%nat => False
  | Step m k, Datatypes.S n' => forall x, within n' (k x)
  | _, _ => True
  end.

Definition ended (p : proc S A) : Prop := match p with Step _ _ => False | _ => True end.

Lemma scheduled_ends sched n (ts : list (proc S A)) s i p :
  ts !! i = Some p -> within n p -> (n <= count_occ Nat.eq_dec sched i)%nat ->
  exists q, (run_schedule sched ts s).1 !! i = Some q /\ ended q.
Proof.
  revert n ts s p. induction sched as [|j sched IH]; intros n ts s p Hp Hw Hn.
  { simpl in *. assert (n = 0%nat) as -> by lia. exists p. by destruct p. }
  simpl in Hn |- *. destruct (ts !! j) as [q|] eqn:Hq.
  2: { apply (IH n ts s p); [done..|]. destruct (Nat.eq_dec j i) as [->|]; [congruence|done]. }
  destruct (advance q s) as [q' s'] eqn:Ha. pose proof (lookup_lt_Some _ _ _ Hq) as Hlt.
  destruct (Nat.eq_dec j i) as [->|Hne].
  - rewrite Hp in Hq. injection Hq as <-. apply (IH (n - 1)%nat _ s' q'); [by apply list_lookup_insert_eq| |lia].
    destruct p as [a|msg|X m k]; simpl in Ha; [injection Ha as <- <-; by destruct (n - 1)%nat..|].
    destruct n as [|n]; [done|]. simpl. rewrite Nat.sub_0_r. destruct (m s) as [[x|msg] s1]; injection Ha as <- <-; [apply Hw|by destruct n].
  - apply (IH n _ s' p); [by rewrite list_lookup_insert_ne|done..].
Qed.

End Log.
