(* ===== verification/GoStd.v ===== *)
(** * The parts of Go's standard library the server's own code computes with

    UTF-8 decoding ([for _, r := range s]), the [strings] functions, the
    Unicode predicates on the Latin-1 range, [time.Duration] constants, and
    what a string becomes when it goes through [encoding/json].  Times are
    nanoseconds since the Unix epoch, durations nanoseconds, both in [Z];
    Unicode beyond Latin-1 is data of the Go distribution and a parameter. *)

From S2P Require Import Prelude.
From Stdlib Require Import Wf_nat.

Local Open Scope Z_scope.

(** ** Bytes *)

Definition byteZ (a : ascii) : Z := Z.of_N (Ascii.N_of_ascii a).
Definition charZ (z : Z) : ascii := Ascii.ascii_of_N (Z.to_N z).

Fixpoint bytes_of (s : string) : list Z :=
  match s with
  | EmptyString => []
  | String a s' => byteZ a :: bytes_of s'
  end.

Fixpoint string_of (l : list Z) : string :=
  match l with
  | [] => EmptyString
  | z :: l' => String (charZ z) (string_of l')
  end.

Definition len (s : string) : Z := Z.of_nat (String.length s).

(** ** UTF-8: the runes of a string with the bytes each came from

    [range] over a string yields one rune per well-formed sequence and
    U+FFFD, width one, for a byte that starts none. *)

Definition runeError : Z := 0xFFFD.

Definition in_range (lo hi z : Z) : bool := (lo <=? z) && (z <=? hi).
Definition is_cont (b : Z) : bool := in_range 0x80 0xBF b.

Definition valid2 (a b : Z) : bool := in_range 0xC2 0xDF a && is_cont b.

Definition valid3 (a b c : Z) : bool :=
  in_range 0xE0 0xEF a && is_cont c &&
  (if a =? 0xE0 then in_range 0xA0 0xBF b
   else if a =? 0xED then in_range 0x80 0x9F b
   else is_cont b).

Definition valid4 (a b c d : Z) : bool :=
  in_range 0xF0 0xF4 a && is_cont c && is_cont d &&
  (if a =? 0xF0 then in_range 0x90 0xBF b
   else if a =? 0xF4 then in_range 0x80 0x8F b
   else is_cont b).

Definition rune2 (a b : Z) : Z := Z.lor (Z.shiftl (Z.land a 0x1F) 6) (Z.land b 0x3F).
Definition rune3 (a b c : Z) : Z :=
  Z.lor (Z.shiftl (Z.land a 0x0F) 12) (Z.lor (Z.shiftl (Z.land b 0x3F) 6) (Z.land c 0x3F)).
Definition rune4 (a b c d : Z) : Z :=
  Z.lor (Z.shiftl (Z.land a 0x07) 18)
    (Z.lor (Z.shiftl (Z.land b 0x3F) 12)
       (Z.lor (Z.shiftl (Z.land c 0x3F) 6) (Z.land d 0x3F))).

Fixpoint segments (s : string) : list (Z * string) :=
  match s with
  | EmptyString => []
  | String a s1 =>
    let bad := (runeError, String a EmptyString) in
    if byteZ a <? 0x80 then (byteZ a, String a EmptyString) :: segments s1 else
    match s1 with
    | EmptyString => [bad]
    | String b s2 =>
      if valid2 (byteZ a) (byteZ b)
      then (rune2 (byteZ a) (byteZ b), String a (String b EmptyString)) :: segments s2 else
      match s2 with
      | EmptyString => bad :: segments s1
      | String c s3 =>
        if valid3 (byteZ a) (byteZ b) (byteZ c)
        then (rune3 (byteZ a) (byteZ b) (byteZ c),
              String a (String b (String c EmptyString))) :: segments s3 else
        match s3 with
        | EmptyString => bad :: segments s1
        | String d s4 =>
          if valid4 (byteZ a) (byteZ b) (byteZ c) (byteZ d)
          then (rune4 (byteZ a) (byteZ b) (byteZ c) (byteZ d),
                String a (String b (String c (String d EmptyString)))) :: segments s4
          else bad :: segments s1
        end
      end
    end
  end.

Definition runes (s : string) : list Z := (segments s).*1.

Definition utf8_encode (r : Z) : string :=
  if r <? 0x80 then string_of [r]
  else if r <? 0x800 then
    string_of [Z.lor 0xC0 (Z.shiftr r 6); Z.lor 0x80 (Z.land r 0x3F)]
  else if r <? 0x10000 then
    string_of [Z.lor 0xE0 (Z.shiftr r 12); Z.lor 0x80 (Z.land (Z.shiftr r 6) 0x3F);
               Z.lor 0x80 (Z.land r 0x3F)]
  else
    string_of [Z.lor 0xF0 (Z.shiftr r 18); Z.lor 0x80 (Z.land (Z.shiftr r 12) 0x3F);
               Z.lor 0x80 (Z.land (Z.shiftr r 6) 0x3F); Z.lor 0x80 (Z.land r 0x3F)].

Definition concat_str (l : list string) : string := foldr String.append EmptyString l.

(** [encoding/json] replaces each byte of an ill-formed sequence by U+FFFD;
    every other string survives a Marshal/Unmarshal round trip. *)

Definition json_string (s : string) : string :=
  concat_str ((fun '(r, sub) =>
    if (r =? runeError) && (len sub =? 1) then utf8_encode runeError else sub) <$> segments s).

(** ** strings *)

Definition unicode_IsSpace (r : Z) : bool :=
  in_range 9 13 r || (r =? 32) || (r =? 0x85) || (r =? 0xA0) || (r =? 0x1680) ||
  in_range 0x2000 0x200A r || (r =? 0x2028) || (r =? 0x2029) || (r =? 0x202F) ||
  (r =? 0x205F) || (r =? 0x3000).

Fixpoint fields_go (l : list (Z * string)) (cur : string) : list string :=
  match l with
  | [] => if String.eqb cur "" then [] else [cur]
  | (r, sub) :: l' =>
    if unicode_IsSpace r
    then if String.eqb cur "" then fields_go l' "" else cur :: fields_go l' ""
    else fields_go l' (cur +:+ sub)
  end.

Definition strings_Fields (s : string) : list string := fields_go (segments s) "".

Fixpoint strings_Join (l : list string) (sep : string) : string :=
  match l with
  | [] => ""
  | [x] => x
  | x :: l' => x +:+ sep +:+ strings_Join l' sep
  end.

Fixpoint drop_spaces (l : list (Z * string)) : list (Z * string) :=
  match l with
  | (r, sub) :: l' => if unicode_IsSpace r then drop_spaces l' else l
  | [] => []
  end.

Definition strings_TrimSpace (s : string) : string :=
  concat_str (reverse (drop_spaces (reverse (drop_spaces (segments s))))).*2.

(** strings.Split(s, sep) for a separator of one character. *)
Fixpoint strings_Split (s : string) (sep : ascii) : list string :=
  match s with
  | EmptyString => [""]
  | String c s' =>
    if Ascii.eqb c sep then "" :: strings_Split s' sep
    else match strings_Split s' sep with
         | [] => [String c ""]
         | p :: ps => String c p :: ps
         end
  end.

Definition ascii_lower (z : Z) : Z := if in_range 65 90 z then z + 32 else z.

Definition is_ascii_string (s : string) : bool := forallb (fun z => z <? 0x80) (bytes_of s).

(** ** Unicode predicates

    Go answers for runes up to U+00FF from its Latin-1 property table, written
    out here; [unicode_tables] stands for the range tables above it. *)

Inductive rune_class := RUpper | RLower | RDigit | RPunct | RSymbol | ROther.

Definition latin1_class (r : Z) : rune_class :=
  if in_range 65 90 r || in_range 0xC0 0xD6 r || in_range 0xD8 0xDE r then RUpper
  else if in_range 97 122 r || (r =? 0xB5) || in_range 0xDF 0xF6 r || in_range 0xF8 0xFF r
       then RLower
  else if in_range 48 57 r then RDigit
  else if existsb (Z.eqb r)
            [33;34;35;37;38;39;40;41;42;44;45;46;47;58;59;63;64;91;92;93;95;123;125;
             0xA1;0xA7;0xAB;0xB6;0xB7;0xBB;0xBF] then RPunct
  else if existsb (Z.eqb r)
            [36;43;60;61;62;94;96;124;126;
             0xA2;0xA3;0xA4;0xA5;0xA6;0xA8;0xA9;0xAC;0xAE;0xAF;0xB0;0xB1;0xB4;0xB8;0xD7;0xF7]
       then RSymbol
  else ROther.

(** ** time *)

Definition Millisecond : Z := 1000000.
Definition Second : Z := 1000000000.
Definition Minute : Z := 60 * Second.
Definition Hour : Z := 60 * Minute.

(** [Time.Unix]: whole seconds, rounding towards the past. *)
Definition time_Unix (t : Z) : Z := t / Second.

(** ** Lemmas on strings *)

Lemma append_cons (a : ascii) (s t : string) : String a s +:+ t = String a (s +:+ t).
Proof. reflexivity. Qed.

Lemma append_nil_l (s : string) : "" +:+ s = s.
Proof. reflexivity. Qed.

Lemma append_nil_r (s : string) : s +:+ "" = s.
Proof. induction s as [|a s IH]; [done|]. by rewrite append_cons, IH. Qed.

Lemma append_assoc (s1 s2 s3 : string) : (s1 +:+ s2) +:+ s3 = s1 +:+ (s2 +:+ s3).
Proof. induction s1 as [|a s1 IH]; [done|]. by rewrite !append_cons, IH. Qed.

Lemma append_inj_l (p s1 s2 : string) : p +:+ s1 = p +:+ s2 -> s1 = s2.
Proof. induction p as [|a p IH]; [done|]. rewrite !append_cons. intros [= H]. auto. Qed.

Lemma length_append (s1 s2 : string) :
  String.length (s1 +:+ s2) = (String.length s1 + String.length s2)%nat.
Proof. induction s1 as [|a s1 IH]; [done|]. rewrite append_cons. simpl. auto. Qed.

Lemma append_inj_r (s1 s2 t : string) : s1 +:+ t = s2 +:+ t -> s1 = s2.
Proof.
  revert s2. induction s1 as [|a s1 IH]; intros [|b s2] H; [done| | |].
  - exfalso. apply (f_equal String.length) in H. rewrite ?length_append in H. cbn [String.length] in H. rewrite ?length_append in H. lia.
  - exfalso. apply (f_equal String.length) in H. rewrite ?length_append in H. cbn [String.length] in H. rewrite ?length_append in H. lia.
  - injection H as -> H. by rewrite (IH s2 H).
Qed.

Lemma concat_str_app l1 l2 : concat_str (l1 ++ l2) = concat_str l1 +:+ concat_str l2.
Proof.
  induction l1 as [|x l1 IH]; [done|]. simpl. by rewrite IH, append_assoc.
Qed.

(** One decoding step takes at least one byte off the front. *)
Lemma segments_step (a : ascii) (s : string) :
  exists r sub rest, segments (String a s) = (r, sub) :: segments rest /\
    String a s = sub +:+ rest /\ (String.length rest <= String.length s)%nat.
Proof.
  assert (segments (String a s) = (runeError, String a "") :: segments s ->
    exists r sub rest, segments (String a s) = (r, sub) :: segments rest /\
      String a s = sub +:+ rest /\ (String.length rest <= String.length s)%nat) as Hbad.
  { intros ->. eexists _, _, s. auto. }
  destruct (byteZ a <? 0x80) eqn:Ha.
  { exists (byteZ a), (String a ""), s. simpl. rewrite Ha. auto. }
  destruct s as [|b s2]; [apply Hbad; simpl; by rewrite Ha|].
  destruct (valid2 (byteZ a) (byteZ b)) eqn:H2.
  { eexists _, _, s2. simpl. rewrite Ha, H2. simpl. split_and!; [done..|lia]. }
  destruct s2 as [|c s3]; [apply Hbad; simpl; by rewrite Ha, H2|].
  destruct (valid3 (byteZ a) (byteZ b) (byteZ c)) eqn:H3.
  { eexists _, _, s3. simpl. rewrite Ha, H2, H3. simpl. split_and!; [done..|lia]. }
  destruct s3 as [|d s4]; [apply Hbad; simpl; by rewrite Ha, H2, H3|].
  destruct (valid4 (byteZ a) (byteZ b) (byteZ c) (byteZ d)) eqn:H4.
  - eexists _, _, s4. simpl. rewrite Ha, H2, H3, H4. simpl. split_and!; [done..|lia].
  - apply Hbad. simpl. by rewrite Ha, H2, H3, H4.
Qed.

(** Decoding keeps every byte: the sub-strings of the runes concatenate to the
    string. *)
Lemma segments_concat (s : string) : concat_str (segments s).*2 = s.
Proof.
  induction s as [s IH] using (induction_ltof1 _ String.length). unfold ltof in IH.
  destruct s as [|a s]; [done|].
  destruct (segments_step a s) as (r & sub & rest & -> & -> & Hlen).
  change ((r, sub) :: segments rest).*2 with (sub :: (segments rest).*2). simpl.
  rewrite IH; [done|simpl; lia].
Qed.

(** A word is a non-empty string of ASCII characters that are not space. *)

Definition word_char (a : ascii) : bool := (byteZ a <? 0x80) && negb (unicode_IsSpace (byteZ a)).

Fixpoint word_string (s : string) : bool :=
  match s with
  | EmptyString => true
  | String a s' => word_char a && word_string s'
  end.

Definition is_word (s : string) : bool := negb (String.eqb s "") && word_string s.

Lemma fields_go_word (w s cur : string) :
  word_string w = true ->
  fields_go (segments (w +:+ s)) cur = fields_go (segments s) (cur +:+ w).
Proof.
  revert cur. induction w as [|a w IH]; intros cur.
  - by rewrite append_nil_r.
  - rewrite append_cons. simpl. unfold word_char. rewrite !andb_true_iff, negb_true_iff. intros [[Hlt Hsp] Hw].
    rewrite Hlt. simpl. rewrite Hsp, IH by done. by rewrite append_assoc.
Qed.

Lemma fields_go_space (s cur : string) :
  fields_go (segments (" " +:+ s)) cur =
  if String.eqb cur "" then fields_go (segments s) "" else cur :: fields_go (segments s) "".
Proof. reflexivity. Qed.

(** [strings.Fields] undoes [strings.Join(_, " ")] on words. *)
Lemma Fields_Join (ws : list string) :
  Forall (fun w => is_word w = true) ws -> strings_Fields (strings_Join ws " ") = ws.
Proof.
  unfold strings_Fields. induction 1 as [|w ws Hw Hws IH]; [done|].
  unfold is_word in Hw. apply andb_true_iff in Hw as [Hne Hw].
  destruct ws as [|w' ws].
  - change (strings_Join [w] " ") with w.
    rewrite <- (append_nil_r w) at 1. rewrite fields_go_word by done.
    rewrite append_nil_l. simpl. rewrite negb_true_iff in Hne. by rewrite Hne.
  - change (strings_Join (w :: w' :: ws) " ") with (w +:+ " " +:+ strings_Join (w' :: ws) " ").
    rewrite fields_go_word by done. rewrite fields_go_space.
    rewrite append_nil_l. rewrite negb_true_iff in Hne. rewrite Hne. by rewrite IH.
Qed.

(** Strings of ASCII characters go through JSON unchanged. *)
Lemma json_string_ascii (s : string) : is_ascii_string s = true -> json_string s = s.
Proof.
  unfold is_ascii_string, json_string. induction s as [|a s IH]; [done|].
  cbn [bytes_of forallb]. rewrite andb_true_iff. intros [Ha Hs].
  cbn [segments]. rewrite Ha. cbn [fmap list_fmap concat_str foldr].
  assert ((byteZ a =? runeError) = false) as Hr.
  { apply Z.eqb_neq. apply Z.ltb_lt in Ha. unfold runeError. lia. }
  rewrite Hr. simpl. rewrite append_cons, append_nil_l. f_equal. by apply IH.
Qed.

Lemma word_string_app (s1 s2 : string) :
  word_string (s1 +:+ s2) = word_string s1 && word_string s2.
Proof.
  induction s1 as [|a s1 IH]; [done|]. rewrite append_cons. simpl. by rewrite IH, andb_assoc.
Qed.

Lemma eqb_refl_str (s : string) : String.eqb s s = true.
Proof. apply String.eqb_refl. Qed.
