(* ===== verification/Crypto.v ===== *)
(** * crypto/sha256, encoding/hex and encoding/base64

    The digests and encodings the server applies to its secrets: [Hash] (hex of
    SHA-256) names refresh and reset tokens in storage, RawURL base64 encodes
    random tokens and PKCE challenges.  All of it runs, so witnesses evaluate
    on real digests; nothing is assumed about collisions. *)

From S2P Require Import Prelude GoStd.

Local Open Scope Z_scope.

(** ** SHA-256 (FIPS 180-4) *)

Definition mask32 (z : Z) : Z := Z.land z 0xFFFFFFFF.
Definition add32 (a b : Z) : Z := mask32 (a + b).
Definition rotr (n x : Z) : Z := mask32 (Z.lor (Z.shiftr x n) (Z.shiftl x (32 - n))).
Definition not32 (x : Z) : Z := Z.lxor x 0xFFFFFFFF.

Definition sha_Ch (x y z : Z) : Z := Z.lxor (Z.land x y) (Z.land (not32 x) z).
Definition sha_Maj (x y z : Z) : Z := Z.lxor (Z.land x y) (Z.lxor (Z.land x z) (Z.land y z)).
Definition sha_S0 (x : Z) : Z := Z.lxor (rotr 2 x) (Z.lxor (rotr 13 x) (rotr 22 x)).
Definition sha_S1 (x : Z) : Z := Z.lxor (rotr 6 x) (Z.lxor (rotr 11 x) (rotr 25 x)).
Definition sha_s0 (x : Z) : Z := Z.lxor (rotr 7 x) (Z.lxor (rotr 18 x) (Z.shiftr x 3)).
Definition sha_s1 (x : Z) : Z := Z.lxor (rotr 17 x) (Z.lxor (rotr 19 x) (Z.shiftr x 10)).

(** The round constants and the initial hash value are, by definition, the first
    32 bits of the fractional parts of the cube roots of the first 64 primes and
    of the square roots of the first eight. *)
Definition is_prime (n : nat) : bool :=
  forallb (fun d => negb (Nat.eqb (Nat.modulo n d) 0)) (List.seq 2 (n - 2)).

Definition primes (count : nat) : list Z :=
  Z.of_nat <$> take count (List.filter is_prime (List.seq 2 310)).

(** The largest [r] below [2 ^ bits] with [r ^ k <= n], bit by bit. *)
Fixpoint root_floor (bits : nat) (k n r : Z) : Z :=
  match bits with
  | O => r
  | S b => let r' := r + 2 ^ Z.of_nat b in root_floor b k n (if r' ^ k <=? n then r' else r)
  end.

Definition root_fraction (k p : Z) : Z := mask32 (root_floor 40 k (p * 2 ^ (32 * k)) 0).

Definition sha_K : list Z := Eval vm_compute in root_fraction 3 <$> primes 64.

Record sha_state := mk_sha {
  sa : Z; sb : Z; sc : Z; sd : Z; se : Z; sf : Z; sg : Z; sh : Z
}.

Definition sha_state_of (l : list Z) : sha_state :=
  mk_sha (nth 0 l 0) (nth 1 l 0) (nth 2 l 0) (nth 3 l 0) (nth 4 l 0) (nth 5 l 0) (nth 6 l 0) (nth 7 l 0).

Definition sha_H0 : sha_state := Eval vm_compute in sha_state_of (root_fraction 2 <$> primes 8).

Definition sha_round (s : sha_state) (kw : Z * Z) : sha_state :=
  let t1 := add32 (sh s) (add32 (sha_S1 (se s))
              (add32 (sha_Ch (se s) (sf s) (sg s)) (add32 kw.1 kw.2))) in
  let t2 := add32 (sha_S0 (sa s)) (sha_Maj (sa s) (sb s) (sc s)) in
  mk_sha (add32 t1 t2) (sa s) (sb s) (sc s) (add32 (sd s) t1) (se s) (sf s) (sg s).

(** The message schedule, most recent word first. *)
Fixpoint sha_extend (n : nat) (rw : list Z) : list Z :=
  match n with
  | O => rw
  | S n' =>
    let w := add32 (sha_s1 (nth 1 rw 0)) (add32 (nth 6 rw 0)
               (add32 (sha_s0 (nth 14 rw 0)) (nth 15 rw 0))) in
    sha_extend n' (w :: rw)
  end.

Fixpoint words_of (l : list Z) : list Z :=
  match l with
  | a :: b :: c :: d :: l' =>
    (Z.shiftl a 24 + Z.shiftl b 16 + Z.shiftl c 8 + d) :: words_of l'
  | _ => []
  end.

Definition sha_block (h : sha_state) (block : list Z) : sha_state :=
  let ws := rev (sha_extend 48 (rev (words_of block))) in
  let s := fold_left sha_round (combine sha_K ws) h in
  mk_sha (add32 (sa h) (sa s)) (add32 (sb h) (sb s)) (add32 (sc h) (sc s)) (add32 (sd h) (sd s))
         (add32 (se h) (se s)) (add32 (sf h) (sf s)) (add32 (sg h) (sg s)) (add32 (sh h) (sh s)).

Definition be_bytes (n : nat) (z : Z) : list Z :=
  (fun i => Z.land (Z.shiftr z (8 * Z.of_nat i)) 0xFF) <$> rev (List.seq 0 n).

Definition sha_pad (l : list Z) : list Z :=
  let n := Z.of_nat (length l) in
  l ++ [0x80] ++ replicate (Z.to_nat ((55 - n) mod 64)) 0 ++ be_bytes 8 (8 * n).

Fixpoint sha_blocks (fuel : nat) (h : sha_state) (l : list Z) : sha_state :=
  match fuel, l with
  | _, [] | O, _ => h
  | S fuel', _ => sha_blocks fuel' (sha_block h (take 64 l)) (drop 64 l)
  end.

Definition sha256_Sum256 (l : list Z) : list Z :=
  let p := sha_pad l in
  let h := sha_blocks (length p) sha_H0 p in
  be_bytes 4 (sa h) ++ be_bytes 4 (sb h) ++ be_bytes 4 (sc h) ++ be_bytes 4 (sd h) ++
  be_bytes 4 (se h) ++ be_bytes 4 (sf h) ++ be_bytes 4 (sg h) ++ be_bytes 4 (sh h).

(** ** hex *)

Definition hex_digit (z : Z) : Z := if z <? 10 then 48 + z else 87 + z.

Definition hex_EncodeToString (l : list Z) : string :=
  string_of (List.flat_map (fun b => [hex_digit (Z.shiftr b 4); hex_digit (Z.land b 15)]) l).

(** ** base64.RawURLEncoding *)

Definition b64url_char (z : Z) : Z :=
  if z <? 26 then 65 + z
  else if z <? 52 then 71 + z
  else if z <? 62 then z - 4
  else if z =? 62 then 45 else 95.

Fixpoint b64url_go (l : list Z) : list Z :=
  match l with
  | a :: b :: c :: l' =>
    b64url_char (Z.shiftr a 2) ::
    b64url_char (Z.lor (Z.shiftl (Z.land a 3) 4) (Z.shiftr b 4)) ::
    b64url_char (Z.lor (Z.shiftl (Z.land b 15) 2) (Z.shiftr c 6)) ::
    b64url_char (Z.land c 63) :: b64url_go l'
  | [a; b] =>
    [b64url_char (Z.shiftr a 2);
     b64url_char (Z.lor (Z.shiftl (Z.land a 3) 4) (Z.shiftr b 4));
     b64url_char (Z.shiftl (Z.land b 15) 2)]
  | [a] =>
    [b64url_char (Z.shiftr a 2); b64url_char (Z.shiftl (Z.land a 3) 4)]
  | [] => []
  end.

Definition base64_RawURL_EncodeToString (l : list Z) : string := string_of (b64url_go l).

(** [entity.Hash] *)
Definition Hash (raw : string) : string := hex_EncodeToString (sha256_Sum256 (bytes_of raw)).

#[global] Arguments Hash : simpl never.
#[global] Arguments sha256_Sum256 : simpl never.
#[global] Arguments base64_RawURL_EncodeToString : simpl never.
#[global] Strategy 1000 [Hash sha256_Sum256].

(** ** Lemmas *)

Lemma length_string_of l : String.length (string_of l) = length l.
Proof. induction l as [|z l IH]; simpl; auto. Qed.

Lemma length_be_bytes n z : length (be_bytes n z) = n.
Proof. unfold be_bytes. rewrite length_fmap, List.length_rev. apply List.length_seq. Qed.

Lemma length_sha256 l : length (sha256_Sum256 l) = 32%nat.
Proof. unfold sha256_Sum256. by rewrite !length_app, !length_be_bytes. Qed.

Lemma length_hex l : String.length (hex_EncodeToString l) = (2 * length l)%nat.
Proof.
  unfold hex_EncodeToString. rewrite length_string_of.
  induction l as [|b l IH]; [done|]. simpl in *. rewrite IH. lia.
Qed.

Lemma length_Hash raw : String.length (Hash raw) = 64%nat.
Proof. unfold Hash. by rewrite length_hex, length_sha256. Qed.

(** Whatever 32 bytes it encodes, RawURL base64 gives 43 characters. *)
Lemma length_b64url_32 l :
  length l = 32%nat -> String.length (base64_RawURL_EncodeToString l) = 43%nat.
Proof.
  unfold base64_RawURL_EncodeToString. rewrite length_string_of. intros H.
  do 32 (destruct l as [|? l]; [done|]). destruct l; done.
Qed.

(** FIPS 180-4 and RFC 7636 appendix B vectors. *)
Example sha256_abc :
  Hash "abc" = "ba7816bf8f01cfea414140de5dae2223b00361a396177a9cb410ff61f20015ad".
Proof. vm_compute. reflexivity. Qed.

Example rfc7636_appendix_b :
  base64_RawURL_EncodeToString (sha256_Sum256 (bytes_of "dBjftJeZ4CVP-mB92K27uhbUJU1p1r_wW1gFWFOEjXk"))
  = "E9Melhoa2OwvFrEMTJguCHaoeK1t8URWbuGJSstw-cM".
Proof. vm_compute. reflexivity. Qed.
