(* ===== verification/Errors.v ===== *)
(** * Errors: core/error, core/web/oauth2.go and modules/auth/errors

    Go errors as values, [errors.Is]/[errors.As] through [Unwrap], the domain
    error codes with their constructors, and the single table that maps a code
    to an HTTP status and an RFC 6749 error code. *)

From S2P Require Import Prelude GoStd.

Local Open Scope Z_scope.

(** ** Error values *)

Inductive goerr : Type :=
| ErrNotFound                                        (** coreerror.ErrNotFound *)
| ErrConflict                                        (** coreerror.ErrConflict *)
| ErrMsg (msg : string)                              (** errors.New, fmt.Errorf without %w *)
| ErrVar (name msg : string)                         (** a package's error variable, such as io.EOF *)
| ErrWrapped (msg : string) (cause : goerr)          (** fmt.Errorf with %w, repository.Err* *)
| ErrSuffixed (cause : goerr) (msg : string)         (** fmt.Errorf with %w in front *)
| ErrorStruct (code httpStatus : Z) (err : goerr)    (** *coreerror.ErrorStruct *)
| OAuth2Err (status : Z) (code desc : string)        (** *web.oauth2Error *)
| HTTPError (code httpStatus : Z) (err : goerr).     (** autherrors.HTTPError *)

#[export] Instance goerr_eq_dec : EqDecision goerr.
Proof. solve_decision. Defined.

Definition Unwrap (e : goerr) : option goerr :=
  match e with
  | ErrWrapped _ c | ErrSuffixed c _ | ErrorStruct _ _ c | HTTPError _ _ c => Some c
  | _ => None
  end.

Fixpoint err_Error (e : goerr) : string :=
  match e with
  | ErrNotFound => "not found"
  | ErrConflict => "conflict"
  | ErrMsg m => m
  | ErrVar _ m => m
  | ErrWrapped m c => m +:+ err_Error c
  | ErrSuffixed c m => err_Error c +:+ m
  | ErrorStruct _ _ c => err_Error c
  | OAuth2Err _ _ d => d
  | HTTPError _ _ c => err_Error c
  end.

(** [errors.Is] against an error variable: identity, or the same of an error
    further down the chain. *)
Fixpoint errors_Is (e target : goerr) : bool :=
  bool_decide (e = target) ||
  match e with
  | ErrWrapped _ c | ErrSuffixed c _ | ErrorStruct _ _ c | HTTPError _ _ c => errors_Is c target
  | _ => false
  end.

Definition io_EOF : goerr := ErrVar "io.EOF" "EOF".

(** ** core/error *)

Definition Unauthorized : Z := 40001.
Definition Forbidden : Z := 40002.
Definition BadRequest : Z := 40003.
Definition NotFoundCode : Z := 40004.
Definition Internal : Z := 50001.

Definition NewErrorStruct (code httpStatus : Z) (err : goerr) : goerr :=
  ErrorStruct code httpStatus err.
Definition NewMsg (code : Z) (msg : string) : goerr := ErrorStruct code 0 (ErrMsg msg).
Definition NewErr (code : Z) (err : goerr) : goerr := ErrorStruct code 0 err.

(** The [Code] and [HTTPStatus] methods, for the types that have them. *)
Definition err_Code (e : goerr) : option Z :=
  match e with
  | ErrorStruct c _ _ | HTTPError c _ _ => Some c
  | OAuth2Err st _ _ => Some (if st =? 401 then Unauthorized else BadRequest)
  | _ => None
  end.

Definition err_HTTPStatus (e : goerr) : option Z :=
  match e with
  | ErrorStruct _ st _ | HTTPError _ st _ | OAuth2Err st _ _ => Some st
  | _ => None
  end.

(** [errors.As(err, &e)] for the interface [coreerror.Error]: the code of the
    first error in the chain that has one. *)
Fixpoint errors_As_Code (e : goerr) : option Z :=
  match err_Code e with
  | Some c => Some c
  | None => match e with ErrWrapped _ c | ErrSuffixed c _ => errors_As_Code c | _ => None end
  end.

(** The type assertion [err.(\*coreerror.ErrorStruct)]. *)
Definition is_ErrorStruct (e : goerr) : bool :=
  match e with ErrorStruct _ _ _ => true | _ => false end.

(** ** core/web: RFC 6749 codes *)

Definition OAuth2InvalidRequest : string := "invalid_request".
Definition OAuth2InvalidClient : string := "invalid_client".
Definition OAuth2InvalidGrant : string := "invalid_grant".
Definition OAuth2UnauthorizedClient : string := "unauthorized_client".
Definition OAuth2UnsupportedGrantType : string := "unsupported_grant_type".
Definition OAuth2UnsupportedResponseType : string := "unsupported_response_type".
Definition OAuth2InvalidScope : string := "invalid_scope".
Definition OAuth2ServerError : string := "server_error".

Definition NewOAuth2Error (status : Z) (code desc : string) : goerr := OAuth2Err status code desc.

(** ** modules/auth/errors: codes *)

Definition InvalidArguments : Z := 10001.
Definition InvalidToken : Z := 10002.
Definition InvalidRefreshToken : Z := 10003.
Definition GenRandFailed : Z := 10004.
Definition InvalidEmailOrPassword : Z := 10005.
Definition GenTokenFailed : Z := 10006.
Definition GenRefreshTokenFailed : Z := 10007.
Definition UpdateProfileFailed : Z := 10008.
Definition EmailDuplicated : Z := 10009.
Definition CreateUserFailed : Z := 10010.
Definition AuthCodeNotFound : Z := 10012.
Definition UnsupportedResponseType : Z := 10013.
Definition UnsupportedGrantType : Z := 10014.
Definition PasswordResetTokenExpired : Z := 10015.
Definition PasswordResetTokenNotFound : Z := 10016.
Definition WeakPassword : Z := 10017.
Definition MaxLoginAttemptsExceeded : Z := 10018.
Definition AuthCodeCreateFailed : Z := 10019.
Definition UnsupportedScope : Z := 10020.
Definition InvalidAuthRequest : Z := 10021.
Definition ResetPasswordFailed : Z := 10022.
Definition InvalidClient : Z := 10023.
Definition InvalidGrant : Z := 10024.

(** The const block of error_codes.go. *)
Definition error_codes : list Z :=
  [InvalidArguments; InvalidToken; InvalidRefreshToken; GenRandFailed; InvalidEmailOrPassword;
   GenTokenFailed; GenRefreshTokenFailed; UpdateProfileFailed; EmailDuplicated; CreateUserFailed;
   AuthCodeNotFound; UnsupportedResponseType; UnsupportedGrantType; PasswordResetTokenExpired;
   PasswordResetTokenNotFound; WeakPassword; MaxLoginAttemptsExceeded; AuthCodeCreateFailed;
   UnsupportedScope; InvalidAuthRequest; ResetPasswordFailed; InvalidClient; InvalidGrant].

(** ** Constructors of domain errors *)

Definition NewErrInvalidEmailOrPassword : goerr :=
  NewMsg InvalidEmailOrPassword "invalid email or password".
Definition NewErrInvalidUserArguments (err : goerr) : goerr := NewErr InvalidArguments err.
Definition NewErrInvalidToken : goerr := NewMsg InvalidToken "invalid token".
Definition NewErrInvalidRefreshToken : goerr := NewMsg InvalidRefreshToken "invalid refresh token".
Definition NewErrCreateUser (_ : goerr) : goerr := NewMsg CreateUserFailed "create user failed".
Definition NewErrEmailDuplicated : goerr := NewMsg EmailDuplicated "email already exists".
Definition NewErrUpdateProfile (_ : goerr) : goerr :=
  NewMsg UpdateProfileFailed "update profile failed".
Definition NewErrUpdateProfileFindFailed (err : goerr) : goerr := NewErr UpdateProfileFailed err.
Definition NewErrAuthCodeNotFound : goerr := NewMsg AuthCodeNotFound "auth code not found".
Definition NewErrUnsupportedResponseType : goerr :=
  NewMsg UnsupportedResponseType "unsupported_response_type".
Definition NewErrPasswordResetTokenExpired : goerr :=
  NewMsg PasswordResetTokenExpired "password reset token has expired".
Definition NewErrPasswordResetTokenNotFound : goerr :=
  NewMsg PasswordResetTokenNotFound "password reset token not found".
Definition NewErrInvalidRedirectURI : goerr :=
  NewMsg InvalidArguments "client redirect_uri not valid".
Definition NewErrInvalidSession : goerr := NewMsg InvalidArguments "invalid session".
Definition NewErrMaxLoginAttemptsExceeded : goerr :=
  NewMsg MaxLoginAttemptsExceeded "maximum login attempts exceeded".
Definition NewErrAuthCodeCreateFailed (_ : goerr) : goerr :=
  NewMsg AuthCodeCreateFailed "failed to create authorization code".
Definition NewErrUnsupportedScope (err : goerr) : goerr := NewErr UnsupportedScope err.
Definition NewErrInvalidAuthRequest : goerr :=
  NewMsg InvalidAuthRequest "invalid authorization request".
Definition NewErrInvalidGrant : goerr := NewMsg InvalidGrant "invalid grant".
Definition NewErrInvalidClient : goerr := NewMsg InvalidClient "invalid_client".
Definition NewErrGenRefreshTokenFailed (err : goerr) : goerr := NewErr GenRefreshTokenFailed err.
Definition NewErrWeakPassword (err : goerr) : goerr := NewErr WeakPassword err.
Definition NewErrResetPasswordFailed (_ : goerr) : goerr :=
  NewMsg ResetPasswordFailed "reset password failed".

(** ** The code registry *)

Record codeInfo := mk_codeInfo { ci_httpStatus : Z; ci_oauth2 : string }.

Definition codeRegistry : gmap Z codeInfo := list_to_map
  [(InvalidArguments, mk_codeInfo 400 OAuth2InvalidRequest);
   (InvalidAuthRequest, mk_codeInfo 400 OAuth2InvalidRequest);
   (WeakPassword, mk_codeInfo 400 OAuth2InvalidRequest);
   (UnsupportedResponseType, mk_codeInfo 400 OAuth2UnsupportedResponseType);
   (UnsupportedGrantType, mk_codeInfo 400 OAuth2UnsupportedGrantType);
   (UnsupportedScope, mk_codeInfo 400 OAuth2InvalidScope);
   (MaxLoginAttemptsExceeded, mk_codeInfo 400 OAuth2InvalidGrant);
   (AuthCodeNotFound, mk_codeInfo 400 OAuth2InvalidGrant);
   (InvalidGrant, mk_codeInfo 400 OAuth2InvalidGrant);
   (InvalidToken, mk_codeInfo 401 OAuth2InvalidGrant);
   (InvalidRefreshToken, mk_codeInfo 401 OAuth2InvalidGrant);
   (InvalidEmailOrPassword, mk_codeInfo 401 OAuth2InvalidGrant);
   (InvalidClient, mk_codeInfo 401 OAuth2InvalidClient);
   (PasswordResetTokenExpired, mk_codeInfo 401 OAuth2InvalidGrant);
   (PasswordResetTokenNotFound, mk_codeInfo 404 OAuth2InvalidRequest);
   (EmailDuplicated, mk_codeInfo 409 OAuth2InvalidRequest)].

Definition serverErrorCodes : gset Z := list_to_set
  [GenRandFailed; GenTokenFailed; GenRefreshTokenFailed; AuthCodeCreateFailed; CreateUserFailed;
   UpdateProfileFailed; ResetPasswordFailed].

Definition HTTPStatusFor (code : Z) : Z :=
  match codeRegistry !! code with
  | Some info => ci_httpStatus info
  | None => 500
  end.

Definition OAuth2CodeFor (code : Z) : string :=
  match codeRegistry !! code with
  | Some info =>
    if String.eqb (ci_oauth2 info) ""
    then if bool_decide (code ∈ serverErrorCodes) then OAuth2ServerError else OAuth2InvalidRequest
    else ci_oauth2 info
  | None =>
    if bool_decide (code ∈ serverErrorCodes) then OAuth2ServerError else OAuth2InvalidRequest
  end.

(** [HTTPError.OAuth2Code] and [oauth2Error.OAuth2Code]; [None] for errors that
    do not implement web.OAuth2Error. *)
Definition err_OAuth2Code (e : goerr) : option string :=
  match e with
  | HTTPError c _ _ => Some (OAuth2CodeFor c)
  | OAuth2Err _ c _ => Some c
  | _ => None
  end.

(** [Module.MapHTTPError] *)
Definition MapHTTPError (err : option goerr) : option goerr :=
  match err with
  | None => None
  | Some e =>
    match errors_As_Code e with
    | None => Some e
    | Some code =>
      match err_HTTPStatus e with
      | Some st => if st =? 0 then Some (HTTPError code (HTTPStatusFor code) e)
                   else Some (HTTPError code st e)
      | None => Some (HTTPError code (HTTPStatusFor code) e)
      end
    end
  end.

(** ** Properties *)

Lemma code_tables_disjoint_aux :
  forallb (fun c => xorb (bool_decide (is_Some (codeRegistry !! c)))
                         (bool_decide (c ∈ serverErrorCodes))) error_codes = true.
Proof. vm_compute. reflexivity. Qed.

(** Every declared code is in exactly one of the two tables, and for the
    declared codes a 500 status and [server_error] go together. *)
Theorem code_registry_total (code : Z) :
  code ∈ error_codes ->
  (is_Some (codeRegistry !! code) <-> code ∉ serverErrorCodes) /\
  (HTTPStatusFor code = 500 <-> OAuth2CodeFor code = OAuth2ServerError).
Proof.
  intros Hin. split.
  - pose proof (proj1 (forallb_forall _ _) code_tables_disjoint_aux code) as H.
    rewrite <- list_elem_of_In in H. specialize (H Hin).
    case_bool_decide; case_bool_decide; simpl in H; naive_solver.
  - revert code Hin. apply Forall_forall. unfold error_codes.
    repeat (constructor; [vm_compute; split; congruence|]). constructor.
Qed.

Lemma errors_Is_refl e : errors_Is e e = true.
Proof. destruct e; simpl; rewrite ?bool_decide_eq_true_2 by done; done. Qed.
