(* ===== verification/Env.v ===== *)
(** * The world outside the program

    Everything a handler obtains from outside its own code: the clock, random
    bytes, UUIDs, bcrypt, net/url, the Unicode tables above Latin-1 and the
    outcome of disk writes.  [Env] fixes what the n-th request for each of them
    answers; [Sys] counts the requests made so far, so two calls of [time.Now]
    in one handler are two readings.  Hypotheses about these answers (a clock
    that does not run backwards, UUIDs that do not repeat) are separate classes
    and appear in the statements that need them. *)

From S2P Require Import Prelude GoStd Crypto Errors.

Local Open Scope Z_scope.

Class Env := {
  clock : nat -> Z;                                 (** n-th time.Now(), ns since the epoch *)
  rand_Read : nat -> (nat -> Z) + goerr;            (** n-th crypto/rand.Read: byte i, or error *)
  uuid_NewString : nat -> string;                   (** n-th google/uuid NewString() *)
  bcrypt_Generate : nat -> string -> Z -> string + goerr;  (** salt number, password, cost *)
  bcrypt_Compare : string -> string -> bool;        (** CompareHashAndPassword(h, pw) == nil *)
  bcrypt_Cost : string -> option Z;
  unicode_tables : Z -> rune_class;                 (** classes of runes above U+00FF *)
  unicode_ToLower : Z -> Z;                         (** lower case of runes above U+007F *)
  url_type : Type;
  url_Parse : string -> url_type + goerr;
  url_String : url_type -> string;
  url_SetQuery : list (string * string) -> url_type -> url_type;
      (** q := u.Query(); q.Set(k, v) for each pair in order; u.RawQuery = q.Encode() *)
  disk_write : nat -> option string;                (** OS error of the n-th writeToFile *)
  map_rank : string -> nat -> string -> Z;
      (** Go leaves the order of [range] over a map open: the n-th iteration over
          the items of the named store visits keys by increasing rank *)
}.

Record Sys := mk_Sys { n_clock : nat; n_rand : nat; n_uuid : nat; n_salt : nat; n_disk : nat }.

Definition sys0 : Sys := mk_Sys 0 0 0 0 0.

(** ** Hypotheses about the environment *)

Class ClockMono (E : Env) := clock_mono : forall i j, (i <= j)%nat -> clock i <= clock j.

Class UuidFresh (E : Env) := {
  uuid_inj : forall i j, uuid_NewString i = uuid_NewString j -> i = j;
  uuid_nonempty : forall i, uuid_NewString i <> "";
}.

(** No disk write fails. *)
Class DiskOk (E : Env) := disk_ok : forall n, disk_write n = None.

(** Documented by golang.org/x/crypto/bcrypt: a generated hash verifies its
    password and, for a cost in the supported range, reports that cost;
    passwords beyond 72 bytes are refused. *)
Class BcryptSpec (E : Env) := {
  bcrypt_accepts : forall n pw c h, bcrypt_Generate n pw c = inl h -> bcrypt_Compare h pw = true;
  bcrypt_cost_of : forall n pw c h, 4 <= c <= 31 -> bcrypt_Generate n pw c = inl h -> bcrypt_Cost h = Some c;
  bcrypt_too_long : forall n pw c, 72 < len pw -> exists e, bcrypt_Generate n pw c = inr e;
  bcrypt_total : forall n pw c, 4 <= c <= 31 -> len pw <= 72 -> exists h, bcrypt_Generate n pw c = inl h;
}.

Section Env.
  Context {E : Env}.

(** ** Primitive effects *)

Definition time_Now : ST Sys Z := fun s =>
  (Ret (clock (n_clock s)),
   mk_Sys (S (n_clock s)) (n_rand s) (n_uuid s) (n_salt s) (n_disk s)).

Definition uuid_New : ST Sys string := fun s =>
  (Ret (uuid_NewString (n_uuid s)),
   mk_Sys (n_clock s) (n_rand s) (S (n_uuid s)) (n_salt s) (n_disk s)).

Definition bcrypt_GenerateFromPassword (pw : string) (cost : Z) : ST Sys (string + goerr) :=
  fun s => (Ret (bcrypt_Generate (n_salt s) pw cost),
            mk_Sys (n_clock s) (n_rand s) (n_uuid s) (S (n_salt s)) (n_disk s)).

Definition next_disk_write : ST Sys (option string) := fun s =>
  (Ret (disk_write (n_disk s)),
   mk_Sys (n_clock s) (n_rand s) (n_uuid s) (n_salt s) (S (n_disk s))).

(** ** core/random *)

Definition TokenBytes : nat := 32.

Definition random_Token : ST Sys (string * option goerr) := fun s =>
  let s' := mk_Sys (n_clock s) (S (n_rand s)) (n_uuid s) (n_salt s) (n_disk s) in
  match rand_Read (n_rand s) with
  | inr err => (Ret ("", Some err), s')
  | inl b => (Ret (base64_RawURL_EncodeToString ((fun i => b i mod 256) <$> List.seq 0 TokenBytes),
                   None), s')
  end.

(** ** Rune classes and case mapping *)

Definition rune_classOf (r : Z) : rune_class :=
  if r <=? 0xFF then latin1_class r else unicode_tables r.

Definition strings_ToLower (s : string) : string :=
  if is_ascii_string s then string_of (ascii_lower <$> bytes_of s)
  else concat_str ((fun r => utf8_encode (if r <? 0x80 then ascii_lower r else unicode_ToLower r))
                     <$> runes s).

(** ** The clock only moves forward

    [sys_le s s']: [s'] is reachable from [s] by making requests. *)

Definition sys_le (s s' : Sys) : Prop :=
  (n_clock s <= n_clock s' /\ n_rand s <= n_rand s' /\ n_uuid s <= n_uuid s' /\
   n_salt s <= n_salt s' /\ n_disk s <= n_disk s')%nat.

#[global] Instance sys_le_preorder : PreOrder sys_le.
Proof. split; [intros s|intros s1 s2 s3]; unfold sys_le; lia. Qed.

(** One reading of the clock. *)
Definition tick (s : Sys) : Sys :=
  mk_Sys (S (n_clock s)) (n_rand s) (n_uuid s) (n_salt s) (n_disk s).

Lemma sys_le_tick s : sys_le s (tick s).
Proof. unfold sys_le. simpl. lia. Qed.

(** The next clock reading. *)
Definition now (s : Sys) : Z := clock (n_clock s).

Lemma now_mono `{!ClockMono E} s s' : sys_le s s' -> now s <= now s'.
Proof. intros H. apply clock_mono. unfold sys_le in H. lia. Qed.

Lemma length_random_Token s tok s' :
  random_Token s = (Ret (tok, None), s') -> String.length tok = 43%nat.
Proof.
  unfold random_Token. destruct (rand_Read (n_rand s)); [|done].
  intros [= <- _]. by apply length_b64url_32.
Qed.

End Env.

(** A computation on part of the state of which [clk] reads the counters moves
    them forward only. *)
Notation forward clk := (respects (fun s s' => sys_le (clk s) (clk s'))).

#[global] Instance forward_preorder {S} (clk : S -> Sys) : PreOrder (fun s s' => sys_le (clk s) (clk s')).
Proof. split; [intros s; reflexivity|intros s1 s2 s3 H1 H2; etrans; [exact H1|exact H2]]. Qed.

Section Forward.
  Context {E : Env}.

Lemma time_Now_forward : forward (fun s => s) time_Now.
Proof. intros s. unfold sys_le. simpl. lia. Qed.
Lemma uuid_New_forward : forward (fun s => s) uuid_New.
Proof. intros s. unfold sys_le. simpl. lia. Qed.
Lemma bcrypt_forward pw cost : forward (fun s => s) (bcrypt_GenerateFromPassword pw cost).
Proof. intros s. unfold sys_le. simpl. lia. Qed.
Lemma disk_forward : forward (fun s => s) next_disk_write.
Proof. intros s. unfold sys_le. simpl. lia. Qed.
Lemma random_Token_forward : forward (fun s => s) random_Token.
Proof. intros s. unfold random_Token. destruct (rand_Read (n_rand s)); unfold sys_le; simpl; lia. Qed.

End Forward.

#[export] Hint Resolve time_Now_forward uuid_New_forward bcrypt_forward disk_forward random_Token_forward : respects.

(** Chains of [sys_le], by arithmetic on the counters. *)
Ltac sys_lia :=
  unfold sys_le, tick in *; cbn [fst snd n_clock n_rand n_uuid n_salt n_disk] in *; lia.
