(* ===== verification/Cipher.v ===== *)
(** * core/crypto/cipher.go: encryption of e-mail addresses at rest

    [Cipher] encrypts with AES-256-GCM under a random nonce and derives the
    blind index with HMAC-SHA256.  The AEAD is a parameter ([Aead]) with the
    documented law that opening a sealed message gives the message back; the
    base64 codec and HMAC are executable. *)

From S2P Require Import Prelude GoStd Crypto Errors Env.

Local Open Scope Z_scope.

(** ** base64.StdEncoding *)

Definition b64_char (z : Z) : Z :=
  if z <? 26 then 65 + z
  else if z <? 52 then 71 + z
  else if z <? 62 then z - 4
  else if z =? 62 then 43 else 47.

Definition b64_val (c : Z) : option Z :=
  if in_range 65 90 c then Some (c - 65)
  else if in_range 97 122 c then Some (c - 71)
  else if in_range 48 57 c then Some (c + 4)
  else if c =? 43 then Some 62
  else if c =? 47 then Some 63
  else None.

Definition b64_pad : Z := 61.

Fixpoint b64_encode (l : list Z) : list Z :=
  match l with
  | a :: b :: c :: l' =>
    b64_char (a / 4) :: b64_char (a mod 4 * 16 + b / 16) :: b64_char (b mod 16 * 4 + c / 64) ::
    b64_char (c mod 64) :: b64_encode l'
  | [a; b] => [b64_char (a / 4); b64_char (a mod 4 * 16 + b / 16); b64_char (b mod 16 * 4); b64_pad]
  | [a] => [b64_char (a / 4); b64_char (a mod 4 * 16); b64_pad; b64_pad]
  | [] => []
  end.

(** The decoder after line breaks were dropped: padding only ends the input. *)
Fixpoint b64_decode (l : list Z) : option (list Z) :=
  match l with
  | [] => Some []
  | c0 :: c1 :: c2 :: c3 :: l' =>
    match b64_val c0, b64_val c1 with
    | Some s0, Some s1 =>
      let a := s0 * 4 + s1 / 16 in
      match b64_val c2, b64_val c3 with
      | Some s2, Some s3 =>
        match b64_decode l' with
        | Some r => Some (a :: (s1 mod 16 * 16 + s2 / 4) :: (s2 mod 4 * 64 + s3) :: r)
        | None => None
        end
      | Some s2, None =>
        if (c3 =? b64_pad) && match l' with [] => true | _ => false end
        then Some [a; s1 mod 16 * 16 + s2 / 4] else None
      | None, _ =>
        if (c2 =? b64_pad) && (c3 =? b64_pad) && match l' with [] => true | _ => false end
        then Some [a] else None
      end
    | _, _ => None
    end
  | _ => None
  end.

Definition base64_Std_EncodeToString (l : list Z) : string := string_of (b64_encode l).

Definition base64_Std_DecodeString (s : string) : list Z + goerr :=
  match b64_decode (List.filter (fun c => negb ((c =? 10) || (c =? 13))) (bytes_of s)) with
  | Some l => inl l
  | None => inr (ErrMsg "illegal base64 data")
  end.

(** ** HMAC-SHA256 *)

Definition hmac_key (key : list Z) : list Z :=
  let k := if 64 <? Z.of_nat (length key) then sha256_Sum256 key else key in
  k ++ replicate (64 - length k) 0.

Definition hmac_SHA256 (key msg : list Z) : list Z :=
  let k := hmac_key key in
  sha256_Sum256 ((Z.lxor 0x5c <$> k) ++ sha256_Sum256 ((Z.lxor 0x36 <$> k) ++ msg)).

(** ** The AEAD *)

Class Aead := {
  gcm_Seal : list Z -> list Z -> list Z -> list Z;           (** key, nonce, plaintext *)
  gcm_Open : list Z -> list Z -> list Z -> option (list Z);
}.

Definition is_byte (z : Z) : Prop := 0 <= z < 256.

Class AeadSpec (A : Aead) := {
  gcm_open_seal : forall k n p, gcm_Open k n (gcm_Seal k n p) = Some p;
  gcm_bytes : forall k n p, Forall is_byte p -> Forall is_byte (gcm_Seal k n p);
}.

Definition aesKeySize : Z := 32.
Definition gcm_NonceSize : nat := 12.

Record Cipher := mkCipher { ci_key : list Z; ci_blindIndexKey : list Z }.

Definition NewCipher (encryptionKey blindIndexKey : list Z) : Cipher + goerr :=
  if negb (Z.of_nat (length encryptionKey) =? aesKeySize)
  then inr (ErrMsg "encryption key must be 32 bytes")
  else if Nat.eqb (length blindIndexKey) 0 then inr (ErrMsg "blind index key must not be empty")
  else inl (mkCipher encryptionKey blindIndexKey).

Definition NewCipherFromBase64 (encryptionKeyB64 blindIndexKeyB64 : string) : Cipher + goerr :=
  match base64_Std_DecodeString encryptionKeyB64 with
  | inr err => inr (ErrWrapped "decode encryption key: " err)
  | inl enc =>
    match base64_Std_DecodeString blindIndexKeyB64 with
    | inr err => inr (ErrWrapped "decode blind index key: " err)
    | inl bi => NewCipher enc bi
    end
  end.

Definition Cipher_BlindIndex (c : Cipher) (value : string) : string :=
  hex_EncodeToString (hmac_SHA256 (ci_blindIndexKey c) (bytes_of value)).

Section Cipher.
  Context {E : Env} {A : Aead}.

(** base64(nonce || ciphertext) *)
Definition Cipher_Encrypt (c : Cipher) (plaintext : string) : ST Sys (string + goerr) := fun s =>
  let s' := mk_Sys (n_clock s) (S (n_rand s)) (n_uuid s) (n_salt s) (n_disk s) in
  match rand_Read (n_rand s) with
  | inr err => (Ret (inr err), s')
  | inl b =>
    let nonce := (fun i => b i mod 256) <$> List.seq 0 gcm_NonceSize in
    (Ret (inl (base64_Std_EncodeToString (nonce ++ gcm_Seal (ci_key c) nonce (bytes_of plaintext)))), s')
  end.

Definition Cipher_Decrypt (c : Cipher) (ciphertext : string) : string + goerr :=
  match base64_Std_DecodeString ciphertext with
  | inr err => inr err
  | inl raw =>
    if Nat.ltb (length raw) gcm_NonceSize then inr (ErrMsg "ciphertext too short")
    else match gcm_Open (ci_key c) (take gcm_NonceSize raw) (drop gcm_NonceSize raw) with
         | None => inr (ErrMsg "cipher: message authentication failed")
         | Some p => inl (string_of p)
         end
  end.

End Cipher.

(** ** base64 round trip *)

Lemma b64_val_char z : 0 <= z < 64 -> b64_val (b64_char z) = Some z.
Proof.
  intros H. unfold b64_val, b64_char, in_range.
  repeat match goal with
  | |- context [?a <? ?b] => destruct (Z.ltb_spec a b)
  | |- context [?a =? ?b] => destruct (Z.eqb_spec a b)
  | |- context [?a <=? ?b] => destruct (Z.leb_spec a b)
  end; simpl; try lia; f_equal; lia.
Qed.

Lemma b64_char_text z : 0 <= z < 64 -> is_byte (b64_char z) /\ b64_char z <> 10 /\ b64_char z <> 13.
Proof.
  intros H. unfold b64_char, is_byte.
  repeat match goal with
  | |- context [?a <? ?b] => destruct (Z.ltb_spec a b)
  | |- context [?a =? ?b] => destruct (Z.eqb_spec a b)
  end; lia.
Qed.

Lemma b64_decode_encode l : Forall is_byte l -> b64_decode (b64_encode l) = Some l.
Proof.
  assert (forall a b c l, is_byte a -> is_byte b -> is_byte c ->
    b64_decode (b64_encode l) = Some l ->
    b64_decode (b64_encode (a :: b :: c :: l)) = Some (a :: b :: c :: l)) as Hstep.
  { intros a b c l' Ha Hb Hc IH. unfold is_byte in *. cbn [b64_encode b64_decode].
    rewrite !b64_val_char by (Z.to_euclidean_division_equations; lia). rewrite IH.
    repeat f_equal; Z.to_euclidean_division_equations; lia. }
  induction l as [l IH] using (induction_ltof1 _ length). unfold ltof in IH.
  destruct l as [|a [|b [|c l]]]; intros Hall; [done|..].
  - apply Forall_cons in Hall as [Ha _]. unfold is_byte in Ha. cbn [b64_encode b64_decode].
    rewrite !b64_val_char by (Z.to_euclidean_division_equations; lia). cbn.
    repeat f_equal; Z.to_euclidean_division_equations; lia.
  - apply Forall_cons in Hall as [Ha [Hb _]%Forall_cons]. unfold is_byte in *. cbn [b64_encode b64_decode].
    rewrite !b64_val_char by (Z.to_euclidean_division_equations; lia). cbn.
    repeat f_equal; Z.to_euclidean_division_equations; lia.
  - apply Forall_cons in Hall as [Ha [Hb [Hc Hl]%Forall_cons]%Forall_cons].
    apply Hstep; auto. apply IH; [simpl; lia|done].
Qed.

Lemma b64_encode_text l :
  Forall is_byte l -> Forall (fun c => is_byte c /\ c <> 10 /\ c <> 13) (b64_encode l).
Proof.
  induction l as [l IH] using (induction_ltof1 _ length). unfold ltof in IH.
  destruct l as [|a [|b [|c l]]]; intros Hall; rewrite ?Forall_cons in Hall; simpl.
  - constructor.
  - destruct Hall as [Ha _]. unfold is_byte in *.
    repeat (constructor; [first [apply b64_char_text; Z.to_euclidean_division_equations; lia
                                |unfold b64_pad, is_byte; lia]|]). constructor.
  - destruct Hall as (Ha & Hb & _). unfold is_byte in *.
    repeat (constructor; [first [apply b64_char_text; Z.to_euclidean_division_equations; lia
                                |unfold b64_pad, is_byte; lia]|]). constructor.
  - destruct Hall as (Ha & Hb & Hc & Hl).
    assert (Forall (fun c => is_byte c /\ c <> 10 /\ c <> 13) (b64_encode l)) as IHl
      by (apply IH; [simpl; lia|done]).
    unfold is_byte in *.
    do 4 (constructor; [apply b64_char_text; Z.to_euclidean_division_equations; lia|]). done.
Qed.

Lemma byteZ_charZ z : is_byte z -> byteZ (charZ z) = z.
Proof.
  intros H. unfold byteZ, charZ, is_byte in *. rewrite N_ascii_embedding; lia.
Qed.

Lemma bytes_string_of l : Forall is_byte l -> bytes_of (string_of l) = l.
Proof.
  induction l as [|z l IH]; [done|]. intros [Hz Hl]%Forall_cons. simpl.
  by rewrite byteZ_charZ, IH.
Qed.

Lemma string_bytes_of s : string_of (bytes_of s) = s.
Proof.
  induction s as [|a s IH]; [done|]. simpl. rewrite IH. f_equal.
  unfold charZ, byteZ. rewrite N2Z.id. apply ascii_N_embedding.
Qed.

Lemma bytes_of_bytes s : Forall is_byte (bytes_of s).
Proof.
  induction s as [|a s IH]; constructor; [|done]. unfold is_byte, byteZ.
  pose proof (N_ascii_bounded a). lia.
Qed.

Lemma base64_Std_roundtrip l :
  Forall is_byte l -> base64_Std_DecodeString (base64_Std_EncodeToString l) = inl l.
Proof.
  intros Hl. unfold base64_Std_DecodeString, base64_Std_EncodeToString.
  pose proof (b64_encode_text l Hl) as Ht.
  rewrite bytes_string_of by (eapply Forall_impl; [exact Ht|naive_solver]).
  assert (List.filter (fun c => negb ((c =? 10) || (c =? 13))) (b64_encode l) = b64_encode l) as ->.
  { clear Hl. induction Ht as [|c k (_ & H10 & H13) _ IH]; [done|]. simpl.
    rewrite IH. destruct (Z.eqb_spec c 10), (Z.eqb_spec c 13); done. }
  by rewrite b64_decode_encode.
Qed.

Section CipherProps.
  Context {E : Env} {A : Aead}.

Lemma nonce_bytes (b : nat -> Z) n : Forall is_byte ((fun i => b i mod 256) <$> List.seq 0 n).
Proof.
  apply Forall_fmap, Forall_forall. intros i _. unfold is_byte. simpl. apply Z.mod_pos_bound. lia.
Qed.

(** Whatever address is encrypted, a ciphertext the cipher produced decrypts to
    it, whatever nonce was drawn; encryption fails only when the random source
    does. *)
Theorem cipher_roundtrip `{!AeadSpec A} (c : Cipher) (email : string) (s : Sys) :
  exists r s', Cipher_Encrypt c email s = (Ret r, s') /\ sys_le s s' /\
    match r with
    | inl ct => Cipher_Decrypt c ct = inl email
    | inr err => rand_Read (n_rand s) = inr err
    end.
Proof.
  unfold Cipher_Encrypt. destruct (rand_Read (n_rand s)) as [b|err].
  2:{ eexists _, _. split; [reflexivity|]. split; [unfold sys_le; simpl; lia|done]. }
  eexists _, _. split; [reflexivity|]. split; [unfold sys_le; simpl; lia|].
  set (nonce := _ <$> _). assert (length nonce = gcm_NonceSize) as Hlen by done.
  assert (Forall is_byte nonce) as Hn by apply nonce_bytes.
  unfold Cipher_Decrypt. rewrite base64_Std_roundtrip
    by (apply Forall_app; split; [done|apply gcm_bytes, bytes_of_bytes]).
  rewrite length_app, Hlen. destruct (Nat.ltb_spec (gcm_NonceSize + length (gcm_Seal (ci_key c) nonce (bytes_of email))) gcm_NonceSize); [lia|].
  rewrite <- Hlen, take_app_length, drop_app_length, gcm_open_seal. by rewrite string_bytes_of.
Qed.

End CipherProps.

(** RFC 4231, test case 2. *)
Example hmac_rfc4231_2 :
  hex_EncodeToString (hmac_SHA256 (bytes_of "Jefe") (bytes_of "what do ya want for nothing?")) =
  "5bdcc146bf60754e6a042426089575c75a003f089d2739839dec58b964ec3843".
Proof. vm_compute. reflexivity. Qed.
