(* ===== verification/Base64.v ===== *)
(** * Base64 URL decoding

    The decoder the relying party uses on token payloads, and that it inverts
    the encoder of Crypto.v. *)

From S2P Require Import Prelude GoStd Crypto Cipher.

Local Open Scope Z_scope.

(** base64.RawURLEncoding.DecodeString: line breaks are skipped, the bits of a
    last, incomplete character are dropped. *)
Definition b64url_value (c : Z) : option Z :=
  if in_range 65 90 c then Some (c - 65)
  else if in_range 97 122 c then Some (c - 71)
  else if in_range 48 57 c then Some (c + 4)
  else if c =? 45 then Some 62
  else if c =? 95 then Some 63
  else None.

Fixpoint b64url_decode (l : list Z) : option (list Z) :=
  match l with
  | [] => Some []
  | [_] => None
  | [a; b] => Some [Z.lor (Z.shiftl a 2) (Z.shiftr b 4)]
  | [a; b; c] =>
    Some [Z.lor (Z.shiftl a 2) (Z.shiftr b 4); Z.lor (Z.shiftl (Z.land b 15) 4) (Z.shiftr c 2)]
  | a :: b :: c :: d :: l' =>
    (fun r => Z.lor (Z.shiftl a 2) (Z.shiftr b 4) :: Z.lor (Z.shiftl (Z.land b 15) 4) (Z.shiftr c 2) ::
              Z.lor (Z.shiftl (Z.land c 3) 6) d :: r) <$> b64url_decode l'
  end.

Definition base64_RawURL_DecodeString (s : string) : option (list Z) :=
  mapM b64url_value (List.filter (fun c => negb ((c =? 10) || (c =? 13))) (bytes_of s)) ≫= b64url_decode.

(** ** Decoding inverts encoding *)

Lemma b64url_value_char z : 0 <= z < 64 -> b64url_value (b64url_char z) = Some z.
Proof.
  intros Hz. unfold b64url_char.
  destruct (z <? 26) eqn:?; [|destruct (z <? 52) eqn:?; [|destruct (z <? 62) eqn:?; [|destruct (z =? 62) eqn:?]]];
    unfold b64url_value, in_range;
    repeat match goal with |- context [if ?b then _ else _] => destruct b eqn:? end; f_equal; lia.
Qed.

Lemma b64url_char_plain z : 0 <= z < 64 -> 45 <= b64url_char z <= 122.
Proof. intros Hz. unfold b64url_char. repeat (case_match; try lia). Qed.

(** The six-bit groups of a list of bytes. *)
Fixpoint sextets (l : list Z) : list Z :=
  match l with
  | a :: b :: c :: l' =>
    Z.shiftr a 2 :: Z.lor (Z.shiftl (Z.land a 3) 4) (Z.shiftr b 4) ::
    Z.lor (Z.shiftl (Z.land b 15) 2) (Z.shiftr c 6) :: Z.land c 63 :: sextets l'
  | [a; b] =>
    [Z.shiftr a 2; Z.lor (Z.shiftl (Z.land a 3) 4) (Z.shiftr b 4); Z.shiftl (Z.land b 15) 2]
  | [a] => [Z.shiftr a 2; Z.shiftl (Z.land a 3) 4]
  | [] => []
  end.

(** Lists three elements at a time. *)
Lemma by_threes (P : list Z -> Prop) :
  P [] -> (forall a, P [a]) -> (forall a b, P [a; b]) ->
  (forall a b c l, P l -> P (a :: b :: c :: l)) -> forall l, P l.
Proof.
  intros H0 H1 H2 H3. fix IH 1. intros [|a [|b [|c l]]]; [exact H0|apply H1|apply H2|apply H3, IH].
Qed.

(** A property of finitely many numbers, by trying them all. *)
Lemma all_below (n : nat) (P : Z -> bool) :
  forallb (fun i => P (Z.of_nat i)) (List.seq 0 n) = true -> forall z, 0 <= z < Z.of_nat n -> P z = true.
Proof.
  rewrite forallb_forall. intros H z Hz. rewrite <- (Z2Nat.id z) by lia. apply H, in_seq. lia.
Qed.

(** Two bit fields joined and taken apart. *)
Definition join_ok (w : Z) (hi lo : Z) : bool :=
  let x := Z.lor (Z.shiftl hi w) lo in
  (Z.shiftr x w =? hi) && (Z.land x (2 ^ w - 1) =? lo) && (0 <=? x) && (x <? 64).

Lemma join4 hi lo : 0 <= hi < 4 -> 0 <= lo < 16 -> join_ok 4 hi lo = true.
Proof.
  intros Hh Hl. refine (all_below 4 (fun h => join_ok 4 h lo) _ hi Hh).
  refine (all_below 16 (fun l => forallb (fun i => join_ok 4 (Z.of_nat i) l) (List.seq 0 4)) _ lo Hl). reflexivity.
Qed.

Lemma join2 hi lo : 0 <= hi < 16 -> 0 <= lo < 4 -> join_ok 2 hi lo = true.
Proof.
  intros Hh Hl. refine (all_below 16 (fun h => join_ok 2 h lo) _ hi Hh).
  refine (all_below 4 (fun l => forallb (fun i => join_ok 2 (Z.of_nat i) l) (List.seq 0 16)) _ lo Hl). reflexivity.
Qed.

Lemma join_spec w hi lo :
  join_ok w hi lo = true ->
  let x := Z.lor (Z.shiftl hi w) lo in
  Z.shiftr x w = hi /\ Z.land x (2 ^ w - 1) = lo /\ 0 <= x < 64.
Proof. unfold join_ok. cbv zeta. lia. Qed.

(** A byte cut in two. *)
Definition cut_ok (w : Z) (b : Z) : bool :=
  (Z.lor (Z.shiftl (Z.shiftr b w) w) (Z.land b (2 ^ w - 1)) =? b) &&
  (0 <=? Z.shiftr b w) && (Z.shiftr b w <? 2 ^ (8 - w)) && (0 <=? Z.land b (2 ^ w - 1)) && (Z.land b (2 ^ w - 1) <? 2 ^ w).

Lemma cut_spec w b :
  (w = 2 \/ w = 4 \/ w = 6) -> is_byte b ->
  Z.lor (Z.shiftl (Z.shiftr b w) w) (Z.land b (2 ^ w - 1)) = b /\
  0 <= Z.shiftr b w < 2 ^ (8 - w) /\ 0 <= Z.land b (2 ^ w - 1) < 2 ^ w.
Proof.
  intros Hw Hb. assert (cut_ok w b = true) as H.
  { destruct Hw as [-> |[-> | ->]]; [apply (all_below 256 (cut_ok 2))|apply (all_below 256 (cut_ok 4))|
      apply (all_below 256 (cut_ok 6))]; reflexivity || exact Hb. }
  unfold cut_ok in H. lia.
Qed.

Lemma cut2 b : is_byte b -> Z.lor (Z.shiftl (Z.shiftr b 2) 2) (Z.land b 3) = b /\ 0 <= Z.shiftr b 2 < 64 /\ 0 <= Z.land b 3 < 4.
Proof. exact (cut_spec 2 b ltac:(tauto)). Qed.
Lemma cut4 b : is_byte b -> Z.lor (Z.shiftl (Z.shiftr b 4) 4) (Z.land b 15) = b /\ 0 <= Z.shiftr b 4 < 16 /\ 0 <= Z.land b 15 < 16.
Proof. exact (cut_spec 4 b ltac:(tauto)). Qed.
Lemma cut6 b : is_byte b -> Z.lor (Z.shiftl (Z.shiftr b 6) 6) (Z.land b 63) = b /\ 0 <= Z.shiftr b 6 < 4 /\ 0 <= Z.land b 63 < 64.
Proof. exact (cut_spec 6 b ltac:(tauto)). Qed.

Lemma join4_spec hi lo : 0 <= hi < 4 -> 0 <= lo < 16 ->
  Z.shiftr (Z.lor (Z.shiftl hi 4) lo) 4 = hi /\ Z.land (Z.lor (Z.shiftl hi 4) lo) 15 = lo /\
  0 <= Z.lor (Z.shiftl hi 4) lo < 64.
Proof. intros Hh Hl. exact (join_spec 4 hi lo (join4 hi lo Hh Hl)). Qed.
Lemma join2_spec hi lo : 0 <= hi < 16 -> 0 <= lo < 4 ->
  Z.shiftr (Z.lor (Z.shiftl hi 2) lo) 2 = hi /\ Z.land (Z.lor (Z.shiftl hi 2) lo) 3 = lo /\
  0 <= Z.lor (Z.shiftl hi 2) lo < 64.
Proof. intros Hh Hl. exact (join_spec 2 hi lo (join2 hi lo Hh Hl)). Qed.

Lemma sextets_spec l :
  Forall is_byte l -> Forall (fun z => 0 <= z < 64) (sextets l) /\ b64url_decode (sextets l) = Some l.
Proof.
  induction l as [|a|a b|a b c l IH] using by_threes; simpl sextets; intros Hl;
    repeat match goal with H : Forall _ (_ :: _) |- _ => apply Forall_cons in H as [? H] end.
  - done.
  - destruct (cut2 a) as (Ea & Ha & Ha'); [done|]. destruct (join4_spec (Z.land a 3) 0) as (J1 & _ & J3); [lia..|].
    rewrite Z.lor_0_r in J1, J3. split; [rewrite !Forall_cons; auto|]. simpl. by rewrite J1, Ea.
  - destruct (cut2 a) as (Ea & Ha & Ha'); [done|]. destruct (cut4 b) as (Eb & Hb & Hb'); [done|].
    destruct (join4_spec (Z.land a 3) (Z.shiftr b 4)) as (J1 & J2 & J3); [lia..|].
    destruct (join2_spec (Z.land b 15) 0) as (K1 & _ & K3); [lia..|]. rewrite Z.lor_0_r in K1, K3.
    split; [rewrite !Forall_cons; auto|]. simpl. by rewrite J1, J2, K1, Ea, Eb.
  - destruct (cut2 a) as (Ea & Ha & Ha'); [done|]. destruct (cut4 b) as (Eb & Hb & Hb'); [done|].
    destruct (cut6 c) as (Ec & Hc & Hc'); [done|]. destruct (IH Hl) as [Hr Hd].
    destruct (join4_spec (Z.land a 3) (Z.shiftr b 4)) as (J1 & J2 & J3); [lia..|].
    destruct (join2_spec (Z.land b 15) (Z.shiftr c 6)) as (K1 & K2 & K3); [lia..|].
    split; [rewrite !Forall_cons; auto|]. simpl. by rewrite J1, J2, K1, K2, Ea, Eb, Ec, Hd.
Qed.

Lemma encode_sextets l : b64url_go l = b64url_char <$> sextets l.
Proof. induction l as [|a|a b|a b c l IH] using by_threes; simpl; [done..|]. by rewrite IH. Qed.

(** base64 round trip: decoding gives back the encoded bytes. *)
Theorem base64_roundtrip (l : list Z) :
  Forall is_byte l -> base64_RawURL_DecodeString (base64_RawURL_EncodeToString l) = Some l.
Proof.
  intros Hl. destruct (sextets_spec l Hl) as [Hr Hd]. unfold base64_RawURL_DecodeString, base64_RawURL_EncodeToString.
  rewrite encode_sextets. revert Hd. generalize dependent (sextets l). intros vs Hr Hd.
  assert (Forall (fun z => 45 <= z <= 122) (b64url_char <$> vs)) as Hc.
  { apply Forall_fmap. eapply Forall_impl; [exact Hr|]. intros z. apply b64url_char_plain. }
  rewrite bytes_string_of by (eapply Forall_impl; [exact Hc|]; unfold is_byte; simpl; lia).
  assert (List.filter (fun c => negb ((c =? 10) || (c =? 13))) (b64url_char <$> vs) = b64url_char <$> vs) as ->.
  { clear -Hc. induction Hc as [|z zs Hz _ IH]; simpl; [done|]. replace (negb _) with true by lia. by rewrite IH. }
  assert (mapM b64url_value (b64url_char <$> vs) = Some vs) as ->; [|exact Hd].
  apply mapM_Some. clear -Hr. induction Hr as [|z zs Hz _ IH]; simpl; constructor; [by apply b64url_value_char|done].
Qed.
