(* ===== verification/Scope.v ===== *)
(** * entity.Scope (modules/auth/domain/entity/scope.go) and identifiers (ids.go)

    A scope is a non-empty list of supported scope names, checked once by
    [NewScope] and kept as a space-separated string on every wire and in every
    store. *)

From S2P Require Import Prelude GoStd Crypto Errors Env.

Local Open Scope Z_scope.

(** ** ids.go *)

Definition DefaultTenantID : string := "default".

Definition NewClientID (id : string) : string * option goerr :=
  if String.eqb id "" then ("", Some (ErrMsg "client_id must not be empty")) else (id, None).

Section ids.
  Context {E : Env}.

Definition NewGrantID : ST Sys string := uuid_New.
Definition NewSessionID : ST Sys string := uuid_New.
Definition NewUserID : ST Sys string := uuid_New.

End ids.

(** ** scope.go *)

Definition ScopeOpenID : string := "openid".
Definition ScopeEmail : string := "email".
Definition ScopeProfile : string := "profile".
Definition ScopePhone : string := "phone".

Definition SupportedScopes : list string := [ScopeOpenID; ScopeEmail; ScopeProfile; ScopePhone].

Record Scope := mkScope { scope_values : list string }.

#[export] Instance Scope_eq_dec : EqDecision Scope.
Proof. solve_decision. Defined.

Definition Scope_zero : Scope := mkScope [].

(** The loop of [NewScope]: the first unsupported value, if any. *)
Fixpoint first_unsupported (vs : list string) : option string :=
  match vs with
  | [] => None
  | s :: vs' => if contains SupportedScopes s then first_unsupported vs' else Some s
  end.

Definition NewScope (vs : list string) : Scope * option goerr :=
  match vs with
  | [] => (Scope_zero, Some (ErrMsg "scope must not be empty"))
  | _ =>
    match first_unsupported vs with
    | Some s => (Scope_zero, Some (ErrMsg ("unsupported scope: " +:+ s)))
    | None => (mkScope vs, None)
    end
  end.

Definition MustParseScope {St} (raw : string) : ST St Scope :=
  match NewScope (strings_Fields raw) with
  | (_, Some err) => panic (err_Error err)
  | (s, None) => mret s
  end.

Definition Scope_String (s : Scope) : string := strings_Join (scope_values s) " ".
Definition Scope_Values (s : Scope) : list string := scope_values s.
Definition Scope_Contains (s : Scope) (scope : string) : bool := contains (scope_values s) scope.
Definition Scope_IsEmpty (s : Scope) : bool := Nat.eqb (length (scope_values s)) 0.

(** JSON: the scope is one JSON string; [Scope_MarshalJSON] is the text a
    decoder reads back from it. *)
Definition Scope_MarshalJSON (s : Scope) : string := json_string (Scope_String s).
Definition Scope_UnmarshalJSON (raw : string) : Scope * option goerr := NewScope (strings_Fields raw).

(** ** What [NewScope] accepts *)

Definition scope_ok (s : Scope) : Prop :=
  scope_values s <> [] /\ Forall (fun v => v ∈ SupportedScopes) (scope_values s).

Lemma first_unsupported_None vs :
  first_unsupported vs = None <-> Forall (fun v => v ∈ SupportedScopes) vs.
Proof.
  induction vs as [|v vs IH]; cbn [first_unsupported]; [split; [constructor|done]|].
  rewrite Forall_cons, <- IH. pose proof (contains_spec SupportedScopes v) as Hc.
  destruct (contains SupportedScopes v); [tauto|].
  split; [done|]. intros [Hv _]. by apply Hc in Hv.
Qed.

Lemma NewScope_ok vs s : NewScope vs = (s, None) <-> s = mkScope vs /\ scope_ok s.
Proof.
  unfold NewScope, scope_ok. destruct vs as [|v vs].
  - split; [done|]. intros [-> [H _]]. done.
  - destruct (first_unsupported (v :: vs)) eqn:Hf.
    + split; [done|]. intros [-> [_ H%first_unsupported_None]]. simpl in *. congruence.
    + apply first_unsupported_None in Hf. split; [|naive_solver].
      intros [= <-]. done.
Qed.

Lemma NewScope_err vs s e : NewScope vs = (s, Some e) -> s = Scope_zero.
Proof. unfold NewScope. destruct vs; [|case_match]; naive_solver. Qed.

Lemma supported_word v : v ∈ SupportedScopes -> is_word v = true /\ is_ascii_string v = true.
Proof.
  intros H. unfold SupportedScopes in H.
  rewrite !elem_of_cons, elem_of_nil in H. by destruct H as [->|[->|[->|[->|[]]]]].
Qed.

Lemma Scope_String_parse s : scope_ok s -> NewScope (strings_Fields (Scope_String s)) = (s, None).
Proof.
  intros [Hne Hall]. apply NewScope_ok. unfold Scope_String.
  rewrite Fields_Join.
  - destruct s; done.
  - eapply Forall_impl; [exact Hall|]. intros v Hv%supported_word. naive_solver.
Qed.

Lemma is_ascii_app s1 s2 :
  is_ascii_string (s1 +:+ s2) = is_ascii_string s1 && is_ascii_string s2.
Proof.
  unfold is_ascii_string. induction s1 as [|a s1 IH]; [done|].
  rewrite append_cons. simpl. by rewrite IH, andb_assoc.
Qed.

Lemma Scope_String_ascii s : scope_ok s -> is_ascii_string (Scope_String s) = true.
Proof.
  intros [_ Hall]. unfold Scope_String. revert Hall.
  induction (scope_values s) as [|v vs IH]; [done|]. intros [Hv%supported_word Hvs]%Forall_cons.
  destruct vs as [|v' vs]; [naive_solver|].
  change (strings_Join (v :: v' :: vs) " ") with (v +:+ " " +:+ strings_Join (v' :: vs) " ").
  rewrite !is_ascii_app, IH by done. destruct Hv as [_ ->]. done.
Qed.

(** A scope accepted by [NewScope] survives both its string form
    (refresh-token rows) and its JSON form (cached sessions and codes), values
    and order included. *)
Theorem scope_roundtrip (s : Scope) :
  scope_ok s ->
  NewScope (strings_Fields (Scope_String s)) = (s, None) /\
  Scope_UnmarshalJSON (Scope_MarshalJSON s) = (s, None).
Proof.
  intros Hs. split; [by apply Scope_String_parse|].
  unfold Scope_UnmarshalJSON, Scope_MarshalJSON.
  rewrite json_string_ascii by (by apply Scope_String_ascii). by apply Scope_String_parse.
Qed.

Lemma scope_roundtrip_witness :
  NewScope (strings_Fields (Scope_String (mkScope ["openid"; "email"]))) =
    (mkScope ["openid"; "email"], None) /\
  Scope_UnmarshalJSON (Scope_MarshalJSON (mkScope ["openid"; "email"])) =
    (mkScope ["openid"; "email"], None).
Proof.
  apply (scope_roundtrip (mkScope ["openid"; "email"])).
  split; [done|]. repeat constructor; apply contains_spec; reflexivity.
Defined.
