(* ===== verification/User.v ===== *)
(** * entity.User (modules/auth/domain/entity/user.go)

    The account aggregate: password policy and hashing, the account-level
    lockout with exponential backoff, the password-reset token, session
    invalidation and profile changes.  A method with a pointer receiver is a
    function from the user to the changed user; optional fields ([\*string],
    [\*time.Time]) are options. *)

From S2P Require Import Prelude GoStd Crypto Errors Env Scope.

Local Open Scope Z_scope.

Definition PasswordResetTokenTTL : Z := 15 * Minute.
Definition passwordHashCost : Z := 12.
Definition MaxFailedLoginAttempts : Z := 5.
Definition lockoutBaseDuration : Z := 1 * Minute.
Definition lockoutMaxDuration : Z := 1 * Hour.

Record User := mkUser {
  u_CreatedAt : Z;
  u_UpdatedAt : Z;
  u_ID : string;
  u_TenantID : string;
  u_Username : string;
  u_Nickname : string;
  u_Password : string;
  u_Email : string;
  u_EmailVerified : bool;
  u_PasswordResetTokenHash : option string;
  u_PasswordResetExpiresAt : option Z;
  u_SessionsInvalidatedAt : option Z;
  u_FailedLoginAttempts : Z;
  u_LockedUntil : option Z;
}.

#[export] Instance User_eq_dec : EqDecision User.
Proof. solve_decision. Defined.

(** Field assignment. *)

Definition set_UpdatedAt (v : Z) (u : User) : User :=
  mkUser (u_CreatedAt u) v (u_ID u) (u_TenantID u) (u_Username u) (u_Nickname u) (u_Password u)
    (u_Email u) (u_EmailVerified u) (u_PasswordResetTokenHash u) (u_PasswordResetExpiresAt u)
    (u_SessionsInvalidatedAt u) (u_FailedLoginAttempts u) (u_LockedUntil u).

Definition set_Username (v : string) (u : User) : User :=
  mkUser (u_CreatedAt u) (u_UpdatedAt u) (u_ID u) (u_TenantID u) v (u_Nickname u) (u_Password u)
    (u_Email u) (u_EmailVerified u) (u_PasswordResetTokenHash u) (u_PasswordResetExpiresAt u)
    (u_SessionsInvalidatedAt u) (u_FailedLoginAttempts u) (u_LockedUntil u).

Definition set_Nickname (v : string) (u : User) : User :=
  mkUser (u_CreatedAt u) (u_UpdatedAt u) (u_ID u) (u_TenantID u) (u_Username u) v (u_Password u)
    (u_Email u) (u_EmailVerified u) (u_PasswordResetTokenHash u) (u_PasswordResetExpiresAt u)
    (u_SessionsInvalidatedAt u) (u_FailedLoginAttempts u) (u_LockedUntil u).

Definition set_Password (v : string) (u : User) : User :=
  mkUser (u_CreatedAt u) (u_UpdatedAt u) (u_ID u) (u_TenantID u) (u_Username u) (u_Nickname u) v
    (u_Email u) (u_EmailVerified u) (u_PasswordResetTokenHash u) (u_PasswordResetExpiresAt u)
    (u_SessionsInvalidatedAt u) (u_FailedLoginAttempts u) (u_LockedUntil u).

Definition set_Email (v : string) (u : User) : User :=
  mkUser (u_CreatedAt u) (u_UpdatedAt u) (u_ID u) (u_TenantID u) (u_Username u) (u_Nickname u)
    (u_Password u) v (u_EmailVerified u) (u_PasswordResetTokenHash u)
    (u_PasswordResetExpiresAt u) (u_SessionsInvalidatedAt u) (u_FailedLoginAttempts u)
    (u_LockedUntil u).

Definition set_EmailVerified (v : bool) (u : User) : User :=
  mkUser (u_CreatedAt u) (u_UpdatedAt u) (u_ID u) (u_TenantID u) (u_Username u) (u_Nickname u)
    (u_Password u) (u_Email u) v (u_PasswordResetTokenHash u) (u_PasswordResetExpiresAt u)
    (u_SessionsInvalidatedAt u) (u_FailedLoginAttempts u) (u_LockedUntil u).

Definition set_PasswordResetTokenHash (v : option string) (u : User) : User :=
  mkUser (u_CreatedAt u) (u_UpdatedAt u) (u_ID u) (u_TenantID u) (u_Username u) (u_Nickname u)
    (u_Password u) (u_Email u) (u_EmailVerified u) v (u_PasswordResetExpiresAt u)
    (u_SessionsInvalidatedAt u) (u_FailedLoginAttempts u) (u_LockedUntil u).

Definition set_PasswordResetExpiresAt (v : option Z) (u : User) : User :=
  mkUser (u_CreatedAt u) (u_UpdatedAt u) (u_ID u) (u_TenantID u) (u_Username u) (u_Nickname u)
    (u_Password u) (u_Email u) (u_EmailVerified u) (u_PasswordResetTokenHash u) v
    (u_SessionsInvalidatedAt u) (u_FailedLoginAttempts u) (u_LockedUntil u).

Definition set_SessionsInvalidatedAt (v : option Z) (u : User) : User :=
  mkUser (u_CreatedAt u) (u_UpdatedAt u) (u_ID u) (u_TenantID u) (u_Username u) (u_Nickname u)
    (u_Password u) (u_Email u) (u_EmailVerified u) (u_PasswordResetTokenHash u)
    (u_PasswordResetExpiresAt u) v (u_FailedLoginAttempts u) (u_LockedUntil u).

Definition set_FailedLoginAttempts (v : Z) (u : User) : User :=
  mkUser (u_CreatedAt u) (u_UpdatedAt u) (u_ID u) (u_TenantID u) (u_Username u) (u_Nickname u)
    (u_Password u) (u_Email u) (u_EmailVerified u) (u_PasswordResetTokenHash u)
    (u_PasswordResetExpiresAt u) (u_SessionsInvalidatedAt u) v (u_LockedUntil u).

Definition set_LockedUntil (v : option Z) (u : User) : User :=
  mkUser (u_CreatedAt u) (u_UpdatedAt u) (u_ID u) (u_TenantID u) (u_Username u) (u_Nickname u)
    (u_Password u) (u_Email u) (u_EmailVerified u) (u_PasswordResetTokenHash u)
    (u_PasswordResetExpiresAt u) (u_SessionsInvalidatedAt u) (u_FailedLoginAttempts u) v.

Record UserArgs := mkUserArgs {
  ua_TenantID : string;
  ua_Username : string;
  ua_Nickname : string;
  ua_Password : string;
  ua_Email : string;
  ua_EmailVerified : bool;
}.

Record UpdateProfileArgs := mkUpdateProfileArgs {
  upa_Username : option string;
  upa_Nickname : option string;
  upa_Email : option string;
}.

Definition lockoutDuration (attemptsOverThreshold : Z) : Z :=
  let maxDoublings := 6 in
  if maxDoublings <? attemptsOverThreshold then lockoutMaxDuration
  else Z.min (wrap64 (Z.shiftl lockoutBaseDuration attemptsOverThreshold)) lockoutMaxDuration.

(** [SetEmail] touches the verified flag only when the address changes. *)
Definition User_SetEmail (v : string) (u : User) : User :=
  if String.eqb (u_Email u) v then u else set_EmailVerified false (set_Email v u).

Section User.
  Context {E : Env}.

(** The four flags of the password loop. *)
Definition has_class (f : rune_class -> bool) (p : string) : bool :=
  existsb (fun r => f (rune_classOf r)) (runes p).

Definition isUpper (c : rune_class) : bool := match c with RUpper => true | _ => false end.
Definition isLower (c : rune_class) : bool := match c with RLower => true | _ => false end.
Definition isDigit (c : rune_class) : bool := match c with RDigit => true | _ => false end.
Definition isSpecial (c : rune_class) : bool :=
  match c with RPunct | RSymbol => true | _ => false end.

Definition validatePassword (p : string) : option goerr :=
  if len p <? 8 then Some (ErrMsg "password must be at least 8 characters")
  else if negb (has_class isUpper p)
       then Some (ErrMsg "password must contain at least one uppercase letter")
  else if negb (has_class isLower p)
       then Some (ErrMsg "password must contain at least one lowercase letter")
  else if negb (has_class isDigit p)
       then Some (ErrMsg "password must contain at least one digit")
  else if negb (has_class isSpecial p)
       then Some (ErrMsg "password must contain at least one special character")
  else None.

(** [hashPassword] panics when bcrypt refuses the password. *)
Definition hashPassword (password : string) : ST Sys string :=
  r ← bcrypt_GenerateFromPassword password passwordHashCost;
  match r with
  | inl h => mret h
  | inr err => panic (err_Error err)
  end.

Definition NewUser (args : UserArgs) : ST Sys (option User * option goerr) :=
  match validatePassword (ua_Password args) with
  | Some err => mret (None, Some err)
  | None =>
    let tenantID := if String.eqb (ua_TenantID args) "" then DefaultTenantID else ua_TenantID args in
    id ← NewUserID;
    password ← hashPassword (ua_Password args);
    createdAt ← time_Now;
    updatedAt ← time_Now;
    mret (Some {|
      u_CreatedAt := createdAt; u_UpdatedAt := updatedAt; u_ID := id; u_TenantID := tenantID;
      u_Username := ua_Username args; u_Nickname := ua_Nickname args; u_Password := password;
      u_Email := ua_Email args; u_EmailVerified := ua_EmailVerified args;
      u_PasswordResetTokenHash := None; u_PasswordResetExpiresAt := None;
      u_SessionsInvalidatedAt := None; u_FailedLoginAttempts := 0; u_LockedUntil := None |}, None)
  end.

(** [ValidatePassword(pw) == nil] *)
Definition User_ValidatePassword (u : User) (password : string) : bool :=
  bcrypt_Compare (u_Password u) password.

Definition User_RehashPasswordIfNeeded (password : string) (u : User) : ST Sys (User * bool) :=
  match bcrypt_Cost (u_Password u) with
  | None => mret (u, false)
  | Some cost =>
    if passwordHashCost <=? cost then mret (u, false)
    else
      h ← hashPassword password;
      t ← time_Now;
      mret (set_UpdatedAt t (set_Password h u), true)
  end.

Definition User_IsLockedOut (u : User) : ST Sys bool :=
  match u_LockedUntil u with
  | None => mret false
  | Some until => t ← time_Now; mret (t <? until)
  end.

Definition User_RecordFailedLogin (u : User) : ST Sys User :=
  let u1 := set_FailedLoginAttempts (wrap64 (u_FailedLoginAttempts u + 1)) u in
  u2 ← (if MaxFailedLoginAttempts <=? u_FailedLoginAttempts u1
        then t ← time_Now;
             mret (set_LockedUntil
               (Some (t + lockoutDuration (u_FailedLoginAttempts u1 - MaxFailedLoginAttempts))) u1)
        else mret u1);
  t' ← time_Now;
  mret (set_UpdatedAt t' u2).

Definition User_ResetFailedLogins (u : User) : ST Sys User :=
  t ← time_Now;
  mret (set_UpdatedAt t (set_LockedUntil None (set_FailedLoginAttempts 0 u))).

Definition User_UpdateProfile (args : UpdateProfileArgs) (u : User) : ST Sys User :=
  let u1 := match upa_Username args with Some v => set_Username v u | None => u end in
  let u2 := match upa_Nickname args with Some v => set_Nickname v u1 | None => u1 end in
  let u3 := match upa_Email args with Some v => User_SetEmail v u2 | None => u2 end in
  t ← time_Now;
  mret (set_UpdatedAt t u3).

Definition User_SetPasswordResetToken (rawToken : string) (ttl : Z) (u : User) : ST Sys User :=
  t ← time_Now;
  t' ← time_Now;
  mret (set_UpdatedAt t'
    (set_PasswordResetExpiresAt (Some (t + ttl)) (set_PasswordResetTokenHash (Some (Hash rawToken)) u))).

Definition User_IsResetTokenExpired (u : User) : ST Sys bool :=
  match u_PasswordResetExpiresAt u with
  | None => mret true
  | Some at_ => t ← time_Now; mret (at_ <? t)
  end.

Definition User_ValidateResetToken (rawToken : string) (u : User) : ST Sys bool :=
  match u_PasswordResetTokenHash u with
  | None => mret false
  | Some h =>
    if String.eqb h (Hash rawToken)
    then expired ← User_IsResetTokenExpired u; mret (negb expired)
    else mret false
  end.

Definition User_InvalidateSessions (u : User) : ST Sys User :=
  t ← time_Now;
  mret (set_UpdatedAt t (set_SessionsInvalidatedAt (Some t) u)).

Definition User_ClearPasswordResetToken (u : User) : ST Sys User :=
  t ← time_Now;
  mret (set_UpdatedAt t (set_PasswordResetExpiresAt None (set_PasswordResetTokenHash None u))).

Definition User_SetPassword (str : string) (u : User) : ST Sys (User * option goerr) :=
  match validatePassword str with
  | Some err => mret (u, Some err)
  | None =>
    h ← hashPassword str;
    t ← time_Now;
    mret (set_UpdatedAt t (set_Password h u), None)
  end.

Definition GeneratePasswordResetToken : ST Sys (string * option goerr) := random_Token.

End User.

(** [n] failed logins in a row. *)
Fixpoint fail_n {E : Env} (n : nat) (u : User) : ST Sys User :=
  match n with
  | O => mret u
  | S n' => u' ← fail_n n' u; User_RecordFailedLogin u'
  end.

(** ** Lockout *)

Lemma lockoutDuration_small n :
  0 <= n <= 6 -> lockoutDuration n = Z.min (Minute * 2 ^ n) Hour.
Proof.
  intros H. assert (n = 0 \/ n = 1 \/ n = 2 \/ n = 3 \/ n = 4 \/ n = 5 \/ n = 6) by lia.
  intuition subst; reflexivity.
Qed.

(** The shift never overflows: the backoff is one minute doubled [n] times,
    capped at one hour, for every non-negative [n]. *)
Lemma lockout_backoff (n : Z) :
  0 <= n ->
  lockoutDuration n = Z.min (Minute * 2 ^ n) Hour /\ Minute <= lockoutDuration n <= Hour.
Proof.
  intros H. assert (lockoutDuration n = Z.min (Minute * 2 ^ n) Hour) as ->.
  { destruct (Z.le_gt_cases n 6); [by apply lockoutDuration_small|].
    unfold lockoutDuration. replace (6 <? n) with true by lia.
    assert (2 ^ 6 <= 2 ^ n) by (apply Z.pow_le_mono_r; lia).
    unfold lockoutMaxDuration, Hour, Minute, Second in *. lia. }
  split; [done|]. assert (0 < 2 ^ n) by (apply Z.pow_pos_nonneg; lia).
  unfold Hour, Minute, Second. lia.
Qed.

Section UserProps.
  Context {E : Env}.

Lemma RecordFailedLogin_run u s :
  let n := wrap64 (u_FailedLoginAttempts u + 1) in
  exists u' s', User_RecordFailedLogin u s = (Ret u', s') /\ sys_le s s' /\
    u_FailedLoginAttempts u' = n /\
    u_LockedUntil u' = (if 5 <=? n then Some (now s + lockoutDuration (n - 5)) else u_LockedUntil u) /\
    u_ID u' = u_ID u /\ u_Email u' = u_Email u /\ u_Password u' = u_Password u /\
    u_PasswordResetTokenHash u' = u_PasswordResetTokenHash u.
Proof.
  intros n. unfold User_RecordFailedLogin. cbn. unfold MaxFailedLoginAttempts. fold n.
  destruct (5 <=? n); eexists _, _; split_and!; try reflexivity; unfold sys_le; simpl; lia.
Qed.

Lemma fail_n_run (k : nat) u s :
  u_FailedLoginAttempts u = 0 -> u_LockedUntil u = None -> Z.of_nat k < two63 ->
  exists u' s', fail_n k u s = (Ret u', s') /\ sys_le s s' /\
    u_FailedLoginAttempts u' = Z.of_nat k /\
    ((k < 5)%nat -> u_LockedUntil u' = None) /\
    ((5 <= k)%nat -> exists s1, sys_le s s1 /\ sys_le s1 s' /\
       u_LockedUntil u' = Some (now s1 + lockoutDuration (Z.of_nat k - 5))).
Proof.
  intros H0 HN Hk. induction k as [|k IH].
  { eexists u, s. split_and!; try done; lia. }
  destruct IH as (u1 & s1 & Hrun & Hle & Hat & Hno & _); [lia|].
  destruct (RecordFailedLogin_run u1 s1) as (u2 & s2 & Hr2 & Hle2 & Hat2 & Hl2 & _).
  assert (wrap64 (u_FailedLoginAttempts u1 + 1) = Z.of_nat (S k)) as Hw.
  { rewrite Hat, wrap64_id by (unfold two63 in *; lia). lia. }
  rewrite Hw in Hat2, Hl2. exists u2, s2. simpl. unfold bind. rewrite Hrun.
  split_and!; [done|by etrans|done| |].
  - intros Hlt. rewrite Hl2. destruct (Z.leb_spec 5 (Z.of_nat (S k))); [lia|]. apply Hno. lia.
  - intros Hge. exists s1. rewrite Hl2. destruct (Z.leb_spec 5 (Z.of_nat (S k))); [done|lia].
Qed.

(** Account lockout end to end: [k] consecutive failures on a clean account
    count to [k]; below five the account is not locked; from the fifth on it
    reports locked at every instant up to the backoff measured from a clock
    reading taken during the last failure, and not locked after it. *)
Theorem account_lockout (k : nat) (u : User) (s : Sys) :
  u_FailedLoginAttempts u = 0 -> u_LockedUntil u = None -> Z.of_nat k < two63 ->
  exists u' s', fail_n k u s = (Ret u', s') /\ u_FailedLoginAttempts u' = Z.of_nat k /\
    ((k < 5)%nat -> forall s2, (User_IsLockedOut u' s2).1 = Ret false) /\
    ((5 <= k)%nat -> exists s1, sys_le s s1 /\ sys_le s1 s' /\
       forall s2, (User_IsLockedOut u' s2).1 =
         Ret (now s2 <? now s1 + Z.min (Minute * 2 ^ (Z.of_nat k - 5)) Hour)).
Proof.
  intros H0 HN Hk. destruct (fail_n_run k u s H0 HN Hk) as (u' & s' & Hr & Hle & Hat & Hno & Hyes).
  exists u', s'. split_and!; [done|done| |].
  - intros Hlt s2. unfold User_IsLockedOut. by rewrite (Hno Hlt).
  - intros Hge. destruct (Hyes Hge) as (s1 & Hle1 & Hle2 & HL). exists s1. split_and!; [done..|].
    intros s2. unfold User_IsLockedOut. rewrite HL.
    rewrite (proj1 (lockout_backoff (Z.of_nat k - 5) ltac:(lia))). done.
Qed.

Lemma ResetFailedLogins_clears u s u' s' s2 :
  User_ResetFailedLogins u s = (Ret u', s') ->
  u_FailedLoginAttempts u' = 0 /\ (User_IsLockedOut u' s2).1 = Ret false.
Proof. intros [= <- <-]. done. Qed.

(** ** Password reset token *)

Lemma SetPasswordResetToken_run u raw ttl s :
  User_SetPasswordResetToken raw ttl u s =
  (Ret (set_UpdatedAt (clock (S (n_clock s)))
     (set_PasswordResetExpiresAt (Some (now s + ttl))
        (set_PasswordResetTokenHash (Some (Hash raw)) u))),
   mk_Sys (S (S (n_clock s))) (n_rand s) (n_uuid s) (n_salt s) (n_disk s)).
Proof. reflexivity. Qed.

(** A reset token set with [ttl] validates at every clock reading up to its
    expiry and at none after it; another token whose hash differs never does;
    and clearing the token makes every token invalid. *)
Theorem reset_token_lifecycle (u : User) (raw : string) (ttl : Z) (s : Sys) :
  exists u' s', User_SetPasswordResetToken raw ttl u s = (Ret u', s') /\ sys_le s s' /\
    (forall s2, (User_ValidateResetToken raw u' s2).1 = Ret (negb (now s + ttl <? now s2))) /\
    (forall raw' s2, Hash raw' <> Hash raw -> (User_ValidateResetToken raw' u' s2).1 = Ret false) /\
    (forall s2, exists u'' s'', User_ClearPasswordResetToken u' s2 = (Ret u'', s'') /\
       forall raw' s3, (User_ValidateResetToken raw' u'' s3).1 = Ret false).
Proof.
  generalize (SetPasswordResetToken_run u raw ttl s).
  set (u' := set_UpdatedAt _ _). intros Hrun.
  assert (u_PasswordResetTokenHash u' = Some (Hash raw)) as Hh by done.
  assert (u_PasswordResetExpiresAt u' = Some (now s + ttl)) as He by done. clearbody u'.
  eexists u', _. split; [exact Hrun|]. split; [unfold sys_le; simpl; lia|].
  unfold User_ValidateResetToken, User_IsResetTokenExpired. rewrite Hh, He. split_and!.
  - intros s2. by rewrite String.eqb_refl.
  - intros raw' s2 Hne. destruct (String.eqb_spec (Hash raw) (Hash raw')); [congruence|done].
  - intros s2. eexists _, _. split; [reflexivity|]. done.
Qed.

(** ** Passwords *)

Lemma validatePassword_ok p :
  validatePassword p = None <->
  8 <= len p /\ has_class isUpper p = true /\ has_class isLower p = true /\
  has_class isDigit p = true /\ has_class isSpecial p = true.
Proof.
  unfold validatePassword. destruct (Z.ltb_spec (len p) 8); [split; [done|lia]|].
  destruct (has_class isUpper p), (has_class isLower p), (has_class isDigit p),
    (has_class isSpecial p); simpl; naive_solver.
Qed.

(** [SetPassword] on every branch: a password that breaks the policy is
    refused and the user kept; one that meets it and that bcrypt can hash
    becomes the password that verifies, at a cost that needs no rehash; one that
    meets it but is longer than bcrypt's 72 bytes panics. *)
Theorem SetPassword_branches `{!BcryptSpec E} (u : User) (p : string) (s : Sys) :
  match validatePassword p with
  | Some err => User_SetPassword p u s = (Ret (u, Some err), s)
  | None =>
    if len p <=? 72 then
      exists u' s', User_SetPassword p u s = (Ret (u', None), s') /\
        User_ValidatePassword u' p = true /\ u_ID u' = u_ID u /\ u_Email u' = u_Email u /\
        forall s2, User_RehashPasswordIfNeeded p u' s2 = (Ret (u', false), s2)
    else exists msg s', User_SetPassword p u s = (Panic msg, s')
  end.
Proof.
  unfold User_SetPassword. destruct (validatePassword p) eqn:Hv; [done|].
  unfold hashPassword, bcrypt_GenerateFromPassword, bind, mret, ST_ret.
  destruct (Z.leb_spec (len p) 72) as [Hle|Hgt].
  - destruct (bcrypt_total (n_salt s) p passwordHashCost ltac:(done) Hle) as [h Hh]. rewrite Hh. simpl.
    eexists _, _. split; [reflexivity|]. unfold User_ValidatePassword. simpl.
    split_and!; [by eapply bcrypt_accepts|done..|].
    intros s2. unfold User_RehashPasswordIfNeeded. simpl.
    by rewrite (bcrypt_cost_of _ _ passwordHashCost _ ltac:(done) Hh).
  - destruct (bcrypt_too_long (n_salt s) p passwordHashCost ltac:(lia)) as [e He]. rewrite He. eauto.
Qed.

End UserProps.
