(* ===== verification/Token.v ===== *)
(** * entity.Grant and entity.RefreshToken
      (modules/auth/domain/entity/grant.go, tokens.go)

    A grant is one authentication event; refresh tokens form a rotation chain
    that belongs to it.  [Rotate] starts the next link, [ExtendToCover] moves the
    grant's expiry past the link it authorises. *)

From S2P Require Import Prelude GoStd Crypto Errors Env Scope.

Local Open Scope Z_scope.

Definition grantExpiryMargin : Z := Minute.
Definition RefreshTokenTTL : Z := 30 * 24 * Hour.

Record Grant := mkGrant {
  g_ID : string;
  g_UserID : string;
  g_ClientID : string;
  g_DeviceID : string;
  g_AuthenticatedAt : Z;
  g_CreatedAt : Z;
  g_ExpiresAt : Z;
  g_RevokedAt : option Z;
}.

Record IssuedTokens := mkIssuedTokens {
  it_AccessToken : string;
  it_RefreshToken : string;
  it_IDToken : string;
  it_Scope : Scope;
  it_GrantID : string;
  it_NewGrant : option Grant;
}.

Record RefreshToken := mkRefreshToken {
  rt_ID : string;
  rt_UserID : string;
  rt_ClientID : string;
  rt_GrantID : string;
  rt_TokenHash : string;
  rt_Scope : Scope;
  rt_DeviceID : string;
  rt_AuthenticatedAt : Z;
  rt_CreatedAt : Z;
  rt_ExpiresAt : Z;
  rt_RevokedAt : option Z;
}.

#[export] Instance Grant_eq_dec : EqDecision Grant.
Proof. solve_decision. Defined.
#[export] Instance RefreshToken_eq_dec : EqDecision RefreshToken.
Proof. solve_decision. Defined.

Definition set_g_ExpiresAt (v : Z) (g : Grant) : Grant :=
  mkGrant (g_ID g) (g_UserID g) (g_ClientID g) (g_DeviceID g) (g_AuthenticatedAt g)
    (g_CreatedAt g) v (g_RevokedAt g).

Definition set_g_RevokedAt (v : option Z) (g : Grant) : Grant :=
  mkGrant (g_ID g) (g_UserID g) (g_ClientID g) (g_DeviceID g) (g_AuthenticatedAt g)
    (g_CreatedAt g) (g_ExpiresAt g) v.

Definition set_rt_RevokedAt (v : option Z) (rt : RefreshToken) : RefreshToken :=
  mkRefreshToken (rt_ID rt) (rt_UserID rt) (rt_ClientID rt) (rt_GrantID rt) (rt_TokenHash rt)
    (rt_Scope rt) (rt_DeviceID rt) (rt_AuthenticatedAt rt) (rt_CreatedAt rt) (rt_ExpiresAt rt) v.

(** [ExtendToCover] assigns; it is the caller that passes a later expiry. *)
Definition Grant_ExtendToCover (tokenExpiry : Z) (g : Grant) : Grant :=
  set_g_ExpiresAt (tokenExpiry + grantExpiryMargin) g.

Definition RefreshToken_IssuedTo (rt : RefreshToken) (clientID : string) : bool :=
  String.eqb (rt_ClientID rt) "" || String.eqb (rt_ClientID rt) clientID.

Section Token.
  Context {E : Env}.

Definition NewGrant (userID clientID : string) : ST Sys Grant :=
  t ← time_Now;
  id ← NewGrantID;
  mret {| g_ID := id; g_UserID := userID; g_ClientID := clientID; g_DeviceID := "";
          g_AuthenticatedAt := t; g_CreatedAt := t;
          g_ExpiresAt := t + (RefreshTokenTTL + grantExpiryMargin); g_RevokedAt := None |}.

Definition Grant_IsValid (g : Grant) : ST Sys bool :=
  match g_RevokedAt g with
  | Some _ => mret false
  | None => t ← time_Now; mret (t <? g_ExpiresAt g)
  end.

Definition NewRefreshToken (userID clientID : string) (tokens : IssuedTokens) : ST Sys RefreshToken :=
  t ← time_Now;
  grantID ← (if String.eqb (it_GrantID tokens) "" then NewGrantID else mret (it_GrantID tokens));
  id ← uuid_New;
  mret {| rt_ID := id; rt_UserID := userID; rt_ClientID := clientID; rt_GrantID := grantID;
          rt_TokenHash := Hash (it_RefreshToken tokens); rt_Scope := it_Scope tokens;
          rt_DeviceID := ""; rt_AuthenticatedAt := t; rt_CreatedAt := t;
          rt_ExpiresAt := t + RefreshTokenTTL; rt_RevokedAt := None |}.

Definition RefreshToken_Rotate (userID : string) (tokens : IssuedTokens) (rt : RefreshToken)
  : ST Sys RefreshToken :=
  n ← NewRefreshToken userID (rt_ClientID rt) tokens;
  mret {| rt_ID := rt_ID n; rt_UserID := rt_UserID n; rt_ClientID := rt_ClientID n;
          rt_GrantID := if String.eqb (rt_GrantID rt) "" then rt_GrantID n else rt_GrantID rt;
          rt_TokenHash := rt_TokenHash n; rt_Scope := rt_Scope n; rt_DeviceID := rt_DeviceID rt;
          rt_AuthenticatedAt := rt_AuthenticatedAt rt; rt_CreatedAt := rt_CreatedAt n;
          rt_ExpiresAt := rt_ExpiresAt n; rt_RevokedAt := rt_RevokedAt n |}.

Definition RefreshToken_IsValid (rt : RefreshToken) : ST Sys bool :=
  match rt_RevokedAt rt with
  | Some _ => mret false
  | None => t ← time_Now; mret (t <? rt_ExpiresAt rt)
  end.

(** ** Runs in closed form *)

Definition fresh_rt (s : Sys) (n_id : nat) (gid userID clientID : string) (tokens : IssuedTokens)
  : RefreshToken :=
  {| rt_ID := uuid_NewString n_id; rt_UserID := userID; rt_ClientID := clientID;
     rt_GrantID := gid; rt_TokenHash := Hash (it_RefreshToken tokens); rt_Scope := it_Scope tokens;
     rt_DeviceID := ""; rt_AuthenticatedAt := now s; rt_CreatedAt := now s;
     rt_ExpiresAt := now s + RefreshTokenTTL; rt_RevokedAt := None |}.

Lemma NewRefreshToken_run userID clientID tokens s :
  it_GrantID tokens <> "" ->
  NewRefreshToken userID clientID tokens s =
  (Ret (fresh_rt s (n_uuid s) (it_GrantID tokens) userID clientID tokens),
   mk_Sys (S (n_clock s)) (n_rand s) (S (n_uuid s)) (n_salt s) (n_disk s)).
Proof.
  intros Hne. unfold NewRefreshToken, bind, time_Now.
  destruct (String.eqb_spec (it_GrantID tokens) ""); [done|]. reflexivity.
Qed.

Lemma NewGrant_run userID clientID s :
  NewGrant userID clientID s =
  (Ret (mkGrant (uuid_NewString (n_uuid s)) userID clientID "" (now s) (now s)
          (now s + (RefreshTokenTTL + grantExpiryMargin)) None),
   mk_Sys (S (n_clock s)) (n_rand s) (S (n_uuid s)) (n_salt s) (n_disk s)).
Proof. reflexivity. Qed.

(** ** Rotation *)

(** A rotated token carries the client, device, authentication time and grant of
    the token it replaces, is bound to the raw token just issued, is not
    revoked, and lives a full TTL from the clock reading taken by the rotation. *)
Theorem rotate_carries_forward (userID : string) (tokens : IssuedTokens) (rt : RefreshToken) (s : Sys) :
  exists rt' s', RefreshToken_Rotate userID tokens rt s = (Ret rt', s') /\ sys_le s s' /\
    rt_ClientID rt' = rt_ClientID rt /\ rt_DeviceID rt' = rt_DeviceID rt /\
    rt_AuthenticatedAt rt' = rt_AuthenticatedAt rt /\
    (rt_GrantID rt <> "" -> rt_GrantID rt' = rt_GrantID rt) /\
    (rt_GrantID rt = "" -> it_GrantID tokens <> "" -> rt_GrantID rt' = it_GrantID tokens) /\
    rt_UserID rt' = userID /\ rt_TokenHash rt' = Hash (it_RefreshToken tokens) /\
    rt_Scope rt' = it_Scope tokens /\ rt_RevokedAt rt' = None /\
    rt_CreatedAt rt' = now s /\ rt_ExpiresAt rt' = now s + RefreshTokenTTL.
Proof.
  unfold RefreshToken_Rotate, NewRefreshToken, bind, time_Now, uuid_New, mret, ST_ret.
  destruct (String.eqb_spec (it_GrantID tokens) "") as [Ht|Ht];
    destruct (String.eqb_spec (rt_GrantID rt) "") as [Hr|Hr];
    eexists _, _; (split; [reflexivity|]); split_and!; cbn;
    try done; try (unfold sys_le; cbn; lia); intros; congruence.
Qed.

(** ** The grant outlives its chain

    Once the grant has been extended to cover a refresh token, it is valid at
    every instant the token is, unless it was itself revoked; and it stays valid
    for one minute beyond the token's expiry. *)
Theorem grant_covers_token (g : Grant) (rt : RefreshToken) (s : Sys) :
  g_RevokedAt g = None ->
  (now s < rt_ExpiresAt rt + grantExpiryMargin <->
     (Grant_IsValid (Grant_ExtendToCover (rt_ExpiresAt rt) g) s).1 = Ret true) /\
  ((RefreshToken_IsValid rt s).1 = Ret true ->
     (Grant_IsValid (Grant_ExtendToCover (rt_ExpiresAt rt) g) s).1 = Ret true).
Proof.
  intros Hg. unfold Grant_IsValid, RefreshToken_IsValid, Grant_ExtendToCover. simpl. rewrite Hg.
  unfold bind, time_Now, mret, ST_ret, grantExpiryMargin, Minute, Second, now. simpl.
  split.
  - rewrite <- Z.ltb_lt. split; [by intros ->|by intros [=]].
  - destruct (rt_RevokedAt rt); [done|]. intros [= H%Z.ltb_lt]. simpl in *.
    f_equal. apply Z.ltb_lt. lia.
Qed.

End Token.
