(* ===== verification/Client.v ===== *)
(** * entity.Client (modules/auth/domain/entity/client.go) and the static client
      registry (modules/auth/adapter/out/config_client_registry.go)

    Client registration: parsing of the configured auth method and grants,
    validation, secret hashing, and the membership tests the endpoints use. *)

From S2P Require Import Prelude GoStd Crypto Errors Env Scope.

Local Open Scope Z_scope.

Definition ClientAuthNone : string := "none".
Definition ClientAuthSecretBasic : string := "client_secret_basic".
Definition ClientAuthSecretPost : string := "client_secret_post".

Definition ParseClientAuthMethod (raw : string) : string * option goerr :=
  if String.eqb raw ClientAuthNone || String.eqb raw ClientAuthSecretBasic ||
     String.eqb raw ClientAuthSecretPost
  then (raw, None)
  else ("", Some (ErrMsg ("unsupported token_endpoint_auth_method: " +:+ raw))).

Definition GrantAuthorizationCode : string := "authorization_code".
Definition GrantRefreshToken : string := "refresh_token".
Definition GrantPassword : string := "password".
Definition GrantClientCredentials : string := "client_credentials".

Definition ParseGrantType (raw : string) : string * option goerr :=
  if String.eqb raw GrantAuthorizationCode || String.eqb raw GrantRefreshToken ||
     String.eqb raw GrantPassword || String.eqb raw GrantClientCredentials
  then (raw, None)
  else ("", Some (ErrMsg ("unsupported grant type: " +:+ raw))).

Record Client := mkClient {
  c_ID : string;
  c_TenantID : string;
  c_AuthMethod : string;
  c_SecretHash : option string;
  c_RedirectURIs : list string;
  c_AllowedGrants : list string;
}.

Record ClientArgs := mkClientArgs {
  ca_ID : string;
  ca_TenantID : string;
  ca_AuthMethod : string;
  ca_Secret : string;
  ca_RedirectURIs : list string;
  ca_AllowedGrants : list string;
}.

Definition ClientArgs_validate (a : ClientArgs) : option goerr :=
  if Nat.eqb (length (ca_RedirectURIs a)) 0
  then Some (ErrMsg "client must have at least one redirect URI")
  else if Nat.eqb (length (ca_AllowedGrants a)) 0
  then Some (ErrMsg "client must allow at least one grant type")
  else if String.eqb (ca_AuthMethod a) ClientAuthNone then
    if negb (String.eqb (ca_Secret a) "")
    then Some (ErrMsg "public client (auth method none) must not have a secret") else None
  else if String.eqb (ca_AuthMethod a) ClientAuthSecretBasic ||
          String.eqb (ca_AuthMethod a) ClientAuthSecretPost then
    if String.eqb (ca_Secret a) ""
    then Some (ErrMsg "confidential client requires a secret") else None
  else Some (ErrMsg ("unsupported token_endpoint_auth_method: " +:+ ca_AuthMethod a)).

Definition Client_IsPublic (c : Client) : bool := String.eqb (c_AuthMethod c) ClientAuthNone.

Definition Client_AllowsGrant (c : Client) (grant : string) : bool :=
  contains (c_AllowedGrants c) grant.

Definition bcrypt_DefaultCost : Z := 10.

Section Client.
  Context {E : Env}.

Definition normalizeRedirectURI (raw : string) : string :=
  match url_Parse raw with
  | inr _ => raw
  | inl u => url_String u
  end.

Definition ClientArgs_hashSecret (a : ClientArgs) : ST Sys (option string * option goerr) :=
  if String.eqb (ca_AuthMethod a) ClientAuthNone then mret (None, None)
  else
    r ← bcrypt_GenerateFromPassword (ca_Secret a) bcrypt_DefaultCost;
    match r with
    | inr err => mret (None, Some err)
    | inl h => mret (Some h, None)
    end.

Definition NewClient (args : ClientArgs) : ST Sys (option Client * option goerr) :=
  match NewClientID (ca_ID args) with
  | (_, Some err) => mret (None, Some err)
  | (id, None) =>
    match ClientArgs_validate args with
    | Some err => mret (None, Some err)
    | None =>
      r ← ClientArgs_hashSecret args;
      match r with
      | (_, Some err) => mret (None, Some err)
      | (secretHash, None) =>
        let tenantID :=
          if String.eqb (ca_TenantID args) "" then DefaultTenantID else ca_TenantID args in
        mret (Some {| c_ID := id; c_TenantID := tenantID; c_AuthMethod := ca_AuthMethod args;
                      c_SecretHash := secretHash;
                      c_RedirectURIs := normalizeRedirectURI <$> ca_RedirectURIs args;
                      c_AllowedGrants := ca_AllowedGrants args |}, None)
      end
    end
  end.

Definition Client_VerifySecret (c : Client) (secret : string) : bool :=
  match c_SecretHash c with
  | None => false
  | Some h => bcrypt_Compare h secret
  end.

Definition Client_AllowsRedirectURI (c : Client) (uri : string) : bool :=
  contains (c_RedirectURIs c) (normalizeRedirectURI uri).

End Client.

(** ** ConfigClientRegistry *)

Notation ClientRegistry := (gmap (string * string) Client).

Definition NewConfigClientRegistry (clients : list Client) : ClientRegistry :=
  fold_left (fun m c => <[(c_TenantID c, c_ID c) := c]> m) clients ∅.

Definition Registry_FindByID (r : ClientRegistry) (tenantID id : string) : option Client :=
  r !! (tenantID, id).

(** ** Well-formed clients *)

Definition client_wf {E : Env} (c : Client) : Prop :=
  c_ID c <> "" /\ c_TenantID c <> "" /\ c_RedirectURIs c <> [] /\ c_AllowedGrants c <> [] /\
  (c_AuthMethod c = ClientAuthNone \/ c_AuthMethod c = ClientAuthSecretBasic \/
   c_AuthMethod c = ClientAuthSecretPost) /\
  (Client_IsPublic c = true <-> c_SecretHash c = None).

Section ClientProps.
  Context {E : Env}.

Lemma ClientArgs_validate_ok a :
  ClientArgs_validate a = None ->
  ca_RedirectURIs a <> [] /\ ca_AllowedGrants a <> [] /\
  ((ca_AuthMethod a = ClientAuthNone /\ ca_Secret a = "") \/
   ((ca_AuthMethod a = ClientAuthSecretBasic \/ ca_AuthMethod a = ClientAuthSecretPost) /\
    ca_Secret a <> "")).
Proof.
  unfold ClientArgs_validate.
  destruct (ca_RedirectURIs a); [done|]. destruct (ca_AllowedGrants a); [done|]. simpl.
  destruct (String.eqb_spec (ca_AuthMethod a) ClientAuthNone).
  { destruct (String.eqb_spec (ca_Secret a) ""); simpl; [auto|done]. }
  destruct (String.eqb_spec (ca_AuthMethod a) ClientAuthSecretBasic),
    (String.eqb_spec (ca_AuthMethod a) ClientAuthSecretPost); simpl;
    try done; destruct (String.eqb_spec (ca_Secret a) ""); try done; auto 10.
Qed.

(** Registration yields a well-formed client or an error: an id, a tenant, at
    least one redirect URI and grant, one of the three methods, and a secret
    hash exactly when the client is confidential.  Every URI it was registered
    with is then allowed, and a confidential client's own secret verifies. *)
Theorem NewClient_wf `{!BcryptSpec E} (args : ClientArgs) (s : Sys) :
  exists r s', NewClient args s = (Ret r, s') /\
    match r with
    | (None, err) => is_Some err
    | (Some c, err) =>
      err = None /\ client_wf c /\ c_ID c = ca_ID args /\
      Forall (fun uri => Client_AllowsRedirectURI c uri = true) (ca_RedirectURIs args) /\
      (Client_IsPublic c = false -> Client_VerifySecret c (ca_Secret args) = true)
    end.
Proof.
  unfold NewClient, NewClientID, ClientArgs_hashSecret.
  destruct (String.eqb_spec (ca_ID args) "") as [|Hid]; [eexists _, _; split; [reflexivity|by eexists]|].
  destruct (ClientArgs_validate args) eqn:Hv; [eexists _, _; split; [reflexivity|by eexists]|].
  apply ClientArgs_validate_ok in Hv as (Hu & Hg & Hm).
  set (tid := if String.eqb (ca_TenantID args) "" then _ else _).
  assert (tid <> "") as Htid by (unfold tid; destruct (String.eqb_spec (ca_TenantID args) ""); [by vm_compute|done]).
  assert (Forall (fun uri => contains (normalizeRedirectURI <$> ca_RedirectURIs args)
            (normalizeRedirectURI uri) = true) (ca_RedirectURIs args)) as Hall.
  { apply Forall_forall. intros uri Hin. apply contains_spec, list_elem_of_fmap. eauto. }
  assert (normalizeRedirectURI <$> ca_RedirectURIs args <> []) as Hne by (by destruct (ca_RedirectURIs args)).
  destruct (String.eqb_spec (ca_AuthMethod args) ClientAuthNone) as [Hn|Hn].
  - eexists _, _. split; [reflexivity|]. unfold client_wf, Client_IsPublic. simpl.
    rewrite Hn. split_and!; auto. done.
  - unfold bcrypt_GenerateFromPassword, bind.
    destruct (bcrypt_Generate _ _ _) as [h|e] eqn:Hb; [|eexists _, _; split; [reflexivity|by eexists]].
    eexists _, _. split; [reflexivity|]. unfold client_wf, Client_IsPublic, Client_VerifySecret. simpl.
    split_and!; auto.
    + naive_solver.
    + destruct (String.eqb_spec (ca_AuthMethod args) ClientAuthNone); naive_solver.
    + intros _. by eapply bcrypt_accepts.
Qed.

(** ** The registry answers with the last client registered under a key *)

Lemma registry_snoc cs c :
  NewConfigClientRegistry (cs ++ [c]) =
  <[(c_TenantID c, c_ID c) := c]> (NewConfigClientRegistry cs).
Proof. unfold NewConfigClientRegistry. by rewrite fold_left_app. Qed.

Lemma registry_find_sound cs tid id c :
  Registry_FindByID (NewConfigClientRegistry cs) tid id = Some c ->
  c ∈ cs /\ c_TenantID c = tid /\ c_ID c = id.
Proof.
  unfold Registry_FindByID. induction cs as [|c' cs IH] using rev_ind; [done|].
  rewrite registry_snoc, lookup_insert. rewrite elem_of_app, list_elem_of_singleton.
  case_decide as Heq; [|naive_solver]. intros [= ->]. naive_solver.
Qed.

End ClientProps.
