(* ===== verification/Validator.v ===== *)
(** * Registered validations (core/validator/validator.go)

    The four rules the program adds to go-playground's tags, and their
    registration on first use.  The library calls them with a field's string; what
    the tag language does around them is the library's. *)

From S2P Require Import Prelude GoStd Errors Env Scope User.

Local Open Scope Z_scope.

(** The class of [^(?i)[A-Za-z0-9!@#$%]{8,64}$]: Go folds case by Unicode's
    simple folding, so the letters bring U+017F (long s) and U+212A (kelvin). *)
Definition password_rune (r : Z) : bool :=
  in_range 65 90 r || in_range 97 122 r || in_range 48 57 r || existsb (Z.eqb r) [33; 64; 35; 36; 37] ||
  (r =? 0x17F) || (r =? 0x212A).

Definition passwordValidation (field : string) : bool :=
  forallb password_rune (runes field) && (8 <=? Z.of_nat (length (runes field))) &&
  (Z.of_nat (length (runes field)) <=? 64).

Definition hasWordValidation (field param : string) : bool :=
  forallb (contains (strings_Fields field)) (strings_Fields param).

Definition hasAnyWordValidation (field param : string) : bool :=
  existsb (contains (strings_Fields field)) (strings_Fields param).

(** What [url.Parse] tells about a URL besides its text. *)
Class UrlParts (E : Env) := {
  url_IsAbs : url_type -> bool;
  url_Host : url_type -> string;
  url_Fragment : url_type -> string;
}.

Definition redirectURIValidation {E : Env} {U : UrlParts E} (field : string) : bool :=
  match url_Parse field with
  | inr _ => false
  | inl u =>
    if negb (url_IsAbs u) || String.eqb (url_Host u) "" then false
    else String.eqb (url_Fragment u) ""
  end.

(** ** Passwords that pass the tag *)

Lemma ascii_runes s : is_ascii_string s = true -> length (runes s) = String.length s.
Proof.
  unfold is_ascii_string. induction s as [|a s IH]; [done|].
  cbn [bytes_of forallb]. rewrite andb_true_iff. intros [Ha Hs].
  unfold runes. cbn [segments]. rewrite Ha. cbn [fmap list_fmap length String.length]. f_equal. by apply IH.
Qed.

Lemma password_rune_ascii p :
  passwordValidation p = true -> is_ascii_string p = true -> 8 <= len p <= 64.
Proof.
  unfold passwordValidation, len. rewrite !andb_true_iff. intros [[_ H8] H64] Ha. rewrite (ascii_runes p Ha) in *. lia.
Qed.

(** Twenty-four kelvin signs after one character of each kind: 28 runes, 76 bytes. *)
Definition kelvin_password : string := "Aa1!" +:+ concat_str (repeat (utf8_encode 0x212A) 24).

Section Passwords.
  Context {E : Env} `{!BcryptSpec E}.

(** A registration whose ASCII password passes the tag and the policy is stored
    with that password. *)
Theorem tagged_password_registers (args : UserArgs) (s : Sys) :
  passwordValidation (ua_Password args) = true -> validatePassword (ua_Password args) = None ->
  is_ascii_string (ua_Password args) = true ->
  exists u s', NewUser args s = (Ret (Some u, None), s') /\ User_ValidatePassword u (ua_Password args) = true.
Proof.
  intros Htag Hpol Ha. destruct (password_rune_ascii _ Htag Ha) as [_ H64].
  destruct (bcrypt_total (n_salt s) (ua_Password args) passwordHashCost ltac:(done) ltac:(lia)) as [h Hh].
  unfold NewUser. rewrite Hpol. set (tid := if String.eqb (ua_TenantID args) "" then _ else _).
  unfold NewUserID, uuid_New, hashPassword, bcrypt_GenerateFromPassword, bind, mret, ST_ret. simpl. rewrite Hh.
  eexists _, _. split; [reflexivity|]. unfold User_ValidatePassword. simpl. by eapply bcrypt_accepts.
Qed.

(** The tag's folded letters let a password pass the tag and the policy that
    bcrypt refuses: the registration panics. *)
Theorem kelvin_password_panics (args : UserArgs) (s : Sys) :
  ua_Password args = kelvin_password ->
  passwordValidation (ua_Password args) = true /\ validatePassword (ua_Password args) = None /\
  exists msg s', NewUser args s = (Panic msg, s').
Proof.
  intros Hk. rewrite Hk. split; [by vm_compute|]. split; [reflexivity|].
  destruct (bcrypt_too_long (n_salt s) kelvin_password passwordHashCost ltac:(by vm_compute)) as [e He].
  unfold NewUser. rewrite Hk. replace (validatePassword kelvin_password) with (@None goerr) by reflexivity.
  set (tid := if String.eqb (ua_TenantID args) "" then _ else _).
  unfold NewUserID, uuid_New, hashPassword, bcrypt_GenerateFromPassword, bind, mret, ST_ret. simpl. rewrite He.
  by eexists _, _.
Qed.

End Passwords.

(** ** Registration

    The package's variables: the validator is made, and the rules are registered
    with it, on the first use. *)

Definition tagPassword : string := "passwordPattern".
Definition tagHasWord : string := "has_word".
Definition tagHasAnyWord : string := "has_any_word".
Definition tagRedirectURI : string := "redirect_uri".

Section Registration.
  Context {E : Env} {U : UrlParts E}.

(** A rule gets the field and the parameter of the tag. *)
Definition Rule : Type := string -> string -> bool.

(** [validator.New], [RegisterValidation] and [Struct] of go-playground's package. *)
Context {V A : Type} (validator_New : V) (RegisterValidation : string -> Rule -> V -> option goerr * V)
  (v_Struct : V -> A -> option goerr).

Record ValidatorVars := mkValidatorVars { vv_once : bool; vv_v : V; vv_initErr : list goerr }.

(** [errors.Join] drops the nils; no error is left when there is none. *)
Definition errors_Join (errs : list (option goerr)) : list goerr := omap id errs.

Definition initValidator : ST ValidatorVars unit := modify (fun st =>
  if vv_once st then st else
  let v := validator_New in
  let '(e1, v) := RegisterValidation tagPassword (fun field _ => passwordValidation field) v in
  let '(e2, v) := RegisterValidation tagHasWord hasWordValidation v in
  let '(e3, v) := RegisterValidation tagHasAnyWord hasAnyWordValidation v in
  let '(e4, v) := RegisterValidation tagRedirectURI (fun field _ => redirectURIValidation field) v in
  mkValidatorVars true v (errors_Join [e1; e2; e3; e4])).

Definition ValidateStruct (s : A) : ST ValidatorVars (list goerr) :=
  initValidator;;
  st ← get;
  match vv_initErr st with
  | [] => mret (errors_Join [v_Struct (vv_v st) s])
  | errs => mret (ErrMsg "validator initialization failed" :: errs)
  end.

(** What the package documents: registering a rule under a tag succeeds and
    binds it, leaving the other tags alone. *)
Context (bound : V -> string -> option Rule).
Context (register_spec : forall tag rule v, tag <> "" -> exists v', RegisterValidation tag rule v = (None, v') /\
  bound v' tag = Some rule /\ forall t, t <> tag -> bound v' t = bound v t).

Definition all_rules (v : V) : Prop :=
  bound v tagPassword = Some (fun field _ => passwordValidation field) /\
  bound v tagHasWord = Some hasWordValidation /\
  bound v tagHasAnyWord = Some hasAnyWordValidation /\
  bound v tagRedirectURI = Some (fun field _ => redirectURIValidation field).

Definition vars_ok (st : ValidatorVars) : Prop :=
  vv_once st = true -> vv_initErr st = [] /\ all_rules (vv_v st).

Lemma initValidator_run st : vars_ok st ->
  exists st', initValidator st = (Ret tt, st') /\ vv_once st' = true /\ vars_ok st' /\ (vv_once st = true -> st' = st).
Proof.
  intros Hok. unfold initValidator, modify. destruct (vv_once st) eqn:Ho; [by exists st|].
  destruct (register_spec tagPassword (fun field _ => passwordValidation field) validator_New ltac:(done)) as (v1 & -> & B1 & K1).
  destruct (register_spec tagHasWord hasWordValidation v1 ltac:(done)) as (v2 & -> & B2 & K2).
  destruct (register_spec tagHasAnyWord hasAnyWordValidation v2 ltac:(done)) as (v3 & -> & B3 & K3).
  destruct (register_spec tagRedirectURI (fun field _ => redirectURIValidation field) v3 ltac:(done)) as (v4 & -> & B4 & K4).
  eexists. split; [reflexivity|]. split_and!; [done| |done]. intros _. split; [done|].
  split_and!; simpl; [rewrite K4, K3, K2 by done|rewrite K4, K3 by done|rewrite K4 by done|]; done.
Qed.

(** Every validation runs with the four rules bound to their tags, whichever
    call comes first, and the validator is made once. *)
Theorem validations_registered (s : A) (st : ValidatorVars) :
  vars_ok st ->
  exists st', ValidateStruct s st = (Ret (errors_Join [v_Struct (vv_v st') s]), st') /\
    vv_once st' = true /\ all_rules (vv_v st') /\ vars_ok st' /\ (vv_once st = true -> st' = st).
Proof.
  intros Hok. destruct (initValidator_run st Hok) as (st' & Hrun & Ho & Hok' & Hsame). exists st'.
  destruct (Hok' Ho) as [He Hr]. unfold ValidateStruct, bind. rewrite Hrun. simpl. rewrite He. by split_and!.
Qed.

End Registration.
