(* ===== verification/AuthFlow.v ===== *)
(** * entity.AuthorizeRequest and entity.AuthCode
      (modules/auth/domain/entity/auth_request.go, auth_code.go)

    The two short-lived records of the authorization-code flow: the session the
    browser signs in under, with its failed-attempt counter, and the code it is
    exchanged for, with its PKCE challenge.  go-playground's struct validator is
    a parameter ([StructValidator]). *)

From S2P Require Import Prelude GoStd Crypto Errors Env Scope.

Local Open Scope Z_scope.

Definition AuthorizeRequestTTL : Z := 10 * Minute.
Definition CodeChallengeMethodS256 : string := "S256".
Definition maxFailedAttempts : Z := 3.
Definition AuthCodeTTL : Z := 5 * Minute.

Record AuthorizeRequest := mkAuthorizeRequest {
  ar_ID : string;
  ar_CreatedAt : Z;
  ar_CSRFToken : string;
  ar_ClientID : string;
  ar_RedirectURI : string;
  ar_Scope : Scope;
  ar_State : option string;
  ar_Nonce : option string;
  ar_CodeChallenge : option string;
  ar_CodeChallengeMethod : option string;
  ar_FailedAttempts : Z;
}.

Record AuthorizeRequestArgs := mkAuthorizeRequestArgs {
  ara_ClientID : string;
  ara_RedirectURI : string;
  ara_Scope : string;
  ara_State : option string;
  ara_Nonce : option string;
  ara_CodeChallenge : option string;
  ara_CodeChallengeMethod : option string;
}.

Record AuthCode := mkAuthCode {
  ac_Code : string;
  ac_UserID : string;
  ac_ClientID : option string;
  ac_RedirectURI : string;
  ac_Scope : Scope;
  ac_Nonce : option string;
  ac_CodeChallenge : option string;
  ac_CodeChallengeMethod : option string;
  ac_ExpiresAt : Z;
}.

Record AuthCodeArgs := mkAuthCodeArgs {
  aca_UserID : string;
  aca_ClientID : string;
  aca_RedirectURI : string;
  aca_Scope : Scope;
  aca_Nonce : option string;
  aca_CodeChallenge : option string;
  aca_CodeChallengeMethod : option string;
}.

#[export] Instance AuthorizeRequest_eq_dec : EqDecision AuthorizeRequest.
Proof. solve_decision. Defined.
#[export] Instance AuthCode_eq_dec : EqDecision AuthCode.
Proof. solve_decision. Defined.

(** [validator.Validate.Struct] on the two entities. *)
Class StructValidator := {
  vs_AuthorizeRequest : AuthorizeRequest -> option goerr;
  vs_AuthCode : AuthCode -> option goerr;
}.

Definition AuthorizeRequest_RequestFail (s : AuthorizeRequest) : AuthorizeRequest :=
  mkAuthorizeRequest (ar_ID s) (ar_CreatedAt s) (ar_CSRFToken s) (ar_ClientID s) (ar_RedirectURI s)
    (ar_Scope s) (ar_State s) (ar_Nonce s) (ar_CodeChallenge s) (ar_CodeChallengeMethod s)
    (wrap64 (ar_FailedAttempts s + 1)).

Definition AuthorizeRequest_IsLockedOut (s : AuthorizeRequest) : bool :=
  maxFailedAttempts <=? ar_FailedAttempts s.

(** The S256 transform of RFC 7636. *)
Definition s256Challenge (verifier : string) : string :=
  base64_RawURL_EncodeToString (sha256_Sum256 (bytes_of verifier)).

Definition AuthCode_verifyCodeVerifier (a : AuthCode) (verifier : string) : option goerr :=
  match ac_CodeChallenge a with
  | None => None
  | Some codeChallenge =>
    if String.eqb verifier "" then Some (ErrMsg "code_verifier required") else
    let method := match ac_CodeChallengeMethod a with
                  | Some m => m
                  | None => CodeChallengeMethodS256
                  end in
    if negb (String.eqb method CodeChallengeMethodS256)
    then Some (ErrMsg "unsupported code_challenge_method")
    else if negb (String.eqb (s256Challenge verifier) codeChallenge)
    then Some (ErrMsg "code_verifier mismatch")
    else None
  end.

Definition AuthCode_matchesRedirectURI (a : AuthCode) (redirectURI : string) : bool :=
  String.eqb (ac_RedirectURI a) redirectURI.

(** One branch of a run: the result by computation, the counters by arithmetic. *)
Ltac run_case :=
  eexists _, _; split; [reflexivity|]; split; [unfold sys_le; simpl; lia|].

Section AuthFlow.
  Context {E : Env} {SV : StructValidator}.

Definition AuthorizeRequest_Validate (s : AuthorizeRequest) : option goerr :=
  if Scope_IsEmpty (ar_Scope s) then Some (ErrMsg "scope is required")
  else if negb (Scope_Contains (ar_Scope s) ScopeOpenID)
  then Some (ErrMsg "scope must include openid")
  else vs_AuthorizeRequest s.

Definition generateCSRFToken : ST Sys (string * option goerr) := random_Token.

Definition NewAuthorizeRequest (args : AuthorizeRequestArgs)
  : ST Sys (option AuthorizeRequest * option goerr) :=
  match NewClientID (ara_ClientID args) with
  | (_, Some err) => mret (None, Some err)
  | (clientID, None) =>
    match NewScope (strings_Fields (ara_Scope args)) with
    | (_, Some err) => mret (None, Some err)
    | (scope, None) =>
      r ← generateCSRFToken;
      match r with
      | (_, Some err) => mret (None, Some err)
      | (csrfToken, None) =>
        id ← NewSessionID;
        t ← time_Now;
        let s := {| ar_ID := id; ar_CreatedAt := t; ar_CSRFToken := csrfToken;
                    ar_ClientID := clientID; ar_RedirectURI := ara_RedirectURI args;
                    ar_Scope := scope; ar_State := ara_State args; ar_Nonce := ara_Nonce args;
                    ar_CodeChallenge := ara_CodeChallenge args;
                    ar_CodeChallengeMethod := ara_CodeChallengeMethod args;
                    ar_FailedAttempts := 0 |} in
        mret (Some s, AuthorizeRequest_Validate s)
      end
    end
  end.

(** The parse error is dropped: a URI that does not parse dereferences nil. *)
Definition AuthorizeRequest_BuildRedirectURI {St} (code : string) (s : AuthorizeRequest)
  : ST St string :=
  match url_Parse (ar_RedirectURI s) with
  | inr _ => panic "nil pointer dereference"
  | inl u =>
    let q := ("code", code) :: match ar_State s with Some st => [("state", st)] | None => [] end in
    mret (url_String (url_SetQuery q u))
  end.

Definition generateCode : ST Sys (string * option goerr) := random_Token.

Definition AuthCode_Validate (a : AuthCode) : option goerr :=
  if Scope_IsEmpty (ac_Scope a) then Some (ErrMsg "scope is required") else vs_AuthCode a.

Definition NewAuthCode (args : AuthCodeArgs) : ST Sys (option AuthCode * option goerr) :=
  r ← generateCode;
  match r with
  | (_, Some err) => mret (None, Some err)
  | (code, None) =>
    t ← time_Now;
    let a := {| ac_Code := code; ac_UserID := aca_UserID args; ac_ClientID := Some (aca_ClientID args);
                ac_RedirectURI := aca_RedirectURI args; ac_Scope := aca_Scope args;
                ac_Nonce := aca_Nonce args; ac_CodeChallenge := aca_CodeChallenge args;
                ac_CodeChallengeMethod := aca_CodeChallengeMethod args;
                ac_ExpiresAt := t + AuthCodeTTL |} in
    mret (Some a, AuthCode_Validate a)
  end.

Definition AuthCode_IsExpired (a : AuthCode) : ST Sys bool :=
  t ← time_Now; mret (ac_ExpiresAt a <? t).

(** [\*a.ClientID] is dereferenced unchecked. *)
Definition AuthCode_matchesClient (a : AuthCode) (clientID : string) : ST Sys bool :=
  match ac_ClientID a with
  | None => panic "nil pointer dereference"
  | Some id => mret (String.eqb id clientID)
  end.

(** The conjunction is evaluated left to right and stops at the first false. *)
Definition AuthCode_IsValid (a : AuthCode) (clientID redirectURI verifier : string) : ST Sys bool :=
  expired ← AuthCode_IsExpired a;
  if expired then mret false else
  m ← AuthCode_matchesClient a clientID;
  if negb m then mret false else
  if negb (AuthCode_matchesRedirectURI a redirectURI) then mret false else
  match AuthCode_verifyCodeVerifier a verifier with
  | None => mret true
  | Some _ => mret false
  end.

(** ** PKCE and code validity *)

(** The verifier satisfies the challenge of the code. *)
Definition pkce_ok (a : AuthCode) (verifier : string) : Prop :=
  match ac_CodeChallenge a with
  | None => True
  | Some ch =>
    verifier <> "" /\ s256Challenge verifier = ch /\
    (ac_CodeChallengeMethod a = None \/ ac_CodeChallengeMethod a = Some CodeChallengeMethodS256)
  end.

Lemma verifyCodeVerifier_spec a verifier :
  AuthCode_verifyCodeVerifier a verifier = None <-> pkce_ok a verifier.
Proof.
  unfold AuthCode_verifyCodeVerifier, pkce_ok. destruct (ac_CodeChallenge a) as [ch|]; [|done].
  destruct (String.eqb_spec verifier ""); [naive_solver|].
  destruct (ac_CodeChallengeMethod a) as [m|]; [|];
    (destruct (String.eqb_spec (s256Challenge verifier) ch)); [..|naive_solver|naive_solver];
    destruct (String.eqb_spec m CodeChallengeMethodS256); naive_solver.
Qed.

(** A code with a client is valid exactly when it has not expired, was issued to
    this client for this redirect URI, and the verifier matches the challenge. *)
Theorem AuthCode_IsValid_spec (a : AuthCode) (cid clientID redirectURI verifier : string) (s : Sys) :
  ac_ClientID a = Some cid ->
  exists b s', AuthCode_IsValid a clientID redirectURI verifier s = (Ret b, s') /\ sys_le s s' /\
    (b = true <->
     now s <= ac_ExpiresAt a /\ cid = clientID /\ ac_RedirectURI a = redirectURI /\
     pkce_ok a verifier).
Proof.
  intros Hc. unfold AuthCode_IsValid, AuthCode_IsExpired, AuthCode_matchesClient,
    AuthCode_matchesRedirectURI, bind, time_Now, mret, ST_ret.
  rewrite Hc. fold (now s). pose proof (verifyCodeVerifier_spec a verifier) as HP.
  destruct (Z.ltb_spec (ac_ExpiresAt a) (now s)); [run_case; split; [done|lia]|].
  destruct (String.eqb_spec cid clientID); simpl; [|run_case; naive_solver].
  destruct (String.eqb_spec (ac_RedirectURI a) redirectURI); simpl; [|run_case; naive_solver].
  destruct (AuthCode_verifyCodeVerifier a verifier); run_case; [|tauto].
  split; [done|]. intros (_ & _ & _ & Hp). by apply HP in Hp.
Qed.

(** Read backwards: what a run that answers [true] has checked. *)
Lemma AuthCode_IsValid_true (a : AuthCode) (clientID redirectURI verifier : string) (s s' : Sys) :
  AuthCode_IsValid a clientID redirectURI verifier s = (Ret true, s') ->
  sys_le s s' /\ ac_ClientID a = Some clientID /\ now s <= ac_ExpiresAt a /\
  ac_RedirectURI a = redirectURI /\ pkce_ok a verifier.
Proof.
  unfold AuthCode_IsValid, AuthCode_IsExpired, AuthCode_matchesClient, AuthCode_matchesRedirectURI,
    bind, time_Now, mret, ST_ret. fold (now s).
  destruct (Z.ltb_spec (ac_ExpiresAt a) (now s)); [done|].
  destruct (ac_ClientID a) as [cid|]; [|done].
  destruct (String.eqb_spec cid clientID) as [->|]; [|done].
  destruct (String.eqb_spec (ac_RedirectURI a) redirectURI) as [->|]; [|done]. simpl.
  destruct (AuthCode_verifyCodeVerifier a verifier) eqn:Hv; [done|]. intros [= <-].
  apply verifyCodeVerifier_spec in Hv. split_and!; try done. unfold sys_le. simpl. lia.
Qed.

Lemma s256Challenge_length verifier : String.length (s256Challenge verifier) = 43%nat.
Proof. apply length_b64url_32, length_sha256. Qed.

End AuthFlow.
