(* ===== verification/Jwt.v ===== *)
(** * core/jwt, port.TokenService, infrastructure/jwt/jwt_service.go and the adapter

    The service builds the claim map of an access or ID token, signs it, and on
    the way back checks signing method, issuer, audience and token use.  Signing,
    decoding, signature verification and the validation of the registered time
    claims are golang-jwt: the parameter [JwtLib], with the documented behaviour
    the theorems rely on in [JwtSpec]. *)

From S2P Require Import Prelude GoStd Crypto Errors Env.

Local Open Scope Z_scope.

(** ** core/jwt *)

Record Claims := mkClaims {
  cl_Subject : string;
  cl_Scope : string;
  cl_Issuer : string;
  cl_Audience : list string;
  cl_ID : string;
  cl_ExpiresAt : option Z;
  cl_IssuedAt : option Z;
  cl_GrantID : string;
}.

Record IDTokenClaims := mkIDTokenClaims {
  icl_Subject : string;
  icl_Email : string;
  icl_EmailVerified : bool;
  icl_Nonce : string;
  icl_ExpiresAt : option Z;
}.

Record JWK := mkJWK {
  jwk_Kty : string; jwk_E : string; jwk_N : string; jwk_Alg : string; jwk_Use : string; jwk_Kid : string;
}.

(** ** port.TokenService *)

Record IDTokenArgs := mkIDTokenArgs {
  ida_UserID : string;
  ida_ClientID : string;
  ida_Email : string;
  ida_Nonce : string;
  ida_GrantID : string;
  ida_EmailVerified : bool;
  ida_ExpireSecs : Z;
}.

Class TokenServiceI := {
  ts_GenAccessToken : string -> string -> string -> Z -> ST Sys (string * option goerr);
  ts_GenRefreshToken : string -> ST Sys (string * option goerr);
  ts_GenIDToken : IDTokenArgs -> ST Sys (string * option goerr);
  ts_ParseJWT : string -> ST Sys (option Claims * option goerr);
  ts_ParseIDToken : string -> ST Sys (option IDTokenClaims * option goerr);
  ts_GetJWKS : gmap string (list JWK);
  ts_GetIssuer : string;
}.

(** What the use cases rely on: every operation returns and only moves the
    counters forward; a token means the same whenever it parses, and does not
    parse from its expiry on; a generated access token means what it was
    generated from. *)
Class TokenServiceLaws (E : Env) (TS : TokenServiceI) := {
  ts_genAccess_returns : forall u sc g secs s, exists r s',
    ts_GenAccessToken u sc g secs s = (Ret r, s') /\ sys_le s s';
  ts_genRefresh_returns : forall u s, exists r s',
    ts_GenRefreshToken u s = (Ret r, s') /\ sys_le s s';
  ts_genID_returns : forall a s, exists r s', ts_GenIDToken a s = (Ret r, s') /\ sys_le s s';
  ts_parse_returns : forall tok s, exists r s', ts_ParseJWT tok s = (Ret r, s') /\ sys_le s s';
  ts_parse_stable : forall tok s1 s2 c1 c2,
    (ts_ParseJWT tok s1).1 = Ret (Some c1, None) -> (ts_ParseJWT tok s2).1 = Ret (Some c2, None) -> c1 = c2;
  ts_parse_unexpired : forall tok s c e,
    (ts_ParseJWT tok s).1 = Ret (Some c, None) -> cl_ExpiresAt c = Some e -> now s < e;
  ts_gen_parse : forall u sc g secs s tok s' s2 c,
    ts_GenAccessToken u sc g secs s = (Ret (tok, None), s') -> 0 <= secs <= 86400 -> now s <= now s2 ->
    (ts_ParseJWT tok s2).1 = Ret (Some c, None) ->
    cl_Subject c = u /\ cl_Scope c = sc /\ cl_GrantID c = g /\
    (exists iat, cl_IssuedAt c = Some iat /\ time_Unix iat = time_Unix (now s)) /\
    (exists exp, cl_ExpiresAt c = Some exp /\ exp <= now s + secs * Second);
}.

(** ** golang-jwt *)

(** A claim value of [jwt.MapClaims]. *)
Inductive claimVal := CStr (s : string) | CInt (n : Z) | CBool (b : bool).

Notation MapClaims := (gmap string claimVal).

(** The typed claims [ParseWithClaims] fills in. *)
Record accessTokenClaims := mk_accessTokenClaims {
  at_Issuer : string; at_Subject : string; at_Audience : list string;
  at_ExpiresAt : option Z; at_NotBefore : option Z; at_IssuedAt : option Z; at_ID : string;
  at_Scope : string; at_TokenUse : string; at_Sid : string;
}.

Record idTokenClaims := mk_idTokenClaims {
  it_Issuer_ : string; it_Subject_ : string;
  it_ExpiresAt_ : option Z; it_NotBefore_ : option Z; it_IssuedAt_ : option Z;
  it_Email_ : string; it_EmailVerified_ : bool; it_Nonce_ : string; it_TokenUse_ : string;
}.

(** crypto/rsa *)
Record rsaPublicKey := mkRsaPublicKey { pk_E : Z; pk_N : Z }.
Record rsaPrivateKey := mkRsaPrivateKey { sk_PublicKey : rsaPublicKey; sk_D : Z }.

(** The Go type of a token's method, with its name: [*SigningMethodRSA] (RS256,
    RS384, RS512) or another one (HMAC, ECDSA, RSA-PSS, none). *)
Inductive SigningMethod := SigningMethodRSA (name : string) | SigningMethodOther (name : string).
Definition SigningMethodRS256 : SigningMethod := SigningMethodRSA "RS256".

(** [jwt.Token] as the key function gets it: the method, and [Header["alg"]]. *)
Record jwtToken := mkJwtToken { tk_Method : SigningMethod; tk_Alg : string }.
Definition Keyfunc : Type := jwtToken -> rsaPublicKey + goerr.

Class JwtLib := {
  (** method, claims, kid, key *)
  jwt_SignedString : SigningMethod -> MapClaims -> string -> rsaPrivateKey -> string + goerr;
  (** ParseWithClaims with the two claim types: clock reading and token; the flag
      is [token.Valid] *)
  jwt_ParseAccess : Keyfunc -> Z -> string -> (bool * accessTokenClaims) + goerr;
  jwt_ParseID : Keyfunc -> Z -> string -> (bool * idTokenClaims) + goerr;
  (** what a token's text says: its header and its claims; and whether its
      signature is one of a method under a key *)
  jwt_Header : string -> option jwtToken;
  jwt_AccessClaims : string -> option accessTokenClaims;
  jwt_IDClaims : string -> option idTokenClaims;
  jwt_Verify : SigningMethod -> rsaPublicKey -> string -> bool;
}.

Definition claim_str (m : MapClaims) (k : string) : string :=
  match m !! k with Some (CStr s) => s | _ => "" end.
Definition claim_bool (m : MapClaims) (k : string) : bool :=
  match m !! k with Some (CBool b) => b | _ => false end.
(** Numeric dates are whole seconds. *)
Definition claim_time (m : MapClaims) (k : string) : option Z :=
  match m !! k with Some (CInt n) => Some (n * Second) | _ => None end.
(** A single audience may be sent as a bare string. *)
Definition claim_aud (m : MapClaims) (k : string) : list string :=
  match m !! k with Some (CStr s) => [s] | _ => [] end.

Definition decode_access (m : MapClaims) : accessTokenClaims :=
  mk_accessTokenClaims (claim_str m "iss") (claim_str m "sub") (claim_aud m "aud")
    (claim_time m "exp") (claim_time m "nbf") (claim_time m "iat") (claim_str m "jti") (claim_str m "scope")
    (claim_str m "token_use") (claim_str m "sid").

Definition decode_id (m : MapClaims) : idTokenClaims :=
  mk_idTokenClaims (claim_str m "iss") (claim_str m "sub")
    (claim_time m "exp") (claim_time m "nbf") (claim_time m "iat") (claim_str m "email") (claim_bool m "email_verified") (claim_str m "nonce") (claim_str m "token_use").

(** [RegisteredClaims.Valid]: a present [exp] must be in the future, a present
    [iat] or [nbf] must not be. *)
Definition times_valid (exp nbf iat : option Z) (now_ : Z) : bool :=
  match exp with Some e => now_ <? e | None => true end &&
  match iat with Some i => i <=? now_ | None => true end &&
  match nbf with Some n => n <=? now_ | None => true end.

(** A token parses exactly when its text decodes, the key function has a key for
    its header, the signature verifies under that key with the token's own method,
    and the times are valid; and it says what its text says.  Signing puts the
    method and the claims into the text, with a signature that verifies under the
    public key. *)
Class JwtSpec (L : JwtLib) := {
  parse_access : forall kf t tok v c, jwt_ParseAccess kf t tok = inl (v, c) <->
    v = true /\ jwt_AccessClaims tok = Some c /\
    times_valid (at_ExpiresAt c) (at_NotBefore c) (at_IssuedAt c) t = true /\
    exists h key, jwt_Header tok = Some h /\ kf h = inl key /\ jwt_Verify (tk_Method h) key tok = true;
  parse_id : forall kf t tok v c, jwt_ParseID kf t tok = inl (v, c) <->
    v = true /\ jwt_IDClaims tok = Some c /\
    times_valid (it_ExpiresAt_ c) (it_NotBefore_ c) (it_IssuedAt_ c) t = true /\
    exists h key, jwt_Header tok = Some h /\ kf h = inl key /\ jwt_Verify (tk_Method h) key tok = true;
  signed_text : forall m kid sk tok, jwt_SignedString SigningMethodRS256 m kid sk = inl tok ->
    jwt_Header tok = Some (mkJwtToken SigningMethodRS256 "RS256") /\
    jwt_AccessClaims tok = Some (decode_access m) /\ jwt_IDClaims tok = Some (decode_id m) /\
    jwt_Verify SigningMethodRS256 (sk_PublicKey sk) tok = true;
}.

(** ** JWTService *)

Definition tokenUseAccess : string := "access".
Definition tokenUseID : string := "id".
Definition accessTokenAudience : string := "APP_ID".

Record JWTService := mkJWTService {
  js_privateKey : rsaPrivateKey; js_publicKey : rsaPublicKey; js_jwk : JWK; js_Issuer : string; js_kid : string;
}.

Section Jwt.
  Context {E : Env}.

Definition Claims_IsExpired (c : Claims) : ST Sys bool :=
  match cl_ExpiresAt c with
  | None => mret true
  | Some e => t ← time_Now; mret (e <? t)
  end.

Section Service.
  Context {L : JwtLib} (j : JWTService).

Definition signToken (claims : MapClaims) : string * option goerr :=
  match jwt_SignedString SigningMethodRS256 claims (js_kid j) (js_privateKey j) with
  | inr err => ("", Some err)
  | inl s => (s, None)
  end.

Definition verifyByKey : Keyfunc := fun token =>
  match tk_Method token with
  | SigningMethodRSA _ => inl (js_publicKey j)
  | SigningMethodOther _ => inr (ErrMsg ("invalid signing method: " +:+ tk_Alg token))
  end.

(** [now.Add(time.Second * time.Duration(expireSecs)).Unix()] *)
Definition expiry_Unix (now_ expireSecs : Z) : Z := time_Unix (now_ + wrap64 (Second * expireSecs)).

Definition access_claims (now_ : Z) (jti userID scope grantID : string) (expireSecs : Z) : MapClaims :=
  let claims : MapClaims := list_to_map
    [("sub", CStr userID); ("aud", CStr accessTokenAudience); ("scope", CStr scope);
     ("iat", CInt (time_Unix now_)); ("exp", CInt (expiry_Unix now_ expireSecs)); ("jti", CStr jti);
     ("iss", CStr (js_Issuer j)); ("token_use", CStr tokenUseAccess)] in
  if negb (String.eqb grantID "") then <["sid" := CStr grantID]> claims else claims.

Definition JWTService_GenAccessToken (userID scope grantID : string) (expireSecs : Z)
  : ST Sys (string * option goerr) :=
  now_ ← time_Now;
  jti ← uuid_New;
  mret (signToken (access_claims now_ jti userID scope grantID expireSecs)).

Definition JWTService_GenRefreshToken (userID : string) : ST Sys (string * option goerr) :=
  r ← random_Token;
  match r with
  | (_, Some err) => mret ("", Some (ErrWrapped ("gen random bytes failed for user " +:+ userID +:+ ": ") err))
  | (tok, None) => mret (tok, None)
  end.

Definition id_claims (now_ : Z) (args : IDTokenArgs) : MapClaims :=
  let claims : MapClaims := list_to_map
    [("iss", CStr (js_Issuer j)); ("sub", CStr (ida_UserID args)); ("aud", CStr (ida_ClientID args));
     ("iat", CInt (time_Unix now_)); ("exp", CInt (expiry_Unix now_ (ida_ExpireSecs args)));
     ("email", CStr (ida_Email args)); ("email_verified", CBool (ida_EmailVerified args));
     ("token_use", CStr tokenUseID)] in
  let claims := if negb (String.eqb (ida_Nonce args) "") then <["nonce" := CStr (ida_Nonce args)]> claims
                else claims in
  if negb (String.eqb (ida_GrantID args) "") then <["sid" := CStr (ida_GrantID args)]> claims else claims.

Definition JWTService_GenIDToken (args : IDTokenArgs) : ST Sys (string * option goerr) :=
  now_ ← time_Now;
  mret (signToken (id_claims now_ args)).

Definition JWTService_ParseJWT (tokenString : string) : ST Sys (option Claims * option goerr) :=
  t ← time_Now;
  match jwt_ParseAccess verifyByKey t tokenString with
  | inr err => mret (None, Some err)
  | inl (valid, parsed) =>
    if negb valid then mret (None, Some (ErrMsg "invalid token"))
    else if negb (String.eqb (at_Issuer parsed) (js_Issuer j)) then mret (None, Some (ErrMsg "invalid issuer"))
    else if negb (contains (at_Audience parsed) accessTokenAudience)
    then mret (None, Some (ErrMsg "invalid audience"))
    else if negb (String.eqb (at_TokenUse parsed) tokenUseAccess)
    then mret (None, Some (ErrMsg "not an access token"))
    else mret (Some (mkClaims (at_Subject parsed) (at_Scope parsed) (at_Issuer parsed)
                       (at_Audience parsed) (at_ID parsed) (at_ExpiresAt parsed) (at_IssuedAt parsed)
                       (at_Sid parsed)), None)
  end.

Definition JWTService_ParseIDToken (tokenString : string) : ST Sys (option IDTokenClaims * option goerr) :=
  t ← time_Now;
  match jwt_ParseID verifyByKey t tokenString with
  | inr err => mret (None, Some err)
  | inl (valid, parsed) =>
    if negb valid then mret (None, Some (ErrMsg "invalid token"))
    else if negb (String.eqb (it_Issuer_ parsed) (js_Issuer j)) then mret (None, Some (ErrMsg "invalid issuer"))
    else if negb (String.eqb (it_TokenUse_ parsed) tokenUseID)
    then mret (None, Some (ErrMsg "not an ID token"))
    else mret (Some (mkIDTokenClaims (it_Subject_ parsed) (it_Email_ parsed) (it_EmailVerified_ parsed)
                       (it_Nonce_ parsed) (it_ExpiresAt_ parsed)), None)
  end.

Definition JWTService_GetJWKS : gmap string (list JWK) := {["keys" := [js_jwk j]]}.

(** [JWTServiceAdapter]: the port, by delegation. *)
Definition JWTServiceAdapter : TokenServiceI := {|
  ts_GenAccessToken := JWTService_GenAccessToken;
  ts_GenRefreshToken := JWTService_GenRefreshToken;
  ts_GenIDToken := JWTService_GenIDToken;
  ts_ParseJWT := JWTService_ParseJWT;
  ts_ParseIDToken := JWTService_ParseIDToken;
  ts_GetJWKS := JWTService_GetJWKS;
  ts_GetIssuer := js_Issuer j;
|}.

End Service.

(** ** Tokens parse back *)

Lemma access_claims_lookup j now_ jti userID scope grantID secs :
  let m := access_claims j now_ jti userID scope grantID secs in
  claim_str m "iss" = js_Issuer j /\ claim_str m "sub" = userID /\ claim_aud m "aud" = [accessTokenAudience] /\
  claim_time m "exp" = Some (expiry_Unix now_ secs * Second) /\
  claim_time m "nbf" = None /\ claim_time m "iat" = Some (time_Unix now_ * Second) /\ claim_str m "jti" = jti /\
  claim_str m "scope" = scope /\ claim_str m "token_use" = tokenUseAccess /\ claim_str m "sid" = grantID.
Proof.
  unfold access_claims. destruct (String.eqb_spec grantID "") as [->|Hg]; simpl;
    unfold claim_str, claim_aud, claim_time; simplify_map_eq; done.
Qed.

Lemma id_claims_lookup j now_ args :
  let m := id_claims j now_ args in
  claim_str m "iss" = js_Issuer j /\ claim_str m "sub" = ida_UserID args /\
  claim_time m "exp" = Some (expiry_Unix now_ (ida_ExpireSecs args) * Second) /\
  claim_time m "nbf" = None /\ claim_time m "iat" = Some (time_Unix now_ * Second) /\
  claim_str m "email" = ida_Email args /\ claim_bool m "email_verified" = ida_EmailVerified args /\
  claim_str m "nonce" = ida_Nonce args /\ claim_str m "token_use" = tokenUseID /\
  claim_str m "sid" = ida_GrantID args.
Proof.
  unfold id_claims. destruct (String.eqb_spec (ida_Nonce args) "") as [Hn|Hn],
    (String.eqb_spec (ida_GrantID args) "") as [Hg|Hg]; simpl;
    unfold claim_str, claim_bool, claim_time; simplify_map_eq; rewrite ?Hn, ?Hg; done.
Qed.

End Jwt.

Section JwtProps.
  Context {E : Env} {L : JwtLib}.

Lemma time_Unix_bounds t : time_Unix t * Second <= t < time_Unix t * Second + Second.
Proof. unfold time_Unix, Second. Z.to_euclidean_division_equations. lia. Qed.

(** The expiry claim of a token with an admissible lifetime: no overflow, and
    within a second below the requested lifetime. *)
Lemma expiry_Unix_bounds t secs :
  0 <= secs <= 86400 ->
  expiry_Unix t secs * Second <= t + secs * Second < expiry_Unix t secs * Second + Second.
Proof.
  intros H. unfold expiry_Unix. rewrite wrap64_id by (unfold two63, Second; lia).
  pose proof (time_Unix_bounds (t + Second * secs)). lia.
Qed.

Lemma GenAccessToken_run j userID scope gid secs s :
  JWTService_GenAccessToken j userID scope gid secs s =
  (Ret (signToken j (access_claims j (now s) (uuid_NewString (n_uuid s)) userID scope gid secs)),
   mk_Sys (S (n_clock s)) (n_rand s) (S (n_uuid s)) (n_salt s) (n_disk s)).
Proof. reflexivity. Qed.

Section Spec.
  Context {JS : JwtSpec L}.

(** Who signed an accepted token: some RSA method, under the service's own key. *)
Definition signed_by (j : JWTService) (tok : string) : Prop :=
  exists name alg, jwt_Header tok = Some (mkJwtToken (SigningMethodRSA name) alg) /\
    jwt_Verify (SigningMethodRSA name) (js_publicKey j) tok = true.

Lemma verified_key (j : JWTService) tok :
  (exists h key, jwt_Header tok = Some h /\ verifyByKey j h = inl key /\ jwt_Verify (tk_Method h) key tok = true) <->
  signed_by j tok.
Proof.
  split.
  - intros ([[name|name] alg] & key & Hh & Hk & Hv); [|done]. injection Hk as <-. by exists name, alg.
  - intros (name & alg & Hh & Hv). by eexists _, _.
Qed.

Definition access_out (p : accessTokenClaims) : Claims :=
  mkClaims (at_Subject p) (at_Scope p) (at_Issuer p) (at_Audience p) (at_ID p) (at_ExpiresAt p) (at_IssuedAt p) (at_Sid p).
Definition id_out (p : idTokenClaims) : IDTokenClaims :=
  mkIDTokenClaims (it_Subject_ p) (it_Email_ p) (it_EmailVerified_ p) (it_Nonce_ p) (it_ExpiresAt_ p).

(** Exactly these tokens are accepted as access tokens, and as ID tokens. *)
Lemma ParseJWT_Some j tok s c :
  (JWTService_ParseJWT j tok s).1 = Ret (Some c, None) <->
  exists p, signed_by j tok /\ jwt_AccessClaims tok = Some p /\
    times_valid (at_ExpiresAt p) (at_NotBefore p) (at_IssuedAt p) (now s) = true /\
    at_Issuer p = js_Issuer j /\ accessTokenAudience ∈ at_Audience p /\ at_TokenUse p = tokenUseAccess /\ c = access_out p.
Proof.
  unfold JWTService_ParseJWT, bind, time_Now. fold (now s). split.
  - destruct (jwt_ParseAccess _ (now s) tok) as [[v p]|] eqn:Hp; [|done].
    apply parse_access in Hp as (-> & Hc & Ht & Hk). apply verified_key in Hk. simpl.
    destruct (String.eqb_spec (at_Issuer p) (js_Issuer j)); [|done]. simpl.
    destruct (contains (at_Audience p) accessTokenAudience) eqn:Ha; [|done]. simpl.
    destruct (String.eqb_spec (at_TokenUse p) tokenUseAccess); [|done]. intros [= <-]. apply contains_spec in Ha. eauto 10.
  - intros (p & Hk & Hc & Ht & Hi & Ha & Hu & ->). apply verified_key in Hk.
    rewrite (proj2 (parse_access (verifyByKey j) (now s) tok true p) (conj eq_refl (conj Hc (conj Ht Hk)))). simpl.
    rewrite Hi, String.eqb_refl. simpl. rewrite (proj2 (contains_spec _ _) Ha). simpl.
    rewrite Hu, String.eqb_refl. simpl. unfold access_out. by rewrite Hi.
Qed.

Lemma ParseIDToken_Some j tok s c :
  (JWTService_ParseIDToken j tok s).1 = Ret (Some c, None) <->
  exists p, signed_by j tok /\ jwt_IDClaims tok = Some p /\
    times_valid (it_ExpiresAt_ p) (it_NotBefore_ p) (it_IssuedAt_ p) (now s) = true /\
    it_Issuer_ p = js_Issuer j /\ it_TokenUse_ p = tokenUseID /\ c = id_out p.
Proof.
  unfold JWTService_ParseIDToken, bind, time_Now. fold (now s). split.
  - destruct (jwt_ParseID _ (now s) tok) as [[v p]|] eqn:Hp; [|done].
    apply parse_id in Hp as (-> & Hc & Ht & Hk). apply verified_key in Hk. simpl.
    destruct (String.eqb_spec (it_Issuer_ p) (js_Issuer j)); [|done]. simpl.
    destruct (String.eqb_spec (it_TokenUse_ p) tokenUseID); [|done]. intros [= <-]. eauto 10.
  - intros (p & Hk & Hc & Ht & Hi & Hu & ->). apply verified_key in Hk.
    rewrite (proj2 (parse_id (verifyByKey j) (now s) tok true p) (conj eq_refl (conj Hc (conj Ht Hk)))). simpl.
    rewrite Hi, String.eqb_refl. simpl. by rewrite Hu, String.eqb_refl.
Qed.

(** A refusal is an error, and both operations return. *)
Lemma ParseJWT_run j tok s : exists r,
  JWTService_ParseJWT j tok s = (Ret r, mk_Sys (S (n_clock s)) (n_rand s) (n_uuid s) (n_salt s) (n_disk s)) /\
  ((exists c, r = (Some c, None)) \/ exists err, r = (None, Some err)).
Proof.
  unfold JWTService_ParseJWT, bind, time_Now.
  destruct (jwt_ParseAccess _ _ tok) as [[v p]|]; [|eauto 10]. repeat (destruct (negb _); [eauto 10|]). eauto 10.
Qed.

Lemma ParseIDToken_run j tok s : exists r,
  JWTService_ParseIDToken j tok s = (Ret r, mk_Sys (S (n_clock s)) (n_rand s) (n_uuid s) (n_salt s) (n_disk s)) /\
  ((exists c, r = (Some c, None)) \/ exists err, r = (None, Some err)).
Proof.
  unfold JWTService_ParseIDToken, bind, time_Now.
  destruct (jwt_ParseID _ _ tok) as [[v p]|]; [|eauto 10]. repeat (destruct (negb _); [eauto 10|]). eauto 10.
Qed.

(** The text of a token the service generated. *)
Lemma access_token_text j userID scope gid tok secs s s' :
  JWTService_GenAccessToken j userID scope gid secs s = (Ret (tok, None), s') ->
  jwt_AccessClaims tok = Some (mk_accessTokenClaims (js_Issuer j) userID [accessTokenAudience]
    (Some (expiry_Unix (now s) secs * Second)) None (Some (time_Unix (now s) * Second)) (uuid_NewString (n_uuid s))
    scope tokenUseAccess gid) /\
  (exists c, jwt_IDClaims tok = Some c /\ it_TokenUse_ c = tokenUseAccess) /\
  (js_publicKey j = sk_PublicKey (js_privateKey j) -> signed_by j tok).
Proof.
  intros Hgen. rewrite GenAccessToken_run in Hgen. set (m := access_claims _ _ _ _ _ _ _) in Hgen.
  destruct (access_claims_lookup j (now s) (uuid_NewString (n_uuid s)) userID scope gid secs)
    as (H1 & H2 & H3 & H4 & H5 & H6 & H7 & H8 & H9 & H10). fold m in H1, H2, H3, H4, H5, H6, H7, H8, H9, H10.
  clearbody m. unfold signToken in Hgen.
  destruct (jwt_SignedString SigningMethodRS256 m (js_kid j) (js_privateKey j)) as [t|] eqn:Hs; [|done].
  injection Hgen as <- _. destruct (signed_text m _ _ t Hs) as (Hh & Ha & Hi & Hv).
  split; [rewrite Ha; unfold decode_access; by rewrite H1, H2, H3, H4, H5, H6, H7, H8, H9, H10|].
  split; [eexists; split; [exact Hi|exact H9]|]. intros Hk. eexists _, _. rewrite Hk. split; [exact Hh|exact Hv].
Qed.

Lemma id_token_text j args tok s s' :
  JWTService_GenIDToken j args s = (Ret (tok, None), s') ->
  exists c, jwt_AccessClaims tok = Some c /\ at_TokenUse c = tokenUseID.
Proof.
  change (JWTService_GenIDToken j args s) with (Ret (signToken j (id_claims j (now s) args)),
    mk_Sys (S (n_clock s)) (n_rand s) (n_uuid s) (n_salt s) (n_disk s)). intros Hgen.
  destruct (id_claims_lookup j (now s) args) as (_ & _ & _ & _ & _ & _ & _ & _ & Hu & _).
  set (m := id_claims _ _ _) in *. clearbody m. unfold signToken in Hgen.
  destruct (jwt_SignedString SigningMethodRS256 m (js_kid j) (js_privateKey j)) as [t|] eqn:Hs; [|done].
  injection Hgen as <- _. destruct (signed_text m _ _ t Hs) as (_ & Ha & _). eexists. split; [exact Ha|exact Hu].
Qed.

(** An access token the service signed parses, at any later instant before its
    expiry, to the subject, scope, grant and identifiers it was issued with, and
    is refused from its expiry on; its expiry lies at most the requested
    lifetime after issuance and less than a second short of it. *)
Theorem access_token_roundtrip (j : JWTService) (userID scope gid tok : string) (secs : Z) (s s' s2 : Sys) :
  js_publicKey j = sk_PublicKey (js_privateKey j) ->
  JWTService_GenAccessToken j userID scope gid secs s = (Ret (tok, None), s') ->
  0 <= secs <= 86400 -> now s <= now s2 ->
  exists exp iat r s3, JWTService_ParseJWT j tok s2 = (Ret r, s3) /\
    exp <= now s + secs * Second < exp + Second /\ iat <= now s < iat + Second /\
    if now s2 <? exp
    then r = (Some (mkClaims userID scope (js_Issuer j) [accessTokenAudience] (uuid_NewString (n_uuid s))
                      (Some exp) (Some iat) gid), None)
    else exists err, r = (None, Some err).
Proof.
  intros Hkey Hgen Hsecs Hlater. destruct (access_token_text _ _ _ _ _ _ _ _ Hgen) as (Ht & _ & Hk). specialize (Hk Hkey).
  exists (expiry_Unix (now s) secs * Second), (time_Unix (now s) * Second).
  destruct (ParseJWT_run j tok s2) as (r & Hr & Hcase). eexists r, _. split; [exact Hr|].
  pose proof (expiry_Unix_bounds (now s) secs Hsecs). pose proof (time_Unix_bounds (now s)).
  split; [lia|]. split; [lia|]. destruct (Z.ltb_spec (now s2) (expiry_Unix (now s) secs * Second)).
  - assert ((JWTService_ParseJWT j tok s2).1 = Ret (Some (mkClaims userID scope (js_Issuer j) [accessTokenAudience]
      (uuid_NewString (n_uuid s)) (Some (expiry_Unix (now s) secs * Second)) (Some (time_Unix (now s) * Second)) gid), None)) as Hp.
    { apply ParseJWT_Some. eexists. split; [exact Hk|]. split; [exact Ht|]. simpl. split; [|by repeat constructor].
      unfold times_valid. rewrite andb_true_r, andb_true_iff. lia. }
    rewrite Hr in Hp. by injection Hp.
  - destruct Hcase as [[c ->]|]; [|done]. assert ((JWTService_ParseJWT j tok s2).1 = Ret (Some c, None)) as Hp by (by rewrite Hr).
    apply ParseJWT_Some in Hp as (p & _ & Hp & Hv & _). rewrite Ht in Hp. injection Hp as <-. unfold times_valid in Hv.
    simpl in Hv. rewrite andb_true_r, andb_true_iff in Hv. lia.
Qed.

(** The two kinds of token are not interchangeable: an access token never
    parses as an ID token, and an ID token never parses as an access token. *)
Theorem token_kinds_disjoint (j : JWTService) (userID scope gid tok : string) (secs : Z)
    (args : IDTokenArgs) (s s' s2 : Sys) :
  (JWTService_GenAccessToken j userID scope gid secs s = (Ret (tok, None), s') ->
     exists err s3, JWTService_ParseIDToken j tok s2 = (Ret (None, Some err), s3)) /\
  (JWTService_GenIDToken j args s = (Ret (tok, None), s') ->
     exists err s3, JWTService_ParseJWT j tok s2 = (Ret (None, Some err), s3)).
Proof.
  split; intros Hgen.
  - destruct (access_token_text _ _ _ _ _ _ _ _ Hgen) as (_ & (c & Hc & Hu) & _).
    destruct (ParseIDToken_run j tok s2) as (r & Hr & [[c' ->]|[err ->]]); [|eauto].
    assert ((JWTService_ParseIDToken j tok s2).1 = Ret (Some c', None)) as Hp by (by rewrite Hr).
    apply ParseIDToken_Some in Hp as (p & _ & Hp & _ & _ & Hu' & _). rewrite Hc in Hp. injection Hp as <-. by rewrite Hu in Hu'.
  - destruct (id_token_text _ _ _ _ _ Hgen) as (c & Hc & Hu).
    destruct (ParseJWT_run j tok s2) as (r & Hr & [[c' ->]|[err ->]]); [|eauto].
    assert ((JWTService_ParseJWT j tok s2).1 = Ret (Some c', None)) as Hp by (by rewrite Hr).
    apply ParseJWT_Some in Hp as (p & _ & Hp & _ & _ & _ & Hu' & _). rewrite Hc in Hp. injection Hp as <-. by rewrite Hu in Hu'.
Qed.

(** ** The adapter keeps the promises of the port *)

Lemma time_Unix_Second n : time_Unix (n * Second) = n.
Proof. unfold time_Unix. apply Z.div_mul. done. Qed.

Lemma jwt_parse_unexpired j tok s c e :
  (JWTService_ParseJWT j tok s).1 = Ret (Some c, None) -> cl_ExpiresAt c = Some e -> now s < e.
Proof.
  intros (p & _ & _ & Ht & _ & _ & _ & ->)%ParseJWT_Some He. simpl in He. rewrite He in Ht. unfold times_valid in Ht.
  rewrite !andb_true_iff in Ht. lia.
Qed.

Lemma jwt_gen_parse j u sc g secs s tok s' s2 c :
  JWTService_GenAccessToken j u sc g secs s = (Ret (tok, None), s') -> 0 <= secs <= 86400 ->
  (JWTService_ParseJWT j tok s2).1 = Ret (Some c, None) ->
  cl_Subject c = u /\ cl_Scope c = sc /\ cl_GrantID c = g /\
  (exists iat, cl_IssuedAt c = Some iat /\ time_Unix iat = time_Unix (now s)) /\
  (exists exp, cl_ExpiresAt c = Some exp /\ exp <= now s + secs * Second).
Proof.
  intros Hgen Hsecs Hp. destruct (access_token_text _ _ _ _ _ _ _ _ Hgen) as (Ht & _).
  apply ParseJWT_Some in Hp as (p & _ & Hp & _ & _ & _ & _ & ->). rewrite Ht in Hp. injection Hp as <-. simpl.
  pose proof (expiry_Unix_bounds (now s) secs Hsecs).
  split_and!; try done; eexists; (split; [reflexivity|]); [apply time_Unix_Second|lia].
Qed.

#[export] Instance jwt_laws (j : JWTService) : TokenServiceLaws E (JWTServiceAdapter j).
Proof.
  split; simpl.
  - intros. rewrite GenAccessToken_run. eexists _, _. split; [reflexivity|]. unfold sys_le. simpl. lia.
  - intros u s. unfold JWTService_GenRefreshToken, bind, random_Token.
    destruct (rand_Read (n_rand s)); (eexists _, _; split; [reflexivity|]; unfold sys_le; simpl; lia).
  - intros a s. eexists _, _. split; [reflexivity|]. unfold sys_le. simpl. lia.
  - intros tok s. destruct (ParseJWT_run j tok s) as (r & -> & _). eexists _, _. split; [reflexivity|].
    unfold sys_le. simpl. lia.
  - intros tok s1 s2 c1 c2 (p1 & _ & H1 & _ & _ & _ & _ & ->)%ParseJWT_Some (p2 & _ & H2 & _ & _ & _ & _ & ->)%ParseJWT_Some.
    rewrite H1 in H2. by injection H2 as ->.
  - intros tok s c e. apply jwt_parse_unexpired.
  - intros u sc g secs s tok s' s2 c Hgen Hsecs _. by apply (jwt_gen_parse j u sc g secs s tok s' s2 c).
Qed.

End Spec.
End JwtProps.

(** C32: The JWT adapter keeps the promises of the token-service port, whatever its
    issuer and keys, and parses exactly the tokens it should.  The text of an
    access token it accepts has a header with an RSA signing method and a signature
    that verifies under the service's public key; its times are valid at the
    reading of the clock; its issuer is the service's, its audience contains the
    application's, its use is "access"; the claims returned are the text's.  And
    every such token is accepted.  The same holds of ID tokens with the use "id".
    (Decoding and verifying are golang-jwt's.) *)
Theorem jwt_service_implements_port {E : Env} {L : JwtLib} (j : JWTService) :
  JwtSpec L -> TokenServiceLaws E (JWTServiceAdapter j) /\
  (forall tok s c, (ts_ParseJWT (TokenServiceI := JWTServiceAdapter j) tok s).1 = Ret (Some c, None) <->
     exists p, signed_by j tok /\ jwt_AccessClaims tok = Some p /\
       times_valid (at_ExpiresAt p) (at_NotBefore p) (at_IssuedAt p) (now s) = true /\
       at_Issuer p = js_Issuer j /\ accessTokenAudience ∈ at_Audience p /\ at_TokenUse p = tokenUseAccess /\
       c = access_out p) /\
  (forall tok s c, (ts_ParseIDToken (TokenServiceI := JWTServiceAdapter j) tok s).1 = Ret (Some c, None) <->
     exists p, signed_by j tok /\ jwt_IDClaims tok = Some p /\
       times_valid (it_ExpiresAt_ p) (it_NotBefore_ p) (it_IssuedAt_ p) (now s) = true /\
       it_Issuer_ p = js_Issuer j /\ it_TokenUse_ p = tokenUseID /\ c = id_out p).
Proof.
  intros JS. split; [exact _|]. split; intros tok s c; [apply ParseJWT_Some|apply ParseIDToken_Some].
Qed.
