(* ===== verification/Cache.v ===== *)
(** * core/cache and infrastructure/cache/memory.go

    The cache port as a class over an abstract cache state, with the laws the
    use cases rely on, and [MemoryCache], which discharges them.  Also the key
    formats of define/cache_keys.go.

    A cache stores a Go value; a read marshals it to JSON and unmarshals it
    into the caller's variable.  [dest A] is that last step for a variable of
    type [A]: the decoded value or the error of [json.Unmarshal]. *)

From S2P Require Import Prelude GoStd Crypto Errors Env Scope AuthFlow.

Local Open Scope Z_scope.

(** ** Values and JSON destinations *)

Inductive cacheVal :=
| VSession (s : AuthorizeRequest)
| VAuthCode (c : AuthCode)
| VBool (b : bool)
| VInt64 (n : Z).

Definition dest (A : Type) : Type := cacheVal -> A + goerr.

Definition time_zero : Z := -62135596800 * Second.

Definition json_opt (o : option string) : option string := json_string <$> o.

(** Scope values travel as one JSON string and are parsed again on arrival. *)
Definition json_Scope (s : Scope) : Scope + goerr :=
  match Scope_UnmarshalJSON (Scope_MarshalJSON s) with
  | (_, Some err) => inr err
  | (s', None) => inl s'
  end.

Definition json_session (s : AuthorizeRequest) (scope : Scope) : AuthorizeRequest :=
  mkAuthorizeRequest (json_string (ar_ID s)) (ar_CreatedAt s) (json_string (ar_CSRFToken s))
    (json_string (ar_ClientID s)) (json_string (ar_RedirectURI s)) scope (json_opt (ar_State s))
    (json_opt (ar_Nonce s)) (json_opt (ar_CodeChallenge s)) (json_opt (ar_CodeChallengeMethod s))
    (ar_FailedAttempts s).

Definition json_code (c : AuthCode) (scope : Scope) : AuthCode :=
  mkAuthCode (json_string (ac_Code c)) (json_string (ac_UserID c)) (json_opt (ac_ClientID c))
    (json_string (ac_RedirectURI c)) scope (json_opt (ac_Nonce c)) (json_opt (ac_CodeChallenge c))
    (json_opt (ac_CodeChallengeMethod c)) (ac_ExpiresAt c).

Definition json_mismatch {A} : A + goerr := inr (ErrMsg "json: cannot unmarshal value of this type").

(** [dest == nil]: the caller only asks whether the key is present. *)
Definition destNil : dest unit := fun _ => inl tt.

Definition destInt64 : dest Z := fun v =>
  match v with VInt64 n => inl n | _ => json_mismatch end.

(** The two structs share the JSON keys [scope] and [nonce] (matched without
    regard to case); every other key of the one is unknown to the other. *)
Definition destSession : dest AuthorizeRequest := fun v =>
  match v with
  | VSession s =>
    match json_Scope (ar_Scope s) with
    | inl sc => inl (json_session s sc) | inr e => inr e end
  | VAuthCode c =>
    match json_Scope (ac_Scope c) with
    | inl sc => inl (mkAuthorizeRequest "" time_zero "" "" "" sc None (json_opt (ac_Nonce c)) None None 0)
    | inr e => inr e end
  | VBool _ | VInt64 _ => json_mismatch
  end.

Definition destCode : dest AuthCode := fun v =>
  match v with
  | VAuthCode c =>
    match json_Scope (ac_Scope c) with
    | inl sc => inl (json_code c sc) | inr e => inr e end
  | VSession s =>
    match json_Scope (ar_Scope s) with
    | inl sc => inl (mkAuthCode "" "" None "" sc (json_opt (ar_Nonce s)) None None time_zero)
    | inr e => inr e end
  | VBool _ | VInt64 _ => json_mismatch
  end.

(** ** Keys (define/cache_keys.go, forgot_password.go, rate_limit.go) *)

Definition AuthorizeRequestCacheKey (id : string) : string := "auth:request:" +:+ id.
Definition AuthCodeCacheKey (code : string) : string := "auth:code:" +:+ code.
Definition ForgotPasswordRateKey (h : string) : string := "pwreset:rl:" +:+ h.
Definition BlacklistKey (jti : string) : string := "blacklist:" +:+ jti.
Definition RevokedGrantKey (grantID : string) : string := "revoked_grant:" +:+ grantID.
Definition SessionsInvalidatedKey (userID : string) : string := "sessions_invalidated:" +:+ userID.
Definition rateLimitCacheKey (ip : string) : string := "ratelimit:" +:+ ip.

(** ** The port *)

Class CacheI := {
  CS : Type;
  cache_Set : string -> cacheVal -> option Z -> ST (Sys * CS) (option goerr);
  cache_Get : forall {A}, string -> dest A -> ST (Sys * CS) (option A);
  cache_GetErr : forall {A}, string -> dest A -> ST (Sys * CS) (option A * option goerr);
  cache_GetAndDelete : forall {A}, string -> dest A -> ST (Sys * CS) (option A);
  cache_Delete : string -> ST (Sys * CS) unit;
  cache_IncrWindow : string -> Z -> ST (Sys * CS) (Z * option goerr);
  (** the value and expiry stored under a key; [None] never expires *)
  cache_entry : CS -> string -> option (cacheVal * option Z);
}.

(** The value a read at instant [t] finds under a key. *)
Definition cache_live `{CacheI} (c : CS) (t : Z) (k : string) : option cacheVal :=
  match cache_entry c k with
  | Some (v, None) => Some v
  | Some (v, Some e) => if t <=? e then Some v else None
  | None => None
  end.

(** No entry but that of [k] is touched. *)
Definition same_except `{CacheI} (k : string) (c c' : CS) : Prop :=
  forall k', k' <> k -> cache_entry c' k' = cache_entry c k'.

(** Entries are kept, except that one expired by [t] may have been dropped. *)
Definition same_but_expired `{CacheI} (t : Z) (c c' : CS) : Prop :=
  forall k, cache_entry c' k = cache_entry c k \/
    (cache_entry c' k = None /\ exists v e, cache_entry c k = Some (v, Some e) /\ e < t).

(** The key holds the value, with an expiry [d] from an instant between [lo]
    and [hi] when a positive lifetime was given. *)
Definition cache_written `{CacheI} (k : string) (v : cacheVal) (ttl : option Z) (lo hi : Z) (c : CS) : Prop :=
  exists x, cache_entry c k = Some (v, x) /\
    forall d, ttl = Some d -> 0 < d -> exists t, lo <= t <= hi /\ x = Some (t + d).

(** A value found in the cache, decoded. *)
Definition decoded {A} (d : dest A) (v : cacheVal) : option A :=
  match d v with inl a => Some a | inr _ => None end.

Definition decoded_err {A} (d : dest A) (v : cacheVal) : option A * option goerr :=
  match d v with inl a => (Some a, None) | inr e => (None, Some e) end.

(** What counting up [k] does, at instant [t], and the count it comes to: a new
    window when the key holds nothing, one more in the window it holds. *)
Definition counts_up `{CacheI} (k : string) (window t : Z) (c c' : CS) (n : Z) : Prop :=
  (cache_live c t k = None -> n = 1 /\ cache_entry c' k = Some (VInt64 1, Some (t + window))) /\
  (forall m e, cache_entry c k = Some (VInt64 m, Some e) -> t <= e ->
     n = wrap64 (m + 1) /\ cache_entry c' k = Some (VInt64 n, Some e)).

(** What the use cases rely on.  The backend may fail: a read then misses or
    reports an error, a write or a count that reports an error may or may not have
    happened.  A read never finds what had expired when it started or what was
    never there; one that reports no error misses nothing that is live when it
    ends.  A key read by [GetAndDelete] is gone afterwards. *)
Class CacheLaws (E : Env) (C : CacheI) := {
  set_law : forall k v ttl s c,
    wp (cache_Set k v ttl) (fun o '(s', c') => sys_le s s' /\ same_except k c c' /\
      exists err, o = Ret err /\
        (cache_written k v ttl (now s) (now s') c' \/
         (err <> None /\ cache_entry c' k = cache_entry c k))) (s, c);
  get_law : forall A k (d : dest A) s c,
    wp (cache_Get k d) (fun o '(s', c') => sys_le s s' /\ same_but_expired (now s') c c' /\
      exists r, o = Ret r /\
        forall a, r = Some a -> exists v, cache_live c (now s) k = Some v /\ d v = inl a) (s, c);
  getErr_law : forall A k (d : dest A) s c,
    wp (cache_GetErr k d) (fun o '(s', c') => sys_le s s' /\ same_but_expired (now s') c c' /\
      exists r, o = Ret r /\
        (r.2 = None -> forall v, cache_live c (now s') k = Some v -> exists a, d v = inl a /\ r.1 = Some a) /\
        (forall a, r.1 = Some a -> r.2 = None /\
           exists v, cache_live c (now s) k = Some v /\ d v = inl a)) (s, c);
  getAndDelete_law : forall A k (d : dest A) s c,
    wp (cache_GetAndDelete k d) (fun o '(s', c') => sys_le s s' /\ same_except k c c' /\
      exists r, o = Ret r /\
        (cache_entry c' k = None \/ (r = None /\ cache_entry c' k = cache_entry c k)) /\
        (forall a, r = Some a -> exists v, cache_live c (now s) k = Some v /\ d v = inl a)) (s, c);
  delete_law : forall k s c,
    wp (cache_Delete k) (fun o '(s', c') => sys_le s s' /\ same_except k c c' /\ o = Ret tt /\
      (cache_entry c' k = None \/ cache_entry c' k = cache_entry c k)) (s, c);
  incrWindow_law : forall k window s c,
    wp (cache_IncrWindow k window) (fun o '(s', c') => sys_le s s' /\ same_except k c c' /\
      exists n err t, o = Ret (n, err) /\ now s <= t <= now s' /\
        match err with
        | None => counts_up k window t c c' n
        | Some _ => cache_entry c' k = cache_entry c k \/ exists n', counts_up k window t c c' n'
        end) (s, c);
}.

(** A backend that does not fail.  Some use cases drop the error of a write; what
    they achieve is stated for such a backend.  A count still reports an error for
    a key that holds something else. *)
Class CacheReliable {E : Env} (C : CacheI) := {
  set_reliable : forall k v ttl q, (cache_Set k v ttl q).1 = Ret None;
  get_reliable : forall A k (d : dest A) s c,
    wp (cache_Get k d) (fun o '(s', c') =>
      forall v, cache_live c (now s') k = Some v -> o = Ret (decoded d v)) (s, c);
  getErr_reliable : forall A k (d : dest A) s c,
    wp (cache_GetErr k d) (fun o '(s', c') =>
      (o = Ret (None, None) \/ exists v, cache_live c (now s) k = Some v /\ o = Ret (decoded_err d v)) /\
      forall v, cache_live c (now s') k = Some v -> o = Ret (decoded_err d v)) (s, c);
  getAndDelete_reliable : forall A k (d : dest A) s c,
    wp (cache_GetAndDelete k d) (fun o '(s', c') => cache_entry c' k = None /\
      forall v, cache_live c (now s') k = Some v -> o = Ret (decoded d v)) (s, c);
  delete_reliable : forall k s c, wp (cache_Delete k) (fun _ '(s', c') => cache_entry c' k = None) (s, c);
  incrWindow_reliable : forall k window s c,
    wp (cache_IncrWindow k window) (fun o '(s', c') =>
      cache_live c (now s) k = None \/ (exists m e, cache_entry c k = Some (VInt64 m, e)) ->
      exists n, o = Ret (n, None)) (s, c);
}.

Section live.
  Context `{C : CacheI}.

Lemma live_antitone c t t' k v :
  t <= t' -> cache_live c t' k = Some v -> cache_live c t k = Some v.
Proof.
  unfold cache_live. destruct (cache_entry c k) as [[v' [e|]]|]; try done.
  intros Ht. destruct (Z.leb_spec t' e), (Z.leb_spec t e); try done; lia.
Qed.

Lemma live_same_but_expired c c' t t' k :
  same_but_expired t c c' -> t <= t' -> cache_live c' t' k = cache_live c t' k.
Proof.
  intros H Ht. unfold cache_live. destruct (H k) as [->|(-> & v & e & -> & He)]; [done|].
  destruct (Z.leb_spec t' e); [lia|done].
Qed.

Lemma live_same_except c c' t k k' :
  same_except k c c' -> k' <> k -> cache_live c' t k' = cache_live c t k'.
Proof. intros H Hk. unfold cache_live. by rewrite H. Qed.

Lemma live_window c k v e t :
  cache_entry c k = Some (v, Some e) -> cache_live c t k = if t <=? e then Some v else None.
Proof. unfold cache_live. by intros ->. Qed.

End live.

(** ** MemoryCache *)

Record cacheItem := mk_cacheItem { ci_value : cacheVal; ci_expiresAt : option Z }.

Notation MemoryCache := (gmap string cacheItem).

Definition mc_NewMemoryCache : MemoryCache := ∅.

(** [!item.expiresAt.IsZero() && now.After(item.expiresAt)] *)
Definition item_expired (now_ : Z) (it : cacheItem) : bool :=
  match ci_expiresAt it with Some e => e <? now_ | None => false end.

Section MemoryCache.
  Context {E : Env}.

(** The clock and the map of one cache. *)
Definition mc_Now : ST (Sys * MemoryCache) Z := fun '(s, m) =>
  match time_Now s with (o, s') => (o, (s', m)) end.
Definition mc_items : ST (Sys * MemoryCache) MemoryCache := fun p => (Ret p.2, p).
Definition mc_put (m : MemoryCache) : ST (Sys * MemoryCache) unit := fun p => (Ret tt, (p.1, m)).

Definition mc_Set (key : string) (value : cacheVal) (ttl : option Z)
  : ST (Sys * MemoryCache) (option goerr) :=
  item ← (match ttl with
          | Some d => if 0 <? d then t ← mc_Now; mret (mk_cacheItem value (Some (t + d)))
                      else mret (mk_cacheItem value None)
          | None => mret (mk_cacheItem value None)
          end);
  m ← mc_items;
  mc_put (<[key := item]> m);;
  mret None.

Definition mc_getLiveItem (key : string) : ST (Sys * MemoryCache) (option cacheItem) :=
  m ← mc_items;
  match m !! key with
  | None => mret None
  | Some item =>
    match ci_expiresAt item with
    | None => mret (Some item)
    | Some e =>
      t ← mc_Now;
      if t <? e then mret (Some item)
      else
        (** second look, under the write lock *)
        m2 ← mc_items;
        match m2 !! key with
        | None => mret None
        | Some item2 =>
          match ci_expiresAt item2 with
          | None => mret (Some item2)
          | Some e2 =>
            t2 ← mc_Now;
            if e2 <? t2 then mc_put (delete key m2);; mret None
            else mret (Some item2)
          end
        end
    end
  end.

Definition mc_Get {A} (key : string) (d : dest A) : ST (Sys * MemoryCache) (option A) :=
  r ← mc_getLiveItem key;
  match r with
  | None => mret None
  | Some item => match d (ci_value item) with inl a => mret (Some a) | inr _ => mret None end
  end.

Definition mc_GetErr {A} (key : string) (d : dest A)
  : ST (Sys * MemoryCache) (option A * option goerr) :=
  r ← mc_getLiveItem key;
  match r with
  | None => mret (None, None)
  | Some item =>
    match d (ci_value item) with inl a => mret (Some a, None) | inr e => mret (None, Some e) end
  end.

Definition mc_GetAndDelete {A} (key : string) (d : dest A) : ST (Sys * MemoryCache) (option A) :=
  m ← mc_items;
  match m !! key with
  | None => mret None
  | Some item =>
    expired ← (match ci_expiresAt item with
               | None => mret false
               | Some e => t ← mc_Now; mret (e <? t)
               end);
    mc_put (delete key m);;
    if (expired : bool) then mret None
    else match d (ci_value item) with inl a => mret (Some a) | inr _ => mret None end
  end.

Definition mc_Delete (key : string) : ST (Sys * MemoryCache) unit :=
  m ← mc_items; mc_put (delete key m).

Definition mc_IncrWindow (key : string) (window : Z) : ST (Sys * MemoryCache) (Z * option goerr) :=
  t ← mc_Now;
  m ← mc_items;
  (** the item the increment works on: [None] is the zero [cacheItem] *)
  match
    (match m !! key with
     | None => inl None
     | Some item =>
       if item_expired t item then inl None
       else match ci_value item with
            | VInt64 v => inl (Some (v, ci_expiresAt item))
            | _ => inr (ErrMsg "WRONGTYPE operation against key holding non-integer value")
            end
     end)
  with
  | inr err => mret (0, Some err)
  | inl base =>
    let val := wrap64 (match base with Some (v, _) => v | None => 0 end + 1) in
    let exp := match base with Some (_, Some e) => e | _ => t + window end in
    mc_put (<[key := mk_cacheItem (VInt64 val) (Some exp)]> m);;
    mret (val, None)
  end.

(** The janitor's sweep; it runs between requests. *)
Definition mc_deleteExpired (now_ : Z) (m : MemoryCache) : MemoryCache :=
  filter (fun '(_, it) => item_expired now_ it = false) m.

#[export] Instance MemoryCacheI : CacheI := {|
  CS := MemoryCache;
  cache_Set := mc_Set;
  cache_Get := @mc_Get;
  cache_GetErr := @mc_GetErr;
  cache_GetAndDelete := @mc_GetAndDelete;
  cache_Delete := mc_Delete;
  cache_IncrWindow := mc_IncrWindow;
  cache_entry m k := (fun it => (ci_value it, ci_expiresAt it)) <$> (m !! k);
|}.

(** The three ways [getLiveItem] ends. *)
Lemma getLiveItem_run key s (m : MemoryCache) `{!ClockMono E} :
  exists r s' m', mc_getLiveItem key (s, m) = (Ret r, (s', m')) /\ sys_le s s' /\
    same_but_expired (now s') m m' /\
    (cache_live m (now s) key = None -> r = None) /\
    (forall v, cache_live m (now s') key = Some v -> exists it, r = Some it /\ ci_value it = v) /\
    (forall it, r = Some it -> cache_live m (now s) key = Some (ci_value it)).
Proof.
  assert (now s <= now (tick s)) as Hm1 by apply now_mono, sys_le_tick.
  assert (now (tick s) <= now (tick (tick s))) as Hm2 by apply now_mono, sys_le_tick.
  assert (sys_le s (tick (tick s))) as Hle2 by (unfold sys_le; simpl; lia).
  unfold mc_getLiveItem, bind, mc_items, mc_Now, mc_put, mret, ST_ret, cache_live. simpl.
  destruct (m !! key) as [it|] eqn:Hk; simpl.
  2:{ eexists _, s, m. split; [reflexivity|]. split; [done|]. split; [by left|]. naive_solver. }
  destruct (ci_expiresAt it) as [e|] eqn:He; simpl.
  2:{ eexists _, s, m. split; [reflexivity|]. split; [done|]. split; [by left|]. naive_solver. }
  change (clock (n_clock s)) with (now s).
  destruct (Z.ltb_spec (now s) e).
  { eexists _, (tick s), m. split; [reflexivity|]. split; [apply sys_le_tick|]. split; [by left|].
    destruct (Z.leb_spec (now s) e), (Z.leb_spec (now (tick s)) e); naive_solver lia. }
  change (clock (S (n_clock s))) with (now (tick s)).
  simpl. rewrite Hk. simpl. rewrite He. simpl. change (clock (S (n_clock s))) with (now (tick s)).
  destruct (Z.ltb_spec e (now (tick s))).
  - eexists _, (tick (tick s)), (delete key m). split; [reflexivity|]. split; [done|]. split.
    { intros k. simpl. destruct (decide (k = key)) as [->|Hne].
      - right. rewrite lookup_delete_eq. split; [done|]. exists (ci_value it), e.
        rewrite Hk. simpl. rewrite He. split; [done|lia].
      - left. by rewrite lookup_delete_ne. }
    destruct (Z.leb_spec (now s) e), (Z.leb_spec (now (tick (tick s))) e); naive_solver lia.
  - eexists _, (tick (tick s)), m. split; [reflexivity|]. split; [done|]. split; [by left|].
    destruct (Z.leb_spec (now s) e), (Z.leb_spec (now (tick (tick s))) e); naive_solver lia.
Qed.

Lemma mc_Set_run key v ttl s (m : MemoryCache) :
  mc_Set key v ttl (s, m) =
  match ttl with
  | Some d =>
    if 0 <? d then (Ret None, (tick s, <[key := mk_cacheItem v (Some (now s + d))]> m))
    else (Ret None, (s, <[key := mk_cacheItem v None]> m))
  | None => (Ret None, (s, <[key := mk_cacheItem v None]> m))
  end.
Proof. unfold mc_Set, bind. destruct ttl as [d|]; [destruct (0 <? d)|]; reflexivity. Qed.

Lemma same_except_insert key it (m : MemoryCache) : same_except key m (<[key := it]> m).
Proof. intros k Hk. simpl. by rewrite lookup_insert_ne. Qed.

Lemma same_except_delete key (m : MemoryCache) : same_except key m (delete key m).
Proof. intros k Hk. simpl. by rewrite lookup_delete_ne. Qed.

End MemoryCache.

#[export] Hint Resolve same_except_insert same_except_delete sys_le_tick : auth.

(** ** MemoryCache implements the port *)

Section MemoryCacheLaws.
  Context {E : Env} `{!ClockMono E}.

Lemma mc_set_law k v ttl s (m : MemoryCache) :
  wp (mc_Set k v ttl) (fun o '(s', c') => sys_le s s' /\ same_except k m c' /\
    exists err, o = Ret err /\
      (cache_written k v ttl (now s) (now s') c' \/
       (err <> None /\ cache_entry c' k = cache_entry m k))) (s, m).
Proof.
  unfold wp. rewrite mc_Set_run. destruct ttl as [d|]; [destruct (Z.ltb_spec 0 d)|]; simpl;
    (split; [auto with auth; reflexivity|]);
    (split; [apply same_except_insert|]); eexists; (split; [reflexivity|]); left;
    eexists; simpl; rewrite lookup_insert_eq; (split; [reflexivity|]); intros d' [= <-] Hd; [|lia].
  exists (now s). split; [split; [lia|apply now_mono, sys_le_tick]|done].
Qed.

Lemma mc_get_run A k (d : dest A) s (m : MemoryCache) :
  wp (mc_Get k d) (fun o '(s', c') => sys_le s s' /\ same_but_expired (now s') m c' /\
    exists r, o = Ret r /\
      (forall v, cache_live m (now s') k = Some v -> r = decoded d v) /\
      (forall a, r = Some a -> exists v, cache_live m (now s) k = Some v /\ d v = inl a)) (s, m).
Proof.
  destruct (getLiveItem_run k s m) as (r & s' & m' & Hr & Hle & Hs & _ & Hhit & Hlive).
  apply wp_bind. eapply wp_eq; [exact Hr|].
  destruct r as [it|].
  2:{ apply wp_ret. split_and!; [done..|]. eexists. split_and!; [reflexivity| |done].
      intros v Hv. by destruct (Hhit v Hv) as (it & ? & _). }
  specialize (Hlive it eq_refl).
  destruct (d (ci_value it)) eqn:Hd; apply wp_ret; (split; [done|]); (split; [done|]);
    eexists; (split; [reflexivity|]); (split; [|naive_solver]);
    intros v Hv; destruct (Hhit v Hv) as (it' & [= <-] & <-); unfold decoded; by rewrite Hd.
Qed.

Lemma mc_getErr_run A k (d : dest A) s (m : MemoryCache) :
  wp (mc_GetErr k d) (fun o '(s', c') => sys_le s s' /\ same_but_expired (now s') m c' /\
    exists r, o = Ret r /\
      (r = (None, None) \/ exists v, cache_live m (now s) k = Some v /\ r = decoded_err d v) /\
      (forall v, cache_live m (now s') k = Some v -> r = decoded_err d v)) (s, m).
Proof.
  destruct (getLiveItem_run k s m) as (r & s' & m' & Hr & Hle & Hs & Hmiss & Hhit & Hlive).
  apply wp_bind. eapply wp_eq; [exact Hr|]. unfold decoded_err.
  destruct r as [it|].
  2:{ apply wp_ret. split_and!; [done..|]. eexists. split_and!; [done|by left|]. intros v Hv. by destruct (Hhit v Hv) as (? & ? & _). }
  specialize (Hlive it eq_refl).
  destruct (d (ci_value it)) eqn:Hd; apply wp_ret; (split; [done|]); (split; [done|]);
    eexists; (split; [reflexivity|]); (split; [right; eexists; split; [exact Hlive|by rewrite Hd]|]);
    intros v Hv; destruct (Hhit v Hv) as (it' & [= <-] & <-); by rewrite Hd.
Qed.

Lemma mc_getErr_law A k (d : dest A) s (m : MemoryCache) :
  wp (mc_GetErr k d) (fun o '(s', c') => sys_le s s' /\ same_but_expired (now s') m c' /\
    exists r, o = Ret r /\
      (r.2 = None -> forall v, cache_live m (now s') k = Some v -> exists a, d v = inl a /\ r.1 = Some a) /\
      (forall a, r.1 = Some a -> r.2 = None /\
         exists v, cache_live m (now s) k = Some v /\ d v = inl a)) (s, m).
Proof.
  eapply wp_mono; [apply mc_getErr_run|]. intros o [s' c'] (L & Hs & r & -> & Hone & Hhit). split_and!; [done..|].
  exists r. unfold decoded_err in *. split_and!; [done| |].
  - intros Hr v Hv. rewrite (Hhit v Hv) in Hr |- *. destruct (d v); [eauto|done].
  - intros a Ha. destruct Hone as [->|(v & Hv & ->)]; [done|]. destruct (d v) eqn:Hd; [|done]. injection Ha as <-. eauto.
Qed.

Lemma mc_getAndDelete_run A k (d : dest A) s (m : MemoryCache) :
  wp (mc_GetAndDelete k d) (fun o '(s', c') => sys_le s s' /\ same_except k m c' /\
    cache_entry c' k = None /\
    exists r, o = Ret r /\
      (cache_live m (now s) k = None -> r = None) /\
      (forall v, cache_live m (now s') k = Some v -> r = decoded d v) /\
      (forall a, r = Some a -> exists v, cache_live m (now s) k = Some v /\ d v = inl a)) (s, m).
Proof.
  assert (now s <= now (tick s)) as Hm1 by apply now_mono, sys_le_tick.
  unfold wp, mc_GetAndDelete, bind, mc_items, mc_Now, mc_put, mret, ST_ret, cache_live, decoded. simpl.
  destruct (m !! k) as [it|] eqn:Hk; simpl.
  2:{ split; [done|]. split; [done|]. rewrite Hk. split; [done|]. eexists. naive_solver. }
  destruct (ci_expiresAt it) as [e|] eqn:He; simpl.
  - change (clock (n_clock s)) with (now s). fold (tick s).
    destruct (Z.ltb_spec e (now s)), (d (ci_value it)) eqn:Hd; simpl;
      (split; [apply sys_le_tick|]); (split; [apply same_except_delete|]);
      rewrite lookup_delete_eq; (split; [done|]); eexists; (split; [reflexivity|]);
      destruct (Z.leb_spec (now s) e), (Z.leb_spec (now (tick s)) e);
      split_and!; intros; simplify_eq/=; rewrite ?Hd; try done; try lia; eauto.
  - destruct (d (ci_value it)) eqn:Hd; simpl;
      (split; [done|]); (split; [apply same_except_delete|]);
      rewrite lookup_delete_eq; (split; [done|]); eexists; (split; [reflexivity|]);
      split_and!; intros; simplify_eq/=; rewrite ?Hd; try done; eauto.
Qed.

Lemma mc_incrWindow_run k window s (m : MemoryCache) :
  wp (mc_IncrWindow k window) (fun o '(s', c') => sys_le s s' /\ same_except k m c' /\
    exists n err, o = Ret (n, err) /\
      match err with
      | None => counts_up k window (now s) m c' n
      | Some _ => cache_entry c' k = cache_entry m k /\
          exists v, cache_live m (now s) k = Some v /\ forall i, v <> VInt64 i
      end) (s, m).
Proof.
  unfold wp, mc_IncrWindow, bind, mc_items, mc_Now, mc_put, mret, ST_ret, counts_up, cache_live, item_expired.
  simpl. change (clock (n_clock s)) with (now s). fold (tick s).
  destruct (m !! k) as [[v exp]|] eqn:Hk; simpl;
    [destruct exp as [e|]; [destruct (Z.ltb_spec e (now s))|]; [|destruct v..]|]; simpl;
    (split; [apply sys_le_tick|]);
    (split; [first [apply same_except_insert | done]|]);
    eexists _, _; (split; [reflexivity|]); cbv beta iota;
    rewrite ?lookup_insert_eq, ?Hk; simpl;
    repeat match goal with |- context [?a <=? ?b] => destruct (Z.leb_spec a b) end;
    split_and!; intros; simplify_eq/=; try done; try lia; eauto.
Qed.

Lemma mc_Delete_run k s (m : MemoryCache) : mc_Delete k (s, m) = (Ret tt, (s, delete k m)).
Proof. done. Qed.

#[export] Instance MemoryCache_laws : CacheLaws E MemoryCacheI.
Proof.
  split.
  - exact mc_set_law.
  - intros A k d s m. eapply wp_mono; [apply mc_get_run|]. intros o [s' c'] (L & Hs & r & -> & _ & Hone).
    split_and!; [done..|]. by exists r.
  - exact mc_getErr_law.
  - intros A k d s m. eapply wp_mono; [apply mc_getAndDelete_run|]. intros o [s' c'] (L & Hs & Hg & r & -> & _ & _ & Hone).
    split_and!; [done..|]. exists r. split_and!; [done|by left|done].
  - intros k s m. eapply wp_eq; [apply mc_Delete_run|]. split_and!; [done|apply same_except_delete|done|].
    left. simpl. by rewrite lookup_delete_eq.
  - intros k window s m. eapply wp_mono; [apply mc_incrWindow_run|]. intros o [s' c'] (L & Hs & n & err & -> & He).
    split_and!; [done..|]. exists n, err, (now s). split_and!; [done|done|by apply now_mono|].
    destruct err; [left; by destruct He|done].
Qed.

#[export] Instance MemoryCache_reliable : CacheReliable MemoryCacheI.
Proof.
  split.
  - intros k v ttl [s m]. simpl. rewrite mc_Set_run. by destruct ttl as [d|]; [destruct (0 <? d)|].
  - intros A k d s m. eapply wp_mono; [apply mc_get_run|]. intros o [s' c'] (_ & _ & r & -> & Hhit & _) v Hv.
    by rewrite (Hhit v Hv).
  - intros A k d s m. eapply wp_mono; [apply mc_getErr_run|]. intros o [s' c'] (_ & _ & r & -> & Hone & Hhit).
    split; [|intros v Hv; by rewrite (Hhit v Hv)]. destruct Hone as [->|(v & Hv & ->)]; [by left|right; eauto].
  - intros A k d s m. eapply wp_mono; [apply mc_getAndDelete_run|]. intros o [s' c'] (_ & _ & Hg & r & -> & _ & Hhit & _).
    split; [done|]. intros v Hv. by rewrite (Hhit v Hv).
  - intros k s m. eapply wp_eq; [apply mc_Delete_run|]. simpl. by rewrite lookup_delete_eq.
  - intros k window s m. eapply wp_mono; [apply mc_incrWindow_run|]. intros o [s' c'] (_ & _ & n & err & -> & He) Hk.
    destruct err; [|by exists n]. destruct He as (_ & v & Hv & Hne). exfalso.
    destruct Hk as [Hk|(i & e & Hk)]; [congruence|]. unfold cache_live in Hv. rewrite Hk in Hv.
    destruct e; [destruct (_ <=? _)|]; simplify_eq; by eapply Hne.
Qed.

End MemoryCacheLaws.

(** ** Keys never clash

    Every read and write of the program goes through one of seven formats; two
    formats never produce the same key, and one format is injective. *)

Definition key_formats : list (string -> string) :=
  [AuthorizeRequestCacheKey; AuthCodeCacheKey; ForgotPasswordRateKey; BlacklistKey;
   RevokedGrantKey; SessionsInvalidatedKey; rateLimitCacheKey].

Lemma key_inj f a b : f ∈ key_formats -> f a = f b -> a = b.
Proof.
  unfold key_formats. rewrite !elem_of_cons, elem_of_nil.
  intros Hf H. destruct Hf as [->|[->|[->|[->|[->|[->|[->|[]]]]]]]]; by eapply append_inj_l.
Qed.

Ltac key_ne := unfold AuthorizeRequestCacheKey, AuthCodeCacheKey, ForgotPasswordRateKey,
  BlacklistKey, RevokedGrantKey, SessionsInvalidatedKey, rateLimitCacheKey;
  rewrite !append_cons; congruence.

(** Distinct formats give distinct keys, whatever they are applied to: a
    session cookie or a code chosen by an attacker cannot name an entry of
    another kind. *)
Theorem key_formats_disjoint (i j : nat) (f g : string -> string) (a b : string) :
  key_formats !! i = Some f -> key_formats !! j = Some g ->
  f a = g b <-> i = j /\ a = b.
Proof.
  intros Hi Hj. split.
  - intros Heq.
    assert (i = j) as <-.
    { do 7 (destruct i as [|i]; [do 7 (destruct j as [|j];
        [simplify_eq/=; first [done | exfalso; revert Heq; key_ne]|]); done|]). done. }
    simplify_eq. split; [done|]. eapply key_inj; [|exact Heq].
    by eapply list_elem_of_lookup_2.
  - intros [-> ->]. congruence.
Qed.

Lemma key_formats_disjoint_witness :
  AuthCodeCacheKey "request:1" = AuthorizeRequestCacheKey "1" <-> 1%nat = 0%nat /\ "request:1" = "1".
Proof. apply (key_formats_disjoint 1 0); reflexivity. Defined.

Section MemoryCacheProps.
  Context {E : Env}.

(** An entry written with a positive TTL is served by every read that ends no
    later than its deadline and by none that starts after it, where the
    deadline is the TTL counted from the clock reading of the write; taking it
    out with [GetAndDelete] makes the next [GetAndDelete] miss. *)
Theorem memory_cache_ttl `{!ClockMono E} (A : Type) (k : string) (v : cacheVal) (ttl : Z) (d : dest A)
    (s s2 : Sys) (m : MemoryCache) :
  0 < ttl ->
  exists s' m', mc_Set k v (Some ttl) (s, m) = (Ret None, (s', m')) /\
    (exists r s3 m3, mc_GetErr k d (s2, m') = (Ret r, (s3, m3)) /\
      (now s3 <= now s + ttl ->
         r = match d v with inl a => (Some a, None) | inr e => (None, Some e) end) /\
      (now s + ttl < now s2 -> r = (None, None))) /\
    (exists r s3 m3, mc_GetAndDelete k d (s2, m') = (Ret r, (s3, m3)) /\
      (now s + ttl < now s2 -> r = None) /\
      forall s4, (mc_GetAndDelete k d (s4, m3)).1 = Ret None).
Proof.
  intros Httl. eexists _, _. split.
  { rewrite mc_Set_run. destruct (Z.ltb_spec 0 ttl); [reflexivity|lia]. }
  set (m' := <[k := _]> m).
  assert (forall t, cache_live m' t k = if t <=? now s + ttl then Some v else None) as HL.
  { intros t. unfold cache_live, m'. simpl. by rewrite lookup_insert_eq. }
  split.
  - destruct (mc_GetErr k d (s2, m')) as [o [s3 m3]] eqn:Hrun.
    destruct (wp_run _ _ _ _ _ Hrun (mc_getErr_run A k d s2 m')) as (_ & _ & r & -> & Hone & Hhit). exists r, s3, m3. split; [done|]. split.
    + intros Hle. apply Hhit. rewrite HL. by destruct (Z.leb_spec (now s3) (now s + ttl)); [|lia].
    + intros Hgt. destruct Hone as [->|(v' & Hv' & _)]; [done|]. rewrite HL in Hv'.
      by destruct (Z.leb_spec (now s2) (now s + ttl)); [lia|].
  - destruct (mc_GetAndDelete k d (s2, m')) as [o [s3 m3]] eqn:Hrun.
    destruct (wp_run _ _ _ _ _ Hrun (mc_getAndDelete_run A k d s2 m')) as (_ & _ & Hgone & r & -> & Hmiss & _). exists r, s3, m3. split; [done|]. split.
    + intros Hgt. apply Hmiss. rewrite HL. by destruct (Z.leb_spec (now s2) (now s + ttl)); [lia|].
    + intros s4. unfold mc_GetAndDelete, bind, mc_items. simpl in *.
      by destruct (m3 !! k).
Qed.

(** The janitor's sweep at instant [t] changes nothing a read from [t] on can
    see, and leaves no expired entry behind. *)
Theorem janitor_invisible (t t' : Z) (k : string) (m : MemoryCache) :
  t <= t' ->
  cache_live (mc_deleteExpired t m) t' k = cache_live m t' k /\
  map_Forall (fun _ it => item_expired t it = false) (mc_deleteExpired t m).
Proof.
  intros Ht. split.
  - unfold cache_live, mc_deleteExpired. simpl. destruct (m !! k) as [it|] eqn:Hk.
    + destruct (item_expired t it) eqn:Hx.
      * rewrite map_lookup_filter_None_2; [|right; intros ? ?; simplify_eq; congruence]. simpl.
        unfold item_expired in Hx. destruct (ci_expiresAt it) as [e|]; [|done].
        destruct (Z.leb_spec t' e); [lia|done].
      * by rewrite (map_lookup_filter_Some_2 _ m k it).
    + by rewrite map_lookup_filter_None_2; [|left].
  - intros k' it [_ Hx]%map_lookup_filter_Some. done.
Qed.

(** A TTL that is not positive does not mean "already expired": the entry is
    stored without a deadline and every later read finds it. *)
Theorem nonpositive_ttl_is_permanent (k : string) (v : cacheVal) (ttl : Z) (s : Sys) (m : MemoryCache) :
  ttl <= 0 ->
  exists s' m', mc_Set k v (Some ttl) (s, m) = (Ret None, (s', m')) /\
    forall t, cache_live m' t k = Some v.
Proof.
  intros H. rewrite mc_Set_run. destruct (Z.ltb_spec 0 ttl); [lia|].
  eexists _, _. split; [reflexivity|]. intros t. unfold cache_live. simpl.
  by rewrite lookup_insert_eq.
Qed.

End MemoryCacheProps.

(** C29: The in-memory cache keeps the promises of the cache port, for every
    operation of it - Set, Get, GetErr, GetAndDelete, Delete and IncrWindow: lifetimes,
    absence after a delete or a take, counting windows, no interference between keys;
    and it does not fail: its writes happen, its reads find what is live. *)
Theorem memory_cache_implements_port {E : Env} :
  ClockMono E -> CacheLaws E MemoryCacheI /\ CacheReliable MemoryCacheI.
Proof. intros CM. split; exact _. Qed.
