(* ===== verification/CacheLocks.v ===== *)
(** * The memory cache between its locks (infrastructure/cache/memory.go)

    Every operation of MemoryCache as the critical sections it is made of: a read
    looks under the read lock and, when the entry seems to have expired, once more
    under the write lock; the janitor reads the clock before it takes the lock;
    the others are one section.  Cache.v takes each for one step; here other
    operations run in between.

    The reference is a cache without garbage ([ideal_op]): entries count as gone at
    their deadline and nothing is ever swept. *)

From Stdlib Require Import Sorting.Sorted.
From S2P Require Import Prelude Interleave GoStd Errors Env Scope AuthFlow Cache.

Local Open Scope Z_scope.

(** ** What can be seen of a cache *)

Definition live_item (t : Z) (m : MemoryCache) (key : string) : option cacheItem :=
  match m !! key with
  | Some it => if item_expired t it then None else Some it
  | None => None
  end.

(** From [t] on, the same can be seen. *)
Definition live_eq (t : Z) (m1 m2 : MemoryCache) : Prop :=
  forall t' k, t <= t' -> live_item t' m1 k = live_item t' m2 k.

#[export] Instance live_eq_equivalence t : Equivalence (live_eq t).
Proof.
  split; [done| |]; unfold live_eq.
  - intros m1 m2 H t' k Ht. symmetry. auto.
  - intros m1 m2 m3 H1 H2 t' k Ht. rewrite H1 by done. auto.
Qed.

Lemma live_eq_later t t' m1 m2 : t <= t' -> live_eq t m1 m2 -> live_eq t' m1 m2.
Proof. intros Ht H t1 k H1. apply H. lia. Qed.

#[export] Instance live_item_proper t : Proper (live_eq t ==> eq ==> eq) (live_item t).
Proof. intros m1 m2 H k ? <-. by apply H. Qed.

#[export] Instance live_insert_proper t k it : Proper (live_eq t ==> live_eq t) (<[k := it]>).
Proof.
  intros m1 m2 H t' k' Ht. unfold live_item. destruct (decide (k' = k)) as [->|Hne]; [by rewrite !lookup_insert_eq|].
  rewrite !lookup_insert_ne by done. by apply H.
Qed.

#[export] Instance live_delete_proper t k : Proper (live_eq t ==> live_eq t) (delete k).
Proof.
  intros m1 m2 H t' k' Ht. unfold live_item. destruct (decide (k' = k)) as [->|Hne]; [by rewrite !lookup_delete_eq|].
  rewrite !lookup_delete_ne by done. by apply H.
Qed.

(** Expired entries cannot be seen. *)
Lemma expired_later t t' it : t <= t' -> item_expired t it = true -> item_expired t' it = true.
Proof. unfold item_expired. destruct (ci_expiresAt it); [|done]. rewrite !Z.ltb_lt. lia. Qed.

Lemma delete_expired_unseen t m k it : m !! k = Some it -> item_expired t it = true -> live_eq t (delete k m) m.
Proof.
  intros Hk He t' k' Ht. unfold live_item. destruct (decide (k' = k)) as [->|Hne].
  - by rewrite lookup_delete_eq, Hk, (expired_later t t').
  - by rewrite lookup_delete_ne.
Qed.

Lemma sweep_unseen t t0 m : t0 <= t -> live_eq t (mc_deleteExpired t0 m) m.
Proof.
  intros H0 t' k Ht. unfold live_item, mc_deleteExpired. rewrite map_lookup_filter. destruct (m !! k) as [it|]; [|done]. simpl.
  unfold guard. destruct (item_expired t0 it) eqn:He; [|done]. by rewrite (expired_later t0 t') by (done || lia).
Qed.

(** ** The operations *)

Section Ops.
  Context {E : Env} {A : Type} (d : dest A).
  Notation St := (Sys * MemoryCache)%type.

Inductive CacheOp :=
| OpSet (key : string) (value : cacheVal) (ttl : option Z)
| OpGet (key : string)
| OpGetErr (key : string)
| OpGetAndDelete (key : string)
| OpDelete (key : string)
| OpIncrWindow (key : string) (window : Z)
| OpDeleteExpired.

Inductive CacheRes :=
| ResSet (err : option goerr)
| ResGet (r : option A)
| ResGetErr (r : option A * option goerr)
| ResDone
| ResIncr (r : Z * option goerr).

(** *** As the code runs them *)

(** Under the read lock; [None]: look again. *)
Definition mc_firstLook (key : string) : ST St (option (option cacheItem)) :=
  m ← mc_items;
  match m !! key with
  | None => mret (Some None)
  | Some item =>
    match ci_expiresAt item with
    | None => mret (Some (Some item))
    | Some e => t ← mc_Now; mret (if t <? e then Some (Some item) else None)
    end
  end.

(** Under the write lock. *)
Definition mc_secondLook (key : string) : ST St (option cacheItem) :=
  m ← mc_items;
  match m !! key with
  | None => mret None
  | Some item =>
    match ci_expiresAt item with
    | None => mret (Some item)
    | Some e => t ← mc_Now; if e <? t then mc_put (delete key m);; mret None else mret (Some item)
    end
  end.

Local Open Scope proc_scope.

Definition mc_getLiveItem_proc (key : string) : proc St (option cacheItem) :=
  first ⇐ call (mc_firstLook key);
  match first with
  | Some r => Done r
  | None => call (mc_secondLook key)
  end.

(** After the lock is released. *)
Definition get_decode (r : option cacheItem) : option A :=
  match r with
  | None => None
  | Some item => match d (ci_value item) with inl a => Some a | inr _ => None end
  end.

Definition getErr_decode (r : option cacheItem) : option A * option goerr :=
  match r with
  | None => (None, None)
  | Some item => match d (ci_value item) with inl a => (Some a, None) | inr e => (None, Some e) end
  end.

Definition mc_Get_proc (key : string) : proc St (option A) := r ⇐ mc_getLiveItem_proc key; Done (get_decode r).
Definition mc_GetErr_proc (key : string) : proc St (option A * option goerr) :=
  r ⇐ mc_getLiveItem_proc key; Done (getErr_decode r).

(** One tick of the janitor. *)
Definition mc_sweep (t : Z) : ST St unit := fun '(s, m) => (Ret tt, (s, mc_deleteExpired t m)).
Definition janitor_proc : proc St unit := t ⇐ call mc_Now; call (mc_sweep t).

Definition op_proc (o : CacheOp) : proc St CacheRes :=
  match o with
  | OpSet k v ttl => r ⇐ call (mc_Set k v ttl); Done (ResSet r)
  | OpGet k => r ⇐ mc_Get_proc k; Done (ResGet r)
  | OpGetErr k => r ⇐ mc_GetErr_proc k; Done (ResGetErr r)
  | OpGetAndDelete k => r ⇐ call (mc_GetAndDelete k d); Done (ResGet r)
  | OpDelete k => call (mc_Delete k) ⨾ Done ResDone
  | OpIncrWindow k w => r ⇐ call (mc_IncrWindow k w); Done (ResIncr r)
  | OpDeleteExpired => janitor_proc ⨾ Done ResDone
  end.

(** Alone, a read is the read of Cache.v. *)
Lemma getLiveItem_exec key p : exec (mc_getLiveItem_proc key) p = mc_getLiveItem key p.
Proof.
  destruct p as [s m]. unfold mc_getLiveItem_proc, mc_getLiveItem, mc_firstLook, bind, mc_items. simpl.
  unfold bind. simpl. destruct (m !! key) as [it|] eqn:Hk; [|done]. destruct (ci_expiresAt it) as [e|]; [|done].
  unfold mc_Now. simpl. destruct (_ <? e); [done|]. simpl. unfold mc_secondLook, bind, mc_items. simpl. rewrite Hk.
  by destruct (ci_expiresAt it) as [e'|]; [unfold mc_Now; simpl; destruct (e' <? _)|].
Qed.

Lemma Get_exec key p : exec (mc_Get_proc key) p = mc_Get key d p.
Proof.
  unfold mc_Get_proc, mc_Get. apply exec_bind_eq; [intros; apply getLiveItem_exec|]. intros [it|] s; [|done]. simpl.
  by destruct (d _).
Qed.

Lemma GetErr_exec key p : exec (mc_GetErr_proc key) p = mc_GetErr key d p.
Proof.
  unfold mc_GetErr_proc, mc_GetErr. apply exec_bind_eq; [intros; apply getLiveItem_exec|]. intros [it|] s; [|done]. simpl.
  by destruct (d _).
Qed.

(** *** One at a time, at an instant *)

Definition deadline (t : Z) (ttl : option Z) : option Z :=
  match ttl with Some l => if 0 <? l then Some (t + l) else None | None => None end.

Definition ideal_op (o : CacheOp) (t : Z) (m : MemoryCache) : CacheRes * MemoryCache :=
  match o with
  | OpSet k v ttl => (ResSet None, <[k := mk_cacheItem v (deadline t ttl)]> m)
  | OpGet k => (ResGet (get_decode (live_item t m k)), m)
  | OpGetErr k => (ResGetErr (getErr_decode (live_item t m k)), m)
  | OpGetAndDelete k => (ResGet (get_decode (live_item t m k)), delete k m)
  | OpDelete k => (ResDone, delete k m)
  | OpIncrWindow k w =>
    match live_item t m k with
    | None => (ResIncr (1, None), <[k := mk_cacheItem (VInt64 1) (Some (t + w))]> m)
    | Some (mk_cacheItem (VInt64 v) x) =>
      (ResIncr (wrap64 (v + 1), None), <[k := mk_cacheItem (VInt64 (wrap64 (v + 1))) (Some (default (t + w) x))]> m)
    | Some _ => (ResIncr (0, Some (ErrMsg "WRONGTYPE operation against key holding non-integer value")), m)
    end
  | OpDeleteExpired => (ResDone, m)
  end.

(** The operations named by a log, at the instants given. *)
Fixpoint ideal_run (os : list CacheOp) (l : list (nat * Z)) (m : MemoryCache) : list (nat * CacheRes) * MemoryCache :=
  match l with
  | [] => ([], m)
  | (i, t) :: l' =>
    match os !! i with
    | None => ideal_run os l' m
    | Some o =>
      let r := ideal_op o t m in
      let rest := ideal_run os l' r.2 in
      ((i, r.1) :: rest.1, rest.2)
    end
  end.

(** ** Every interleaving is one at a time *)

#[local] Instance ideal_res_proper o t : Proper (live_eq t ==> eq) (fun m => (ideal_op o t m).1).
Proof.
  intros m1 m2 H. destruct o; simpl; try done; [by rewrite H..|]. rewrite H.
  destruct (live_item t m2 key) as [[[] x]|]; done.
Qed.

#[local] Instance ideal_cache_proper o t : Proper (live_eq t ==> live_eq t) (fun m => (ideal_op o t m).2).
Proof.
  intros m1 m2 H. destruct o; simpl; try done; [by rewrite H..|]. rewrite H.
  destruct (live_item t m2 key) as [[[] x]|]; simpl; try done; by rewrite H.
Qed.

Definition later (p p' : St) : Prop := sys_le p.1 p'.1.
Definition silent (p p' : St) : Prop := sys_le p.1 p'.1 /\ p'.2 = p.2.
Definition effect (o : CacheOp) (p : St) (r : CacheRes) (p' : St) : Prop :=
  sys_le p.1 p'.1 /\ r = (ideal_op o (now p.1) p.2).1 /\ live_eq (now p.1) p'.2 (ideal_op o (now p.1) p.2).2.

#[local] Instance later_preorder : PreOrder later.
Proof. split; unfold later; [by intros p|intros p1 p2 p3 H1 H2; by etrans]. Qed.

(** One section. *)
Lemma commits_section {X} o p0 (m : ST St X) (f : X -> CacheRes) :
  (forall p, exists x p', m p = (Ret x, p') /\ effect o p (f x) p') ->
  commits later silent effect o p0 (pbind (call m) (fun x => Done (f x))).
Proof. intros H p _. simpl. destruct (H p) as (x & p' & -> & He). left. eauto. Qed.

(** The two looks of a read. *)
Lemma firstLook_run key s m :
  exists r s', mc_firstLook key (s, m) = (Ret r, (s', m)) /\ sys_le s s' /\
    forall it, r = Some it -> it = live_item (now s) m key.
Proof.
  unfold mc_firstLook, bind, mc_items, live_item, item_expired, mc_Now. simpl.
  destruct (m !! key) as [it|]; [|eexists _, s; split_and!; [reflexivity|done|naive_solver]].
  destruct (ci_expiresAt it) as [e|]; [|eexists _, s; split_and!; [reflexivity|done|naive_solver]].
  simpl. eexists _, (tick s). split_and!; [reflexivity|apply sys_le_tick|]. change (clock (n_clock s)) with (now s).
  destruct (Z.ltb_spec (now s) e), (Z.ltb_spec e (now s)); try lia; naive_solver.
Qed.

Lemma secondLook_run key s m :
  exists s' m', mc_secondLook key (s, m) = (Ret (live_item (now s) m key), (s', m')) /\ sys_le s s' /\ live_eq (now s) m' m.
Proof.
  unfold mc_secondLook, bind, mc_items, live_item, item_expired, mc_Now. simpl.
  destruct (m !! key) as [it|] eqn:Hk; [|by exists s, m].
  destruct (ci_expiresAt it) as [e|] eqn:He; [|by exists s, m]. simpl. change (clock (n_clock s)) with (now s).
  exists (tick s). destruct (e <? now s) eqn:Hlt; [|by exists m; split_and!; [|apply sys_le_tick|]].
  exists (delete key m). split_and!; [done|apply sys_le_tick|]. eapply delete_expired_unseen; [done|].
  unfold item_expired. by rewrite He.
Qed.

Lemma commits_read {X} o key p0 (decode : option cacheItem -> X) (f : X -> CacheRes) :
  (forall t m, ideal_op o t m = (f (decode (live_item t m key)), m)) ->
  commits later silent effect o p0 (pbind (pbind (mc_getLiveItem_proc key) (fun r => Done (decode r))) (fun x => Done (f x))).
Proof.
  intros Ho [s m] _. simpl. destruct (firstLook_run key s m) as (r & s1 & -> & Hle & Hr). destruct r as [it|].
  - left. eexists. split; [done|]. unfold effect. simpl. rewrite Ho, (Hr it eq_refl). by split_and!.
  - right. split; [done|]. intros [s2 m2] _. simpl. destruct (secondLook_run key s2 m2) as (s3 & m3 & -> & Hle3 & Hm).
    left. eexists. split; [done|]. unfold effect. simpl. rewrite Ho. by split_and!.
Qed.

Lemma commits_janitor `{!ClockMono E} p0 : commits later silent effect OpDeleteExpired p0 (op_proc OpDeleteExpired).
Proof.
  intros [s m] _. simpl. right. split; [split; [apply sys_le_tick|done]|]. intros [s2 m2] Hl. simpl. left. eexists. split; [done|].
  unfold effect. simpl. split_and!; [done..|]. apply sweep_unseen. change (clock (n_clock s)) with (now s).
  apply now_mono. unfold later in Hl. simpl in Hl. etrans; [apply sys_le_tick|done].
Qed.

Lemma take_effect key s m : exists r s' m', mc_GetAndDelete key d (s, m) = (Ret r, (s', m')) /\
  effect (OpGetAndDelete key) (s, m) (ResGet r) (s', m').
Proof.
  unfold effect, mc_GetAndDelete, bind, mc_items, mc_Now, mc_put. simpl. unfold live_item, item_expired.
  destruct (m !! key) as [it|] eqn:Hk; simpl.
  2: { eexists _, s, m. split_and!; [reflexivity|done|done|]. by rewrite delete_id. }
  destruct (ci_expiresAt it) as [e|]; simpl.
  2: { exists (get_decode (Some it)), s, (delete key m). split; [simpl; by destruct (d _)|]. by split_and!. }
  change (clock (n_clock s)) with (now s). exists (get_decode (if e <? now s then None else Some it)), (tick s), (delete key m).
  split; [destruct (e <? now s); simpl; [done|by destruct (d _)]|]. split_and!; [apply sys_le_tick|done..].
Qed.

Lemma incr_effect key w s m : exists r s' m', mc_IncrWindow key w (s, m) = (Ret r, (s', m')) /\
  effect (OpIncrWindow key w) (s, m) (ResIncr r) (s', m').
Proof.
  unfold effect, mc_IncrWindow, bind, mc_items, mc_Now, mc_put. simpl. unfold live_item. change (clock (n_clock s)) with (now s).
  destruct (m !! key) as [[v x]|]; simpl; [destruct (item_expired (now s) _); [|destruct v]|]; simpl;
    (eexists _, (tick s), _; split; [reflexivity|]; split_and!; [apply sys_le_tick|done|]); done.
Qed.

Lemma set_effect key v ttl s m : exists r s' m', mc_Set key v ttl (s, m) = (Ret r, (s', m')) /\
  effect (OpSet key v ttl) (s, m) (ResSet r) (s', m').
Proof.
  unfold effect. rewrite mc_Set_run. simpl. unfold deadline. destruct ttl as [l|]; [destruct (0 <? l)|];
    (eexists _, _, _; split; [reflexivity|]; split_and!; try done). apply sys_le_tick.
Qed.

Lemma op_commits `{!ClockMono E} o p0 : commits later silent effect o p0 (op_proc o).
Proof.
  destruct o; [| | | | | |apply commits_janitor].
  - apply commits_section. intros [s m]. destruct (set_effect key value ttl s m) as (r & s' & m' & H). eauto.
  - by apply commits_read.
  - by apply commits_read.
  - apply commits_section. intros [s m]. destruct (take_effect key s m) as (r & s' & m' & H). eauto.
  - apply (commits_section _ p0 (mc_Delete key) (fun _ => ResDone)). intros [s m]. eexists _, _. split; [reflexivity|].
    unfold effect. by split_and!.
  - apply commits_section. intros [s m]. destruct (incr_effect key window s m) as (r & s' & m' & H). eauto.
Qed.

(** A run one at a time is a run of the ideal cache, at instants that do not go
    back. *)
Lemma replay_ideal `{!ClockMono E} os p l p' (m : MemoryCache) :
  replay silent effect os p l p' -> live_eq (now p.1) p.2 m ->
  exists ts, length ts = length l /\ Sorted Z.le (now p.1 :: ts) /\
    (ideal_run os (zip l.*1 ts) m).1 = l /\
    live_eq (now p'.1) p'.2 (ideal_run os (zip l.*1 ts) m).2.
Proof.
  intros H. revert m. induction H as [p|p p1 l p' [Hle Hm] _ IH|p i o r p1 l p' Ho (Hle & Hr & Hm) _ IH]; intros m Heq.
  - exists []. by split_and!; [|repeat constructor| |].
  - assert (now p.1 <= now p1.1) as Hn by by apply now_mono.
    destruct (IH m) as (ts & Hlen & Hs & Hl & He); [rewrite Hm; by eapply live_eq_later|].
    exists ts. split_and!; try done. apply Sorted_inv in Hs as [Hs Hh]. constructor; [done|].
    destruct Hh; constructor. lia.
  - assert (now p.1 <= now p1.1) as Hn by by apply now_mono.
    destruct (IH (ideal_op o (now p.1) m).2) as (ts & Hlen & Hs & Hl & He).
    { eapply live_eq_later; [done|]. rewrite Hm. by apply ideal_cache_proper. }
    exists (now p.1 :: ts). change (zip _ (now p.1 :: ts)) with ((i, now p.1) :: zip l.*1 ts).
    cbn [ideal_run]. rewrite Ho. cbn [fst snd]. rewrite Hl. split_and!; [by simpl; rewrite Hlen| | |done].
    + apply Sorted_inv in Hs as [Hs Hh]. repeat constructor; [done| |lia]. destruct Hh; constructor. lia.
    + f_equal. f_equal. rewrite Hr. symmetry. by apply ideal_res_proper.
Qed.

Lemma op_within o : within 2 (op_proc o).
Proof. destruct o; simpl; try done; intros [r|]; done. Qed.

(** C30: Any number of cache operations and sweeps of the janitor, their critical
    sections interleaved in any order: the operations have the results they would
    have one at a time, in the order they end, at instants that do not go back, on a
    cache whose entries just end at their deadlines; what can be seen of the cache
    afterwards is what that cache holds; and an operation that is scheduled twice
    has ended. *)
Theorem memory_cache_linearizable `{!ClockMono E} (os : list CacheOp) (sched : list nat) (s : Sys) (m : MemoryCache) :
  let log := commit_log sched (map op_proc os) (s, m) in
  let '(ts, (s', m')) := run_schedule sched (map op_proc os) (s, m) in
  (exists times, length times = length log /\ Sorted Z.le (now s :: times) /\
     (ideal_run os (zip log.*1 times) m).1 = log /\ live_eq (now s') m' (ideal_run os (zip log.*1 times) m).2) /\
  NoDup log.*1 /\
  (forall i r, (i, r) ∈ log <-> ts !! i = Some (Done r)) /\
  (forall i, (i < length os)%nat -> (2 <= count_occ Nat.eq_dec sched i)%nat -> exists r, ts !! i = Some (Done r)).
Proof.
  cbv zeta. set (log := commit_log _ _ _). destruct (run_schedule sched _ (s, m)) as [ts [s' m']] eqn:Hrun.
  assert (running later silent effect os (map op_proc os) (s, m)) as Hpool.
  { intros i p Hp. apply list_lookup_fmap_Some in Hp as (o & -> & Ho). exists o. split; [done|]. left. apply op_commits. }
  assert (forall i r, (i, r) ∈ log <-> ts !! i = Some (Done r)) as Hlog.
  { intros i r. unfold log. rewrite log_results, Hrun; [done|]. intros b Hb.
    apply list_lookup_fmap_Some in Hb as (o & Hb & _). by destruct o. }
  pose proof (linearizes later silent effect (fun p p' H => proj1 H) (fun o p r p' H => proj1 H) os sched _ _ Hpool) as [Hreplay Hfinal].
  rewrite Hrun in Hreplay, Hfinal. split_and!; [|apply log_nodup|done|].
  - by apply (replay_ideal os (s, m) log (s', m')).
  - intros i Hi Hn. apply lookup_lt_is_Some in Hi as [o Ho].
    destruct (scheduled_ends sched 2 (map op_proc os) (s, m) i (op_proc o)) as (q & Hq & Hend);
      [by apply list_lookup_fmap_Some; eauto|apply op_within|done|].
    rewrite Hrun in Hq. simpl in Hq. destruct (Hfinal i q Hq) as (o' & _ & [Hc|[r ->]]); [by destruct q|by exists r].
Qed.

End Ops.

(** ** The janitor and closing

    The channel the janitor selects on and the [sync.Once] around its closing.
    Closing a channel that is closed panics in Go. *)

Record Closer := mkCloser { closeCh_closed : bool; once_done : bool }.

Definition close_closeCh : ST Closer unit := fun c =>
  if closeCh_closed c then (Panic "close of closed channel", c) else (Ret tt, mkCloser true (once_done c)).

(** [once.Do] counts as done even if its function panics. *)
Definition mc_Close : ST Closer unit := fun c =>
  if once_done c then (Ret tt, c)
  else let r := close_closeCh c in (r.1, mkCloser (closeCh_closed r.2) true).

Definition new_Closer : Closer := mkCloser false false.

(** What the janitor's [select] receives. *)
Inductive JanitorEvent := TickerC | CloseCh.

Fixpoint mc_janitor `{Env} (events : list JanitorEvent) : proc (Sys * MemoryCache) unit :=
  match events with
  | TickerC :: events' => pbind janitor_proc (fun _ => mc_janitor events')
  | CloseCh :: _ => Done tt
  | [] => Done tt
  end.

(** A cache may be closed any number of times. *)
Fixpoint close_times (n : nat) : ST Closer unit :=
  match n with
  | O => mret tt
  | S n' => mc_Close;; close_times n'
  end.

Theorem close_never_panics (n : nat) :
  close_times (S n) new_Closer = (Ret tt, mkCloser true true).
Proof.
  change (close_times n (mkCloser true true) = (Ret tt, mkCloser true true)).
  induction n as [|n IH]; [done|exact IH].
Qed.

(** However long it runs, the janitor changes nothing that can be seen. *)
Theorem janitor_unseen `{E : Env} `{!ClockMono E} (events : list JanitorEvent) (s : Sys) (m : MemoryCache) :
  exists s' m', exec (mc_janitor events) (s, m) = (Ret tt, (s', m')) /\ sys_le s s' /\ live_eq (now s') m' m.
Proof.
  revert s m. induction events as [|[] events IH]; intros s m; simpl; [by exists s, m| |by exists s, m].
  unfold bind. simpl. destruct (IH (tick s) (mc_deleteExpired (now s) m)) as (s' & m' & Hrun & Hle & Heq).
  assert (sys_le s s') as Hss by (etrans; [apply sys_le_tick|done]). exists s', m'. split_and!; [done..|].
  rewrite Heq. apply sweep_unseen. by apply now_mono.
Qed.
