(* ===== verification/Redis.v ===== *)
(** * The Redis cache (infrastructure/cache/redis.go)

    github.com/redis/go-redis and the server behind it are not part of this
    program.  [RedisServer] is what the cache calls of them; [RedisSpec] states
    what is documented: each command, and each script as a whole, happens at one
    instant of the server's clock, which counts milliseconds; a key with a
    deadline is there before it and gone after it; a command whose reply is lost
    may or may not have happened, and the client sends such a command again, any
    number of times here, before it reports an error.  [RefRedis] is a server in memory that keeps
    these promises.

    Values travel as JSON text; [cacheVal] stands for the text of the value, as
    in Cache.v. *)

From S2P Require Import Prelude GoStd Crypto Errors Env Scope AuthFlow Cache.

Local Open Scope Z_scope.

(** ** The interface *)

Class RedisServer := {
  RDB : Type;
  redis_Nil : goerr;
  cmd_Set : string -> cacheVal -> Z -> ST RDB (option goerr);    (** key, value, expiration *)
  cmd_Get : string -> ST RDB (cacheVal + goerr);
  cmd_GetDel : string -> ST RDB (cacheVal + goerr);
  cmd_Del : string -> ST RDB unit;
  (** a script is run by the server; [redis.call] inside it *)
  cmd_Run : ST RDB (Z + goerr) -> ST RDB (Z + goerr);
  call_INCR : string -> ST RDB (Z + goerr);
  call_PTTL : string -> ST RDB Z;
  call_PEXPIRE : string -> Z -> ST RDB unit;
  (** the clock, and the live entries: value and deadline *)
  rdb_time : RDB -> Z;
  rdb_entry : RDB -> string -> option (cacheVal * option Z);
}.

(** ** RedisCache *)

Section RedisCache.
  Context {R : RedisServer}.
  Notation CST := (ST (Sys * RDB)).

Definition in_redis {A} (m : ST RDB A) : CST A := fun p =>
  match m p.2 with (o, db) => (o, (p.1, db)) end.

(** [json.Marshal] of the values the program caches does not fail. *)
Definition json_Marshal (v : cacheVal) : cacheVal + goerr := inl v.

Definition RedisCache_Set (key : string) (value : cacheVal) (ttl : option Z) : CST (option goerr) :=
  match json_Marshal value with
  | inr err => mret (Some err)
  | inl b =>
    let expiration := match ttl with Some d => d | None => 0 end in
    in_redis (cmd_Set key b expiration)
  end.

Definition RedisCache_Get {A} (key : string) (d : dest A) : CST (option A) :=
  r ← in_redis (cmd_Get key);
  match r with
  | inr _ => mret None
  | inl b => match d b with inl a => mret (Some a) | inr _ => mret None end
  end.

Definition RedisCache_GetErr {A} (key : string) (d : dest A) : CST (option A * option goerr) :=
  r ← in_redis (cmd_Get key);
  match r with
  | inr err => if errors_Is err redis_Nil then mret (None, None) else mret (None, Some err)
  | inl b => match d b with inl a => mret (Some a, None) | inr e => mret (None, Some e) end
  end.

Definition RedisCache_GetAndDelete {A} (key : string) (d : dest A) : CST (option A) :=
  r ← in_redis (cmd_GetDel key);
  match r with
  | inr _ => mret None
  | inl b => match d b with inl a => mret (Some a) | inr _ => mret None end
  end.

Definition RedisCache_Delete (key : string) : CST unit := in_redis (cmd_Del key).

(** The script: an error of [redis.call] ends it. *)
Definition incrWindowScript (key : string) (ms : Z) : ST RDB (Z + goerr) :=
  v ← call_INCR key;
  match v with
  | inr err => mret (inr err)
  | inl v =>
    pttl ← call_PTTL key;
    (if pttl <? 0 then call_PEXPIRE key ms else mret tt);;
    mret (inl v)
  end.

Definition RedisCache_IncrWindow (key : string) (window : Z) : CST (Z * option goerr) :=
  r ← in_redis (cmd_Run (incrWindowScript key (Z.quot window Millisecond)));
  mret match r with inl n => (n, None) | inr err => (0, Some err) end.

Definition RedisCacheI : CacheI := {|
  CS := RDB;
  cache_Set := RedisCache_Set;
  cache_Get := @RedisCache_Get;
  cache_GetErr := @RedisCache_GetErr;
  cache_GetAndDelete := @RedisCache_GetAndDelete;
  cache_Delete := RedisCache_Delete;
  cache_IncrWindow := RedisCache_IncrWindow;
  cache_entry c k :=
    match rdb_entry c k with
    | Some (v, e) => Some (v, match e with Some ms => Some (ms * Millisecond) | None => None end)
    | None => None
    end;
|}.

(** ** What the documentation says *)

(** The entry at a later time, if nobody touched it; at the deadline itself it
    may be either. *)
Definition aged (t : Z) (before after : option (cacheVal * option Z)) : Prop :=
  match before with
  | Some (v, Some e) => (after = before /\ t <= e) \/ (after = None /\ e <= t)
  | _ => after = before
  end.

(** Time passes. *)
Definition elapse (db db' : RDB) : Prop :=
  rdb_time db <= rdb_time db' /\ forall k, aged (rdb_time db') (rdb_entry db k) (rdb_entry db' k).

(** One command touched only [k], at the time it ran. *)
Definition only (k : string) (db db' : RDB) : Prop :=
  rdb_time db' = rdb_time db /\ forall k', k' <> k -> rdb_entry db' k' = rdb_entry db k'.

(** The lifetime the client sends: whole milliseconds, at least one. *)
Definition expiry_ms (d : Z) : Z := Z.max 1 (d / Millisecond).

Definition set_entry (v : cacheVal) (d : Z) (t : Z) (e : option (cacheVal * option Z)) : Prop :=
  (0 < d -> e = Some (v, Some (t + expiry_ms d))) /\ (d = 0 -> e = Some (v, None)) /\
  exists x, e = Some (v, x).

(** What INCR makes of an entry. *)
Definition incr_entry (e : option (cacheVal * option Z)) : (Z + goerr) * option (cacheVal * option Z) :=
  match e with
  | None => (inl 1, Some (VInt64 1, None))
  | Some (VInt64 n, x) =>
    if n <? two63 - 1 then (inl (n + 1), Some (VInt64 (n + 1), x))
    else (inr (ErrMsg "ERR increment or decrement would overflow"), e)
  | Some _ => (inr (ErrMsg "ERR value is not an integer or out of range"), e)
  end.

(** The attempts at a command whose replies were lost: time passes, and each of
    those that reached the server had its effect. *)
Inductive tries (once : RDB -> RDB -> Prop) : RDB -> RDB -> Prop :=
| tries_none db db' : elapse db db' -> tries once db db'
| tries_lost db db0 db1 db' : elapse db db0 -> once db0 db1 -> tries once db1 db' -> tries once db db'.

Definition untouched (k : string) (db db' : RDB) : Prop := only k db db' /\ rdb_entry db' k = rdb_entry db k.
Definition set_once (k : string) (v : cacheVal) (d : Z) (db db' : RDB) : Prop :=
  only k db db' /\ set_entry v d (rdb_time db) (rdb_entry db' k).
Definition del_once (k : string) (db db' : RDB) : Prop := only k db db' /\ rdb_entry db' k = None.

Class RedisSpec := {
  entry_live : forall db k v e, rdb_entry db k = Some (v, Some e) -> rdb_time db <= e;
  set_cmd_law : forall k v d db, exists e db0 db', cmd_Set k v d db = (Ret e, db') /\ tries (set_once k v d) db db0 /\
    match e with
    | None => set_once k v d db0 db'
    | Some _ => untouched k db0 db'
    end;
  get_cmd_law : forall k db, exists r db', cmd_Get k db = (Ret r, db') /\ elapse db db' /\
    match r with
    | inl v => exists x, rdb_entry db' k = Some (v, x)
    | inr e => errors_Is e redis_Nil = true -> rdb_entry db' k = None
    end;
  getdel_cmd_law : forall k db, exists r db0 db', cmd_GetDel k db = (Ret r, db') /\ tries (del_once k) db db0 /\
    match r with
    | inl v => (exists x, rdb_entry db0 k = Some (v, x)) /\ del_once k db0 db'
    | inr e => (errors_Is e redis_Nil = true -> rdb_entry db0 k = None) /\ untouched k db0 db'
    end;
  del_cmd_law : forall k db, exists db', cmd_Del k db = (Ret tt, db') /\ tries (del_once k) db db';
  run_law : forall sc db, exists r db0 db', cmd_Run sc db = (Ret r, db') /\ tries (fun d d' => d' = (sc d).2) db db0 /\
    (sc db0 = (Ret r, db') \/ (exists e, r = inr e) /\ db' = db0);
  incr_law : forall k db, exists r db', call_INCR k db = (Ret r, db') /\ only k db db' /\
    incr_entry (rdb_entry db k) = (r, rdb_entry db' k);
  pttl_law : forall k db, exists n, call_PTTL k db = (Ret n, db) /\
    match rdb_entry db k with
    | None => n = -2
    | Some (_, None) => n = -1
    | Some (_, Some e) => n = Z.max 0 (e - rdb_time db)
    end;
  pexpire_law : forall k ms db, exists db', call_PEXPIRE k ms db = (Ret tt, db') /\ only k db db' /\
    match rdb_entry db k with
    | None => rdb_entry db' k = None
    | Some (v, _) => rdb_entry db' k = if 0 <? ms then Some (v, Some (rdb_time db + ms)) else None
    end;
}.

End RedisCache.
Arguments RedisSpec R : clear implicits.

(** ** Lifetimes *)

Section RedisProps.
  Context {R : RedisServer} {RS : RedisSpec R}.

Lemma aged_trans t t' e1 e2 e3 : t <= t' -> aged t e1 e2 -> aged t' e2 e3 -> aged t' e1 e3.
Proof.
  intros Ht. destruct e1 as [[v [e|]]|]; simpl.
  - intros [[-> He]|[-> He]]; simpl; [done|]. intros ->. right. split; [done|lia].
  - by intros ->.
  - by intros ->.
Qed.

#[export] Instance elapse_preorder : PreOrder elapse.
Proof.
  split.
  - intros db. split; [lia|]. intros k. destruct (rdb_entry db k) as [[v [e|]]|] eqn:He; simpl; [|done..].
    left. split; [done|]. by apply (entry_live db k v).
  - intros db1 db2 db3 [H1 A1] [H2 A2]. split; [lia|]. intros k. by eapply aged_trans.
Qed.

Lemma tries_inv (once : RDB -> RDB -> Prop) (P : RDB -> Prop) db db' :
  (forall d d', elapse d d' -> P d -> P d') -> (forall d d', once d d' -> P d -> P d') ->
  tries once db db' -> P db -> P db'.
Proof. intros He Ho. induction 1 as [|? ? ? ? ? ? _ IH]; eauto. Qed.

Lemma tries_time (once : RDB -> RDB -> Prop) db db' :
  (forall d d', once d d' -> rdb_time d' = rdb_time d) -> tries once db db' -> rdb_time db <= rdb_time db'.
Proof.
  intros Ho H. apply (tries_inv once (fun d => rdb_time db <= rdb_time d) db db'); [| |done|lia].
  - intros d d' [? _]. lia.
  - intros d d' ->%Ho. done.
Qed.

(** A key with a deadline, while nobody writes it. *)
Lemma elapse_before db db' k v e : elapse db db' -> rdb_entry db k = Some (v, Some e) -> rdb_time db' < e ->
  rdb_entry db' k = Some (v, Some e).
Proof. intros [_ Ha] He Ht. specialize (Ha k). rewrite He in Ha. destruct Ha as [[? ?]|[_ ?]]; [done|lia]. Qed.

Lemma elapse_after db db' k v e : elapse db db' -> rdb_entry db k = Some (v, Some e) -> e < rdb_time db' ->
  rdb_entry db' k = None.
Proof. intros [_ Ha] He Ht. specialize (Ha k). rewrite He in Ha. destruct Ha as [[_ ?]|[? _]]; [lia|done]. Qed.

Lemma elapse_None db db' k : elapse db db' -> rdb_entry db k = None -> rdb_entry db' k = None.
Proof. intros [_ Ha] He. specialize (Ha k). by rewrite He in Ha. Qed.

(** The reads, in terms of the entry at the instant the command ran. *)
Lemma redis_GetErr_run {A} k (d : dest A) s db :
  exists r db', RedisCache_GetErr k d (s, db) = (Ret r, (s, db')) /\ elapse db db' /\
    ((exists v x, rdb_entry db' k = Some (v, x) /\
        r = match d v with inl a => (Some a, None) | inr e => (None, Some e) end) \/
     (rdb_entry db' k = None /\ r = (None, None)) \/
     exists e, r = (None, Some e) /\ errors_Is e redis_Nil = false).
Proof.
  destruct (get_cmd_law k db) as (r & db' & Hrun & Hel & Hr).
  unfold RedisCache_GetErr, bind, in_redis. simpl. rewrite Hrun. destruct r as [v|e].
  - destruct Hr as [x Hx]. destruct (d v) eqn:Hd; eexists _, db'; (split; [reflexivity|]); (split; [done|]); left;
      exists v, x; by rewrite Hd.
  - destruct (errors_Is e redis_Nil) eqn:Hn; eexists _, db'; (split; [reflexivity|]); (split; [done|]); right; eauto.
Qed.

(** Rounding: a lifetime of at least a millisecond loses less than one. *)
Lemma expiry_ms_bounds d : Millisecond <= d -> expiry_ms d * Millisecond <= d < (expiry_ms d + 1) * Millisecond.
Proof.
  intros Hd. unfold expiry_ms. pose proof (Z.mul_div_le d Millisecond eq_refl).
  pose proof (Z.mul_succ_div_gt d Millisecond eq_refl). pose proof (Z.div_le_mono _ _ Millisecond eq_refl Hd) as H1.
  rewrite Z.div_same in H1 by done. rewrite Z.max_r by lia. lia.
Qed.

(** A value written with a lifetime is found by every read that runs before its
    deadline and by none that runs after it; the deadline is the lifetime, in
    whole milliseconds and at least one, after the instant of the write.  A read
    answers "absent" only when the key is absent, and reports an outage as an
    error instead. *)
Theorem redis_lifetimes {A} (k : string) (v : cacheVal) (d : Z) (dst : dest A) (s : Sys) (db : RDB) :
  0 < d ->
  exists e db1, RedisCache_Set k v (Some d) (s, db) = (Ret e, (s, db1)) /\
    (e = None -> exists t, rdb_time db <= t <= rdb_time db1 /\
       forall db2 s2, elapse db1 db2 ->
       exists r db3, RedisCache_GetErr k dst (s2, db2) = (Ret r, (s2, db3)) /\ elapse db2 db3 /\
         ((exists err, r = (None, Some err) /\ errors_Is err redis_Nil = false) \/
          ((rdb_time db3 < t + expiry_ms d ->
              r = match dst v with inl a => (Some a, None) | inr e => (None, Some e) end) /\
           (t + expiry_ms d < rdb_time db3 -> r = (None, None))))).
Proof.
  intros Hd. destruct (set_cmd_law k v d db) as (e & db0 & db1 & Hrun & Hel & He).
  exists e, db1. split; [unfold RedisCache_Set, in_redis; simpl; by rewrite Hrun|]. intros ->.
  destruct He as ([Ht _] & Hent & _ & _). specialize (Hent Hd). exists (rdb_time db0).
  apply tries_time in Hel; [|by intros ? ? [[? _] _]]. split; [lia|]. intros db2 s2 Hel2.
  destruct (redis_GetErr_run k dst s2 db2) as (r & db3 & Hg & Hel3 & Hr). exists r, db3.
  split; [done|]. split; [done|]. assert (elapse db1 db3) as Hel13 by (by etrans).
  destruct Hr as [(v' & x & Hx & ->)|[[Hn ->]|(err & ? & ?)]]; [right|right|left; eauto].
  - split; intros Hlt.
    + rewrite (elapse_before _ _ _ _ _ Hel13 Hent Hlt) in Hx. by injection Hx as <- <-.
    + by rewrite (elapse_after _ _ _ _ _ Hel13 Hent Hlt) in Hx.
  - split; intros Hlt; [|done]. by rewrite (elapse_before _ _ _ _ _ Hel13 Hent Hlt) in Hn.
Qed.

(** ** Taking an entry *)

(** Requests that take one key, in any order, with what they got; in between the
    key may be removed or expire, but nobody writes it. *)
Inductive take_run {A} (k : string) (d : dest A) : RDB -> list (option A) -> RDB -> Prop :=
| take_done db : take_run k d db [] db
| take_one db s r s' db1 rs db2 :
    RedisCache_GetAndDelete k d (s, db) = (Ret r, (s', db1)) ->
    take_run k d db1 rs db2 -> take_run k d db (r :: rs) db2
| take_other db db1 rs db2 :
    (rdb_entry db k = None -> rdb_entry db1 k = None) ->
    take_run k d db1 rs db2 -> take_run k d db rs db2.

Definition hits {A} (rs : list (option A)) : nat :=
  length (List.filter (fun r : option A => if r then true else false) rs).

Lemma del_tries_None k db db' : tries (del_once k) db db' -> rdb_entry db k = None -> rdb_entry db' k = None.
Proof.
  apply (tries_inv (del_once k) (fun d => rdb_entry d k = None)); [intros d d' H; by apply elapse_None|].
  by intros d d' [_ H].
Qed.

Lemma redis_take_run {A} k (d : dest A) s db r s' db1 :
  RedisCache_GetAndDelete k d (s, db) = (Ret r, (s', db1)) ->
  (rdb_entry db k = None -> r = None /\ rdb_entry db1 k = None) /\
  (forall a, r = Some a -> rdb_entry db1 k = None).
Proof.
  destruct (getdel_cmd_law k db) as (g & db0 & db' & Hrun & Hel & Hg).
  unfold RedisCache_GetAndDelete, bind, in_redis. simpl. rewrite Hrun. destruct g as [v|e].
  - destruct Hg as [[x Hx] [_ Hgone]].
    destruct (d v); intros [= <- <- <-]; (split; [|done]); intros Hn; by rewrite (del_tries_None _ _ _ Hel Hn) in Hx.
  - destruct Hg as [_ [_ Hg]]. intros [= <- <- <-]. split; [|done]. intros Hn. split; [done|].
    rewrite Hg. exact (del_tries_None _ _ _ Hel Hn).
Qed.

Lemma take_run_gone {A} k (d : dest A) db rs db' : take_run k d db rs db' -> rdb_entry db k = None ->
  hits rs = 0%nat.
Proof.
  induction 1 as [db|db s r s' db1 rs db2 Hrun _ IH|db db1 rs db2 Hkeep _ IH]; intros Hn; [done| |auto].
  destruct (redis_take_run k d s db r s' db1 Hrun) as [H _]. destruct (H Hn) as [-> Hn1].
  unfold hits in *. simpl. auto.
Qed.

(** Whatever requests take one key at the same time, at most one gets the value,
    whatever the network does to their replies: a code or a session stored once
    is redeemed once. *)
Theorem redis_take_once {A} (k : string) (d : dest A) (db db' : RDB) (rs : list (option A)) :
  take_run k d db rs db' -> (hits rs <= 1)%nat.
Proof.
  induction 1 as [db|db s r s' db1 rs db2 Hrun Hr IH|db db1 rs db2 _ _ IH]; [unfold hits; simpl; lia| |done].
  destruct (redis_take_run k d s db r s' db1 Hrun) as [_ H]. destruct r as [a|].
  - assert (hits (Some a :: rs) = S (hits rs)) as -> by done.
    rewrite (take_run_gone k d db1 rs db2 Hr (H a eq_refl)). lia.
  - assert (hits (None :: rs) = hits rs) as -> by done. done.
Qed.

(** ** Counters *)

(** What one count does to the counter at the instant [t] it runs: it goes up by
    one and always ends up with a deadline, an existing one unchanged. *)
Definition counted (w t : Z) (e e' : option (cacheVal * option Z)) (n : Z) : Prop :=
  exists m x, (e = None /\ m = 0 /\ x = None \/ e = Some (VInt64 m, x)) /\ n = m + 1 /\
    e' = Some (VInt64 n, Some (default (t + w) x)).

Lemma script_run k w db : 1 <= w ->
  exists r db', incrWindowScript k w db = (Ret r, db') /\ only k db db' /\
    match r with
    | inl n => counted w (rdb_time db) (rdb_entry db k) (rdb_entry db' k) n
    | inr _ => rdb_entry db' k = rdb_entry db k
    end.
Proof.
  intros Hw. destruct (incr_law k db) as (r & db1 & Hi & [Ht1 Ho1] & He).
  unfold incrWindowScript, bind. rewrite Hi. destruct r as [n|err].
  2:{ exists (inr err), db1. split; [done|]. split; [done|].
      unfold incr_entry in He. repeat case_match; congruence. }
  destruct (pttl_law k db1) as (p & Hp & Hpv). rewrite Hp.
  assert (exists m x, (rdb_entry db k = None /\ m = 0 /\ x = None \/ rdb_entry db k = Some (VInt64 m, x)) /\
            n = m + 1 /\ rdb_entry db1 k = Some (VInt64 n, x)) as (m & x & Hm & -> & He1).
  { unfold incr_entry in He. destruct (rdb_entry db k) as [[[| | |m] x]|]; try done.
    - destruct (m <? two63 - 1); [|done]. injection He as <- <-. exists m, x. auto.
    - injection He as <- <-. exists 0, None. auto 10. }
  rewrite He1 in Hpv. destruct x as [e|].
  - destruct (Z.ltb_spec p 0); [lia|]. eexists _, db1. split; [reflexivity|]. split; [done|].
    exists m, (Some e). auto.
  - subst p. simpl. destruct (pexpire_law k w db1) as (db2 & Hx & [Ht2 Ho2] & He2). rewrite Hx.
    eexists _, db2. split; [reflexivity|]. split; [split; [congruence|]; intros k' Hk'; by rewrite Ho2, Ho1|].
    rewrite He1, Ht1 in He2. destruct (Z.ltb_spec 0 w); [|lia]. exists m, None. auto.
Qed.

(** One run of the script, whatever becomes of its reply. *)
Definition count_once (k : string) (w : Z) (db db' : RDB) : Prop :=
  rdb_time db' = rdb_time db /\
  (rdb_entry db' k = rdb_entry db k \/ exists n, counted w (rdb_time db) (rdb_entry db k) (rdb_entry db' k) n).

Lemma count_tries_time k w db db' : tries (count_once k w) db db' -> rdb_time db <= rdb_time db'.
Proof. apply tries_time. by intros d d' [? _]. Qed.

Lemma tries_weaken (once once' : RDB -> RDB -> Prop) db db' :
  (forall d d', once d d' -> once' d d') -> tries once db db' -> tries once' db db'.
Proof. intros H. induction 1; [by constructor|]. eapply tries_lost; eauto. Qed.

Lemma redis_IncrWindow_run k window s db : Millisecond <= window ->
  let w := Z.quot window Millisecond in
  exists n err db0 db', RedisCache_IncrWindow k window (s, db) = (Ret (n, err), (s, db')) /\
    tries (count_once k w) db db0 /\ rdb_time db' = rdb_time db0 /\
    match err with
    | None => counted w (rdb_time db0) (rdb_entry db0 k) (rdb_entry db' k) n
    | Some _ => rdb_entry db' k = rdb_entry db0 k
    end.
Proof.
  intros Hw w. assert (1 <= w) as Hw1.
  { unfold w. rewrite Z.quot_div_nonneg by (unfold Millisecond in *; lia).
    apply Z.div_le_lower_bound; [done|]. lia. }
  destruct (run_law (incrWindowScript k w) db) as (r & db0 & db' & Hrun & Hel & Hcase).
  eapply (tries_weaken _ (count_once k w)) in Hel.
  2:{ intros d d' ->. destruct (script_run k w d Hw1) as (r0 & d1 & Hsc & [Ht Ho] & He). rewrite Hsc. simpl.
      split; [done|]. destruct r0; eauto. }
  destruct (script_run k w db0 Hw1) as (r0 & db1 & Hsc & [Ht Ho] & He).
  unfold RedisCache_IncrWindow, bind, in_redis. fold w. simpl. rewrite Hrun. rewrite Hsc in Hcase.
  destruct Hcase as [Hsame|[[err ->] ->]].
  - injection Hsame as <- <-. destruct r0 as [n|e]; eexists _, _, db0, db1; (split; [reflexivity|]); auto.
  - eexists _, _, db0, db0. split; [reflexivity|]. auto.
Qed.

(** Requests counted on one key, with their counts; time passes in between. *)
Inductive count_run (k : string) (window : Z) : RDB -> list (Z * option goerr) -> RDB -> Prop :=
| count_done db : count_run k window db [] db
| count_one db s r s' db1 rs db2 :
    RedisCache_IncrWindow k window (s, db) = (Ret r, (s', db1)) ->
    count_run k window db1 rs db2 -> count_run k window db (r :: rs) db2
| count_wait db db1 rs db2 :
    elapse db db1 -> count_run k window db1 rs db2 -> count_run k window db rs db2.

(** Requests within the limit, requests the cache gave no count for, and requests
    the limiter lets on: those (rate_limit.go outside the fail-closed paths, and
    forgot_password.go) are both. *)
Definition within (limit : Z) (rs : list (Z * option goerr)) : nat :=
  length (List.filter (fun r : Z * option goerr => (r.1 <=? limit) && if r.2 then false else true) rs).
Definition uncounted (rs : list (Z * option goerr)) : nat :=
  length (List.filter (fun r : Z * option goerr => if r.2 then true else false) rs).
Definition let_on (limit : Z) (rs : list (Z * option goerr)) : nat :=
  length (List.filter (fun r : Z * option goerr => if r.2 then true else r.1 <=? limit) rs).

Lemma let_on_split limit rs : let_on limit rs = (within limit rs + uncounted rs)%nat.
Proof.
  unfold let_on, within, uncounted. induction rs as [|[n [err|]] rs IH]; simpl; [done|..].
  - rewrite andb_false_r. simpl. rewrite IH. lia.
  - rewrite andb_true_r. destruct (n <=? limit); simpl; rewrite IH; lia.
Qed.

(** The counter, and that its window is still open at time [T]. *)
Definition count_of (e : option (cacheVal * option Z)) : Z :=
  match e with Some (VInt64 m, _) => m | _ => 0 end.

Definition open_until (w T t : Z) (e : option (cacheVal * option Z)) : Prop :=
  match e with Some (_, Some x) => T < x | _ => T < t + w end.

Lemma count_run_time k window db rs db' : Millisecond <= window -> count_run k window db rs db' ->
  rdb_time db <= rdb_time db'.
Proof.
  intros Hw. induction 1 as [|db s r s' db1 rs db2 Hrun _ IH|db db1 rs db2 [? _] _ IH]; [lia| |lia].
  destruct (redis_IncrWindow_run k window s db Hw) as (n & err & db0 & db' & Hr & Hel & Ht & _).
  apply count_tries_time in Hel. rewrite Hr in Hrun. injection Hrun as _ _ <-. lia.
Qed.

(** While the window is open, an entry survives the passing of time. *)
Lemma open_elapse w T db db' k : elapse db db' -> rdb_time db' <= T -> open_until w T (rdb_time db) (rdb_entry db k) ->
  rdb_entry db' k = rdb_entry db k /\ open_until w T (rdb_time db') (rdb_entry db' k).
Proof.
  intros Hel HT Ho. pose proof Hel as [Ht Ha]. specialize (Ha k).
  destruct (rdb_entry db k) as [[v [e|]]|] eqn:He; simpl in Ha, Ho.
  - destruct Ha as [[-> _]|[_ ?]]; [|lia]. done.
  - rewrite Ha. split; [done|]. simpl. lia.
  - rewrite Ha. split; [done|]. simpl. lia.
Qed.

Lemma open_counted w T t e e' n : T < t + w -> open_until w T t e -> counted w t e e' n ->
  n = count_of e + 1 /\ count_of e' = n /\ open_until w T t e'.
Proof.
  intros HT Ho (m & x & Hm & -> & ->). simpl. destruct Hm as [(-> & -> & ->)| ->]; simpl in *; [done|].
  split; [done|]. split; [done|]. by destruct x.
Qed.

Lemma open_tries w T k db db' : tries (count_once k w) db db' -> rdb_time db' <= T -> T < rdb_time db + w ->
  open_until w T (rdb_time db) (rdb_entry db k) ->
  count_of (rdb_entry db k) <= count_of (rdb_entry db' k) /\ open_until w T (rdb_time db') (rdb_entry db' k).
Proof.
  induction 1 as [db db' Hel|db db0 db1 db' Hel [Ht1 Hc] Htr IH]; intros HT Hw Ho.
  - destruct (open_elapse _ _ _ _ _ Hel HT Ho) as [-> ?]. done.
  - pose proof (count_tries_time _ _ _ _ Htr). pose proof Hel as [Ht0 _].
    destruct (open_elapse w T _ _ k Hel ltac:(lia) Ho) as [He Ho0]. rewrite <-He. specialize (IH HT ltac:(lia)).
    destruct Hc as [Hsame|[n Hn]].
    + rewrite Hsame, Ht1 in IH. by apply IH.
    + destruct (open_counted w T (rdb_time db0) _ _ _ ltac:(lia) Ho0 Hn) as (-> & Hcnt & Ho1). rewrite Ht1 in IH.
      destruct (IH Ho1) as [? ?]. split; [lia|done].
Qed.

Lemma count_run_bound k window limit db rs db' : Millisecond <= window -> count_run k window db rs db' ->
  open_until (Z.quot window Millisecond) (rdb_time db') (rdb_time db) (rdb_entry db k) ->
  rdb_time db' < rdb_time db + Z.quot window Millisecond ->
  Z.of_nat (within limit rs) <= Z.max 0 (limit - count_of (rdb_entry db k)).
Proof.
  intros Hw Hrun. induction Hrun as [db|db s r s' db1 rs db2 Hrun Hrest IH|db db1 rs db2 Hel Hrest IH]; intros Ho HT.
  - unfold within. simpl. lia.
  - pose proof (count_run_time _ _ _ _ _ Hw Hrest) as Ht12.
    destruct (redis_IncrWindow_run k window s db Hw) as (n & err & db0 & db' & Hr & Htr & Ht & Hc).
    rewrite Hr in Hrun. injection Hrun as <- _ <-.
    pose proof (count_tries_time _ _ _ _ Htr) as Ht0.
    destruct (open_tries _ (rdb_time db2) _ _ _ Htr ltac:(lia) ltac:(lia) Ho) as [Hle Ho0].
    rewrite Ht in IH. unfold within in *. simpl. destruct err as [err|].
    + rewrite andb_false_r. rewrite Hc in IH. specialize (IH Ho0 ltac:(lia)). lia.
    + destruct (open_counted (Z.quot window Millisecond) (rdb_time db2) (rdb_time db0) _ _ _ ltac:(lia) Ho0 Hc) as (-> & Hcnt & Ho').
      specialize (IH Ho' ltac:(lia)). rewrite Hcnt in IH. rewrite andb_true_r.
      destruct (Z.leb_spec (count_of (rdb_entry db0 k) + 1) limit); simpl; lia.
  - pose proof (count_run_time _ _ _ _ _ Hw Hrest). pose proof Hel as [Ht _].
    destruct (open_elapse _ (rdb_time db2) _ _ _ Hel ltac:(lia) Ho) as [He Ho']. rewrite <-He. apply IH; [done|lia].
Qed.

(** Deadlines only come from the entry as it was, or from a window since. *)
Lemma tries_deadline k w db db' v e : tries (count_once k w) db db' -> rdb_entry db' k = Some (v, Some e) ->
  e <= rdb_time db' + w \/ exists v', rdb_entry db k = Some (v', Some e).
Proof.
  intros H. revert v e.
  apply (tries_inv (count_once k w) (fun d => forall v e, rdb_entry d k = Some (v, Some e) ->
    e <= rdb_time d + w \/ exists v', rdb_entry db k = Some (v', Some e)) db db'); [..|exact H|eauto].
  - intros d d' [Ht Ha] IH v e He. specialize (Ha k). rewrite He in Ha.
    destruct (rdb_entry d k) as [[v1 [e1|]]|] eqn:Hd; simpl in Ha; [|done..].
    destruct Ha as [[Ha _]|[? _]]; [|done]. injection Ha as -> ->. destruct (IH _ _ eq_refl); [left; lia|by right].
  - intros d d' [Ht [Hs|[n (m & x & Hm & -> & He1)]]] IH v e He; [rewrite Hs in He; rewrite Ht; eauto|].
    rewrite He1 in He. injection He as <- He. rewrite Ht. destruct x as [e1|]; simpl in He; subst e; [|left; lia].
    destruct Hm as [(_ & _ & ?)|Hm]; [done|eauto].
Qed.


(** A window below one millisecond is sent as zero, which deletes the counter:
    every request is the first, and none is ever refused. *)
Theorem redis_tiny_window_never_counts (k : string) (window n : Z) (err : option goerr) (s s' : Sys) (db db' : RDB) :
  0 < window < Millisecond -> rdb_entry db k = None ->
  RedisCache_IncrWindow k window (s, db) = (Ret (n, err), (s', db')) ->
  (err = None -> n = 1) /\ rdb_entry db' k = None.
Proof.
  intros Hw Hn. unfold RedisCache_IncrWindow, bind, in_redis. rewrite Z.quot_small by lia. simpl.
  assert (forall d, rdb_entry d k = None -> exists dx, incrWindowScript k 0 d = (Ret (inl 1), dx) /\ rdb_entry dx k = None) as Hsc.
  { intros d Hd. destruct (incr_law k d) as (r1 & d1 & Hi & _ & He). rewrite Hd in He. simpl in He. injection He as <- He.
    destruct (pttl_law k d1) as (p & Hp & Hpv). rewrite <-He in Hpv. subst p.
    destruct (pexpire_law k 0 d1) as (d2 & Hx & _ & He2). rewrite <-He in He2. simpl in He2.
    exists d2. unfold incrWindowScript, bind. rewrite Hi, Hp. simpl. rewrite Hx. done. }
  destruct (run_law (incrWindowScript k 0) db) as (r & db0 & db1 & Hrun & Hel & Hcase). rewrite Hrun.
  assert (rdb_entry db0 k = None) as Hn0.
  { apply (tries_inv _ (fun d => rdb_entry d k = None) _ _ (fun d d' => elapse_None d d' k)) in Hel; [done| |done].
    intros d d' -> Hd. destruct (Hsc d Hd) as (dx & -> & ?). done. }
  destruct (Hsc db0 Hn0) as (dbx & Hx & Hnx). rewrite Hx in Hcase. destruct Hcase as [Hs|[[e ->] ->]].
  - injection Hs as <- <-. intros [= <- <- <- <-]. done.
  - intros [= <- <- <- <-]. done.
Qed.

End RedisProps.

(** ** A server in memory *)

Module RefRedisServer.

Record DB := mkDB { db_time : Z; db_items : gmap string (cacheVal * option Z) }.

Definition entry (db : DB) (k : string) : option (cacheVal * option Z) :=
  match db_items db !! k with
  | Some (v, Some e) => if db_time db <=? e then Some (v, Some e) else None
  | o => o
  end.

Definition put (k : string) (e : option (cacheVal * option Z)) (db : DB) : DB :=
  mkDB (db_time db) (match e with Some x => <[k := x]> (db_items db) | None => delete k (db_items db) end).

Definition nil_ : goerr := ErrVar "redis.Nil" "redis: nil".

Definition set_ (k : string) (v : cacheVal) (d : Z) : ST DB (option goerr) := fun db =>
  (Ret None, put k (Some (v, if 0 <? d then Some (db_time db + expiry_ms d) else None)) db).

Definition get_ (k : string) : ST DB (cacheVal + goerr) := fun db =>
  (Ret (match entry db k with Some (v, _) => inl v | None => inr nil_ end), db).

Definition getdel_ (k : string) : ST DB (cacheVal + goerr) := fun db =>
  (Ret (match entry db k with Some (v, _) => inl v | None => inr nil_ end), put k None db).

Definition incr_ (k : string) : ST DB (Z + goerr) := fun db =>
  let '(r, e) := incr_entry (entry db k) in (Ret r, put k e db).

Definition pttl_ (k : string) : ST DB Z := fun db =>
  (Ret (match entry db k with
        | None => -2 | Some (_, None) => -1 | Some (_, Some e) => Z.max 0 (e - db_time db) end), db).

Definition pexpire_ (k : string) (ms : Z) : ST DB unit := fun db =>
  (Ret tt, match entry db k with
           | None => put k None db
           | Some (v, _) => put k (if 0 <? ms then Some (v, Some (db_time db + ms)) else None) db
           end).

End RefRedisServer.

Definition RefRedis : RedisServer := {|
  RDB := RefRedisServer.DB;
  redis_Nil := RefRedisServer.nil_;
  cmd_Set := RefRedisServer.set_;
  cmd_Get := RefRedisServer.get_;
  cmd_GetDel := RefRedisServer.getdel_;
  cmd_Del k db := (Ret tt, RefRedisServer.put k None db);
  cmd_Run sc db := match sc db with (Ret r, db') => (Ret r, db') | (Panic e, _) => (Ret (inr (ErrMsg e)), db) end;
  call_INCR := RefRedisServer.incr_;
  call_PTTL := RefRedisServer.pttl_;
  call_PEXPIRE := RefRedisServer.pexpire_;
  rdb_time := RefRedisServer.db_time;
  rdb_entry := RefRedisServer.entry;
|}.

Section RefRedisSpec.
Import RefRedisServer.

Lemma entry_put k e db : (forall v x, e = Some (v, Some x) -> db_time db <= x) -> entry (put k e db) k = e.
Proof.
  intros He. unfold entry. destruct e as [[v [x|]]|]; simpl; rewrite ?lookup_insert_eq, ?lookup_delete_eq; try done.
  specialize (He v x eq_refl). by destruct (Z.leb_spec (db_time db) x); [|lia].
Qed.

Lemma entry_put_ne k k' e db : k' <> k -> entry (put k e db) k' = entry db k'.
Proof.
  intros Hk. unfold entry. destruct e; simpl; by rewrite ?lookup_insert_ne, ?lookup_delete_ne by done.
Qed.

Lemma ref_entry_live db k v e : entry db k = Some (v, Some e) -> db_time db <= e.
Proof.
  unfold entry. destruct (db_items db !! k) as [[v' [e'|]]|]; [|done..].
  destruct (Z.leb_spec (db_time db) e'); [|done]. intros [= _ <-]. done.
Qed.

Lemma ref_elapse_refl (db : DB) : elapse (R := RefRedis) db db.
Proof.
  split; [simpl; lia|]. intros k. simpl. destruct (entry db k) as [[v [e|]]|] eqn:He; simpl; [|done..].
  left. split; [done|]. by eapply ref_entry_live.
Qed.

Lemma ref_only k e (db : DB) : only (R := RefRedis) k db (put k e db).
Proof. split; [done|]. intros k' Hk'. by apply entry_put_ne. Qed.

Lemma expiry_ms_pos d : 1 <= expiry_ms d.
Proof. unfold expiry_ms. lia. Qed.

Lemma ref_tries once (db : DB) : tries (R := RefRedis) once db db.
Proof. apply tries_none, ref_elapse_refl. Qed.

Lemma ref_del_once k (db : DB) : del_once (R := RefRedis) k db (put k None db).
Proof. split; [apply ref_only|]. by apply entry_put. Qed.

(** Every promise of [RedisSpec] can be kept. *)
#[export] Instance RefRedis_spec : RedisSpec RefRedis.
Proof.
  split; simpl.
  - apply ref_entry_live.
  - intros k v d db. eexists _, db, _. split; [reflexivity|]. split; [apply ref_tries|]. split; [apply ref_only|].
    pose proof (expiry_ms_pos d). simpl. rewrite entry_put by (intros v' x; destruct (0 <? d); intros [= _ <-]; lia).
    split_and!; [|by intros ->|eauto]. intros Hd. by destruct (Z.ltb_spec 0 d); [|lia].
  - intros k db. eexists _, db. split; [reflexivity|]. split; [apply ref_elapse_refl|].
    destruct (entry db k) as [[v x]|]; eauto.
  - intros k db. eexists _, db, _. split; [reflexivity|]. split; [apply ref_tries|].
    destruct (entry db k) as [[v x]|] eqn:He; [split; [eauto|apply ref_del_once]|].
    split; [done|]. split; [apply ref_only|]. simpl. rewrite He. by apply entry_put.
  - intros k db. eexists. split; [reflexivity|].
    eapply tries_lost; [apply ref_elapse_refl|apply ref_del_once|apply ref_tries].
  - intros sc db. destruct (sc db) as [[r|e] db'] eqn:Hs; eexists _, db, _; (split; [reflexivity|]);
      (split; [apply ref_tries|]); [by left|right; eauto].
  - intros k db. unfold incr_. destruct (incr_entry (entry db k)) as [r e] eqn:Hi.
    eexists r, _. split; [reflexivity|]. split; [apply ref_only|]. f_equal. symmetry. apply entry_put.
    intros v x ->. destruct (entry db k) as [[v' x']|] eqn:He; [|done]. apply (ref_entry_live db k v').
    unfold incr_entry in Hi. destruct v'; try congruence. destruct (_ <? _); congruence.
  - intros k db. eexists. split; [reflexivity|]. by destruct (entry db k) as [[v [x|]]|].
  - intros k ms db. unfold pexpire_. destruct (entry db k) as [[v x]|] eqn:He; eexists; (split; [reflexivity|]);
      (split; [apply ref_only|]); apply entry_put; [|done].
    intros v' x'. destruct (Z.ltb_spec 0 ms); intros [= _ <-]; lia.
Qed.

End RefRedisSpec.
