(* ===== verification/FileRepo.v ===== *)
(** * infrastructure/repository/file: the generic file-backed repository

    [FileRepository[T, D]] keeps pointers to entities in a map, builds an index
    per looked-up field on first use, and rewrites the whole document file on
    every change before it applies the change in memory.  Pointers handed out by
    a lookup alias the stored entity, so the model has a heap: an item of the
    repository is a location, and a caller that assigns through a pointer it was
    given changes the stored entity.

    The mutex makes each operation atomic; operations are therefore functions on
    the repository state.  Iteration over a Go map visits keys in the order
    [map_rank] fixes, which the theorems leave arbitrary. *)

From stdpp Require Import sorting.
From S2P Require Import Prelude GoStd Crypto Errors Env.

Local Open Scope Z_scope.

Definition NewErrWriteFailed (cause : goerr) : goerr := ErrWrapped "repository: write failed: " cause.
Definition NewErrInvalidField (cause : goerr) : goerr := ErrWrapped "repository: invalid field: " cause.

(** What an adapter passes to [filerepo.New], and what reflection reads from
    the entity type. *)
Class FileCodec (E : Env) (T D : Type) := {
  fc_path : string;
  fc_getID : T -> string;
  (** [stringFieldValue]: no such field; a nil pointer; a string *)
  fc_field : string -> T -> option (option string);
  fc_toDoc : T -> ST Sys D;
  fc_toEntity : D -> T + goerr;
  (** JSON encoding followed by decoding *)
  fc_json : D -> D;
  (** the fields the adapter looks entities up by *)
  fc_keys : list string;
}.

Record FileRepo (T D : Type) := mkFileRepo {
  fr_heap : gmap nat T;
  fr_next : nat;
  fr_items : gmap string nat;
  fr_indexedFields : gmap string (gmap string string);
  fr_disk : gmap string D;
  fr_ranges : nat;
}.

Arguments mkFileRepo {T D}.
Arguments fr_heap {T D}.
Arguments fr_next {T D}.
Arguments fr_items {T D}.
Arguments fr_indexedFields {T D}.
Arguments fr_disk {T D}.
Arguments fr_ranges {T D}.

Section FileRepo.
  Context {E : Env} {T D : Type} `{!FileCodec E T D}.

Notation RepoST := (ST (Sys * FileRepo T D)).

Definition fr_set_heap (h : gmap nat T) (r : FileRepo T D) : FileRepo T D :=
  mkFileRepo h (fr_next r) (fr_items r) (fr_indexedFields r) (fr_disk r) (fr_ranges r).
Definition fr_set_items (m : gmap string nat) (r : FileRepo T D) : FileRepo T D :=
  mkFileRepo (fr_heap r) (fr_next r) m (fr_indexedFields r) (fr_disk r) (fr_ranges r).
Definition fr_set_indexes (ix : gmap string (gmap string string)) (r : FileRepo T D) : FileRepo T D :=
  mkFileRepo (fr_heap r) (fr_next r) (fr_items r) ix (fr_disk r) (fr_ranges r).
Definition fr_set_disk (d : gmap string D) (r : FileRepo T D) : FileRepo T D :=
  mkFileRepo (fr_heap r) (fr_next r) (fr_items r) (fr_indexedFields r) d (fr_ranges r).

Definition fr_get : RepoST (FileRepo T D) := fun p => (Ret p.2, p).
Definition fr_modify (f : FileRepo T D -> FileRepo T D) : RepoST unit :=
  fun p => (Ret tt, (p.1, f p.2)).
Definition fr_sys {A} (m : ST Sys A) : RepoST A := fun p =>
  match m p.1 with (o, s') => (o, (s', p.2)) end.

(** [*p] and [p := &v] and [*p = v]. *)
Definition fr_deref (l : nat) : RepoST T := fun p =>
  match fr_heap p.2 !! l with
  | Some x => (Ret x, p)
  | None => (Panic "nil pointer dereference", p)
  end.

Definition fr_new (x : T) : RepoST nat := fun p =>
  let r := p.2 in
  (Ret (fr_next r),
   (p.1, mkFileRepo (<[fr_next r := x]> (fr_heap r)) (S (fr_next r)) (fr_items r)
           (fr_indexedFields r) (fr_disk r) (fr_ranges r))).

Definition fr_assign (l : nat) (x : T) : RepoST unit :=
  fr_modify (fun r => fr_set_heap (<[l := x]> (fr_heap r)) r).

(** [for id, item := range r.items] *)
Definition rank_le (n : nat) (a b : string * nat) : Prop :=
  map_rank fc_path n a.1 <= map_rank fc_path n b.1.

#[local] Instance rank_le_dec n : RelDecision (rank_le n).
Proof. intros a b. unfold rank_le. apply _. Defined.

Definition fr_range : RepoST (list (string * nat)) := fun p =>
  let r := p.2 in
  (Ret (merge_sort (rank_le (fr_ranges r)) (map_to_list (fr_items r))),
   (p.1, mkFileRepo (fr_heap r) (fr_next r) (fr_items r) (fr_indexedFields r) (fr_disk r)
           (S (fr_ranges r)))).

Definition stringFieldValue (x : T) (field : string) : option string * option goerr :=
  match fc_field field x with
  | None => (None, Some (NewErrInvalidField (ErrMsg ("unknown or non-string field " +:+ field))))
  | Some v => (v, None)
  end.

Fixpoint buildIndex_go (field : string) (l : list (string * nat)) (index : gmap string string)
  : RepoST (gmap string string + goerr) :=
  match l with
  | [] => mret (inl index)
  | (id, loc) :: l' =>
    x ← fr_deref loc;
    match stringFieldValue x field with
    | (_, Some err) => mret (inr err)
    | (Some value, None) => buildIndex_go field l' (<[value := id]> index)
    | (None, None) => buildIndex_go field l' index
    end
  end.

Definition buildIndex (field : string) : RepoST (gmap string string + goerr) :=
  l ← fr_range; buildIndex_go field l ∅.

(** The first half of [findByFieldLocked]: the index of the field, built and
    stored if this is the first lookup by it. *)
Definition ensureIndex (field : string) : RepoST (gmap string string + goerr) :=
  r ← fr_get;
  match fr_indexedFields r !! field with
  | Some index => mret (inl index)
  | None =>
    b ← buildIndex field;
    match b with
    | inr err => mret (inr err)
    | inl index =>
      fr_modify (fun r => fr_set_indexes (<[field := index]> (fr_indexedFields r)) r);;
      mret (inl index)
    end
  end.

Definition findByFieldLocked (field value : string) : RepoST (option nat * option goerr) :=
  ix ← ensureIndex field;
  r ← fr_get;
  match ix with
  | inr err => mret (None, Some err)
  | inl index =>
    match index !! value with
    | None => mret (None, Some ErrNotFound)
    | Some id =>
      match fr_items r !! id with
      | None =>
        fr_modify (fun r => fr_set_indexes (<[field := delete value index]> (fr_indexedFields r)) r);;
        mret (None, Some ErrNotFound)
      | Some item => mret (Some item, None)
      end
    end
  end.

(** One index after the item [id] became [x]. *)
Definition updateIndex (id : string) (x : T) (field : string) (index : gmap string string)
  : gmap string string :=
  let index' := filter (fun '(_, indexedID) => indexedID <> id) index in
  match stringFieldValue x field with
  | (Some value, None) => <[value := id]> index'
  | _ => index'
  end.

Definition updateIndexesForItem (id : string) (item : nat) : RepoST unit :=
  x ← fr_deref item;
  fr_modify (fun r => fr_set_indexes (map_imap (fun field index => Some (updateIndex id x field index))
                                        (fr_indexedFields r)) r).

Fixpoint rebuild_go (fields : list string) : RepoST unit :=
  match fields with
  | [] => mret tt
  | field :: fields' =>
    b ← buildIndex field;
    (match b with
     | inr _ => fr_modify (fun r => fr_set_indexes (delete field (fr_indexedFields r)) r)
     | inl index => fr_modify (fun r => fr_set_indexes (<[field := index]> (fr_indexedFields r)) r)
     end);;
    rebuild_go fields'
  end.

Definition rebuildIndexes : RepoST unit :=
  r ← fr_get; rebuild_go (map_to_list (fr_indexedFields r)).*1.

(** The documents of the listed items. *)
Fixpoint toDocs (l : list (string * nat)) : RepoST (gmap string D) :=
  match l with
  | [] => mret ∅
  | (id, loc) :: l' =>
    x ← fr_deref loc;
    d ← fr_sys (fc_toDoc x);
    docs ← toDocs l';
    mret (<[id := d]> docs)
  end.

(** [writeToFile]: the temporary file replaces the old one only as a whole. *)
Definition writeToFile (docs : gmap string D) : RepoST (option goerr) :=
  e ← fr_sys next_disk_write;
  match e with
  | Some msg => mret (Some (NewErrWriteFailed (ErrMsg msg)))
  | None => fr_modify (fr_set_disk docs);; mret None
  end.

Definition writeItems (items : gmap string nat) : RepoST (option goerr) :=
  r ← fr_get;
  docs ← toDocs (merge_sort (rank_le (fr_ranges r)) (map_to_list items));
  writeToFile docs.

Definition writeItemsWith (id : string) (item : nat) : RepoST (option goerr) :=
  l ← fr_range;
  docs ← toDocs l;
  x ← fr_deref item;
  d ← fr_sys (fc_toDoc x);
  writeToFile (<[id := d]> docs).

(** The part the three writers share: persist, then apply in memory. *)
Definition persist (item : nat) : RepoST (option goerr) :=
  x ← fr_deref item;
  let id := fc_getID x in
  e ← writeItemsWith id item;
  match e with
  | Some err => mret (Some err)
  | None =>
    fr_modify (fun r => fr_set_items (<[id := item]> (fr_items r)) r);;
    updateIndexesForItem id item;;
    mret None
  end.

Definition fr_Save (item : nat) : RepoST (option goerr) := persist item.

Definition fr_CreateIfFieldNotExists (field value : string) (item : nat) : RepoST (option goerr) :=
  f ← findByFieldLocked field value;
  match f with
  | (_, None) => mret (Some ErrConflict)
  | (_, Some err) =>
    if negb (errors_Is err ErrNotFound) then mret (Some err) else persist item
  end.

Definition fr_FindByField (field value : string) : RepoST (option nat * option goerr) :=
  findByFieldLocked field value.

(** The callback receives a copy and may also set variables of its caller: it
    returns the changed copy and the value [c] of those variables. *)
Definition fr_UpdateByField {C} (field value : string) (c0 : C)
    (update : T -> ST Sys (C * T * option goerr)) : RepoST (C * option goerr) :=
  f ← findByFieldLocked field value;
  match f with
  | (_, Some err) => mret (c0, Some err)
  | (None, None) => panic "nil pointer dereference"
  | (Some item, None) =>
    x ← fr_deref item;
    ' (c, x', e) ← fr_sys (update x);
    match e with
    | Some err => mret (c, Some err)
    | None =>
      cp ← fr_new x';
      e' ← persist cp;
      mret (c, e')
    end
  end.

(** The loop of [UpdateAll]: the map of the next items, or the callback's error. *)
Fixpoint updateAll_go (update : T -> ST Sys (T * bool * option goerr)) (l : list (string * nat))
    (nextItems : gmap string nat) : RepoST (gmap string nat + goerr) :=
  match l with
  | [] => mret (inl nextItems)
  | (id, item) :: l' =>
    x ← fr_deref item;
    ' (x', changed, e) ← fr_sys (update x);
    match e with
    | Some err => mret (inr err)
    | None =>
      if changed : bool then
        cp ← fr_new x';
        updateAll_go update l' (<[id := cp]> nextItems)
      else updateAll_go update l' (<[id := item]> nextItems)
    end
  end.

Definition fr_UpdateAll (update : T -> ST Sys (T * bool * option goerr)) : RepoST (option goerr) :=
  r ← fr_get;
  l ← fr_range;
  n ← updateAll_go update l ∅;
  match n with
  | inr err => mret (Some err)
  | inl nextItems =>
    if bool_decide (fr_items r = nextItems) then mret None
    else
      e ← writeItems nextItems;
      match e with
      | Some err => mret (Some err)
      | None =>
        fr_modify (fr_set_items nextItems);;
        rebuildIndexes;;
        mret None
      end
  end.

(** [New]: decode the file and build the items, in iteration order. *)
Fixpoint load_go (l : list (string * D)) (n : nat) (h : gmap nat T) (items : gmap string nat)
  : (gmap nat T * gmap string nat * nat) + goerr :=
  match l with
  | [] => inl (h, items, n)
  | (k, d) :: l' =>
    match fc_toEntity d with
    | inr err => inr err
    | inl x => load_go l' (S n) (<[n := x]> h) (<[k := n]> items)
    end
  end.

Definition fr_load (disk : gmap string D) : FileRepo T D + goerr :=
  let loaded := (fun '(k, d) => (json_string k, fc_json d)) <$> map_to_list disk in
  match load_go loaded 0 ∅ ∅ with
  | inr err => inr err
  | inl (h, items, n) => inl (mkFileRepo h n items ∅ disk 0)
  end.

(** ** The stored entities *)

Definition fr_view (r : FileRepo T D) : gmap string T :=
  omap (fun l => fr_heap r !! l) (fr_items r).

(** Entities that agree on a looked-up field are the same entity. *)
Definition unique_keys (m : gmap string T) : Prop :=
  forall f v id1 id2 x1 x2, f ∈ fc_keys ->
    m !! id1 = Some x1 -> m !! id2 = Some x2 ->
    fc_field f x1 = Some (Some v) -> fc_field f x2 = Some (Some v) -> id1 = id2.

(** An index maps each value of its field to the entity that has it. *)
Definition index_ok (m : gmap string T) (f : string) (index : gmap string string) : Prop :=
  forall v id, index !! v = Some id <-> exists x, m !! id = Some x /\ fc_field f x = Some (Some v).

Record fr_core (r : FileRepo T D) : Prop := {
  core_deref : forall id l, fr_items r !! id = Some l ->
    exists x, fr_heap r !! l = Some x /\ fc_getID x = id;
  core_next : forall l x, fr_heap r !! l = Some x -> (l < fr_next r)%nat;
  core_unique : unique_keys (fr_view r);
}.

Record fr_inv (r : FileRepo T D) : Prop := {
  inv_core : fr_core r;
  inv_fields : forall f index, fr_indexedFields r !! f = Some index ->
    f ∈ fc_keys /\ index_ok (fr_view r) f index;
}.

(** What every adapter's codec satisfies: the looked-up fields exist on the
    entity type, and encoding only makes requests to the environment. *)
Class CodecOk := {
  fields_exist : forall f x, f ∈ fc_keys -> is_Some (fc_field f x);
  toDoc_mono : forall x s, sys_le s (fc_toDoc x s).2;
}.

(** Everything but the lazily built indexes is kept. *)
Record fr_same (r r' : FileRepo T D) : Prop := {
  same_heap : fr_heap r' = fr_heap r;
  same_next : fr_next r' = fr_next r;
  same_items : fr_items r' = fr_items r;
}.

End FileRepo.

Section FileRepoProofs.
  Context {E : Env} {T D : Type} `{!FileCodec E T D} {HF : CodecOk (T:=T) (D:=D)}.
  Implicit Types (r : FileRepo T D) (s : Sys).

#[local] Existing Instance rank_le_dec.

Definition inv_deref r (H : fr_inv r) := core_deref r (inv_core r H).
Definition inv_next r (H : fr_inv r) := core_next r (inv_core r H).
Definition inv_unique r (H : fr_inv r) := core_unique r (inv_core r H).

Lemma fr_same_view r r' : fr_same r r' -> fr_view r' = fr_view r.
Proof. intros [Hh _ Hi]. unfold fr_view. by rewrite Hh, Hi. Qed.

#[export] Instance fr_same_preorder : PreOrder (@fr_same T D).
Proof.
  split; [by intros r|]. intros r1 r2 r3 [] []. split; congruence.
Qed.

Lemma fr_view_lookup r id x :
  fr_view r !! id = Some x <-> exists l, fr_items r !! id = Some l /\ fr_heap r !! l = Some x.
Proof.
  unfold fr_view. rewrite lookup_omap. destruct (fr_items r !! id); simpl; naive_solver.
Qed.

Lemma fr_inv_same r r' :
  fr_inv r -> fr_same r r' ->
  (forall f index, fr_indexedFields r' !! f = Some index ->
     f ∈ fc_keys /\ index_ok (fr_view r) f index) ->
  fr_inv r'.
Proof.
  intros [[Hd Hn Hu] _] Hs Hf. pose proof (fr_same_view _ _ Hs) as Hv. destruct Hs as [Hh Hx Hi].
  split; [split|]; rewrite ?Hh, ?Hx, ?Hi, ?Hv; auto.
Qed.

(** ** Building an index *)

(** The value of field [f] at location [l]. *)
Definition loc_value (h : gmap nat T) (f : string) (l : nat) : option string :=
  match h !! l with
  | Some x => match fc_field f x with Some v => v | None => None end
  | None => None
  end.

Fixpoint index_fold (h : gmap nat T) (f : string) (l : list (string * nat))
    (index : gmap string string) : gmap string string :=
  match l with
  | [] => index
  | (id, loc) :: l' =>
    index_fold h f l' (match loc_value h f loc with Some v => <[v := id]> index | None => index end)
  end.

Lemma buildIndex_go_run f l index s r :
  f ∈ fc_keys -> Forall (fun p => is_Some (fr_heap r !! p.2)) l ->
  buildIndex_go f l index (s, r) = (Ret (inl (index_fold (fr_heap r) f l index)), (s, r)).
Proof.
  intros Hf. revert index. induction l as [|[id loc] l IH]; intros index; [done|].
  rewrite Forall_cons. intros [[x Hx] Hl]. simpl in *.
  unfold bind, fr_deref, loc_value, stringFieldValue. simpl. rewrite Hx.
  destruct (fields_exist f x Hf) as [[v|] ->]; by apply IH.
Qed.

Lemma index_fold_lookup h f l index v id :
  (forall i1 l1 i2 l2, (i1, l1) ∈ l -> (i2, l2) ∈ l ->
     loc_value h f l1 = Some v -> loc_value h f l2 = Some v -> i1 = i2) ->
  index_fold h f l index !! v = Some id <->
  (exists loc, (id, loc) ∈ l /\ loc_value h f loc = Some v) \/
  (index !! v = Some id /\ forall i loc, (i, loc) ∈ l -> loc_value h f loc <> Some v).
Proof.
  revert index. induction l as [|[i loc] l IH]; intros index Hu; simpl.
  { setoid_rewrite elem_of_nil. naive_solver. }
  rewrite IH by (intros; eapply (Hu i1 l1 i2 l2); try (apply elem_of_cons; right); done).
  setoid_rewrite elem_of_cons.
  destruct (loc_value h f loc) as [w|] eqn:Hw; [|naive_solver].
  destruct (decide (w = v)) as [->|Hne].
  - rewrite lookup_insert_eq. split.
    + intros [(l' & ? & ?)|[[= ->] Hno]]; [naive_solver|]. left. exists loc. auto.
    + intros [(l' & [[= -> ->]|Hin] & Hv)|[_ Hno]].
      * destruct (decide (Exists (fun p => loc_value h f p.2 = Some v) l)) as [Hx|Hnone].
        { apply Exists_exists in Hx as ([i' l'] & Hin & Hv'). left. exists l'.
          rewrite (Hu i loc i' l') at 1; rewrite ?elem_of_cons; auto. }
        right. split; [done|]. intros i' l' Hin Hv'. apply Hnone, Exists_exists. by exists (i', l').
      * left. eauto.
      * exfalso. by eapply (Hno i loc); [left|].
  - rewrite lookup_insert_ne by done. naive_solver.
Qed.


Lemma range_elem n (m : gmap string nat) i l :
  (i, l) ∈ merge_sort (rank_le n) (map_to_list m) <-> m !! i = Some l.
Proof. rewrite merge_sort_Permutation. apply elem_of_map_to_list. Qed.

Definition bump (r : FileRepo T D) : FileRepo T D :=
  mkFileRepo (fr_heap r) (fr_next r) (fr_items r) (fr_indexedFields r) (fr_disk r) (S (fr_ranges r)).

Lemma range_heap r n :
  fr_core r ->
  Forall (fun p => is_Some (fr_heap r !! p.2)) (merge_sort (rank_le n) (map_to_list (fr_items r))).
Proof.
  intros Hinv. apply Forall_forall. intros [i l] Hin%range_elem. simpl.
  destruct (core_deref r Hinv i l Hin) as (x & -> & _). eauto.
Qed.

Lemma loc_value_view r f v i l :
  fr_core r -> fr_items r !! i = Some l -> loc_value (fr_heap r) f l = Some v <->
  exists x, fr_view r !! i = Some x /\ fc_field f x = Some (Some v).
Proof.
  intros Hinv Hi. unfold loc_value. destruct (core_deref r Hinv i l Hi) as (x & Hx & _). rewrite Hx.
  assert (fr_view r !! i = Some x) as Hv by (apply fr_view_lookup; eauto).
  split.
  - intros H. exists x. split; [done|]. by destruct (fc_field f x) as [[?|]|]; simplify_eq.
  - intros (y & Hy & Hf). simplify_eq. by rewrite Hf.
Qed.

Lemma buildIndex_run f s r :
  fr_core r -> f ∈ fc_keys ->
  exists index, buildIndex f (s, r) = (Ret (inl index), (s, bump r)) /\ index_ok (fr_view r) f index.
Proof.
  intros Hinv Hf. unfold buildIndex, bind, fr_range. simpl.
  rewrite (buildIndex_go_run f _ ∅ s (bump r)); [|done|exact (range_heap r _ Hinv)].
  eexists. split; [reflexivity|]. intros v id. cbn [bump fr_heap].
  rewrite index_fold_lookup.
  - setoid_rewrite range_elem. rewrite lookup_empty. split.
    + intros [(l & Hl & Hv)|[]]; [|done]. by apply (loc_value_view r f v id l).
    + intros (x & Hx & Hfx). left.
      pose proof Hx as (l & Hl & _)%fr_view_lookup. exists l. split; [done|].
      apply (loc_value_view r f v id l); eauto.
  - intros i1 l1 i2 l2 H1%range_elem H2%range_elem Hv1 Hv2.
    apply (loc_value_view r f v i1 l1) in Hv1 as (x1 & ? & ?); [|done..].
    apply (loc_value_view r f v i2 l2) in Hv2 as (x2 & ? & ?); [|done..].
    by eapply (core_unique r Hinv f v i1 i2).
Qed.

(** ** Lookup *)

Lemma ensureIndex_run f s r :
  fr_inv r -> f ∈ fc_keys ->
  exists index r1, ensureIndex f (s, r) = (Ret (inl index), (s, r1)) /\
    index_ok (fr_view r) f index /\ fr_same r r1 /\ fr_inv r1 /\ fr_disk r1 = fr_disk r.
Proof.
  intros Hinv Hf. unfold ensureIndex, bind, fr_get. simpl.
  destruct (fr_indexedFields r !! f) as [index|] eqn:Hix.
  - exists index, r. split; [done|]. split; [|done]. by apply (inv_fields r Hinv f index Hix).
  - destruct (buildIndex_run f s r (inv_core r Hinv) Hf) as (index & Hb & Hok). rewrite Hb.
    eexists index, _. split; [reflexivity|]. split; [done|]. split; [done|]. split; [|done].
    apply (fr_inv_same r); [done..|]. simpl. intros f' index'. rewrite lookup_insert.
    case_decide as Heq; [|apply (inv_fields r Hinv)]. intros [= <-]. by subst f'.
Qed.

Lemma find_run f v s r :
  fr_inv r -> f ∈ fc_keys ->
  exists res r', findByFieldLocked f v (s, r) = (Ret res, (s, r')) /\ fr_same r r' /\ fr_inv r' /\
    fr_disk r' = fr_disk r /\
    ((exists id l x, res = (Some l, None) /\ fr_items r !! id = Some l /\ fr_heap r !! l = Some x /\
        fr_view r !! id = Some x /\ fc_getID x = id /\ fc_field f x = Some (Some v)) \/
     (res = (None, Some ErrNotFound) /\
        forall id x, fr_view r !! id = Some x -> fc_field f x <> Some (Some v))).
Proof.
  intros Hinv Hf.
  destruct (ensureIndex_run f s r Hinv Hf) as (index & r1 & Hrun & Hok & Hsame & Hinv1 & Hdisk).
  unfold findByFieldLocked, bind, fr_get. rewrite Hrun. simpl. rewrite (same_items _ _ Hsame).
  specialize (Hok v).
  destruct (index !! v) as [id|] eqn:Hv.
  - destruct (proj1 (Hok id) eq_refl) as (x & Hx & Hfx).
    pose proof Hx as (l & Hl & Hh)%fr_view_lookup. rewrite Hl.
    eexists _, r1. split; [reflexivity|]. do 3 (split; [done|]). left.
    destruct (inv_deref r Hinv id l Hl) as (x' & Hx' & Hid). simplify_eq.
    exists (fc_getID x), l, x. auto 10.
  - eexists _, r1. split; [reflexivity|]. do 3 (split; [done|]). right. split; [done|].
    intros id x Hx Hfx. assert (None = Some id) by (apply Hok; eauto). done.
Qed.

(** ** Persisting one entity *)

(** No other stored entity shares a looked-up value with [x]. *)
Definition no_clash (x : T) (m : gmap string T) : Prop :=
  forall f v id y, f ∈ fc_keys -> m !! id = Some y ->
    fc_field f x = Some (Some v) -> fc_field f y = Some (Some v) -> id = fc_getID x.

Lemma toDocs_same l s r o s' r' :
  toDocs l (s, r) = (o, (s', r')) -> r' = r /\ sys_le s s'.
Proof.
  revert o s s' r'. induction l as [|[i loc] l IH]; intros o s s' r'; [by intros [= <- <- <-]|].
  simpl. unfold bind, fr_deref, fr_sys. simpl.
  destruct (fr_heap r !! loc) as [x|]; [|by intros [= <- <- <-]].
  simpl. pose proof (toDoc_mono x s) as Hm.
  destruct (fc_toDoc x s) as [[d|e] s1]; [|by intros [= <- <- <-]].
  destruct (toDocs l (s1, r)) as [[ds|e] [s2 r2]] eqn:Hd;
    intros [= <- <- <-]; destruct (IH _ _ _ _ Hd) as [-> ?]; (split; [done|by etrans]).
Qed.

Lemma unique_insert x m : unique_keys m -> no_clash x m -> unique_keys (<[fc_getID x := x]> m).
Proof.
  intros Hu Hc f v id1 id2 x1 x2 Hf. rewrite !lookup_insert.
  case_decide; case_decide; intros; simplify_eq; [done|..].
  - symmetry. by eapply Hc.
  - by eapply Hc.
  - by eapply Hu.
Qed.

Lemma updateIndex_ok f x m index :
  f ∈ fc_keys -> index_ok m f index -> no_clash x m ->
  index_ok (<[fc_getID x := x]> m) f (updateIndex (fc_getID x) x f index).
Proof.
  intros Hf Hok Hc v id. unfold updateIndex, stringFieldValue.
  assert (forall w, filter (fun '(_, i) => i <> fc_getID x) index !! w = Some id <->
    id <> fc_getID x /\ exists y, m !! id = Some y /\ fc_field f y = Some (Some w)) as Hfilter.
  { intros w. rewrite map_lookup_filter_Some. pose proof (Hok w id) as Hi. tauto. }
  setoid_rewrite lookup_insert.
  destruct (fields_exist f x Hf) as [[w|] Hw]; rewrite Hw.
  - rewrite lookup_insert. case_decide as Hwv; [subst w|].
    + split; [intros [= <-]; exists x; by rewrite decide_True|].
      intros (y & Hy & Hfy). case_decide; [congruence|]. f_equal. symmetry. by eapply Hc.
    + rewrite Hfilter. case_decide; naive_solver.
  - rewrite Hfilter. case_decide; naive_solver.
Qed.

Lemma view_set_item r l x :
  fr_heap r !! l = Some x ->
  fr_view (fr_set_items (<[fc_getID x := l]> (fr_items r)) r) = <[fc_getID x := x]> (fr_view r).
Proof.
  intros Hl. apply map_eq. intros id. apply option_eq. intros y. rewrite fr_view_lookup. simpl.
  setoid_rewrite lookup_insert. case_decide; [naive_solver|]. by rewrite fr_view_lookup.
Qed.

(** [docs] holds an encoding of every entity of [m] and nothing else. *)
Definition encodes (m : gmap string T) (docs : gmap string D) : Prop :=
  forall id, match m !! id with
             | Some x => exists d s0 s1, docs !! id = Some d /\ fc_toDoc x s0 = (Ret d, s1)
             | None => docs !! id = None
             end.

Lemma toDocs_encodes l s r docs s' r' :
  toDocs l (s, r) = (Ret docs, (s', r')) -> NoDup l.*1 ->
  (forall id, id ∉ l.*1 -> docs !! id = None) /\
  (forall id loc x, (id, loc) ∈ l -> fr_heap r !! loc = Some x ->
     exists d s0 s1, docs !! id = Some d /\ fc_toDoc x s0 = (Ret d, s1)).
Proof.
  revert docs s. induction l as [|[i loc] l IH]; intros docs s.
  { intros [= <- _ _] _. split; [done|]. by intros ??? ?%elem_of_nil. }
  simpl. unfold bind, fr_deref, fr_sys. simpl. intros Hrun [Hni Hnd]%NoDup_cons.
  destruct (fr_heap r !! loc) as [x|] eqn:Hx; [|done]. simpl in Hrun.
  destruct (fc_toDoc x s) as [[d|e] s1] eqn:Hd; [|done].
  destruct (toDocs l (s1, r)) as [[ds|e] [s2 r2]] eqn:Ht; [|done].
  pose proof (toDocs_same _ _ _ _ _ _ Ht) as [-> _]. injection Hrun as <- <- <-.
  destruct (IH _ _ Ht Hnd) as [Hout Hin]. split.
  - intros id [Hne Hid]%not_elem_of_cons. simpl in Hne. rewrite lookup_insert_ne by done. auto.
  - intros id loc' x' [[= -> ->]|Hl]%elem_of_cons Hx'.
    + simplify_eq. exists d, s, s1. by rewrite lookup_insert_eq.
    + rewrite lookup_insert_ne; [by eapply Hin|]. intros ->. apply Hni, list_elem_of_fmap.
      by exists (id, loc').
Qed.

Lemma range_encodes n s r docs s' r' :
  fr_core r ->
  toDocs (merge_sort (rank_le n) (map_to_list (fr_items r))) (s, r) = (Ret docs, (s', r')) ->
  encodes (fr_view r) docs.
Proof.
  intros Hc Ht. apply toDocs_encodes in Ht as [Hout Hin];
    [|rewrite merge_sort_Permutation; apply NoDup_fst_map_to_list].
  intros id. destruct (fr_view r !! id) as [x|] eqn:Hv.
  - apply fr_view_lookup in Hv as (l & Hl & Hx). eapply Hin; [by apply range_elem|done].
  - apply Hout. intros ([id' loc] & -> & Hl%range_elem)%list_elem_of_fmap. simpl in *.
    destruct (core_deref r Hc id' loc Hl) as (x & Hx & _).
    assert (fr_view r !! id' = Some x) by (apply fr_view_lookup; eauto). congruence.
Qed.

(** Save, on every path: the entity is stored and the file rewritten; or the
    write failed and nothing changed; or the encoder panicked and nothing
    changed.  The pointer becomes the stored item. *)
Lemma persist_run l x s r :
  fr_inv r -> fr_heap r !! l = Some x -> no_clash x (fr_view r) ->
  exists o s' r', persist l (s, r) = (o, (s', r')) /\ sys_le s s' /\ fr_inv r' /\
    fr_heap r' = fr_heap r /\ fr_next r' = fr_next r /\
    match o with
    | Ret None => fr_items r' = <[fc_getID x := l]> (fr_items r) /\
                  fr_view r' = <[fc_getID x := x]> (fr_view r) /\
                  encodes (fr_view r') (fr_disk r')
    | Ret (Some err) => fr_items r' = fr_items r /\ fr_view r' = fr_view r /\
        fr_disk r' = fr_disk r /\ is_ErrorStruct err = false /\ errors_Is err ErrNotFound = false /\
        ~ DiskOk E
    | Panic _ => fr_items r' = fr_items r /\ fr_view r' = fr_view r /\ fr_disk r' = fr_disk r
    end.
Proof.
  intros Hinv Hl Hc.
  assert (fr_inv (bump r)) as Hb by (apply (fr_inv_same r); [done..|apply (inv_fields r Hinv)]).
  unfold persist, writeItemsWith, writeToFile, bind, fr_deref, fr_range. simpl. rewrite Hl. simpl.
  fold (bump r). match goal with |- context [toDocs ?ks (s, bump r)] =>
    destruct (toDocs ks (s, bump r)) as [o1 [s1 r1]] eqn:Ht end.
  pose proof (toDocs_same _ _ _ _ _ _ Ht) as [-> Hle1]. destruct o1 as [docs|e].
  2:{ eexists _, _, (bump r). split; [reflexivity|]. by split_and!. }
  pose proof (range_encodes _ s (bump r) docs s1 _ (inv_core _ Hb) Ht) as Henc.
  simpl. rewrite Hl. unfold fr_sys. simpl. pose proof (toDoc_mono x s1) as Hm.
  assert (sys_le s (fc_toDoc x s1).2) as Hle2 by (by etrans).
  destruct (fc_toDoc x s1) as [[d|e] s2] eqn:Hdoc.
  2:{ eexists _, _, (bump r). split; [reflexivity|]. by split_and!. }
  simpl. set (s3 := mk_Sys _ _ _ _ _).
  assert (sys_le s s3) as Hle3 by (etrans; [exact Hle2|]; unfold sys_le; simpl; lia).
  destruct (disk_write (n_disk s2)) as [err|] eqn:Hw.
  { eexists _, _, (bump r). split; [reflexivity|]. split_and!; try done.
    intros HD. by rewrite (HD (n_disk s2)) in Hw. }
  unfold updateIndexesForItem, bind, fr_deref. simpl. rewrite Hl.
  eexists _, _, _. split; [reflexivity|]. split; [exact Hle3|]. simpl.
  pose proof (view_set_item r l x Hl) as Hview.
  match goal with |- fr_inv ?r1 /\ _ => set (r' := r1) end.
  assert (fr_view r' = <[fc_getID x := x]> (fr_view r)) as Hv by exact Hview.
  split; [|split_and!; [done..|]].
  2:{ intros id. specialize (Henc id). rewrite Hv. simpl. rewrite !lookup_insert.
      case_decide; [|exact Henc]. exists d, s1, s2. done. }
  split; [split|]; rewrite ?Hv; simpl.
  - intros id l'. rewrite lookup_insert. case_decide; [naive_solver|]. apply (inv_deref r Hinv).
  - apply (inv_next r Hinv).
  - by apply unique_insert; [apply (inv_unique r Hinv)|].
  - intros f index. rewrite map_lookup_imap.
    destruct (fr_indexedFields r !! f) as [ix|] eqn:Hix; [|done]. simpl. intros [= <-].
    destruct (inv_fields r Hinv f ix Hix). split; [done|]. by apply updateIndex_ok.
Qed.

(** ** Pointers *)

Lemma new_run x s r :
  fr_inv r ->
  exists r', fr_new x (s, r) = (Ret (fr_next r), (s, r')) /\ fr_inv r' /\
    fr_view r' = fr_view r /\ fr_items r' = fr_items r /\ fr_disk r' = fr_disk r /\
    fr_heap r' = <[fr_next r := x]> (fr_heap r).
Proof.
  intros Hinv. unfold fr_new. simpl. eexists. split; [reflexivity|].
  match goal with |- fr_inv ?r1 /\ _ => set (r' := r1) end.
  assert (forall id l, fr_items r !! id = Some l -> fr_heap r' !! l = fr_heap r !! l) as Hold.
  { intros id l Hl. destruct (inv_deref r Hinv id l Hl) as (y & Hy & _).
    pose proof (inv_next r Hinv l y Hy). simpl. rewrite lookup_insert_ne by lia. done. }
  assert (fr_view r' = fr_view r) as Hv.
  { apply map_eq. intros id. unfold fr_view. rewrite !lookup_omap. simpl.
    destruct (fr_items r !! id) as [l|] eqn:Hl; [|done]. simpl. by apply (Hold id). }
  split; [|done]. split; [split|]; rewrite ?Hv; [|..|apply Hinv].
  - intros id l Hl. rewrite (Hold id l Hl). by apply (inv_deref r Hinv).
  - intros l y. simpl. rewrite lookup_insert. case_decide; [lia|].
    intros Hy%(inv_next r Hinv). lia.
  - apply Hinv.
Qed.

(** Assigning through a pointer: the stored entity changes when the pointer is
    the repository's own, and nothing changes when it is not. *)
Lemma assign_run l x x' s r :
  fr_inv r -> fr_heap r !! l = Some x -> fc_getID x' = fc_getID x ->
  (forall f, f ∈ fc_keys -> fc_field f x' = fc_field f x) ->
  exists r', fr_assign l x' (s, r) = (Ret tt, (s, r')) /\ fr_inv r' /\
    fr_heap r' = <[l := x']> (fr_heap r) /\ fr_items r' = fr_items r /\ fr_disk r' = fr_disk r /\
    fr_view r' = (if decide (fr_items r !! fc_getID x = Some l) then <[fc_getID x := x']> (fr_view r)
                  else fr_view r).
Proof.
  intros Hinv Hl Hid Hf. unfold fr_assign, fr_modify. simpl. eexists. split; [reflexivity|].
  match goal with |- fr_inv ?r1 /\ _ => set (r' := r1) end.
  assert (fr_view r' = (if decide (fr_items r !! fc_getID x = Some l)
            then <[fc_getID x := x']> (fr_view r) else fr_view r)) as Hv.
  { apply map_eq. intros id. unfold fr_view at 1. rewrite lookup_omap. simpl.
    assert (fr_items r !! id = Some l -> id = fc_getID x) as Hown.
    { intros Hi. destruct (inv_deref r Hinv id l Hi) as (y & ? & ?). congruence. }
    unfold fr_view. case_decide as Hi; rewrite ?lookup_insert, ?lookup_omap;
      destruct (fr_items r !! id) as [l'|] eqn:Hl'; simpl; rewrite ?lookup_insert;
      repeat case_decide; simplify_eq; try done; naive_solver. }
  assert (forall id y, fr_view r' !! id = Some y ->
    exists y0, fr_view r !! id = Some y0 /\ forall f, f ∈ fc_keys -> fc_field f y = fc_field f y0) as Hback.
  { rewrite Hv. intros id y. case_decide as Hi; [|eauto]. rewrite lookup_insert.
    case_decide; [|eauto]. intros [= <-]. exists x. subst id. split; [|done].
    apply fr_view_lookup; eauto. }
  assert (forall id y, fr_view r !! id = Some y ->
    exists y0, fr_view r' !! id = Some y0 /\ forall f, f ∈ fc_keys -> fc_field f y0 = fc_field f y) as Hfwd.
  { rewrite Hv. intros id y Hy. case_decide as Hi; [|eauto]. setoid_rewrite lookup_insert.
    case_decide; [|eauto]. exists x'. subst id. split; [done|].
    apply fr_view_lookup in Hy as (l' & ? & ?). simplify_eq. done. }
  split; [|done]. split; [split|].
  - intros id l' Hi. simpl. destruct (inv_deref r Hinv id l' Hi) as (y & Hy & Hyid).
    setoid_rewrite lookup_insert. destruct (decide (l = l')); [|eauto]. exists x'. naive_solver.
  - intros l' y. simpl. rewrite lookup_insert.
    destruct (decide (l = l')); [intros _|apply (inv_next r Hinv)].
    subst l'. by apply (inv_next r Hinv _ x).
  - intros f v id1 id2 x1 x2 Hk H1 H2 H3 H4.
    destruct (Hback _ _ H1) as (y1 & ? & E1), (Hback _ _ H2) as (y2 & ? & E2).
    rewrite E1 in H3 by done. rewrite E2 in H4 by done. by eapply (inv_unique r Hinv f v id1 id2).
  - intros f index Hix. destruct (inv_fields r Hinv f index Hix) as [Hk Hok]. split; [done|].
    intros v id. rewrite (Hok v id). split.
    + intros (y & Hy & Hfy). destruct (Hfwd _ _ Hy) as (y0 & ? & E0). exists y0. by rewrite E0.
    + intros (y & Hy & Hfy). destruct (Hback _ _ Hy) as (y0 & ? & E0). exists y0. by rewrite <- E0.
Qed.

#[local] Arguments fr_new : simpl never.
#[local] Arguments persist : simpl never.

(** ** UpdateByField *)

(** Old pointers still read what they read. *)
Definition heap_extends r r' : Prop :=
  forall l y, fr_heap r !! l = Some y -> fr_heap r' !! l = Some y.

Lemma updateByField_run {C} f v (c0 : C) upd s r :
  fr_inv r -> f ∈ fc_keys ->
  (forall id x, fr_view r !! id = Some x -> fc_field f x = Some (Some v) ->
     sys_le s (upd x s).2 /\
     forall c x', (upd x s).1 = Ret (c, x', None) -> no_clash x' (fr_view r)) ->
  exists o s' r', fr_UpdateByField f v c0 upd (s, r) = (o, (s', r')) /\ sys_le s s' /\ fr_inv r' /\
    heap_extends r r' /\
    ((o = Ret (c0, Some ErrNotFound) /\ s' = s /\ fr_view r' = fr_view r /\
        forall id x, fr_view r !! id = Some x -> fc_field f x <> Some (Some v)) \/
     exists x, fr_view r !! fc_getID x = Some x /\ fc_field f x = Some (Some v) /\
       sys_le (upd x s).2 s' /\
       match (upd x s).1 with
       | Panic e => o = Panic e /\ fr_view r' = fr_view r
       | Ret (c, _, Some err) => o = Ret (c, Some err) /\ fr_view r' = fr_view r
       | Ret (c, x', None) =>
         match o with
         | Ret (c', None) => c' = c /\ fr_view r' = <[fc_getID x' := x']> (fr_view r)
         | Ret (c', Some err) => c' = c /\ fr_view r' = fr_view r /\
             is_ErrorStruct err = false /\ errors_Is err ErrNotFound = false /\ ~ DiskOk E
         | Panic _ => fr_view r' = fr_view r
         end
       end).
Proof.
  intros Hinv Hf Hupd.
  destruct (find_run f v s r Hinv Hf) as (res & r1 & Hfind & Hsame & Hinv1 & _ & Hres).
  pose proof (fr_same_view _ _ Hsame) as Hview1.
  unfold fr_UpdateByField. rewrite (bind_run _ _ _ _ _ Hfind).
  destruct Hres as [(id & l & x & -> & Hi & Hl & Hv & Hid & Hfx)|(-> & Hno)].
  2:{ eexists _, _, r1. split; [reflexivity|]. split; [done|]. split; [done|].
      split; [by intros ?; rewrite (same_heap _ _ Hsame)|]. left. auto. }
  destruct (Hupd id x Hv Hfx) as [Hle Hclash].
  assert (fr_heap r1 !! l = Some x) as Hl1 by (by rewrite (same_heap _ _ Hsame)).
  assert (heap_extends r r1) as Hext1 by (by intros ?; rewrite (same_heap _ _ Hsame)).
  rewrite (bind_run _ _ _ x (s, r1)) by (unfold fr_deref; simpl; by rewrite Hl1). subst id.
  destruct (upd x s) as [[[[c x'] [err|]]|e] s1] eqn:Hu; simpl in Hle, Hclash;
    [rewrite (bind_run _ _ _ (c, x', Some err) (s1, r1)) by (unfold fr_sys; simpl; by rewrite Hu)
    |rewrite (bind_run _ _ _ (c, x', None) (s1, r1)) by (unfold fr_sys; simpl; by rewrite Hu)
    |rewrite (bind_panic _ _ _ e (s1, r1)) by (unfold fr_sys; simpl; by rewrite Hu)].
  - eexists _, _, r1. split; [reflexivity|]. do 3 (split; [done|]). right. exists x.
    rewrite Hu. by split_and!.
  - destruct (new_run x' s1 r1 Hinv1) as (r2 & Hnew & Hinv2 & Hview2 & Hitems2 & _ & Hheap2).
    rewrite (bind_run _ _ _ _ _ Hnew). rewrite Hview1 in Hview2.
    assert (fr_heap r2 !! fr_next r1 = Some x') as Hl2 by (by rewrite Hheap2, lookup_insert_eq).
    destruct (persist_run (fr_next r1) x' s1 r2 Hinv2 Hl2) as (o & s3 & r3 & Hp & Hle3 & Hinv3 & Hh3 & _ & Ho);
      [rewrite Hview2; eauto|].
    unfold bind. rewrite Hp.
    assert (heap_extends r r3) as Hext3.
    { intros l' y Hy. rewrite Hh3, Hheap2. rewrite lookup_insert_ne; [by apply Hext1|].
      rewrite (same_next _ _ Hsame). pose proof (inv_next r Hinv l' y Hy). lia. }
    destruct o as [[err|]|e]; simpl; eexists _, s3, r3; (split; [reflexivity|]);
      (split; [by etrans|]); (split; [done|]); (split; [done|]);
      right; exists x; rewrite Hu, Hview2 in *; simpl in *; naive_solver.
  - eexists _, _, r1. split; [reflexivity|]. do 3 (split; [done|]). right. exists x.
    rewrite Hu. by split_and!.
Qed.

(** ** No panics when the encoder is total *)

Class CodecTotal := toDoc_total : forall x s, exists d s', fc_toDoc x s = (Ret d, s').

Definition returns {S B} (m : ST S B) (p : S) : Prop := exists b q, m p = (Ret b, q).

Lemma returns_bind {S B B'} (m : ST S B) (f : B -> ST S B') p b q :
  m p = (Ret b, q) -> returns (f b) q -> returns (bind m f) p.
Proof. intros Hm (b' & q' & Hf). exists b', q'. by rewrite (bind_run _ _ _ _ _ Hm). Qed.

Section Total.
  Context {HT : CodecTotal}.

Lemma toDocs_returns l s r :
  Forall (fun p => is_Some (fr_heap r !! p.2)) l -> exists docs s', toDocs l (s, r) = (Ret docs, (s', r)).
Proof.
  revert s. induction l as [|[i loc] l IH]; intros s; [by eexists _, s|].
  intros [[x Hx] Hl]%Forall_cons. simpl in *. unfold bind, fr_deref, fr_sys. simpl. rewrite Hx. simpl.
  destruct (toDoc_total x s) as (d & s1 & ->). destruct (IH s1 Hl) as (docs & s2 & ->).
  by eexists _, s2.
Qed.

End Total.

(** ** UpdateAll *)

Lemma rebuild_go_run fields s r :
  fr_core r -> Forall (fun f => f ∈ fc_keys) fields ->
  (forall f index, fr_indexedFields r !! f = Some index ->
     f ∈ fc_keys /\ (f ∉ fields -> index_ok (fr_view r) f index)) ->
  exists r', rebuild_go fields (s, r) = (Ret tt, (s, r')) /\ fr_same r r' /\ fr_inv r' /\
    fr_disk r' = fr_disk r.
Proof.
  revert r. induction fields as [|f fields IH]; intros r Hc Hall Hix.
  { exists r. split; [done|]. split; [done|]. split; [|done]. split; [done|].
    intros f index Hf. destruct (Hix f index Hf) as [? Hok]. split; [done|].
    apply Hok, not_elem_of_nil. }
  apply Forall_cons in Hall as [Hf Hall].
  destruct (buildIndex_run f s r Hc Hf) as (index & Hb & Hok).
  set (r1 := fr_set_indexes (<[f := index]> (fr_indexedFields (bump r))) (bump r)).
  assert (fr_same r r1) as Hs1 by done.
  destruct (IH r1) as (r' & Hr & Hs & Hinv & Hd).
  - destruct Hc. by split.
  - done.
  - simpl. intros f' index'. rewrite lookup_insert. case_decide as Heq.
    + intros [= <-]. subst f'. split; [done|]. intros _. exact Hok.
    + intros Hf'. destruct (Hix f' index' Hf') as [? Hok']. split; [done|]. intros Hni.
      apply Hok'. rewrite not_elem_of_cons. auto.
  - exists r'. simpl. rewrite (bind_run _ _ _ _ _ Hb).
    rewrite (bind_run _ _ _ tt (s, r1)) by done. split; [done|]. split; [by etrans|]. done.
Qed.

Section UpdateAll.
  Context (upd : T -> ST Sys (T * bool * option goerr)) (R : Sys -> Sys -> T -> T -> Prop).
  Context (upd_run : forall x s0, exists x' ch s1, upd x s0 = (Ret (x', ch, None), s1) /\
             sys_le s0 s1 /\ R s0 s1 x (if ch : bool then x' else x)).
  Context (R_keys : forall s0 s1 x x', R s0 s1 x x' ->
             fc_getID x' = fc_getID x /\ forall f, f ∈ fc_keys -> fc_field f x' = fc_field f x).

(** [x'] is what the callback made of [x] between [s] and [s']. *)
Definition updated (s s' : Sys) (x x' : T) : Prop :=
  exists s0 s1, sys_le s s0 /\ sys_le s1 s' /\ R s0 s1 x x'.

Lemma updateAll_go_run l nextItems s r :
  (forall loc y, fr_heap r !! loc = Some y -> (loc < fr_next r)%nat) ->
  Forall (fun p => is_Some (fr_heap r !! p.2)) l -> NoDup l.*1 ->
  exists next' s' r', updateAll_go upd l nextItems (s, r) = (Ret (inl next'), (s', r')) /\
    sys_le s s' /\ fr_items r' = fr_items r /\ fr_indexedFields r' = fr_indexedFields r /\
    fr_disk r' = fr_disk r /\ fr_ranges r' = fr_ranges r /\ heap_extends r r' /\
    (forall loc y, fr_heap r' !! loc = Some y -> (loc < fr_next r')%nat) /\
    (forall id, id ∉ l.*1 -> next' !! id = nextItems !! id) /\
    (forall id loc x, (id, loc) ∈ l -> fr_heap r !! loc = Some x ->
       exists loc' x', next' !! id = Some loc' /\ fr_heap r' !! loc' = Some x' /\
         (loc' = loc -> x' = x) /\ updated s s' x x').
Proof.
  revert nextItems s r. induction l as [|[i loc] l IH]; intros nextItems s r Hb Hall Hnd.
  { eexists _, s, r. split; [reflexivity|]. do 5 (split; [done|]). split; [by intros ?|].
    split; [done|]. split; [done|]. intros id loc x Hin%elem_of_nil. done. }
  apply Forall_cons in Hall as [[x Hx] Hall]. simpl in Hx. apply NoDup_cons in Hnd as [Hni Hnd].
  destruct (upd_run x s) as (x' & ch & s1 & Hu & Hle1 & HR).
  simpl. rewrite (bind_run _ _ _ x (s, r)) by (unfold fr_deref; simpl; by rewrite Hx).
  rewrite (bind_run _ _ _ (x', ch, None) (s1, r)) by (unfold fr_sys; simpl; by rewrite Hu).
  destruct ch.
  - set (r1 := mkFileRepo (<[fr_next r := x']> (fr_heap r)) (S (fr_next r)) (fr_items r)
                 (fr_indexedFields r) (fr_disk r) (fr_ranges r)).
    rewrite (bind_run _ _ _ (fr_next r) (s1, r1)) by done.
    assert (heap_extends r r1) as He1.
    { intros l0 y Hy. simpl. rewrite lookup_insert_ne; [done|]. apply Hb in Hy. lia. }
    destruct (IH (<[i := fr_next r]> nextItems) s1 r1) as
      (next' & s' & r' & Hr & Hle & Hi & Hix & Hd & Hrg & Hext & Hb' & Hout & Hin).
    { intros l0 y. simpl. rewrite lookup_insert. case_decide; [lia|]. intros ?%Hb. lia. }
    { eapply Forall_impl; [exact Hall|]. intros p [y Hy]. exists y. by apply He1. }
    { done. }
    exists next', s', r'. split; [done|]. split; [by etrans|]. do 4 (split; [done|]).
    split; [intros l0 y Hy; apply Hext, He1, Hy|]. split; [done|]. split.
    + intros id Hid. apply not_elem_of_cons in Hid as [Hne Hid]. simpl in Hne.
      rewrite Hout by done. by rewrite lookup_insert_ne.
    + intros id loc0 x0 [[= -> ->]|Hl]%elem_of_cons Hx0.
      * simplify_eq. exists (fr_next r), x'. rewrite Hout, lookup_insert_eq by done.
        split; [done|]. split; [apply Hext; simpl; by rewrite lookup_insert_eq|].
        split; [intros <-; apply Hb in Hx; lia|]. exists s, s1. done.
      * destruct (Hin id loc0 x0 Hl (He1 _ _ Hx0)) as (loc' & x1 & ? & ? & ? & s0 & s2 & ? & ? & ?).
        exists loc', x1. do 3 (split; [done|]). exists s0, s2. split; [by etrans|]. done.
  - destruct (IH (<[i := loc]> nextItems) s1 r) as
      (next' & s' & r' & Hr & Hle & Hi & Hix & Hd & Hrg & Hext & Hb' & Hout & Hin); [done..|].
    exists next', s', r'. split; [done|]. split; [by etrans|]. do 6 (split; [done|]). split.
    + intros id Hid. apply not_elem_of_cons in Hid as [Hne Hid]. simpl in Hne.
      rewrite Hout by done. by rewrite lookup_insert_ne.
    + intros id loc0 x0 [[= -> ->]|Hl]%elem_of_cons Hx0.
      * simplify_eq. exists loc, x. rewrite Hout, lookup_insert_eq by done.
        split; [done|]. split; [by apply Hext|]. split; [done|]. exists s, s1. done.
      * destruct (Hin id loc0 x0 Hl Hx0) as (loc' & x1 & ? & ? & ? & s0 & s2 & ? & ? & ?).
        exists loc', x1. do 3 (split; [done|]). exists s0, s2. split; [by etrans|]. done.
Qed.

(** Every stored entity is what the callback made of it. *)
Definition all_updated (s s' : Sys) (m m' : gmap string T) : Prop :=
  (forall id, m !! id = None -> m' !! id = None) /\
  (forall id x, m !! id = Some x -> exists x', m' !! id = Some x' /\ updated s s' x x').

Lemma all_updated_unique s s' m m' : all_updated s s' m m' -> unique_keys m -> unique_keys m'.
Proof.
  intros [Hn Hu] Huniq f v id1 id2 x1 x2 Hf H1 H2 Hf1 Hf2.
  destruct (m !! id1) as [y1|] eqn:Hy1; [|apply Hn in Hy1; congruence].
  destruct (m !! id2) as [y2|] eqn:Hy2; [|apply Hn in Hy2; congruence].
  destruct (Hu _ _ Hy1) as (z1 & ? & ? & ? & _ & _ & [_ E1]%R_keys).
  destruct (Hu _ _ Hy2) as (z2 & ? & ? & ? & _ & _ & [_ E2]%R_keys). simplify_eq.
  rewrite E1 in Hf1 by done. rewrite E2 in Hf2 by done. by eapply (Huniq f v id1 id2).
Qed.

(** The loop's map of next items, read through the heap it leaves behind. *)
Lemma next_all_updated r s s1 s2 next n (h : gmap nat T) :
  fr_core r -> sys_le s1 s2 ->
  (forall id, id ∉ (merge_sort (rank_le n) (map_to_list (fr_items r))).*1 -> next !! id = None) ->
  (forall id loc x, (id, loc) ∈ merge_sort (rank_le n) (map_to_list (fr_items r)) ->
     fr_heap r !! loc = Some x ->
     exists loc' x', next !! id = Some loc' /\ h !! loc' = Some x' /\ (loc' = loc -> x' = x) /\
       updated s s1 x x') ->
  all_updated s s2 (fr_view r) (omap (fun l => h !! l) next) /\
  (forall id loc', next !! id = Some loc' -> exists x', h !! loc' = Some x' /\ fc_getID x' = id).
Proof.
  intros Hc Hs2 Hout Hin. split; [split|].
  - intros id Hn. rewrite lookup_omap, Hout; [done|].
    intros ([id' loc] & -> & Hl%range_elem)%list_elem_of_fmap. simpl in *.
    destruct (core_deref r Hc id' loc Hl) as (x & Hx & _).
    assert (fr_view r !! id' = Some x) by (apply fr_view_lookup; eauto). congruence.
  - intros id x (loc & Hl & Hx)%fr_view_lookup.
    destruct (Hin id loc x) as (loc' & x' & Hn & Hx' & _ & s3 & s4 & ? & ? & ?);
      [by apply range_elem|done|].
    exists x'. rewrite lookup_omap, Hn. split; [done|]. exists s3, s4.
    split; [done|]. split; [by etrans|done].
  - intros id loc' Hl'.
    destruct (decide (id ∈ (merge_sort (rank_le n) (map_to_list (fr_items r))).*1)) as [Hid|Hid];
      [|rewrite Hout in Hl' by done; done].
    apply list_elem_of_fmap in Hid as ([id' loc] & -> & Hl).
    pose proof Hl as Hl0%range_elem. destruct (core_deref r Hc id' loc Hl0) as (x & Hx & Hidx).
    destruct (Hin id' loc x Hl Hx) as (loc2 & x' & Hn & Hx' & _ & s4 & s5 & _ & _ & [E1 _]%R_keys).
    simpl in *. simplify_eq. eauto.
Qed.

(** Writing the next items: the file and the map change together or not at all. *)
Lemma commit_run next s r (m : gmap string T) :
  fr_inv r ->
  fr_core (fr_set_items next r) -> fr_view (fr_set_items next r) = m ->
  exists o s' r', (e ← writeItems next;
     match e with
     | Some err => mret (Some err)
     | None => fr_modify (fr_set_items next);; rebuildIndexes;; mret None
     end) (s, r) = (o, (s', r')) /\ sys_le s s' /\ fr_inv r' /\ fr_heap r' = fr_heap r /\
    match o with Ret None => fr_view r' = m | _ => fr_view r' = fr_view r end /\
    (CodecTotal -> exists e, o = Ret e /\ (e <> None -> ~ DiskOk E)).
Proof.
  intros Hinv Hc Hm. unfold writeItems. unfold bind at 1.
  rewrite (bind_run _ _ _ r (s, r)) by done.
  match goal with |- context [toDocs ?ks] => destruct (toDocs ks (s, r)) as [o2 [s2 r2]] eqn:Ht end.
  pose proof (toDocs_same _ _ _ _ _ _ Ht) as [-> Hle2].
  destruct o2 as [docs|e].
  2:{ rewrite (bind_panic _ _ _ _ _ Ht). eexists _, s2, r. split_and!; try done. intros HT.
      destruct (toDocs_returns (merge_sort (rank_le (fr_ranges r)) (map_to_list next)) s r)
        as (docs & s3 & Hd); [exact (range_heap (fr_set_items next r) _ Hc)|congruence]. }
  rewrite (bind_run _ _ _ _ _ Ht). unfold writeToFile.
  set (s3 := mk_Sys (n_clock s2) (n_rand s2) (n_uuid s2) (n_salt s2) (S (n_disk s2))).
  assert (sys_le s s3) as Hle3 by (etrans; [exact Hle2|]; unfold sys_le; simpl; lia).
  rewrite (bind_run _ _ _ (disk_write (n_disk s2)) (s3, r)) by done.
  destruct (disk_write (n_disk s2)) as [err|] eqn:Hw.
  { eexists _, s3, r. split_and!; try done. intros _. eexists. split; [done|]. intros _ HD.
    by rewrite (HD (n_disk s2)) in Hw. }
  unfold bind at 1. simpl. unfold bind at 1. cbn [fr_modify fst snd].
  set (r3 := fr_set_items next (fr_set_disk docs r)).
  assert (fr_core r3) as Hc3 by (destruct Hc; by split).
  destruct (rebuild_go_run (map_to_list (fr_indexedFields r3)).*1 s3 r3) as (r4 & Hr4 & Hs4 & Hinv4 & _).
  - done.
  - apply Forall_forall. intros f ([f' ix] & -> & Hf)%list_elem_of_fmap.
    apply elem_of_map_to_list in Hf. exact (proj1 (inv_fields r Hinv f' ix Hf)).
  - intros f ix Hf. split; [exact (proj1 (inv_fields r Hinv f ix Hf))|].
    intros []. apply list_elem_of_fmap. exists (f, ix). split; [done|]. by apply elem_of_map_to_list.
  - rewrite (bind_run _ _ _ tt (s3, r4)) by exact Hr4.
    eexists _, s3, r4. split; [reflexivity|]. split; [done|]. split; [done|].
    split; [exact (same_heap _ _ Hs4)|]. rewrite (fr_same_view _ _ Hs4). split; [exact Hm|].
    intros _. by eexists.
Qed.

Lemma heap_extends_inv r r1 :
  fr_inv r -> fr_items r1 = fr_items r -> fr_indexedFields r1 = fr_indexedFields r ->
  heap_extends r r1 -> (forall loc y, fr_heap r1 !! loc = Some y -> (loc < fr_next r1)%nat) ->
  fr_inv r1 /\ fr_view r1 = fr_view r.
Proof.
  intros Hinv Hi1 Hix1 Hext1 Hb1.
  assert (fr_view r1 = fr_view r) as Hv.
  { apply map_eq. intros id. unfold fr_view. rewrite !lookup_omap, Hi1.
    destruct (fr_items r !! id) as [loc|] eqn:Hl; [|done]. simpl.
    destruct (inv_deref r Hinv id loc Hl) as (x & Hx & _). rewrite Hx. by apply Hext1. }
  split; [|done]. split; [split|]; rewrite ?Hv, ?Hi1, ?Hix1.
  - intros id loc Hl. destruct (inv_deref r Hinv id loc Hl) as (x & Hx & ?). eauto.
  - done.
  - apply (inv_unique r Hinv).
  - apply (inv_fields r Hinv).
Qed.

Lemma updateAll_run s r :
  fr_inv r ->
  exists o s' r', fr_UpdateAll upd (s, r) = (o, (s', r')) /\ sys_le s s' /\ fr_inv r' /\
    heap_extends r r' /\
    match o with
    | Ret None => all_updated s s' (fr_view r) (fr_view r')
    | _ => fr_view r' = fr_view r
    end /\
    (CodecTotal -> exists e, o = Ret e /\ (e <> None -> ~ DiskOk E)).
Proof.
  intros Hinv. unfold fr_UpdateAll.
  rewrite (bind_run _ _ _ r (s, r)) by done.
  rewrite (bind_run fr_range _ (s, r) _ (s, bump r) eq_refl).
  destruct (updateAll_go_run (merge_sort (rank_le (fr_ranges r)) (map_to_list (fr_items r))) ∅ s (bump r)) as
    (next & s1 & r1 & Hgo & Hle1 & Hi1 & Hix1 & _ & _ & Hext1 & Hb1 & Hout & Hin);
    [exact (inv_next r Hinv)|exact (range_heap r _ (inv_core r Hinv))
    |rewrite merge_sort_Permutation; apply NoDup_fst_map_to_list|].
  cbn [fr_ranges fr_items snd] in *. rewrite (bind_run _ _ _ _ _ Hgo).
  destruct (heap_extends_inv r r1) as [Hinv1 Hv1]; [done..|].
  destruct (next_all_updated r s s1 s1 next _ (fr_heap r1) (inv_core r Hinv) ltac:(done) Hout Hin) as [Hall Hids].
  cbn iota beta. case_bool_decide as Hsame.
  { eexists _, s1, r1. split; [reflexivity|]. do 3 (split; [done|]).
    split; [|intros _; by eexists].
    assert (fr_view r1 = omap (fun l => fr_heap r1 !! l) next) as ->; [|exact Hall].
    unfold fr_view. rewrite Hi1. exact (f_equal _ Hsame). }
  destruct (commit_run next s1 r1 (omap (fun l => fr_heap r1 !! l) next)) as
    (o & s2 & r2 & Hrun & Hle2 & Hinv2 & Hh2 & Ho & Htot); [done| |done|].
  { split; [done..|]. by eapply all_updated_unique, (inv_unique r Hinv). }
  exists o, s2, r2. split; [exact Hrun|]. split; [by etrans|]. split; [done|].
  split; [intros l0 y Hy; rewrite Hh2; by apply Hext1|]. split; [|done].
  destruct o as [[err|]|e]; rewrite Ho; [by rewrite Hv1| |by rewrite Hv1].
  by apply (next_all_updated r s s1 s2 next _ (fr_heap r1) (inv_core r Hinv) Hle2 Hout Hin).
Qed.

End UpdateAll.

(** ** Restart *)

Lemma load_go_run l n (h : gmap nat T) (items : gmap string nat) :
  Forall (fun p => exists x, fc_toEntity p.2 = inl x) l -> NoDup l.*1 ->
  (forall loc y, h !! loc = Some y -> (loc < n)%nat) ->
  (forall k loc, items !! k = Some loc -> is_Some (h !! loc)) ->
  exists h' items' n', load_go l n h items = inl (h', items', n') /\
    (forall loc y, h' !! loc = Some y -> (loc < n')%nat) /\
    (forall k loc, items' !! k = Some loc -> is_Some (h' !! loc)) /\
    (forall k, k ∉ l.*1 -> (items' !! k ≫= fun l => h' !! l) = (items !! k ≫= fun l => h !! l)) /\
    (forall k d x, (k, d) ∈ l -> fc_toEntity d = inl x -> (items' !! k ≫= fun l => h' !! l) = Some x).
Proof.
  revert n h items. induction l as [|[k d] l IH]; intros n h items Hall Hnd Hb Hi.
  { eexists _, _, _. split; [reflexivity|]. split_and!; [done..|]. by intros ??? ?%elem_of_nil. }
  apply Forall_cons in Hall as [[x Hx] Hall]. apply NoDup_cons in Hnd as [Hni Hnd]. simpl in Hx, Hni.
  simpl. rewrite Hx.
  assert (h !! n = None) as Hfresh.
  { destruct (h !! n) eqn:Hn; [|done]. apply Hb in Hn. lia. }
  destruct (IH (S n) (<[n := x]> h) (<[k := n]> items)) as (h' & items' & n' & Hgo & Hb' & Hi' & Hout & Hin);
    [done..| | |].
  { intros loc y. rewrite lookup_insert. case_decide; [lia|]. intros ?%Hb. lia. }
  { intros k' loc. rewrite !lookup_insert. repeat case_decide; naive_solver. }
  exists h', items', n'. split; [done|]. do 2 (split; [done|]). split.
  - intros k' [Hne Hk]%not_elem_of_cons. simpl in Hne. rewrite Hout by done.
    rewrite lookup_insert_ne by done. destruct (items !! k') as [loc|] eqn:Hl; [|done]. simpl.
    rewrite lookup_insert_ne; [done|]. intros ->. destruct (Hi _ _ Hl). congruence.
  - intros k' d' x' [[= -> ->]|Hl]%elem_of_cons Hx'; [|by eapply Hin].
    rewrite Hout by done. rewrite lookup_insert_eq. simpl. rewrite lookup_insert_eq. congruence.
Qed.

(** Reading the file back gives the entities it encodes, provided the codec
    round-trips each of them and their ids are JSON-safe. *)
Lemma load_run (m : gmap string T) (docs : gmap string D) :
  encodes m docs ->
  (forall id x d s0 s1, m !! id = Some x -> fc_toDoc x s0 = (Ret d, s1) ->
     fc_toEntity (fc_json d) = inl x /\ json_string id = id) ->
  exists r0 : FileRepo T D, fr_load docs = inl r0 /\ fr_view r0 = m /\ fr_disk r0 = docs.
Proof.
  intros Henc Hrt. unfold fr_load. set (l := _ <$> map_to_list docs).
  assert (forall k d, (k, d) ∈ map_to_list docs ->
    exists x, m !! k = Some x /\ fc_toEntity (fc_json d) = inl x /\ json_string k = k) as Hdoc.
  { intros k d Hd%elem_of_map_to_list. specialize (Henc k). destruct (m !! k) as [x|] eqn:Hm; [|congruence].
    destruct Henc as (d' & s0 & s1 & Hd' & Ht). simplify_eq. destruct (Hrt _ _ _ _ _ Hm Ht). eauto. }
  assert (l.*1 = (map_to_list docs).*1) as Hkeys.
  { unfold l. rewrite <- list_fmap_compose. apply list_fmap_ext. intros i [k d] Hd%list_elem_of_lookup_2.
    by destruct (Hdoc _ _ Hd) as (_ & _ & _ & ?). }
  destruct (load_go_run l 0 ∅ ∅) as (h' & items' & n' & Hgo & _ & _ & Hout & Hin).
  - apply Forall_fmap, Forall_forall. intros [k d] Hd. simpl.
    destruct (Hdoc _ _ Hd) as (x & _ & ? & _). eauto.
  - rewrite Hkeys. apply NoDup_fst_map_to_list.
  - by intros ??; rewrite lookup_empty.
  - by intros ??; rewrite lookup_empty.
  - rewrite Hgo. eexists. split; [reflexivity|]. split; [|done]. apply map_eq. intros id.
    unfold fr_view. simpl. rewrite lookup_omap.
    specialize (Henc id). destruct (m !! id) as [x|] eqn:Hm.
    + destruct Henc as (d & s0 & s1 & Hd & Ht). destruct (Hrt _ _ _ _ _ Hm Ht) as [Hx Hj].
      apply (Hin id (fc_json d) x); [|done]. unfold l. apply list_elem_of_fmap. exists (id, d).
      rewrite Hj. split; [done|]. by apply elem_of_map_to_list.
    + rewrite Hout; [by rewrite lookup_empty|]. rewrite Hkeys.
      intros ([k d] & -> & Hd%elem_of_map_to_list)%list_elem_of_fmap. simpl in *. congruence.
Qed.

(** ** Writers return when the encoder is total *)

Section TotalWriters.
  Context {HT : CodecTotal}.

Lemma persist_returns l x s r : fr_inv r -> fr_heap r !! l = Some x -> returns (persist l) (s, r).
Proof.
  intros Hinv Hl. unfold persist, writeItemsWith.
  eapply returns_bind; [unfold fr_deref; simpl; by rewrite Hl|].
  destruct (toDocs_returns (merge_sort (rank_le (fr_ranges r)) (map_to_list (fr_items r))) s (bump r))
    as (docs & s1 & Hd); [exact (range_heap r _ (inv_core r Hinv))|].
  destruct (toDoc_total x s1) as (d & s2 & Hx).
  assert (exists e q, writeItemsWith (fc_getID x) l (s, r) = (Ret e, q) /\ fr_heap q.2 = fr_heap r)
    as (e & q & Hw & Hh).
  { unfold writeItemsWith. rewrite (bind_run fr_range _ (s, r) _ (s, bump r) eq_refl).
    rewrite (bind_run _ _ _ _ _ Hd).
    rewrite (bind_run _ _ _ x (s1, bump r)) by (unfold fr_deref; simpl; by rewrite Hl).
    rewrite (bind_run _ _ _ d (s2, bump r)) by (unfold fr_sys; simpl; by rewrite Hx).
    unfold writeToFile, bind. simpl. destruct (disk_write _); by eexists _, _. }
  eapply returns_bind; [exact Hw|]. destruct e as [err|]; [by eexists _, _|].
  eapply returns_bind; [reflexivity|]. unfold updateIndexesForItem.
  eapply returns_bind.
  { rewrite (bind_run _ _ _ x (q.1, fr_set_items (<[fc_getID x := l]> (fr_items q.2)) q.2)); [reflexivity|].
    unfold fr_deref. simpl. by rewrite Hh, Hl. }
  by eexists _, _.
Qed.

Lemma updateByField_returns {C} f v (c0 : C) upd s r :
  fr_inv r -> f ∈ fc_keys -> (forall x s0, returns (upd x) s0) ->
  returns (fr_UpdateByField f v c0 upd) (s, r).
Proof.
  intros Hinv Hf Hupd.
  destruct (find_run f v s r Hinv Hf) as (res & r1 & Hfind & Hsame & Hinv1 & _ & Hres).
  eapply returns_bind; [exact Hfind|].
  destruct Hres as [(id & l & x & -> & Hi & Hl & _)|(-> & _)]; [|by eexists _, _].
  eapply returns_bind.
  { unfold fr_deref. simpl. by rewrite (same_heap _ _ Hsame), Hl. }
  destruct (Hupd x s) as ([[c x'] e] & s1 & Hu).
  eapply returns_bind; [unfold fr_sys; simpl; by rewrite Hu|]. simpl.
  destruct e as [err|]; [by eexists _, _|].
  destruct (new_run x' s1 r1 Hinv1) as (r2 & Hnew & Hinv2 & _ & _ & _ & Hh).
  eapply returns_bind; [exact Hnew|].
  destruct (persist_returns (fr_next r1) x' s1 r2 Hinv2) as (e & q & Hp);
    [by rewrite Hh, lookup_insert_eq|].
  eapply returns_bind; [exact Hp|]. by eexists _, _.
Qed.

End TotalWriters.

End FileRepoProofs.
