(* ===== verification/Ports.v ===== *)
(** * Ports (modules/auth/port, core/uow) and the state the use cases run on

    Each port is a class of operations over an abstract repository state, with a
    class of laws stating what the implementations promise.  The laws speak of
    [view]: the entities a lookup can return, by id.  A backend may fail; every
    law says what holds then.

    [World] is the state of the running server: the environment's counters and
    one state per port.  An operation of one port cannot touch the state of
    another, which the lifting functions [in_cache], [in_users], [in_rts] and
    [in_grants] make true by construction. *)

From S2P Require Import Prelude GoStd Crypto Errors Env Scope User Token Client AuthFlow Cache.

Local Open Scope Z_scope.

(** ** Pointers into a repository

    A lookup returns a pointer; with the file backend it points at the stored
    entity itself, with Mongo at a fresh copy. *)

Class PtrStore (T : Type) := {
  PS : Type;
  ps_ptr : PS -> nat -> option T;              (** what a pointer reads *)
  ps_view : PS -> gmap string T;               (** the entities lookups return *)
  ps_inv : PS -> Prop;
  ps_new : T -> ST (Sys * PS) nat;             (** [&v] *)
  ps_assign : nat -> T -> ST (Sys * PS) unit;  (** [*p = v] *)
  ps_Save : nat -> ST (Sys * PS) (option goerr);
}.

Definition ps_deref {T} `{!PtrStore T} (l : nat) : ST (Sys * PS) T := fun p =>
  match ps_ptr p.2 l with
  | Some x => (Ret x, p)
  | None => (Panic "nil pointer dereference", p)
  end.

(** [same x x']: the change from [x] to [x'] leaves id and looked-up fields
    alone.  [clash x m]: storing [x] in [m] would give two entities the same
    looked-up value. *)
Class PtrStoreLaws (E : Env) (T : Type) (P : PtrStore T) (getID : T -> string)
    (same : T -> T -> Prop) (fresh : T -> gmap string T -> Prop) := {
  view_id : forall r id x, ps_inv r -> ps_view r !! id = Some x -> getID x = id;
  new_law : forall x s r, ps_inv r ->
    wp (ps_new x) (fun o '(s', r') => s' = s /\ ps_inv r' /\ ps_view r' = ps_view r /\
      exists l, o = Ret l /\ ps_ptr r' l = Some x) (s, r);
  assign_law : forall l x x' s r, ps_inv r -> ps_ptr r l = Some x -> same x x' ->
    wp (ps_assign l x') (fun o '(s', r') => o = Ret tt /\ s' = s /\ ps_inv r' /\
      ps_ptr r' l = Some x' /\
      (ps_view r' = ps_view r \/
       (ps_view r !! getID x = Some x /\ ps_view r' = <[getID x := x']> (ps_view r)))) (s, r);
  save_law : forall l x s r, ps_inv r -> ps_ptr r l = Some x -> fresh x (ps_view r) ->
    wp (ps_Save l) (fun o '(s', r') => sys_le s s' /\ ps_inv r' /\ ps_ptr r' l = Some x /\
      match o with
      | Ret None => ps_view r' = <[getID x := x]> (ps_view r)
      | _ => ps_view r' = ps_view r
      end) (s, r);
}.

(** A lookup by a property of the entity: a pointer to a stored entity that has
    it, [ErrNotFound] when none has, or a backend error. *)
Definition find_spec {T} `{!PtrStore T} (P : T -> Prop) (s : Sys) (r : PS)
    (o : outcome (option nat * option goerr)) (q : Sys * PS) : Prop :=
  sys_le s q.1 /\ ps_inv q.2 /\ ps_view q.2 = ps_view r /\
  ((exists l x id, o = Ret (Some l, None) /\ ps_ptr q.2 l = Some x /\ ps_view r !! id = Some x /\ P x) \/
   (o = Ret (None, Some ErrNotFound) /\ forall id x, ps_view r !! id = Some x -> ~ P x) \/
   (exists e, o = Ret (None, Some e) /\ errors_Is e ErrNotFound = false)).

(** ** port.UserRepository *)

Class UserRepoI := {
  ur_store :: PtrStore User;
  ur_CreateUser : nat -> ST (Sys * PS) (option goerr);
  ur_FindByEmail : string -> string -> ST (Sys * PS) (option nat * option goerr);
  ur_FindByID : string -> ST (Sys * PS) (option nat * option goerr);
  ur_FindByPasswordResetTokenHash : string -> ST (Sys * PS) (option nat * option goerr);
  (** the callback mutates the user it is given and variables of its caller *)
  ur_UpdateByPasswordResetTokenHash : forall {C}, string -> C ->
    (User -> ST Sys (C * User * option goerr)) -> ST (Sys * PS) (C * option goerr);
}.

Definition user_same (u u' : User) : Prop :=
  u_ID u' = u_ID u /\ u_TenantID u' = u_TenantID u /\ u_Email u' = u_Email u /\
  u_PasswordResetTokenHash u' = u_PasswordResetTokenHash u.

(** No other stored user has this e-mail address or this reset-token hash. *)
Definition user_fresh (u : User) (m : gmap string User) : Prop :=
  forall id u', m !! id = Some u' ->
    u_Email u' = u_Email u \/
    (is_Some (u_PasswordResetTokenHash u) /\ u_PasswordResetTokenHash u' = u_PasswordResetTokenHash u) ->
    id = u_ID u.

Class UserRepoLaws (E : Env) (U : UserRepoI) := {
  ur_ptr_laws :: PtrStoreLaws E User ur_store u_ID user_same user_fresh;
  users_unique : forall r id u, ps_inv r -> ps_view r !! id = Some u -> user_fresh u (ps_view r);
  createUser_law : forall l u s r, ps_inv r -> ps_ptr r l = Some u ->
    (forall id u', ps_view r !! id = Some u' ->
       id = u_ID u \/ (is_Some (u_PasswordResetTokenHash u) /\
                       u_PasswordResetTokenHash u' = u_PasswordResetTokenHash u) -> False) ->
    wp (ur_CreateUser l) (fun o '(s', r') => sys_le s s' /\ ps_inv r' /\ ps_ptr r' l = Some u /\
      match o with
      | Ret None => ps_view r' = <[u_ID u := u]> (ps_view r) /\
          (forall id u', ps_view r !! id = Some u' -> u_TenantID u' = u_TenantID u -> u_Email u' <> u_Email u)
      | _ => ps_view r' = ps_view r
      end) (s, r);
  findByEmail_law : forall tid email s r, ps_inv r ->
    wp (ur_FindByEmail tid email)
       (find_spec (fun u => u_Email u = email /\ u_TenantID u = tid) s r) (s, r);
  (** a lookup leaves what other pointers read *)
  findByEmail_ptrs : forall tid email s r l u, ps_inv r -> ps_ptr r l = Some u ->
    ps_ptr (ur_FindByEmail tid email (s, r)).2.2 l = Some u;
  findByID_law : forall id s r, ps_inv r ->
    wp (ur_FindByID id) (find_spec (fun u => u_ID u = id) s r) (s, r);
  findByReset_law : forall h s r, ps_inv r ->
    wp (ur_FindByPasswordResetTokenHash h)
       (find_spec (fun u => u_PasswordResetTokenHash u = Some h) s r) (s, r);
  updateByReset_law : forall C h (c0 : C) upd s r, ps_inv r ->
    (forall id u s0, ps_view r !! id = Some u -> u_PasswordResetTokenHash u = Some h ->
       sys_le s0 (upd u s0).2 /\
       forall c u', (upd u s0).1 = Ret (c, u', None) ->
         u_ID u' = u_ID u /\ u_Email u' = u_Email u /\ u_PasswordResetTokenHash u' = None) ->
    wp (ur_UpdateByPasswordResetTokenHash h c0 upd) (fun o '(s', r') => sys_le s s' /\ ps_inv r' /\
      ((o = Ret (c0, Some ErrNotFound) /\ ps_view r' = ps_view r /\
          forall id u, ps_view r !! id = Some u -> u_PasswordResetTokenHash u <> Some h) \/
       (exists e, o = Ret (c0, Some e) /\ errors_Is e ErrNotFound = false /\ is_ErrorStruct e = false /\
          ps_view r' = ps_view r) \/
       exists u s0, ps_view r !! u_ID u = Some u /\ u_PasswordResetTokenHash u = Some h /\
         sys_le s s0 /\ sys_le (upd u s0).2 s' /\
         match (upd u s0).1 with
         | Panic e => o = Panic e /\ ps_view r' = ps_view r
         | Ret (c, _, Some err) => o = Ret (c, Some err) /\ ps_view r' = ps_view r
         | Ret (c, u', None) =>
           match o with
           | Ret (c', None) => c' = c /\ ps_view r' = <[u_ID u' := u']> (ps_view r)
           | Ret (c', Some e) => c' = c /\ is_ErrorStruct e = false /\ ps_view r' = ps_view r
           | Panic _ => ps_view r' = ps_view r
           end
         end)) (s, r);
}.

(** ** port.GrantRepository *)

Class GrantRepoI := {
  gr_store :: PtrStore Grant;
  gr_FindByID : string -> ST (Sys * PS) (option nat * option goerr);
  gr_Revoke : string -> Z -> ST (Sys * PS) (option goerr);
}.

Definition grant_same (g g' : Grant) : Prop := g_ID g' = g_ID g.
Definition grant_fresh (_ : Grant) (_ : gmap string Grant) : Prop := True.

Class GrantRepoLaws (E : Env) (G : GrantRepoI) := {
  gr_ptr_laws :: PtrStoreLaws E Grant gr_store g_ID grant_same grant_fresh;
  gr_findByID_law : forall id s r, ps_inv r ->
    wp (gr_FindByID id) (find_spec (fun g => g_ID g = id) s r) (s, r);
  gr_revoke_law : forall id t s r, ps_inv r ->
    wp (gr_Revoke id t) (fun o '(s', r') => sys_le s s' /\ ps_inv r' /\
      exists e, o = Ret e /\
      match e with
      | None => exists g, ps_view r !! id = Some g /\ g_RevokedAt g = None /\
                  ps_view r' = <[id := set_g_RevokedAt (Some t) g]> (ps_view r)
      | Some err => ps_view r' = ps_view r /\
          (errors_Is err ErrNotFound = true ->
             forall g, ps_view r !! id = Some g -> is_Some (g_RevokedAt g))
      end) (s, r);
}.

(** A backend that answers: the only error is [ErrNotFound].  Some use cases
    drop backend errors; what they achieve is stated for such backends. *)
Class GrantRepoReliable (G : GrantRepoI) :=
  gr_revoke_reliable : forall id t s r e q, ps_inv r ->
    gr_Revoke id t (s, r) = (Ret (Some e), q) -> errors_Is e ErrNotFound = true.

(** ** port.RefreshTokenRepository

    The use cases never assign through a refresh token they looked up, so
    lookups return the row itself. *)

Class RefreshTokenRepoI := {
  RS : Type;
  rs_rows : RS -> gmap string RefreshToken;
  rs_inv : RS -> Prop;
  rr_Save : RefreshToken -> ST (Sys * RS) (option goerr);
  rr_FindByTokenHash : string -> ST (Sys * RS) (option RefreshToken * option goerr);
  rr_RevokeByTokenHash : string -> ST (Sys * RS) (option goerr);
  rr_RevokeAllForUser : string -> ST (Sys * RS) (option goerr);
  rr_RevokeAllForGrant : string -> ST (Sys * RS) (option goerr);
}.

Definition rt_fresh (rt : RefreshToken) (m : gmap string RefreshToken) : Prop :=
  forall id rt', m !! id = Some rt' -> rt_TokenHash rt' = rt_TokenHash rt -> id = rt_ID rt.

(** [x'] is [x], or [x] revoked by a sweep over the rows [P] selects; every
    selected row ends up revoked. *)
Definition swept (P : RefreshToken -> Prop) (lo hi : Z) (x x' : RefreshToken) : Prop :=
  (P x /\ rt_RevokedAt x = None /\ exists t, lo <= t <= hi /\ x' = set_rt_RevokedAt (Some t) x) \/
  (x' = x /\ (P x -> is_Some (rt_RevokedAt x))).

Definition sweep_spec `{RR : !RefreshTokenRepoI} {E : Env} (P : RefreshToken -> Prop) (s : Sys) (r : RS)
    (o : outcome (option goerr)) (q : Sys * RS) : Prop :=
  sys_le s q.1 /\ rs_inv q.2 /\ exists e, o = Ret e /\
  match e with
  | None =>
    (forall id, rs_rows r !! id = None -> rs_rows q.2 !! id = None) /\
    (forall id x, rs_rows r !! id = Some x ->
       exists x', rs_rows q.2 !! id = Some x' /\ swept P (now s) (now q.1) x x')
  | Some _ => rs_rows q.2 = rs_rows r
  end.

(** One row revoked: the one with this hash, which was neither revoked nor
    expired; [ErrNotFound] when there is no such row. *)
Definition revoke_rows (h : string) (lo hi : Z) (rows rows' : gmap string RefreshToken)
    (e : option goerr) : Prop :=
  match e with
  | None => exists x t, rows !! rt_ID x = Some x /\ rt_TokenHash x = h /\ rt_RevokedAt x = None /\
              lo <= t <= hi /\ lo <= rt_ExpiresAt x /\
              rows' = <[rt_ID x := set_rt_RevokedAt (Some t) x]> rows
  | Some err => rows' = rows /\ is_ErrorStruct err = false /\
      (errors_Is err ErrNotFound = true ->
         forall id x, rows !! id = Some x -> rt_TokenHash x = h ->
           is_Some (rt_RevokedAt x) \/ rt_ExpiresAt x <= hi)
  end.

Definition revoke_spec `{RR : !RefreshTokenRepoI} {E : Env} (h : string) (s : Sys) (r : RS)
    (o : outcome (option goerr)) (q : Sys * RS) : Prop :=
  sys_le s q.1 /\ rs_inv q.2 /\ exists e, o = Ret e /\
  revoke_rows h (now s) (now q.1) (rs_rows r) (rs_rows q.2) e.

Class RefreshTokenRepoLaws (E : Env) (R : RefreshTokenRepoI) := {
  rr_row_id : forall r id x, rs_inv r -> rs_rows r !! id = Some x -> rt_ID x = id;
  rr_hash_inj : forall r id1 id2 x1 x2, rs_inv r -> rs_rows r !! id1 = Some x1 ->
    rs_rows r !! id2 = Some x2 -> rt_TokenHash x1 = rt_TokenHash x2 -> id1 = id2;
  rr_save_law : forall x s r, rs_inv r -> rt_fresh x (rs_rows r) ->
    wp (rr_Save x) (fun o '(s', r') => sys_le s s' /\ rs_inv r' /\ exists e, o = Ret e /\
      rs_rows r' = match e with None => <[rt_ID x := x]> (rs_rows r) | Some _ => rs_rows r end /\
      (forall err, e = Some err -> is_ErrorStruct err = false)) (s, r);
  rr_find_law : forall h s r, rs_inv r ->
    wp (rr_FindByTokenHash h) (fun o '(s', r') => sys_le s s' /\ rs_inv r' /\ rs_rows r' = rs_rows r /\
      ((exists x, o = Ret (Some x, None) /\ rs_rows r !! rt_ID x = Some x /\ rt_TokenHash x = h) \/
       (o = Ret (None, Some ErrNotFound) /\
          forall id x, rs_rows r !! id = Some x -> rt_TokenHash x <> h) \/
       (exists e, o = Ret (None, Some e) /\ errors_Is e ErrNotFound = false))) (s, r);
  rr_revoke_law : forall h s r, rs_inv r ->
    wp (rr_RevokeByTokenHash h) (revoke_spec h s r) (s, r);
  rr_sweepUser_law : forall uid s r, rs_inv r ->
    wp (rr_RevokeAllForUser uid) (sweep_spec (fun x => rt_UserID x = uid) s r) (s, r);
  rr_sweepGrant_law : forall gid s r, rs_inv r ->
    wp (rr_RevokeAllForGrant gid) (sweep_spec (fun x => rt_GrantID x = gid) s r) (s, r);
}.

Class RefreshTokenRepoReliable (R : RefreshTokenRepoI) := {
  rr_find_reliable : forall h s r x e q, rs_inv r ->
    rr_FindByTokenHash h (s, r) = (Ret (x, Some e), q) -> e = ErrNotFound;
  rr_sweepUser_reliable : forall uid s r e q, rs_inv r ->
    rr_RevokeAllForUser uid (s, r) = (Ret e, q) -> e = None;
  rr_sweepGrant_reliable : forall gid s r e q, rs_inv r ->
    rr_RevokeAllForGrant gid (s, r) = (Ret e, q) -> e = None;
}.

(** ** The running server *)

Record World `{!CacheI} `{!UserRepoI} `{!GrantRepoI} `{!RefreshTokenRepoI} := mkWorld {
  w_sys : Sys;
  w_cache : CS;
  w_users : @PS User ur_store;
  w_grants : @PS Grant gr_store;
  w_rts : RS;
  w_metrics : gmap string Z;
  w_mail : list (string * string);   (** reset mails handed to the sender: address, token *)
}.

Section World.
  Context `{CI : CacheI} `{UI : UserRepoI} `{GI : GrantRepoI} `{RI : RefreshTokenRepoI}.

Definition upd_sys (s : Sys) (w : World) : World :=
  mkWorld _ _ _ _ s (w_cache w) (w_users w) (w_grants w) (w_rts w) (w_metrics w) (w_mail w).
Definition upd_cache (q : Sys * CS) (w : World) : World :=
  mkWorld _ _ _ _ q.1 q.2 (w_users w) (w_grants w) (w_rts w) (w_metrics w) (w_mail w).
Definition upd_users (q : Sys * @PS User ur_store) (w : World) : World :=
  mkWorld _ _ _ _ q.1 (w_cache w) q.2 (w_grants w) (w_rts w) (w_metrics w) (w_mail w).
Definition upd_grants (q : Sys * @PS Grant gr_store) (w : World) : World :=
  mkWorld _ _ _ _ q.1 (w_cache w) (w_users w) q.2 (w_rts w) (w_metrics w) (w_mail w).
Definition upd_rts (q : Sys * RS) (w : World) : World :=
  mkWorld _ _ _ _ q.1 (w_cache w) (w_users w) (w_grants w) q.2 (w_metrics w) (w_mail w).

Definition in_sys {A} (m : ST Sys A) : ST World A := fun w =>
  match m (w_sys w) with (o, s') => (o, upd_sys s' w) end.
Definition in_cache {A} (m : ST (Sys * CS) A) : ST World A := fun w =>
  match m (w_sys w, w_cache w) with (o, q) => (o, upd_cache q w) end.
Definition in_users {A} (m : ST (Sys * @PS User ur_store) A) : ST World A := fun w =>
  match m (w_sys w, w_users w) with (o, q) => (o, upd_users q w) end.
Definition in_grants {A} (m : ST (Sys * @PS Grant gr_store) A) : ST World A := fun w =>
  match m (w_sys w, w_grants w) with (o, q) => (o, upd_grants q w) end.
Definition in_rts {A} (m : ST (Sys * RS) A) : ST World A := fun w =>
  match m (w_sys w, w_rts w) with (o, q) => (o, upd_rts q w) end.

(** expvar counters: [Add(1)] on an int64. *)
Definition counter_Add (name : string) (delta : Z) : ST World unit := modify (fun w =>
  mkWorld _ _ _ _ (w_sys w) (w_cache w) (w_users w) (w_grants w) (w_rts w)
    (<[name := wrap64 (default 0 (w_metrics w !! name) + delta)]> (w_metrics w)) (w_mail w)).

(** [NoopUnitOfWork.Do]: the file backend has no transactions. *)
Definition uow_Do {A} (fn : ST World A) : ST World A := fn.

Lemma wp_in_sys {A} (m : ST Sys A) Q w :
  wp m (fun o s' => Q o (upd_sys s' w)) (w_sys w) -> wp (in_sys m) Q w.
Proof. unfold wp, in_sys. by destruct (m (w_sys w)). Qed.

Lemma wp_in_cache {A} (m : ST (Sys * CS) A) Q w :
  wp m (fun o q => Q o (upd_cache q w)) (w_sys w, w_cache w) -> wp (in_cache m) Q w.
Proof. unfold wp, in_cache. by destruct (m (w_sys w, w_cache w)) as [? [??]]. Qed.

Lemma wp_in_users {A} (m : ST (Sys * @PS User ur_store) A) Q w :
  wp m (fun o q => Q o (upd_users q w)) (w_sys w, w_users w) -> wp (in_users m) Q w.
Proof. unfold wp, in_users. by destruct (m (w_sys w, w_users w)) as [? [??]]. Qed.

Lemma wp_in_grants {A} (m : ST (Sys * @PS Grant gr_store) A) Q w :
  wp m (fun o q => Q o (upd_grants q w)) (w_sys w, w_grants w) -> wp (in_grants m) Q w.
Proof. unfold wp, in_grants. by destruct (m (w_sys w, w_grants w)) as [? [??]]. Qed.

Lemma wp_in_rts {A} (m : ST (Sys * RS) A) Q w :
  wp m (fun o q => Q o (upd_rts q w)) (w_sys w, w_rts w) -> wp (in_rts m) Q w.
Proof. unfold wp, in_rts. by destruct (m (w_sys w, w_rts w)) as [? [??]]. Qed.

(** The repositories' invariants hold. *)
Definition world_inv (w : World) : Prop :=
  ps_inv (w_users w) /\ ps_inv (w_grants w) /\ rs_inv (w_rts w).

End World.

(** ** Time moves forward

    Every operation of the repositories, whatever state it starts from and
    whatever its outcome, only makes requests to the environment. *)

Class PtrStoreForward (T : Type) (P : PtrStore T) := {
  new_forward : forall x, forward fst (ps_new x);
  assign_forward : forall l x, forward fst (ps_assign l x);
  save_forward : forall l, forward fst (ps_Save l);
}.

Class PortsForward (U : UserRepoI) (G : GrantRepoI) (R : RefreshTokenRepoI) := {
  users_forward :: PtrStoreForward User ur_store;
  createUser_forward : forall l, forward fst (ur_CreateUser l);
  findByEmail_forward : forall tid email, forward fst (ur_FindByEmail tid email);
  findByID_forward : forall id, forward fst (ur_FindByID id);
  updateByReset_forward : forall C h (c0 : C) upd, (forall u, forward (fun s => s) (upd u)) ->
    forward fst (ur_UpdateByPasswordResetTokenHash h c0 upd);
  (** a success comes from a call of the callback *)
  updateByReset_called : forall C h (c0 : C) upd q c q',
    (forall u, forward (fun s => s) (upd u)) ->
    ur_UpdateByPasswordResetTokenHash h c0 upd q = (Ret (c, None), q') ->
    exists u u' s s', sys_le q.1 s /\ upd u s = (Ret (c, u', None), s') /\ sys_le s' q'.1;
  grants_forward :: PtrStoreForward Grant gr_store;
  gr_find_forward : forall id, forward fst (gr_FindByID id);
  gr_revoke_forward : forall id t, forward fst (gr_Revoke id t);
  rr_save_forward : forall x, forward fst (rr_Save x);
  rr_find_forward : forall h, forward fst (rr_FindByTokenHash h);
  rr_revoke_forward : forall h, forward fst (rr_RevokeByTokenHash h);
  rr_sweepUser_forward : forall id, forward fst (rr_RevokeAllForUser id);
  rr_sweepGrant_forward : forall id, forward fst (rr_RevokeAllForGrant id);
}.

#[export] Hint Resolve new_forward assign_forward save_forward createUser_forward findByEmail_forward
  findByID_forward gr_find_forward gr_revoke_forward rr_save_forward rr_find_forward rr_revoke_forward
  rr_sweepUser_forward rr_sweepGrant_forward : respects.
#[export] Hint Extern 0 (PtrStoreForward _ _) => exact _ : respects.
#[export] Hint Extern 0 (PortsForward _ _ _) => exact _ : respects.
