(* ===== verification/Adapters.v ===== *)
(** * File adapters (modules/auth/adapter/out)

    The three repositories of the file backend: their documents, the codecs
    between document and entity, and the port operations on top of
    [FileRepository].  Each is proved to satisfy the laws of its port. *)

From S2P Require Import Prelude GoStd Crypto Errors Env Cipher Scope User Token Client AuthFlow Cache FileRepo Ports.

Local Open Scope Z_scope.

(** ** Grants (grant_doc.go, file_grant_repository.go) *)

Record grantDoc := mk_grantDoc {
  gd_ID : string; gd_UserID : string; gd_ClientID : string; gd_DeviceID : string;
  gd_AuthenticatedAt : Z; gd_CreatedAt : Z; gd_ExpiresAt : Z; gd_RevokedAt : option Z;
}.

Definition grantToDoc (g : Grant) : grantDoc :=
  mk_grantDoc (g_ID g) (g_UserID g) (g_ClientID g) (g_DeviceID g) (g_AuthenticatedAt g)
    (g_CreatedAt g) (g_ExpiresAt g) (g_RevokedAt g).

Definition grantToEntity (d : grantDoc) : Grant + goerr :=
  inl (mkGrant (gd_ID d) (gd_UserID d) (gd_ClientID d) (gd_DeviceID d) (gd_AuthenticatedAt d)
         (gd_CreatedAt d) (gd_ExpiresAt d) (gd_RevokedAt d)).

Definition grant_field (f : string) (g : Grant) : option (option string) :=
  if String.eqb f "ID" then Some (Some (g_ID g))
  else if String.eqb f "UserID" then Some (Some (g_UserID g))
  else if String.eqb f "ClientID" then Some (Some (g_ClientID g))
  else if String.eqb f "DeviceID" then Some (Some (g_DeviceID g))
  else None.

Definition grantDoc_json (d : grantDoc) : grantDoc :=
  mk_grantDoc (json_string (gd_ID d)) (json_string (gd_UserID d)) (json_string (gd_ClientID d))
    (json_string (gd_DeviceID d)) (gd_AuthenticatedAt d) (gd_CreatedAt d) (gd_ExpiresAt d)
    (gd_RevokedAt d).

#[export] Instance grantCodec {E : Env} : FileCodec E Grant grantDoc := {|
  fc_path := "grants.json";
  fc_getID := g_ID;
  fc_field := grant_field;
  fc_toDoc g := mret (grantToDoc g);
  fc_toEntity := grantToEntity;
  fc_json := grantDoc_json;
  fc_keys := ["ID"];
|}.

(** ** Refresh tokens (file_refresh_token_repository.go) *)

Record refreshTokenDoc := mk_refreshTokenDoc {
  rd_ID : string; rd_UserID : string; rd_ClientID : string; rd_GrantID : string;
  rd_TokenHash : string; rd_Scope : string; rd_DeviceID : string;
  rd_AuthenticatedAt : Z; rd_CreatedAt : Z; rd_ExpiresAt : Z; rd_RevokedAt : option Z;
}.

Definition rtToDoc (rt : RefreshToken) : refreshTokenDoc :=
  mk_refreshTokenDoc (rt_ID rt) (rt_UserID rt) (rt_ClientID rt) (rt_GrantID rt) (rt_TokenHash rt)
    (Scope_String (rt_Scope rt)) (rt_DeviceID rt) (rt_AuthenticatedAt rt) (rt_CreatedAt rt)
    (rt_ExpiresAt rt) (rt_RevokedAt rt).

Definition rtToEntity (d : refreshTokenDoc) : RefreshToken + goerr :=
  match NewScope (strings_Fields (rd_Scope d)) with
  | (_, Some err) => inr err
  | (scope, None) =>
    inl (mkRefreshToken (rd_ID d) (rd_UserID d) (rd_ClientID d) (rd_GrantID d) (rd_TokenHash d) scope
           (rd_DeviceID d) (rd_AuthenticatedAt d) (rd_CreatedAt d) (rd_ExpiresAt d) (rd_RevokedAt d))
  end.

Definition rt_field (f : string) (rt : RefreshToken) : option (option string) :=
  if String.eqb f "ID" then Some (Some (rt_ID rt))
  else if String.eqb f "UserID" then Some (Some (rt_UserID rt))
  else if String.eqb f "ClientID" then Some (Some (rt_ClientID rt))
  else if String.eqb f "GrantID" then Some (Some (rt_GrantID rt))
  else if String.eqb f "TokenHash" then Some (Some (rt_TokenHash rt))
  else if String.eqb f "DeviceID" then Some (Some (rt_DeviceID rt))
  else None.

Definition rtDoc_json (d : refreshTokenDoc) : refreshTokenDoc :=
  mk_refreshTokenDoc (json_string (rd_ID d)) (json_string (rd_UserID d)) (json_string (rd_ClientID d))
    (json_string (rd_GrantID d)) (json_string (rd_TokenHash d)) (json_string (rd_Scope d))
    (json_string (rd_DeviceID d)) (rd_AuthenticatedAt d) (rd_CreatedAt d) (rd_ExpiresAt d)
    (rd_RevokedAt d).

#[export] Instance rtCodec {E : Env} : FileCodec E RefreshToken refreshTokenDoc := {|
  fc_path := "refresh_tokens.json";
  fc_getID := rt_ID;
  fc_field := rt_field;
  fc_toDoc rt := mret (rtToDoc rt);
  fc_toEntity := rtToEntity;
  fc_json := rtDoc_json;
  fc_keys := ["TokenHash"];
|}.

(** ** Users (user_doc.go, user_repository.go) *)

Record userDoc := mk_userDoc {
  ud_ID : string; ud_TenantID : string; ud_Username : string; ud_Nickname : string;
  ud_Password : string; ud_EmailCiphertext : string; ud_EmailBlindIndex : string;
  ud_EmailVerified : bool; ud_PasswordResetTokenHash : option string;
  ud_PasswordResetExpiresAt : option Z; ud_SessionsInvalidatedAt : option Z;
  ud_FailedLoginAttempts : Z; ud_LockedUntil : option Z; ud_CreatedAt : Z; ud_UpdatedAt : Z;
}.

(** The cipher the user adapter was constructed with. *)
Class EmailCipher := email_cipher : Cipher.

Section UserCodec.
  Context {E : Env} {A : Aead} {EC : EmailCipher}.

Definition userCodec_toDoc (u : User) : ST Sys userDoc :=
  r ← Cipher_Encrypt email_cipher (u_Email u);
  match r with
  | inr err => panic ("encrypt email: " +:+ err_Error err)
  | inl ciphertext =>
    mret (mk_userDoc (u_ID u) (u_TenantID u) (u_Username u) (u_Nickname u) (u_Password u) ciphertext
            (Cipher_BlindIndex email_cipher (u_Email u)) (u_EmailVerified u)
            (u_PasswordResetTokenHash u) (u_PasswordResetExpiresAt u) (u_SessionsInvalidatedAt u)
            (u_FailedLoginAttempts u) (u_LockedUntil u) (u_CreatedAt u) (u_UpdatedAt u))
  end.

Definition userCodec_toEntity (d : userDoc) : User + goerr :=
  match Cipher_Decrypt email_cipher (ud_EmailCiphertext d) with
  | inr err => inr (ErrWrapped ("decrypt email for user " +:+ ud_ID d +:+ ": ") err)
  | inl email =>
    let tenantID := if String.eqb (ud_TenantID d) "" then DefaultTenantID else ud_TenantID d in
    inl (mkUser (ud_CreatedAt d) (ud_UpdatedAt d) (ud_ID d) tenantID (ud_Username d) (ud_Nickname d)
           (ud_Password d) email (ud_EmailVerified d) (ud_PasswordResetTokenHash d)
           (ud_PasswordResetExpiresAt d) (ud_SessionsInvalidatedAt d) (ud_FailedLoginAttempts d)
           (ud_LockedUntil d))
  end.

Definition user_field (f : string) (u : User) : option (option string) :=
  if String.eqb f "ID" then Some (Some (u_ID u))
  else if String.eqb f "TenantID" then Some (Some (u_TenantID u))
  else if String.eqb f "Username" then Some (Some (u_Username u))
  else if String.eqb f "Nickname" then Some (Some (u_Nickname u))
  else if String.eqb f "Password" then Some (Some (u_Password u))
  else if String.eqb f "Email" then Some (Some (u_Email u))
  else if String.eqb f "PasswordResetTokenHash" then Some (u_PasswordResetTokenHash u)
  else None.

Definition userDoc_json (d : userDoc) : userDoc :=
  mk_userDoc (json_string (ud_ID d)) (json_string (ud_TenantID d)) (json_string (ud_Username d))
    (json_string (ud_Nickname d)) (json_string (ud_Password d)) (json_string (ud_EmailCiphertext d))
    (json_string (ud_EmailBlindIndex d)) (ud_EmailVerified d) (json_opt (ud_PasswordResetTokenHash d))
    (ud_PasswordResetExpiresAt d) (ud_SessionsInvalidatedAt d) (ud_FailedLoginAttempts d)
    (ud_LockedUntil d) (ud_CreatedAt d) (ud_UpdatedAt d).

#[export] Instance userCodec : FileCodec E User userDoc := {|
  fc_path := "users";
  fc_getID := u_ID;
  fc_field := user_field;
  fc_toDoc := userCodec_toDoc;
  fc_toEntity := userCodec_toEntity;
  fc_json := userDoc_json;
  fc_keys := ["Email"; "ID"; "PasswordResetTokenHash"];
|}.

End UserCodec.

(** ** The port operations *)

Section FileAdapters.
  Context {E : Env} {A : Aead} {EC : EmailCipher}.

Definition filePtrStore {T D} `{!FileCodec E T D} : PtrStore T := {|
  PS := FileRepo T D;
  ps_ptr r l := fr_heap r !! l;
  ps_view := fr_view;
  ps_inv := fr_inv;
  ps_new := fr_new;
  ps_assign := fr_assign;
  ps_Save := fr_Save;
|}.

Definition fileUser_CreateUser (user : nat) : ST (Sys * FileRepo User userDoc) (option goerr) :=
  u ← fr_deref user;
  fr_CreateIfFieldNotExists "Email" (u_Email u) user.

Definition fileUser_FindByEmail (tenantID email : string)
  : ST (Sys * FileRepo User userDoc) (option nat * option goerr) :=
  f ← fr_FindByField "Email" email;
  match f with
  | (_, Some err) => mret (None, Some err)
  | (None, None) => panic "nil pointer dereference"
  | (Some l, None) =>
    u ← fr_deref l;
    if negb (String.eqb (u_TenantID u) tenantID) then mret (None, Some ErrNotFound)
    else mret (Some l, None)
  end.

Definition fileUser_FindByID (id : string) : ST (Sys * FileRepo User userDoc) (option nat * option goerr) :=
  fr_FindByField "ID" id.

Definition fileUser_FindByPasswordResetTokenHash (tokenHash : string)
  : ST (Sys * FileRepo User userDoc) (option nat * option goerr) :=
  fr_FindByField "PasswordResetTokenHash" tokenHash.

Definition fileUser_UpdateByPasswordResetTokenHash {C} (tokenHash : string) (c0 : C)
    (update : User -> ST Sys (C * User * option goerr))
  : ST (Sys * FileRepo User userDoc) (C * option goerr) :=
  fr_UpdateByField "PasswordResetTokenHash" tokenHash c0 update.

#[export] Instance fileUserRepo : UserRepoI := {|
  ur_store := filePtrStore (D := userDoc);
  ur_CreateUser := fileUser_CreateUser;
  ur_FindByEmail := fileUser_FindByEmail;
  ur_FindByID := fileUser_FindByID;
  ur_FindByPasswordResetTokenHash := fileUser_FindByPasswordResetTokenHash;
  ur_UpdateByPasswordResetTokenHash := @fileUser_UpdateByPasswordResetTokenHash;
|}.

Definition fileGrant_FindByID (grantID : string)
  : ST (Sys * FileRepo Grant grantDoc) (option nat * option goerr) :=
  fr_FindByField "ID" grantID.

(** The callback of [Revoke]: only a grant that is not revoked yet matches. *)
Definition grant_revoke (at_ : Z) (g : Grant) : ST Sys (unit * Grant * option goerr) :=
  match g_RevokedAt g with
  | Some _ => mret (tt, g, Some ErrNotFound)
  | None => mret (tt, set_g_RevokedAt (Some at_) g, None)
  end.

Definition fileGrant_Revoke (grantID : string) (at_ : Z) : ST (Sys * FileRepo Grant grantDoc) (option goerr) :=
  ' (_, e) ← fr_UpdateByField "ID" grantID tt (grant_revoke at_);
  mret e.

#[export] Instance fileGrantRepo : GrantRepoI := {|
  gr_store := filePtrStore (D := grantDoc);
  gr_FindByID := fileGrant_FindByID;
  gr_Revoke := fileGrant_Revoke;
|}.

Definition fileRT_Save (rt : RefreshToken) : ST (Sys * FileRepo RefreshToken refreshTokenDoc) (option goerr) :=
  l ← fr_new rt; fr_Save l.

Definition fileRT_FindByTokenHash (tokenHash : string)
  : ST (Sys * FileRepo RefreshToken refreshTokenDoc) (option RefreshToken * option goerr) :=
  f ← fr_FindByField "TokenHash" tokenHash;
  match f with
  | (Some l, e) => x ← fr_deref l; mret (Some x, e)
  | (None, e) => mret (None, e)
  end.

(** The callback of [RevokeByTokenHash]. *)
Definition rt_revoke (rt : RefreshToken) : ST Sys (unit * RefreshToken * option goerr) :=
  match rt_RevokedAt rt with
  | Some _ => mret (tt, rt, Some ErrNotFound)
  | None =>
    t ← time_Now;
    if rt_ExpiresAt rt <? t then mret (tt, rt, Some ErrNotFound)
    else t' ← time_Now; mret (tt, set_rt_RevokedAt (Some t') rt, None)
  end.

Definition fileRT_RevokeByTokenHash (tokenHash : string)
  : ST (Sys * FileRepo RefreshToken refreshTokenDoc) (option goerr) :=
  ' (_, e) ← fr_UpdateByField "TokenHash" tokenHash tt rt_revoke;
  mret e.

(** The callback of the two sweeps: revoke a selected row that is not revoked. *)
Definition rt_sweep (sel : RefreshToken -> bool) (rt : RefreshToken)
  : ST Sys (RefreshToken * bool * option goerr) :=
  if sel rt && match rt_RevokedAt rt with None => true | Some _ => false end
  then t ← time_Now; mret (set_rt_RevokedAt (Some t) rt, true, None)
  else mret (rt, false, None).

Definition fileRT_RevokeAllForUser (userID : string)
  : ST (Sys * FileRepo RefreshToken refreshTokenDoc) (option goerr) :=
  fr_UpdateAll (rt_sweep (fun rt => String.eqb (rt_UserID rt) userID)).

Definition fileRT_RevokeAllForGrant (grantID : string)
  : ST (Sys * FileRepo RefreshToken refreshTokenDoc) (option goerr) :=
  fr_UpdateAll (rt_sweep (fun rt => String.eqb (rt_GrantID rt) grantID)).

#[export] Instance fileRTRepo : RefreshTokenRepoI := {|
  RS := FileRepo RefreshToken refreshTokenDoc;
  rs_rows := fr_view;
  rs_inv := fr_inv;
  rr_Save := fileRT_Save;
  rr_FindByTokenHash := fileRT_FindByTokenHash;
  rr_RevokeByTokenHash := fileRT_RevokeByTokenHash;
  rr_RevokeAllForUser := fileRT_RevokeAllForUser;
  rr_RevokeAllForGrant := fileRT_RevokeAllForGrant;
|}.

End FileAdapters.

(** ** The file backend satisfies the port laws *)

Section FilePtrLaws.
  Context {E : Env} {T D : Type} {FC : FileCodec E T D} {HC : CodecOk (T := T) (D := D)}.

Lemma file_view_id (r : FileRepo T D) id x : fr_inv r -> fr_view r !! id = Some x -> fc_getID x = id.
Proof.
  intros Hinv (l & Hl & Hx)%fr_view_lookup. destruct (inv_deref r Hinv id l Hl) as (y & Hy & ?).
  congruence.
Qed.

Lemma file_find_law (f v : string) (P : T -> Prop) s (r : FileRepo T D) :
  fr_inv r -> f ∈ fc_keys -> (forall x, fc_field f x = Some (Some v) <-> P x) ->
  wp (fr_FindByField f v) (find_spec (PtrStore0 := filePtrStore (D := D)) P s r) (s, r).
Proof.
  intros Hinv Hf HP. destruct (find_run f v s r Hinv Hf) as (res & r' & Hrun & Hsame & Hinv' & _ & Hres).
  eapply wp_eq; [exact Hrun|]. split; [done|]. split; [done|]. split; [by apply fr_same_view|].
  destruct Hres as [(id & l & x & -> & Hi & Hl & Hv & Hid & Hfx)|(-> & Hno)].
  - left. exists l, x, id. split; [done|]. simpl. rewrite (same_heap _ _ Hsame).
    split; [done|]. split; [done|]. by apply HP.
  - right. left. split; [done|]. intros id x Hx HPx. by eapply Hno, HP.
Qed.

Lemma file_ptr_laws (same : T -> T -> Prop) (fresh : T -> gmap string T -> Prop) :
  (forall x x', same x x' -> fc_getID x' = fc_getID x /\
     forall f, f ∈ fc_keys -> fc_field f x' = fc_field f x) ->
  (forall x m, (forall id y, m !! id = Some y -> fc_getID y = id) -> fresh x m -> no_clash x m) ->
  PtrStoreLaws E T (filePtrStore (D := D)) fc_getID same fresh.
Proof.
  intros Hsame Hfresh. split.
  - apply file_view_id.
  - intros x s r Hinv. destruct (new_run x s r Hinv) as (r' & Hrun & Hinv' & Hv & _ & _ & Hh).
    eapply wp_eq; [exact Hrun|]. split; [done|]. split; [done|]. split; [done|].
    eexists. split; [reflexivity|]. simpl. by rewrite Hh, lookup_insert_eq.
  - intros l x x' s r Hinv Hl Hs. apply Hsame in Hs as [Hid Hf].
    destruct (assign_run l x x' s r Hinv Hl Hid Hf) as (r' & Hrun & Hinv' & Hh & _ & _ & Hv).
    eapply wp_eq; [exact Hrun|]. do 3 (split; [done|]).
    split; [simpl; by rewrite Hh, lookup_insert_eq|]. simpl. rewrite Hv.
    case_decide as Hi; [|by left]. right. split; [|done]. apply fr_view_lookup. eauto.
  - intros l x s r Hinv Hl Hfr.
    destruct (persist_run l x s r Hinv Hl) as (o & s' & r' & Hrun & Hle & Hinv' & Hh & _ & Ho).
    { apply Hfresh; [|done]. intros id y. by apply file_view_id. }
    eapply wp_eq; [exact Hrun|]. split; [done|]. split; [done|]. split; [simpl; by rewrite Hh|].
    destruct o as [[err|]|e]; naive_solver.
Qed.

End FilePtrLaws.

Section AdapterLaws.
  Context {E : Env} {A : Aead} {EC : EmailCipher}.

#[export] Instance grantCodec_ok : CodecOk (T := Grant) (D := grantDoc).
Proof.
  split; [|done]. intros f g. simpl. rewrite list_elem_of_singleton. intros ->. by eexists.
Qed.

#[export] Instance rtCodec_ok : CodecOk (T := RefreshToken) (D := refreshTokenDoc).
Proof.
  split; [|done]. intros f g. simpl. rewrite list_elem_of_singleton. intros ->. by eexists.
Qed.

#[export] Instance grantCodec_total : CodecTotal (T := Grant) (D := grantDoc).
Proof. intros g s. by eexists _, _. Qed.

#[export] Instance rtCodec_total : CodecTotal (T := RefreshToken) (D := refreshTokenDoc).
Proof. intros g s. by eexists _, _. Qed.

#[export] Instance userCodec_ok : CodecOk (T := User) (D := userDoc).
Proof.
  split.
  - intros f u. simpl. rewrite !elem_of_cons, elem_of_nil. intros [->|[->|[->|[]]]]; by eexists.
  - intros u s. simpl. unfold userCodec_toDoc, Cipher_Encrypt, bind.
    destruct (rand_Read (n_rand s)); unfold sys_le; simpl; lia.
Qed.

Lemma email_unique (r : FileRepo User userDoc) id id' u u' :
  fr_inv r -> fr_view r !! id = Some u -> fr_view r !! id' = Some u' ->
  u_Email u = u_Email u' -> id = id'.
Proof.
  intros Hinv Hu Hu' He.
  apply (inv_unique r Hinv "Email" (u_Email u') id id' u u' ltac:(by constructor) Hu Hu');
    simpl; unfold user_field; simpl; congruence.
Qed.

Lemma file_users_unique (r : FileRepo User userDoc) id u :
  fr_inv r -> fr_view r !! id = Some u -> user_fresh u (fr_view r).
Proof.
  intros Hinv Hu id' u' Hu' Heq. destruct (fr_view_lookup r id u) as [Hl _].
  destruct (Hl Hu) as (l & Hi & Hx). destruct (inv_deref r Hinv id l Hi) as (y & Hy & Hid).
  assert (u_ID u = id) as -> by (change (u_ID u) with (fc_getID u); congruence).
  destruct Heq as [He|[[h Hh] Hr]]; [by eapply email_unique|].
  apply (inv_unique r Hinv "PasswordResetTokenHash" h id' id u' u ltac:(do 2 right; by left) Hu' Hu);
    simpl; unfold user_field; simpl; congruence.
Qed.

Lemma user_keys_no_clash u (m : gmap string User) :
  (forall id y, m !! id = Some y -> u_ID y = id) -> user_fresh u m -> no_clash (D := userDoc) u m.
Proof.
  intros Hm Hfr f v id y. simpl. rewrite !elem_of_cons, elem_of_nil. unfold user_field.
  intros Hf Hy Hu Hy'. destruct Hf as [->|[->|[->|[]]]]; simpl in *; simplify_eq.
  - by apply (Hfr _ _ Hy); left.
  - apply Hm in Hy. congruence.
  - apply (Hfr _ _ Hy). right. split; [eauto|congruence].
Qed.

Lemma file_user_ptr_laws : PtrStoreLaws E User (filePtrStore (D := userDoc)) u_ID user_same user_fresh.
Proof.
  apply (file_ptr_laws (FC := userCodec)).
  - intros u u' (Hid & Ht & He & Hr). split; [done|]. intros f. simpl.
    rewrite !elem_of_cons, elem_of_nil. unfold user_field.
    intros [->|[->|[->|[]]]]; simpl; congruence.
  - apply user_keys_no_clash.
Qed.

(** ** Users *)

Lemma file_createUser_law l u s (r : FileRepo User userDoc) :
  fr_inv r -> fr_heap r !! l = Some u ->
  (forall id u', fr_view r !! id = Some u' ->
     id = u_ID u \/ (is_Some (u_PasswordResetTokenHash u) /\
                     u_PasswordResetTokenHash u' = u_PasswordResetTokenHash u) -> False) ->
  wp (fileUser_CreateUser l) (fun o '(s', r') => sys_le s s' /\ fr_inv r' /\ fr_heap r' !! l = Some u /\
    match o with
    | Ret None => fr_view r' = <[u_ID u := u]> (fr_view r) /\
        (forall id u', fr_view r !! id = Some u' -> u_TenantID u' = u_TenantID u -> u_Email u' <> u_Email u)
    | _ => fr_view r' = fr_view r
    end) (s, r).
Proof.
  intros Hinv Hl Hnew. apply wp_bind. eapply wp_eq; [unfold fr_deref; simpl; by rewrite Hl|].
  apply wp_bind.
  destruct (find_run "Email" (u_Email u) s r Hinv) as (res & r1 & Hrun & Hsame & Hinv1 & _ & Hres);
    [by constructor|].
  eapply wp_eq; [exact Hrun|]. pose proof (fr_same_view _ _ Hsame) as Hv1.
  assert (fr_heap r1 !! l = Some u) as Hl1 by (by rewrite (same_heap _ _ Hsame)).
  destruct Hres as [(id & l' & x & -> & _)|(-> & Hno)]; [by apply wp_ret|]. simpl.
  destruct (persist_run l u s r1 Hinv1 Hl1) as (o & s' & r' & Hp & Hle & Hinv' & Hh & _ & Ho).
  { rewrite Hv1. apply user_keys_no_clash; [intros id y; exact (file_view_id (FC := userCodec) r id y Hinv)|].
    intros id u' Hu' [He|Hr]; [|by destruct (Hnew id u' Hu'); right].
    exfalso. apply (Hno id u' Hu'). simpl. by rewrite <- He. }
  eapply wp_eq; [exact Hp|]. split; [done|]. split; [done|]. split; [by rewrite Hh|].
  rewrite Hv1 in Ho. destruct o as [[err|]|e]; [naive_solver| |naive_solver].
  split; [naive_solver|]. intros id u' Hu' _ He. apply (Hno id u' Hu'). simpl. by rewrite <- He.
Qed.

Lemma file_findByEmail_law tid email s (r : FileRepo User userDoc) :
  fr_inv r ->
  wp (fileUser_FindByEmail tid email)
    (find_spec (PtrStore0 := filePtrStore (D := userDoc))
       (fun u => u_Email u = email /\ u_TenantID u = tid) s r) (s, r).
Proof.
  intros Hinv. apply wp_bind.
  destruct (find_run "Email" email s r Hinv) as (res & r1 & Hrun & Hsame & Hinv1 & _ & Hres);
    [by constructor|].
  eapply wp_eq; [exact Hrun|]. pose proof (fr_same_view _ _ Hsame) as Hv1.
  destruct Hres as [(id & l & u & -> & Hi & Hl & Hv & Hid & Hf)|(-> & Hno)].
  - assert (fr_heap r1 !! l = Some u) as Hl1 by (by rewrite (same_heap _ _ Hsame)).
    simpl in Hf. unfold user_field in Hf. simpl in Hf. injection Hf as He.
    apply wp_bind. eapply wp_eq; [unfold fr_deref; simpl; by rewrite Hl1|].
    cbn beta iota. destruct (String.eqb_spec (u_TenantID u) tid) as [Ht|Ht]; apply wp_ret;
      (split; [done|]); (split; [done|]); (split; [done|]).
    + left. exists l, u, id. done.
    + right. left. split; [done|]. intros id' u' Hu' [He' Ht']. simpl in Hu'.
      assert (id = id') as <-; [|congruence].
      apply (email_unique r id id' u u'); congruence.
  - apply wp_ret. split; [done|]. split; [done|]. split; [done|]. right. left. split; [done|].
    intros id u Hu [He _]. apply (Hno id u Hu). simpl. by rewrite <- He.
Qed.

Lemma file_findByEmail_ptrs tid email s (r : FileRepo User userDoc) l u :
  fr_inv r -> fr_heap r !! l = Some u -> fr_heap (fileUser_FindByEmail tid email (s, r)).2.2 !! l = Some u.
Proof.
  intros Hinv Hl. unfold fileUser_FindByEmail, fr_FindByField, bind.
  destruct (find_run "Email" email s r Hinv) as (res & r1 & Hrun & Hsame & _); [by constructor|].
  rewrite Hrun. rewrite <- (same_heap _ _ Hsame) in Hl.
  destruct res as [[l'|] [e|]]; try done. unfold fr_deref, bind. simpl. destruct (fr_heap r1 !! l') as [u'|]; [|done].
  by destruct (negb (String.eqb (u_TenantID u') tid)).
Qed.

Lemma file_updateByReset_law C h (c0 : C) upd s (r : FileRepo User userDoc) :
  fr_inv r ->
  (forall id u s0, fr_view r !! id = Some u -> u_PasswordResetTokenHash u = Some h ->
     sys_le s0 (upd u s0).2 /\
     forall c u', (upd u s0).1 = Ret (c, u', None) ->
       u_ID u' = u_ID u /\ u_Email u' = u_Email u /\ u_PasswordResetTokenHash u' = None) ->
  wp (fileUser_UpdateByPasswordResetTokenHash h c0 upd) (fun o '(s', r') => sys_le s s' /\ fr_inv r' /\
    ((o = Ret (c0, Some ErrNotFound) /\ fr_view r' = fr_view r /\
        forall id u, fr_view r !! id = Some u -> u_PasswordResetTokenHash u <> Some h) \/
     (exists e, o = Ret (c0, Some e) /\ errors_Is e ErrNotFound = false /\ is_ErrorStruct e = false /\
        fr_view r' = fr_view r) \/
     exists u s0, fr_view r !! u_ID u = Some u /\ u_PasswordResetTokenHash u = Some h /\
       sys_le s s0 /\ sys_le (upd u s0).2 s' /\
       match (upd u s0).1 with
       | Panic e => o = Panic e /\ fr_view r' = fr_view r
       | Ret (c, _, Some err) => o = Ret (c, Some err) /\ fr_view r' = fr_view r
       | Ret (c, u', None) =>
         match o with
         | Ret (c', None) => c' = c /\ fr_view r' = <[u_ID u' := u']> (fr_view r)
         | Ret (c', Some e) => c' = c /\ is_ErrorStruct e = false /\ fr_view r' = fr_view r
         | Panic _ => fr_view r' = fr_view r
         end
       end)) (s, r).
Proof.
  intros Hinv Hupd.
  destruct (updateByField_run "PasswordResetTokenHash" h c0 upd s r Hinv)
    as (o & s' & r' & Hrun & Hle & Hinv' & _ & Hres); [by do 2 right; left| |].
  { intros id u Hu Hf. simpl in Hf. unfold user_field in Hf. simpl in Hf. injection Hf as Hf.
    destruct (Hupd id u s Hu Hf) as [Hm Hk]. split; [done|]. intros c u' Hr.
    destruct (Hk c u' Hr) as (Hid & He & Hn). apply user_keys_no_clash.
    { intros id' y. exact (file_view_id (FC := userCodec) r id' y Hinv). }
    intros id' y Hy [Hye|[[? Hx] _]]; [|congruence]. rewrite Hid.
    pose proof (file_view_id (FC := userCodec) r id u Hinv Hu) as Huid. simpl in Huid. rewrite Huid.
    apply (email_unique r id' id y u); congruence. }
  eapply wp_eq; [exact Hrun|]. split; [done|]. split; [done|].
  destruct Hres as [(-> & -> & Hv & Hno)|(u & Hu & Hf & Hle' & Hm)].
  - left. split; [done|]. split; [done|]. intros id u Hu Hh. apply (Hno id u Hu).
    simpl. unfold user_field. simpl. by rewrite Hh.
  - right. right. exists u, s. simpl in Hf. unfold user_field in Hf. simpl in Hf. injection Hf as Hf.
    do 4 (split; [done|]). destruct (upd u s) as [[[[c u'] [err|]]|e] s1]; [done| |done].
    simpl in *. destruct o as [[c' [err|]]|e]; naive_solver.
Qed.

#[export] Instance file_user_laws : UserRepoLaws E fileUserRepo.
Proof.
  split.
  - exact file_user_ptr_laws.
  - exact file_users_unique.
  - exact file_createUser_law.
  - exact file_findByEmail_law.
  - exact file_findByEmail_ptrs.
  - intros id s r Hinv. apply (file_find_law (FC := userCodec) "ID"); [done|by right; left|].
    intros u. simpl. unfold user_field. simpl. split; congruence.
  - intros h s r Hinv. apply (file_find_law (FC := userCodec) "PasswordResetTokenHash");
      [done|by do 2 right; left|]. intros u. simpl. unfold user_field. simpl. split; congruence.
  - exact file_updateByReset_law.
Qed.

(** ** Grants *)

Lemma file_grant_no_clash (g : Grant) (m : gmap string Grant) :
  (forall id y, m !! id = Some y -> g_ID y = id) -> no_clash (D := grantDoc) g m.
Proof.
  intros Hm f v id y. simpl. rewrite list_elem_of_singleton. intros -> Hy.
  unfold grant_field. simpl. intros. simplify_eq. apply Hm in Hy. congruence.
Qed.

Lemma file_gr_revoke_law id t s (r : FileRepo Grant grantDoc) :
  fr_inv r ->
  wp (fileGrant_Revoke id t) (fun o '(s', r') => sys_le s s' /\ fr_inv r' /\
    exists e, o = Ret e /\
    match e with
    | None => exists g, fr_view r !! id = Some g /\ g_RevokedAt g = None /\
                fr_view r' = <[id := set_g_RevokedAt (Some t) g]> (fr_view r)
    | Some err => fr_view r' = fr_view r /\
        (errors_Is err ErrNotFound = true ->
           forall g, fr_view r !! id = Some g -> is_Some (g_RevokedAt g))
    end) (s, r).
Proof.
  intros Hinv. apply wp_bind.
  destruct (updateByField_run "ID" id tt (grant_revoke t) s r Hinv)
    as (o & s' & r' & Hrun & Hle & Hinv' & _ & Hres); [by constructor| |].
  { intros id' g _ _. unfold grant_revoke. split; [by destruct (g_RevokedAt g)|].
    intros c g' _. apply file_grant_no_clash. intros id0 y. exact (file_view_id (FC := grantCodec) r id0 y Hinv). }
  eapply wp_eq; [exact Hrun|].
  destruct Hres as [(-> & -> & Hv & Hno)|(g & Hg & Hf & Hle' & Hm)].
  - apply wp_ret. split; [done|]. split; [done|]. eexists. split; [reflexivity|].
    split; [done|]. intros _ g Hg. destruct (Hno id g Hg).
    pose proof (file_view_id (FC := grantCodec) r id g Hinv Hg) as Hgid. simpl in Hgid.
    simpl. unfold grant_field. simpl. by rewrite Hgid.
  - simpl in Hf. unfold grant_field in Hf. simpl in Hf. injection Hf as Hid. subst id.
    unfold grant_revoke in Hm, Hle'. simpl in Hg. destruct (g_RevokedAt g) as [t0|] eqn:Hrev; simpl in *.
    + destruct Hm as [-> Hv]. apply wp_ret. split; [done|]. split; [done|]. eexists.
      split; [reflexivity|]. split; [done|]. intros _ g' Hg'. simplify_eq. rewrite Hrev. eauto.
    + destruct o as [[[] [err|]]|e].
      * destruct Hm as (_ & Hv & _ & Hnf & _). apply wp_ret. split; [done|]. split; [done|].
        eexists. split; [reflexivity|]. split; [done|]. congruence.
      * destruct Hm as (_ & Hv). apply wp_ret. split; [done|]. split; [done|].
        eexists. split; [reflexivity|]. by exists g.
      * destruct (updateByField_returns (FileCodec0 := grantCodec) "ID" (g_ID g) tt (grant_revoke t) s r Hinv)
          as (b & q & Hb); [by constructor| |congruence].
        intros x s0. unfold grant_revoke. destruct (g_RevokedAt x); by eexists _, _.
Qed.

#[export] Instance file_grant_laws : GrantRepoLaws E fileGrantRepo.
Proof.
  split.
  - apply (file_ptr_laws (FC := grantCodec)).
    + intros g g' Hg. split; [done|]. intros f. simpl. rewrite list_elem_of_singleton. intros ->.
      unfold grant_field. simpl. by rewrite Hg.
    + intros g m Hm _. by apply file_grant_no_clash.
  - intros id s r Hinv. apply (file_find_law (FC := grantCodec) "ID"); [done|by constructor|].
    intros g. simpl. unfold grant_field. simpl. split; congruence.
  - exact file_gr_revoke_law.
Qed.

(** ** Refresh tokens *)

Lemma rt_view_id (r : FileRepo RefreshToken refreshTokenDoc) id x :
  fr_inv r -> fr_view r !! id = Some x -> rt_ID x = id.
Proof. exact (file_view_id (FC := rtCodec) r id x). Qed.

Lemma rt_hash_unique (r : FileRepo RefreshToken refreshTokenDoc) id1 id2 x1 x2 :
  fr_inv r -> fr_view r !! id1 = Some x1 -> fr_view r !! id2 = Some x2 ->
  rt_TokenHash x1 = rt_TokenHash x2 -> id1 = id2.
Proof.
  intros Hinv H1 H2 He.
  apply (inv_unique r Hinv "TokenHash" (rt_TokenHash x2) id1 id2 x1 x2 ltac:(by constructor) H1 H2);
    simpl; unfold rt_field; simpl; congruence.
Qed.

Lemma rt_no_clash x (m : gmap string RefreshToken) :
  rt_fresh x m -> no_clash (D := refreshTokenDoc) x m.
Proof.
  intros Hfr f v id y. simpl. rewrite list_elem_of_singleton. intros -> Hy. unfold rt_field. simpl.
  intros [= Hx] [= Hyh]. apply (Hfr id y Hy). congruence.
Qed.

Lemma file_rt_save_law x s (r : FileRepo RefreshToken refreshTokenDoc) :
  fr_inv r -> rt_fresh x (fr_view r) ->
  wp (fileRT_Save x) (fun o '(s', r') => sys_le s s' /\ fr_inv r' /\ exists e, o = Ret e /\
    fr_view r' = match e with None => <[rt_ID x := x]> (fr_view r) | Some _ => fr_view r end /\
    (forall err, e = Some err -> is_ErrorStruct err = false)) (s, r).
Proof.
  intros Hinv Hfr. destruct (new_run x s r Hinv) as (r1 & Hnew & Hinv1 & Hv1 & _ & _ & Hh1).
  apply wp_bind. eapply wp_eq; [exact Hnew|]. cbn beta iota.
  assert (fr_heap r1 !! fr_next r = Some x) as Hl by (by rewrite Hh1, lookup_insert_eq).
  destruct (persist_run (fr_next r) x s r1 Hinv1 Hl) as (o & s' & r' & Hp & Hle & Hinv' & _ & _ & Ho);
    [rewrite Hv1; by apply rt_no_clash|].
  destruct (persist_returns (FileCodec0 := rtCodec) (fr_next r) x s r1 Hinv1 Hl) as (e & q & Hr).
  rewrite Hp in Hr. injection Hr as -> _.
  eapply wp_eq; [exact Hp|]. split; [done|]. split; [done|]. exists e. split; [done|].
  rewrite <- Hv1. destruct e as [err|]; naive_solver.
Qed.

Lemma file_rt_find_law h s (r : FileRepo RefreshToken refreshTokenDoc) :
  fr_inv r ->
  wp (fileRT_FindByTokenHash h) (fun o '(s', r') => sys_le s s' /\ fr_inv r' /\ fr_view r' = fr_view r /\
    ((exists x, o = Ret (Some x, None) /\ fr_view r !! rt_ID x = Some x /\ rt_TokenHash x = h) \/
     (o = Ret (None, Some ErrNotFound) /\
        forall id x, fr_view r !! id = Some x -> rt_TokenHash x <> h) \/
     (exists e, o = Ret (None, Some e) /\ errors_Is e ErrNotFound = false))) (s, r).
Proof.
  intros Hinv. apply wp_bind.
  destruct (find_run "TokenHash" h s r Hinv) as (res & r1 & Hrun & Hsame & Hinv1 & _ & Hres);
    [by constructor|].
  eapply wp_eq; [exact Hrun|]. pose proof (fr_same_view _ _ Hsame) as Hv1.
  destruct Hres as [(id & l & x & -> & Hi & Hl & Hv & Hid & Hf)|(-> & Hno)].
  - apply wp_bind. eapply wp_eq.
    { unfold fr_deref. simpl. by rewrite (same_heap _ _ Hsame), Hl. }
    simpl in Hid, Hf. unfold rt_field in Hf. simpl in Hf. injection Hf as Hf. subst id.
    apply wp_ret. do 3 (split; [done|]). left. by exists x.
  - apply wp_ret. do 3 (split; [done|]). right. left. split; [done|].
    intros id x Hx Hh. apply (Hno id x Hx). simpl. unfold rt_field. simpl. by rewrite Hh.
Qed.

(** The callback of [RevokeByTokenHash], in closed form. *)
Lemma rt_revoke_run x s :
  rt_revoke x s =
  match rt_RevokedAt x with
  | Some _ => (Ret (tt, x, Some ErrNotFound), s)
  | None => if rt_ExpiresAt x <? now s then (Ret (tt, x, Some ErrNotFound), tick s)
            else (Ret (tt, set_rt_RevokedAt (Some (now (tick s))) x, None), tick (tick s))
  end.
Proof. unfold rt_revoke, bind, now, tick. destruct (rt_RevokedAt x); simpl; [done|]. by destruct (_ <? _). Qed.

Lemma rt_revoke_mono x s : sys_le s (rt_revoke x s).2.
Proof.
  rewrite rt_revoke_run. destruct (rt_RevokedAt x); [done|].
  destruct (_ <? _); unfold sys_le; simpl; lia.
Qed.

Lemma file_rt_revoke_law `{!ClockMono E} h s (r : FileRepo RefreshToken refreshTokenDoc) :
  fr_inv r -> wp (fileRT_RevokeByTokenHash h) (revoke_spec (RR := fileRTRepo) h s r) (s, r).
Proof.
  intros Hinv. apply wp_bind.
  destruct (updateByField_run "TokenHash" h tt rt_revoke s r Hinv)
    as (o & s' & r' & Hrun & Hle & Hinv' & _ & Hres); [by constructor| |].
  { intros id x Hx _. split; [apply rt_revoke_mono|]. intros c x' Hr. rewrite rt_revoke_run in Hr.
    destruct (rt_RevokedAt x); [done|]. destruct (_ <? _); [done|]. injection Hr as _ <-.
    apply rt_no_clash. intros id' y Hy Hh. simpl in *. rewrite (rt_view_id r id x Hinv Hx).
    by apply (rt_hash_unique r id' id y x). }
  destruct (updateByField_returns (FileCodec0 := rtCodec) "TokenHash" h tt rt_revoke s r Hinv)
    as ([[] e] & q & Hret); [by constructor| |].
  { intros x s0. unfold returns. rewrite rt_revoke_run. destruct (rt_RevokedAt x); [by eexists _, _|].
    destruct (_ <? _); by eexists _, _. }
  rewrite Hrun in Hret. injection Hret as -> _.
  eapply wp_eq; [exact Hrun|]. apply wp_ret. split; [done|]. split; [done|]. exists e. split; [done|].
  destruct Hres as [([= ->] & -> & Hv & Hno)|(x & Hx & Hf & Hle' & Hm)].
  { split; [done|]. split; [done|]. intros _ id x Hx Hh. destruct (Hno id x Hx).
    simpl. unfold rt_field. simpl. by rewrite Hh. }
  simpl in Hf, Hx. unfold rt_field in Hf. simpl in Hf. injection Hf as Hf.
  assert (forall err, e = Some err -> fr_view r' = fr_view r -> is_ErrorStruct err = false ->
    (errors_Is err ErrNotFound = true -> is_Some (rt_RevokedAt x) \/ rt_ExpiresAt x <= now s') ->
    revoke_rows h (now s) (now s') (fr_view r) (fr_view r') e) as Herr.
  { intros err -> Hv Hs Hn. split; [done|]. split; [done|]. intros Hnf id y Hy Hh.
    assert (id = rt_ID x) as -> by (apply (rt_hash_unique r id (rt_ID x) y x); congruence).
    replace y with x by congruence. auto. }
  rewrite rt_revoke_run in Hm, Hle'. destruct (rt_RevokedAt x) as [t0|] eqn:Hrev.
  { simpl in Hm. destruct Hm as [[= ->] Hv]. eapply Herr; eauto. }
  assert (now s <= now (tick s)) by (apply now_mono, sys_le_tick).
  destruct (Z.ltb_spec (rt_ExpiresAt x) (now s)); simpl in Hm.
  { destruct Hm as [[= ->] Hv]. apply now_mono in Hle. eapply Herr; eauto. intros _. right. lia. }
  destruct e as [err|].
  - destruct Hm as (_ & Hv & Hs & Hn & _). eapply Herr; eauto. congruence.
  - exists x, (now (tick s)). split_and!; try done; [|by destruct Hm].
    etrans; [|apply now_mono; exact Hle']. apply now_mono, sys_le_tick.
Qed.

Lemma file_rt_sweep_run `{!ClockMono E} sel (P : RefreshToken -> Prop) s
    (r : FileRepo RefreshToken refreshTokenDoc) :
  (forall x, sel x = true <-> P x) -> fr_inv r ->
  exists e q, fr_UpdateAll (rt_sweep sel) (s, r) = (Ret e, q) /\
    sweep_spec (RR := fileRTRepo) P s r (Ret e) q /\ (e <> None -> ~ DiskOk E).
Proof.
  intros Hsel Hinv.
  destruct (updateAll_run (FileCodec0 := rtCodec) (rt_sweep sel)
    (fun s0 s1 x x' => swept P (now s0) (now s1) x x')) with s r
    as (o & s' & r' & Hrun & Hle & Hinv' & _ & Ho & Htot); [| |done|].
  - intros x s0. unfold rt_sweep.
    pose proof (Hsel x) as Hx. destruct (sel x), (rt_RevokedAt x) as [t|] eqn:Hr; simpl;
      eexists _, _, _; (split; [reflexivity|]).
    1,3,4: split; [done|]; right; split; [done|]; rewrite Hr; naive_solver.
    split; [apply (sys_le_tick s0)|]. left. split; [by apply Hx|]. split; [done|].
    exists (now s0). split; [|done]. split; [lia|]. apply (now_mono s0 (tick s0)), sys_le_tick.
  - intros s0 s1 x x' [(_ & _ & t & _ & ->)|[-> _]]; [|done]. split; [done|].
    intros f. simpl. rewrite list_elem_of_singleton. by intros ->.
  - destruct (Htot rtCodec_total) as (e & -> & Hdisk). exists e, (s', r'). split; [exact Hrun|]. split; [|done].
    split; [done|]. split; [done|]. exists e. split; [done|]. destruct e as [err|]; [done|].
    destruct Ho as [Hnone Hsome]. split; [done|]. intros id x Hx.
    destruct (Hsome id x Hx) as (x' & Hx' & s0 & s1 & Hs0%now_mono & Hs1%now_mono & Hsw).
    exists x'. split; [done|]. destruct Hsw as [(HP & Hr & t & Ht & ->)|Hsw]; [left|by right].
    split; [done|]. split; [done|]. exists t. split; [simpl in *; lia|done].
Qed.

Lemma file_rt_sweep_law `{!ClockMono E} sel (P : RefreshToken -> Prop) s
    (r : FileRepo RefreshToken refreshTokenDoc) :
  (forall x, sel x = true <-> P x) -> fr_inv r ->
  wp (fr_UpdateAll (rt_sweep sel)) (sweep_spec (RR := fileRTRepo) P s r) (s, r).
Proof.
  intros Hsel Hinv. destruct (file_rt_sweep_run sel P s r Hsel Hinv) as (e & q & Hrun & Hspec & _).
  by eapply wp_eq.
Qed.

#[export] Instance file_rt_laws `{!ClockMono E} : RefreshTokenRepoLaws E fileRTRepo.
Proof.
  split.
  - exact rt_view_id.
  - exact rt_hash_unique.
  - exact file_rt_save_law.
  - exact file_rt_find_law.
  - exact file_rt_revoke_law.
  - intros uid s r. apply file_rt_sweep_law. intros x. apply String.eqb_eq.
  - intros gid s r. apply file_rt_sweep_law. intros x. apply String.eqb_eq.
Qed.

(** ** The file backend answers when the disk does *)

Lemma file_gr_revoke_reliable `{!DiskOk E} id t s (r : FileRepo Grant grantDoc) e q :
  fr_inv r -> fileGrant_Revoke id t (s, r) = (Ret (Some e), q) -> errors_Is e ErrNotFound = true.
Proof.
  intros Hinv Hrun.
  destruct (updateByField_run "ID" id tt (grant_revoke t) s r Hinv)
    as (o & s' & r' & Hup & _ & _ & _ & Hres); [by constructor| |].
  { intros id' g _ _. unfold grant_revoke. split; [by destruct (g_RevokedAt g)|].
    intros c g' _. apply file_grant_no_clash. intros id0 y. exact (file_view_id (FC := grantCodec) r id0 y Hinv). }
  unfold fileGrant_Revoke, bind in Hrun. rewrite Hup in Hrun.
  destruct o as [[[] e']|]; [|done]. injection Hrun as -> _.
  destruct Hres as [([= ->] & _)|(g & _ & _ & _ & Hm)]; [done|].
  unfold grant_revoke in Hm. destruct (g_RevokedAt g); simpl in Hm; [by destruct Hm as [[= ->] _]|].
  by destruct Hm as (_ & _ & _ & _ & []).
Qed.

#[export] Instance file_grant_reliable `{!DiskOk E} : GrantRepoReliable fileGrantRepo :=
  file_gr_revoke_reliable.

Lemma file_rt_find_reliable h s (r : FileRepo RefreshToken refreshTokenDoc) x e q :
  fr_inv r -> fileRT_FindByTokenHash h (s, r) = (Ret (x, Some e), q) -> e = ErrNotFound.
Proof.
  intros Hinv Hrun. unfold fileRT_FindByTokenHash in Hrun.
  destruct (find_run "TokenHash" h s r Hinv) as (res & r1 & Hf & Hsame & _ & _ & Hres); [by constructor|].
  unfold fr_FindByField in Hrun. rewrite (bind_run _ _ _ _ _ Hf) in Hrun.
  destruct Hres as [(id & l & y & -> & _ & Hl & _)|(-> & _)]; [|by injection Hrun as _ <- _].
  rewrite (bind_run _ _ _ y (s, r1)) in Hrun; [done|].
  unfold fr_deref. simpl. by rewrite (same_heap _ _ Hsame), Hl.
Qed.

Lemma file_rt_sweep_reliable `{!ClockMono E} `{!DiskOk E} sel (P : RefreshToken -> Prop) s
    (r : FileRepo RefreshToken refreshTokenDoc) e q :
  (forall x, sel x = true <-> P x) -> fr_inv r ->
  fr_UpdateAll (rt_sweep sel) (s, r) = (Ret e, q) -> e = None.
Proof.
  intros Hsel Hinv Hrun. destruct (file_rt_sweep_run sel P s r Hsel Hinv) as (e' & q' & Hrun' & _ & Hd).
  rewrite Hrun' in Hrun. injection Hrun as <- _. destruct e'; [|done]. by destruct Hd.
Qed.

#[export] Instance file_rt_reliable `{!ClockMono E} `{!DiskOk E} : RefreshTokenRepoReliable fileRTRepo.
Proof.
  split.
  - exact file_rt_find_reliable.
  - intros uid s r e q. apply (file_rt_sweep_reliable _ (fun x => rt_UserID x = uid)).
    intros x. apply String.eqb_eq.
  - intros gid s r e q. apply (file_rt_sweep_reliable _ (fun x => rt_GrantID x = gid)).
    intros x. apply String.eqb_eq.
Qed.

End AdapterLaws.

(** ** Restart of the refresh-token store *)

(** The strings of a row survive JSON (they are valid UTF-8). *)
Definition rt_json_safe (x : RefreshToken) : Prop :=
  Forall (fun v => json_string v = v)
    [rt_ID x; rt_UserID x; rt_ClientID x; rt_GrantID x; rt_TokenHash x; rt_DeviceID x].

Lemma rt_doc_roundtrip x :
  rt_json_safe x -> scope_ok (rt_Scope x) -> rtToEntity (rtDoc_json (rtToDoc x)) = inl x.
Proof.
  unfold rt_json_safe. rewrite !Forall_cons. intros (H1 & H2 & H3 & H4 & H5 & H6 & _) Hs.
  unfold rtToEntity, rtDoc_json, rtToDoc. simpl.
  rewrite json_string_ascii by (by apply Scope_String_ascii).
  rewrite (Scope_String_parse _ Hs), H1, H2, H3, H4, H5, H6. by destruct x.
Qed.

Section Restart.
  Context {E : Env}.

(** C39: Once [Save] returned without error, the file on disk decodes to exactly the
    rows the running server sees, the new row included, provided every row has a
    scope [NewScope] accepts and strings that are valid UTF-8. *)
Theorem refresh_tokens_survive_restart (x : RefreshToken) (s s' : Sys)
    (r r' : FileRepo RefreshToken refreshTokenDoc) :
  fr_inv r -> rt_fresh x (fr_view r) ->
  (forall id y, <[rt_ID x := x]> (fr_view r) !! id = Some y -> rt_json_safe y /\ scope_ok (rt_Scope y)) ->
  fileRT_Save x (s, r) = (Ret None, (s', r')) ->
  exists r0, fr_load (fr_disk r') = inl r0 /\ fr_view r0 = fr_view r' /\
    fr_view r0 = <[rt_ID x := x]> (fr_view r).
Proof.
  intros Hinv Hfr Hrows Hrun.
  destruct (new_run x s r Hinv) as (r1 & Hnew & Hinv1 & Hv1 & _ & _ & Hh1).
  unfold fileRT_Save in Hrun. rewrite (bind_run _ _ _ _ _ Hnew) in Hrun.
  destruct (persist_run (fr_next r) x s r1 Hinv1) as (o & s2 & r2 & Hp & _ & Hinv2 & _ & _ & Ho);
    [by rewrite Hh1, lookup_insert_eq|rewrite Hv1; by apply rt_no_clash|].
  unfold fr_Save in Hrun. rewrite Hp in Hrun. injection Hrun as -> -> ->.
  destruct Ho as (_ & Hv & Henc). rewrite Hv1 in Hv. simpl in Hv.
  destruct (load_run (FileCodec0 := rtCodec) (fr_view r') (fr_disk r') Henc) as (r0 & Hl & Hv0 & _).
  - intros id y d s0 s1 Hy [= <- <-]. rewrite Hv in Hy. destruct (Hrows id y Hy) as [Hj Hs].
    split; [by apply rt_doc_roundtrip|].
    replace id with (rt_ID y); [by apply Forall_cons in Hj as [? _]|].
    apply (rt_view_id r'); [done|]. by rewrite Hv.
  - exists r0. rewrite Hv0. auto.
Qed.

(** A row whose scope is empty is written without complaint and makes the next
    start of the server fail. *)
Theorem empty_scope_row_breaks_restart (disk : gmap string refreshTokenDoc) (id : string) (x : RefreshToken) :
  disk !! id = Some (rtToDoc x) -> Scope_IsEmpty (rt_Scope x) = true ->
  exists err, fr_load (E := E) (T := RefreshToken) disk = inr err.
Proof.
  intros Hd Hs. unfold fr_load.
  assert (forall l n h items, (exists k d, (k, d) ∈ l /\ exists e, rtToEntity d = inr e) ->
    exists err, load_go (E := E) (T := RefreshToken) (D := refreshTokenDoc) l n h items = inr err) as Hgo.
  { induction l as [|[k d] l IH]; intros n h items (k' & d' & Hin & e & He);
      [by apply elem_of_nil in Hin|].
    simpl. destruct (rtToEntity d) as [y|e'] eqn:Hy; [|eauto]. apply IH.
    apply elem_of_cons in Hin as [[= -> ->]|Hin]; [congruence|eauto]. }
  destruct (Hgo ((fun '(k, d) => (json_string k, rtDoc_json d)) <$> map_to_list disk) 0%nat ∅ ∅) as [err Herr].
  - exists (json_string id), (rtDoc_json (rtToDoc x)). split.
    { apply list_elem_of_fmap. exists (id, rtToDoc x). split; [done|]. by apply elem_of_map_to_list. }
    unfold rtToEntity, rtDoc_json, rtToDoc, Scope_String. simpl.
    unfold Scope_IsEmpty in Hs. destruct (rt_Scope x) as [[|v vs]]; [|done]. simpl. by eexists.
  - exists err. simpl in *. by rewrite Herr.
Qed.

End Restart.
