(* ===== verification/Contract.v ===== *)
(** * The contract both backends keep

    The repository's tests run one suite of repository contracts against the
    file backend and against MongoDB.  These classes state that contract.  It is
    weaker than the port laws of Ports.v in what a store may do: times may come
    back rounded ([nt]), e-mail addresses may be compared through an index
    ([same_email]), one address may belong to users of different tenants, and a
    write that reports an error may have happened.  Repositories that satisfy
    the port laws satisfy the contract without rounding. *)

From S2P Require Import Prelude GoStd Crypto Errors Env Scope User Token Client AuthFlow Cache Ports.

Local Open Scope Z_scope.

(** ** Entities as they come back *)

Definition grant_norm (nt : Z -> Z) (g : Grant) : Grant :=
  mkGrant (g_ID g) (g_UserID g) (g_ClientID g) (g_DeviceID g) (nt (g_AuthenticatedAt g))
    (nt (g_CreatedAt g)) (nt (g_ExpiresAt g)) (nt <$> g_RevokedAt g).

Definition rt_norm (nt : Z -> Z) (x : RefreshToken) : RefreshToken :=
  mkRefreshToken (rt_ID x) (rt_UserID x) (rt_ClientID x) (rt_GrantID x) (rt_TokenHash x) (rt_Scope x)
    (rt_DeviceID x) (nt (rt_AuthenticatedAt x)) (nt (rt_CreatedAt x)) (nt (rt_ExpiresAt x))
    (nt <$> rt_RevokedAt x).

Definition user_norm (nt : Z -> Z) (u : User) : User :=
  mkUser (nt (u_CreatedAt u)) (nt (u_UpdatedAt u)) (u_ID u) (u_TenantID u) (u_Username u) (u_Nickname u)
    (u_Password u) (u_Email u) (u_EmailVerified u) (u_PasswordResetTokenHash u)
    (nt <$> u_PasswordResetExpiresAt u) (nt <$> u_SessionsInvalidatedAt u) (u_FailedLoginAttempts u)
    (nt <$> u_LockedUntil u).

Lemma grant_norm_id g : grant_norm (fun t => t) g = g.
Proof. destruct g as [??????? []]; reflexivity. Qed.
Lemma rt_norm_id x : rt_norm (fun t => t) x = x.
Proof. destruct x as [?????????? []]; reflexivity. Qed.
Lemma user_norm_id u : user_norm (fun t => t) u = u.
Proof. destruct u as [??????????[][]?[]]; reflexivity. Qed.

(** ** Stores of entities *)

(** What became of a write: done when it reports success, done or not otherwise. *)
Definition written {A} (o : outcome (option goerr)) (before after : A) (stored : Prop) : Prop :=
  match o with
  | Ret None => stored
  | _ => after = before \/ stored
  end.

Class PtrContract (E : Env) (T : Type) (P : PtrStore T) (getID : T -> string) (norm : T -> T)
    (same : T -> T -> Prop) (savable : T -> gmap string T -> Prop) := {
  pc_view_id : forall r id x, ps_inv r -> ps_view r !! id = Some x -> getID x = id;
  pc_new : forall x s r, ps_inv r ->
    wp (ps_new x) (fun o '(s', r') => s' = s /\ ps_inv r' /\ ps_view r' = ps_view r /\
      exists l, o = Ret l /\ ps_ptr r' l = Some x) (s, r);
  pc_assign : forall l x x' s r, ps_inv r -> ps_ptr r l = Some x -> same x x' ->
    wp (ps_assign l x') (fun o '(s', r') => o = Ret tt /\ s' = s /\ ps_inv r' /\
      ps_ptr r' l = Some x' /\
      (ps_view r' = ps_view r \/
       (ps_view r !! getID x = Some x /\ ps_view r' = <[getID x := x']> (ps_view r)))) (s, r);
  pc_save : forall l x s r, ps_inv r -> ps_ptr r l = Some x -> savable x (ps_view r) ->
    wp (ps_Save l) (fun o '(s', r') => sys_le s s' /\ ps_inv r' /\ ps_ptr r' l = Some x /\
      written o (ps_view r) (ps_view r') (ps_view r' = <[getID x := norm x]> (ps_view r))) (s, r);
}.

Lemma ptr_laws_contract {E T} {P : PtrStore T} getID norm same fresh (savable : T -> gmap string T -> Prop) :
  PtrStoreLaws E T P getID same fresh -> (forall x, norm x = x) ->
  (forall x m, savable x m -> fresh x m) ->
  PtrContract E T P getID norm same savable.
Proof.
  intros HL Hn Hs. split.
  - apply view_id.
  - apply new_law.
  - apply assign_law.
  - intros l x s r Hinv Hl Hsv. eapply wp_mono; [apply (save_law l x s r Hinv Hl (Hs _ _ Hsv))|].
    intros o [s' r'] (? & ? & ? & Ho). do 3 (split; [done|]). rewrite Hn.
    destruct o as [[]|]; simpl; auto.
Qed.

(** ** Grants *)

Class GrantContract (E : Env) (nt : Z -> Z) (G : GrantRepoI) := {
  gc_ptr :: PtrContract E Grant gr_store g_ID (grant_norm nt) grant_same grant_fresh;
  gc_findByID : forall id s r, ps_inv r ->
    wp (gr_FindByID id) (find_spec (fun g => g_ID g = id) s r) (s, r);
  gc_revoke : forall id t s r, ps_inv r ->
    wp (gr_Revoke id t) (fun o '(s', r') => sys_le s s' /\ ps_inv r' /\
      exists e, o = Ret e /\
      let revoked := exists g, ps_view r !! id = Some g /\ g_RevokedAt g = None /\
                       ps_view r' = <[id := set_g_RevokedAt (Some (nt t)) g]> (ps_view r) in
      match e with
      | None => revoked
      | Some err => (ps_view r' = ps_view r \/ revoked) /\
          (errors_Is err ErrNotFound = true -> ps_view r' = ps_view r /\
             forall g, ps_view r !! id = Some g -> is_Some (g_RevokedAt g))
      end) (s, r);
}.

Lemma grant_laws_contract {E} {G : GrantRepoI} : GrantRepoLaws E G -> GrantContract E (fun t => t) G.
Proof.
  intros HL. split.
  - eapply ptr_laws_contract; [apply gr_ptr_laws|apply grant_norm_id|done].
  - apply gr_findByID_law.
  - intros id t s r Hinv. eapply wp_mono; [by apply gr_revoke_law|].
    intros o [s' r'] (? & ? & e & -> & He). do 2 (split; [done|]). exists e. split; [done|].
    destruct e; [|done]. destruct He. auto.
Qed.

(** ** Refresh tokens *)

(** [x'] is [x], or [x] revoked by a sweep over the rows [P] selects. *)
Definition maybe_swept (nt : Z -> Z) (P : RefreshToken -> Prop) (lo hi : Z) (x x' : RefreshToken) : Prop :=
  x' = x \/ (P x /\ rt_RevokedAt x = None /\ exists t, lo <= t <= hi /\ x' = set_rt_RevokedAt (Some (nt t)) x).

(** A sweep: every row is kept or revoked, and after a success every selected
    row is revoked. *)
Definition sweep_contract `{RR : !RefreshTokenRepoI} {E : Env} (nt : Z -> Z) (P : RefreshToken -> Prop)
    (s : Sys) (r : RS) (o : outcome (option goerr)) (q : Sys * RS) : Prop :=
  sys_le s q.1 /\ rs_inv q.2 /\ exists e, o = Ret e /\
    (forall id, rs_rows r !! id = None -> rs_rows q.2 !! id = None) /\
    (forall id x, rs_rows r !! id = Some x -> exists x', rs_rows q.2 !! id = Some x' /\
       maybe_swept nt P (now s) (now q.1) x x' /\ (e = None -> P x -> is_Some (rt_RevokedAt x'))).

Class RefreshTokenContract (E : Env) (nt : Z -> Z) (R : RefreshTokenRepoI) := {
  rc_row_id : forall r id x, rs_inv r -> rs_rows r !! id = Some x -> rt_ID x = id;
  rc_hash_inj : forall r id1 id2 x1 x2, rs_inv r -> rs_rows r !! id1 = Some x1 ->
    rs_rows r !! id2 = Some x2 -> rt_TokenHash x1 = rt_TokenHash x2 -> id1 = id2;
  rc_save : forall x s r, rs_inv r -> rt_fresh x (rs_rows r) -> scope_ok (rt_Scope x) ->
    wp (rr_Save x) (fun o '(s', r') => sys_le s s' /\ rs_inv r' /\
      written o (rs_rows r) (rs_rows r') (rs_rows r' = <[rt_ID x := rt_norm nt x]> (rs_rows r))) (s, r);
  rc_find : forall h s r, rs_inv r ->
    wp (rr_FindByTokenHash h) (fun o '(s', r') => sys_le s s' /\ rs_inv r' /\ rs_rows r' = rs_rows r /\
      ((exists x, o = Ret (Some x, None) /\ rs_rows r !! rt_ID x = Some x /\ rt_TokenHash x = h) \/
       (o = Ret (None, Some ErrNotFound) /\
          forall id x, rs_rows r !! id = Some x -> rt_TokenHash x <> h) \/
       (exists e, o = Ret (None, Some e) /\ errors_Is e ErrNotFound = false))) (s, r);
  rc_revoke : forall h s r, rs_inv r ->
    wp (rr_RevokeByTokenHash h) (fun o '(s', r') => sys_le s s' /\ rs_inv r' /\ exists e, o = Ret e /\
      let revoked := exists x t, rs_rows r !! rt_ID x = Some x /\ rt_TokenHash x = h /\
        rt_RevokedAt x = None /\ now s <= t <= now s' /\ now s <= rt_ExpiresAt x /\
        rs_rows r' = <[rt_ID x := set_rt_RevokedAt (Some (nt t)) x]> (rs_rows r) in
      match e with
      | None => revoked
      | Some err => (rs_rows r' = rs_rows r \/ revoked) /\ is_ErrorStruct err = false /\
          (errors_Is err ErrNotFound = true -> rs_rows r' = rs_rows r /\
             forall id x, rs_rows r !! id = Some x -> rt_TokenHash x = h ->
               is_Some (rt_RevokedAt x) \/ rt_ExpiresAt x <= now s')
      end) (s, r);
  rc_sweepUser : forall uid s r, rs_inv r ->
    wp (rr_RevokeAllForUser uid) (sweep_contract nt (fun x => rt_UserID x = uid) s r) (s, r);
  rc_sweepGrant : forall gid s r, rs_inv r ->
    wp (rr_RevokeAllForGrant gid) (sweep_contract nt (fun x => rt_GrantID x = gid) s r) (s, r);
}.

Lemma sweep_spec_contract `{RR : !RefreshTokenRepoI} {E : Env} P (s : Sys) (r : RS) o q :
  sweep_spec P s r o q -> sweep_contract (fun t => t) P s r o q.
Proof.
  intros (Hle & Hinv & e & -> & He). split; [done|]. split; [done|]. exists e. split; [done|].
  destruct e as [err|].
  { rewrite He. split; [done|]. intros id x Hx. exists x. split; [done|]. split; [by left|done]. }
  destruct He as [Hn Hs]. split; [done|]. intros id x Hx. destruct (Hs id x Hx) as (x' & Hx' & Hsw).
  exists x'. split; [done|]. destruct Hsw as [(HP & Hr & t & Ht & ->)|(-> & HP)].
  - split; [right; eauto|]. intros _ _. by eexists.
  - split; [by left|]. auto.
Qed.

Lemma rt_laws_contract {E} {R : RefreshTokenRepoI} :
  RefreshTokenRepoLaws E R -> RefreshTokenContract E (fun t => t) R.
Proof.
  intros HL. split.
  - apply rr_row_id.
  - apply rr_hash_inj.
  - intros x s r Hinv Hfr _. eapply wp_mono; [by apply rr_save_law|].
    intros o [s' r'] (? & ? & e & -> & He & _). do 2 (split; [done|]). rewrite rt_norm_id.
    unfold written. destruct e; auto.
  - apply rr_find_law.
  - intros h s r Hinv. eapply wp_mono; [by apply rr_revoke_law|].
    intros o [s' r'] (? & ? & e & -> & He). do 2 (split; [done|]). exists e. split; [done|].
    destruct e; [|done]. destruct He as (? & ? & H3). simpl in *. cbv zeta. split_and!; [auto..|]. intros Hnf. split; [done|]. by apply H3.
  - intros uid s r Hinv. eapply wp_mono; [by apply rr_sweepUser_law|]. apply sweep_spec_contract.
  - intros gid s r Hinv. eapply wp_mono; [by apply rr_sweepGrant_law|]. apply sweep_spec_contract.
Qed.

(** ** Users *)

Definition user_savable (u : User) (m : gmap string User) : Prop :=
  u_TenantID u <> "" /\ user_fresh u m.

Class UserContract (E : Env) (nt : Z -> Z) (same_email : string -> string -> Prop) (U : UserRepoI) := {
  uc_ptr :: PtrContract E User ur_store u_ID (user_norm nt) user_same user_savable;
  (** one address, one user, within a tenant *)
  uc_unique : forall r id1 id2 u1 u2, ps_inv r -> ps_view r !! id1 = Some u1 -> ps_view r !! id2 = Some u2 ->
    u_TenantID u1 = u_TenantID u2 -> same_email (u_Email u1) (u_Email u2) -> id1 = id2;
  uc_create : forall l u s r, ps_inv r -> ps_ptr r l = Some u -> u_TenantID u <> "" ->
    (forall id u', ps_view r !! id = Some u' ->
       id = u_ID u \/ (is_Some (u_PasswordResetTokenHash u) /\
                       u_PasswordResetTokenHash u' = u_PasswordResetTokenHash u) -> False) ->
    wp (ur_CreateUser l) (fun o '(s', r') => sys_le s s' /\ ps_inv r' /\ ps_ptr r' l = Some u /\
      written o (ps_view r) (ps_view r') (ps_view r' = <[u_ID u := user_norm nt u]> (ps_view r) /\
        forall id u', ps_view r !! id = Some u' -> u_TenantID u' = u_TenantID u ->
          ~ same_email (u_Email u') (u_Email u))) (s, r);
  uc_findByEmail : forall tid email s r, ps_inv r ->
    wp (ur_FindByEmail tid email)
       (find_spec (fun u => same_email (u_Email u) email /\ u_TenantID u = tid) s r) (s, r);
  uc_findByID : forall id s r, ps_inv r ->
    wp (ur_FindByID id) (find_spec (fun u => u_ID u = id) s r) (s, r);
  uc_findByReset : forall h s r, ps_inv r ->
    wp (ur_FindByPasswordResetTokenHash h)
       (find_spec (fun u => u_PasswordResetTokenHash u = Some h) s r) (s, r);
  (** a reset token is consumed by the write that clears it *)
  uc_updateByReset : forall C h (c0 : C) upd s r, ps_inv r ->
    (forall id u s0, ps_view r !! id = Some u -> u_PasswordResetTokenHash u = Some h ->
       sys_le s0 (upd u s0).2 /\
       forall c u', (upd u s0).1 = Ret (c, u', None) ->
         u_ID u' = u_ID u /\ u_TenantID u' = u_TenantID u /\ u_Email u' = u_Email u /\
         u_PasswordResetTokenHash u' = None) ->
    wp (ur_UpdateByPasswordResetTokenHash h c0 upd) (fun o '(s', r') => sys_le s s' /\ ps_inv r' /\
      ((o = Ret (c0, Some ErrNotFound) /\ ps_view r' = ps_view r /\
          forall id u, ps_view r !! id = Some u -> u_PasswordResetTokenHash u <> Some h) \/
       (exists e, o = Ret (c0, Some e) /\ errors_Is e ErrNotFound = false /\ is_ErrorStruct e = false /\
          ps_view r' = ps_view r) \/
       exists u s0, ps_view r !! u_ID u = Some u /\ u_PasswordResetTokenHash u = Some h /\
         sys_le s s0 /\ sys_le (upd u s0).2 s' /\
         match (upd u s0).1 with
         | Panic e => o = Panic e /\ ps_view r' = ps_view r
         | Ret (c, _, Some err) => o = Ret (c, Some err) /\ ps_view r' = ps_view r
         | Ret (c, u', None) =>
           let stored := ps_view r' = <[u_ID u := user_norm nt u']> (ps_view r) in
           match o with
           | Ret (c', None) => c' = c /\ stored
           | Ret (c', Some e) => c' = c /\ is_ErrorStruct e = false /\ (ps_view r' = ps_view r \/ stored)
           | Panic _ => ps_view r' = ps_view r \/ stored
           end
         end)) (s, r);
}.

Lemma user_laws_contract {E} {U : UserRepoI} : UserRepoLaws E U -> UserContract E (fun t => t) eq U.
Proof.
  intros HL. split.
  - eapply ptr_laws_contract; [apply ur_ptr_laws|apply user_norm_id|by intros u m []].
  - intros r id1 id2 u1 u2 Hinv H1 H2 _ He.
    rewrite <-(view_id r id2 u2 Hinv H2). apply (users_unique r id2 u2 Hinv H2 id1 u1 H1). by left.
  - intros l u s r Hinv Hl _ Hno. eapply wp_mono; [by apply createUser_law|].
    intros o [s' r'] (? & ? & ? & Ho). do 3 (split; [done|]). rewrite user_norm_id.
    unfold written. destruct o as [[]|]; auto.
  - apply findByEmail_law.
  - apply findByID_law.
  - apply findByReset_law.
  - intros C h c0 upd s r Hinv Hupd.
    assert (forall id u s0, ps_view r !! id = Some u -> u_PasswordResetTokenHash u = Some h ->
       sys_le s0 (upd u s0).2 /\
       forall c u', (upd u s0).1 = Ret (c, u', None) ->
         u_ID u' = u_ID u /\ u_Email u' = u_Email u /\ u_PasswordResetTokenHash u' = None) as Hupd'.
    { intros id u s0 Hu Hh. destruct (Hupd id u s0 Hu Hh) as [? Hc]. split; [done|].
      intros c u' Hr. destruct (Hc c u' Hr) as (? & _ & ? & ?). auto. }
    eapply wp_mono; [by apply updateByReset_law|]. intros o [s' r'] (? & ? & Ho). do 2 (split; [done|]).
    destruct Ho as [?|[?|(u & s0 & Hu & Hh & ? & ? & Ho)]]; [auto..|]. right. right. exists u, s0.
    do 4 (split; [done|]). destruct ((upd u s0).1) as [[[c u'] [err|]]|] eqn:Hr; [done| |done].
    destruct (Hupd' _ u s0 Hu Hh) as [_ Hc]. destruct (Hc c u' Hr) as [Hid _]. rewrite user_norm_id, <-Hid.
    destruct o as [[c' [e|]]|]; naive_solver.
Qed.
