(* ===== verification/Mongo.v ===== *)
(** * The MongoDB driver as the adapters use it

    go.mongodb.org/mongo-driver and the server behind it are not part of this
    program.  [MongoDriver] is the part of their interface the adapters call,
    on one collection; [MongoSpec] states what the documentation promises about
    it: which documents a filter selects, what [$set] and [$unset] do, which
    writes a unique index refuses, that a write of one document is atomic, that
    times are kept to the millisecond, and that the outcome of a write whose
    reply was lost is unknown.  [RefMongo] is a server in memory that keeps
    every promise.

    Filters, updates and documents are Go values here ([bsonD], [gstruct]), as
    they are in the source; [bson_value] says what is stored for them. *)

From S2P Require Import Prelude GoStd Crypto Errors Env.

Local Open Scope Z_scope.

(** ** Values *)

(** A Go value inside a [bson.D] or in a tagged struct field; a nil pointer and
    an untyped nil are [GNil]. *)
Inductive gval :=
| GString (s : string)
| GBool (b : bool)
| GInt (n : Z)
| GTime (t : Z)
| GNil.

Definition gptr {A} (f : A -> gval) (o : option A) : gval := from_option f GNil o.

(** A struct as its tags describe it: name, [omitempty], value. *)
Definition gstruct : Type := list (string * bool * gval).

Inductive gelem :=
| GVal (v : gval)
| GDoc (d : list (string * gval))
| GStruct (s : gstruct).

Definition bsonD : Type := list (string * gelem).

(** What the server stores. *)
Inductive bval :=
| BString (s : string)
| BBool (b : bool)
| BInt64 (n : Z)
| BDateTime (ms : Z)
| BNull.

#[export] Instance bval_eq_dec : EqDecision bval.
Proof. solve_decision. Defined.

Notation document := (gmap string bval).

Record IndexModel := mkIndexModel {
  ix_Keys : list string;
  ix_Unique : bool;
  ix_ExpireAfterSeconds : option Z;
}.

(** ** The interface *)

Class MongoDriver := {
  Coll : Type;
  ErrNoDocuments : goerr;
  IsDuplicateKeyError : goerr -> bool;
  col_CreateMany : list IndexModel -> ST Coll (option goerr);
  col_FindOne : bsonD -> ST Coll (document + goerr);
  col_InsertOne : gstruct -> ST Coll (option goerr);
  col_UpdateOne : bsonD -> bsonD -> bool -> ST Coll (Z * option goerr);  (** filter, update, upsert: MatchedCount *)
  col_UpdateMany : bsonD -> bsonD -> ST Coll (option goerr);
  (** [Decode] of one field into a Go variable; [None] is a missing field *)
  dec_string : option bval -> string + goerr;
  dec_bool : option bval -> bool + goerr;
  dec_int : option bval -> Z + goerr;
  dec_time : option bval -> Z + goerr;
  (** what the collection holds, by [_id], and its indexes *)
  coll_docs : Coll -> gmap string document;
  coll_indexes : Coll -> list IndexModel;
}.

(** A field of pointer type: nil when the field is missing or null. *)
Definition dec_ptr {A} (dec : option bval -> A + goerr) (v : option bval) : option A + goerr :=
  match v with
  | None | Some BNull => inl None
  | Some _ => match dec v with inl a => inl (Some a) | inr e => inr e end
  end.

(** ** What the documentation says about filters and updates *)

(** The BSON encoding of a Go value; a time keeps its milliseconds. *)
Definition bson_value (v : gval) : bval :=
  match v with
  | GString s => BString s
  | GBool b => BBool b
  | GInt n => BInt64 n
  | GTime t => BDateTime (t / Millisecond)
  | GNil => BNull
  end.

Definition marshal (s : gstruct) : list (string * bval) :=
  omap (fun '(k, omitempty, v) =>
    if (omitempty : bool) && match v with GNil => true | _ => false end then None
    else Some (k, bson_value v)) s.

(** A condition of a filter: null matches a missing field too; [$gt] compares
    dates. *)
Definition cond_matches (d : document) (k : string) (e : gelem) : bool :=
  match e with
  | GVal GNil => match d !! k with None | Some BNull => true | _ => false end
  | GVal v => bool_decide (d !! k = Some (bson_value v))
  | GDoc [(op, GTime t)] =>
    String.eqb op "$gt" &&
    match d !! k with Some (BDateTime ms) => t / Millisecond <? ms | _ => false end
  | _ => false
  end.

Definition matches (f : bsonD) (d : document) : bool :=
  forallb (fun '(k, e) => cond_matches d k e) f.

Definition set_fields (l : list (string * bval)) (d : document) : document := list_to_map l ∪ d.
Definition unset_fields (l : list string) (d : document) : document := foldr delete d l.

Definition update_op (d : document) (op : string * gelem) : document :=
  match op.2 with
  | GStruct s => if String.eqb op.1 "$set" then set_fields (marshal s) d else d
  | GDoc l =>
    if String.eqb op.1 "$set" then set_fields (prod_map id bson_value <$> l) d
    else if String.eqb op.1 "$unset" then unset_fields (fst <$> l) d
    else d
  | GVal _ => d
  end.

Definition apply_update (u : bsonD) (d : document) : document := foldl update_op d u.

(** The document an upsert starts from: the equalities of the filter. *)
Definition filter_fields (f : bsonD) : document :=
  list_to_map (omap (fun '(k, e) => match e with GVal v => Some (k, bson_value v) | _ => None end) f).

(** An index treats a missing field as null. *)
Definition index_key (ix : IndexModel) (d : document) : list bval :=
  (fun k => default BNull (d !! k)) <$> ix_Keys ix.

(** One document updated, or, with none selected, an upsert or nothing; [n] is
    the number of documents the filter matched. *)
Inductive update_effect (f u : bsonD) (upsert : bool) (m : gmap string document)
    : Z -> gmap string document -> Prop :=
| updated id d :
    m !! id = Some d -> matches f d = true ->
    update_effect f u upsert m 1 (<[id := apply_update u d]> m)
| upserted id :
    upsert = true -> map_Forall (fun _ d => matches f d = false) m ->
    apply_update u (filter_fields f) !! "_id" = Some (BString id) ->
    update_effect f u upsert m 0 (<[id := apply_update u (filter_fields f)]> m)
| unmatched :
    upsert = false -> map_Forall (fun _ d => matches f d = false) m ->
    update_effect f u upsert m 0 m.

Definition updated_by (f u : bsonD) (d : document) : document :=
  if matches f d then apply_update u d else d.

Section MongoSpec.
  Context {M : MongoDriver}.

(** Documents sit under their [_id], and no two agree on a unique index. *)
Record coll_ok (c : Coll) : Prop := {
  coll_id : forall id d, coll_docs c !! id = Some d -> d !! "_id" = Some (BString id);
  coll_unique : forall ix id1 id2 d1 d2, ix ∈ coll_indexes c -> ix_Unique ix = true ->
    coll_docs c !! id1 = Some d1 -> coll_docs c !! id2 = Some d2 ->
    index_key ix d1 = index_key ix d2 -> id1 = id2;
}.

(** [d] cannot be added: its [_id] or its key in a unique index is taken. *)
Definition duplicates (d : document) (c : Coll) : Prop :=
  exists id d', coll_docs c !! id = Some d' /\
    (d !! "_id" = Some (BString id) \/
     exists ix, ix ∈ coll_indexes c /\ ix_Unique ix = true /\ index_key ix d = index_key ix d').

(** An error of the driver is none of the program's own errors. *)
Definition driver_error (e : goerr) : Prop :=
  errors_Is e ErrNotFound = false /\ errors_Is e ErrConflict = false /\ is_ErrorStruct e = false.

(** A failed write: refused, or carried out although the reply was lost. *)
Definition failed (err : goerr) (c c' : Coll) (effect : gmap string document -> Prop) : Prop :=
  driver_error err /\
  (coll_docs c' = coll_docs c \/ (IsDuplicateKeyError err = false /\ effect (coll_docs c'))).

Class MongoSpec := {
  noDocuments_err : driver_error ErrNoDocuments;
  createMany_law : forall ixs c, coll_ok c ->
    exists e c', col_CreateMany ixs c = (Ret e, c') /\ coll_ok c' /\ coll_docs c' = coll_docs c /\
      match e with
      | None => forall ix, ix ∈ ixs \/ ix ∈ coll_indexes c -> ix ∈ coll_indexes c'
      | Some err => driver_error err
      end;
  findOne_law : forall f c, coll_ok c ->
    exists r c', col_FindOne f c = (Ret r, c') /\ coll_ok c' /\
      coll_docs c' = coll_docs c /\ coll_indexes c' = coll_indexes c /\
      match r with
      | inl d => exists id, coll_docs c !! id = Some d /\ matches f d = true
      | inr e => driver_error e /\
          (e = ErrNoDocuments -> map_Forall (fun _ d => matches f d = false) (coll_docs c))
      end;
  insertOne_law : forall s id c, coll_ok c -> (list_to_map (marshal s) : document) !! "_id" = Some (BString id) ->
    exists e c', col_InsertOne s c = (Ret e, c') /\ coll_ok c' /\ coll_indexes c' = coll_indexes c /\
      let d := list_to_map (marshal s) in
      let inserted m := coll_docs c !! id = None /\ m = <[id := d]> (coll_docs c) in
      match e with
      | None => inserted (coll_docs c')
      | Some err => failed err c c' inserted /\ (IsDuplicateKeyError err = true -> duplicates d c)
      end;
  updateOne_law : forall f u upsert c, coll_ok c ->
    (forall id d, coll_docs c !! id = Some d -> matches f d = true -> apply_update u d !! "_id" = d !! "_id") ->
    exists n e c', col_UpdateOne f u upsert c = (Ret (n, e), c') /\ coll_ok c' /\
      coll_indexes c' = coll_indexes c /\
      match e with
      | None => update_effect f u upsert (coll_docs c) n (coll_docs c')
      | Some err => failed err c c' (fun m => exists n, update_effect f u upsert (coll_docs c) n m)
      end;
  updateMany_law : forall f u c, coll_ok c ->
    (forall id d, coll_docs c !! id = Some d -> matches f d = true -> apply_update u d !! "_id" = d !! "_id") ->
    exists e c', col_UpdateMany f u c = (Ret e, c') /\ coll_ok c' /\ coll_indexes c' = coll_indexes c /\
      match e with
      | None => coll_docs c' = updated_by f u <$> coll_docs c
      | Some err => driver_error err /\
          forall id, coll_docs c' !! id = coll_docs c !! id \/
                     coll_docs c' !! id = updated_by f u <$> (coll_docs c !! id)
      end;
  dec_string_law : forall s, dec_string (Some (BString s)) = inl s;
  dec_bool_law : forall b, dec_bool (Some (BBool b)) = inl b;
  dec_int_law : forall n, dec_int (Some (BInt64 n)) = inl n;
  dec_time_law : forall ms, dec_time (Some (BDateTime ms)) = inl (ms * Millisecond);
}.

End MongoSpec.
Arguments MongoSpec M : clear implicits.

(** ** Lookups in updated documents *)

Lemma lookup_set_fields l d k :
  set_fields l d !! k = match (list_to_map l : document) !! k with Some v => Some v | None => d !! k end.
Proof. unfold set_fields. rewrite lookup_union. by destruct (_ !! k), (d !! k). Qed.

Lemma lookup_unset_fields l d k :
  unset_fields l d !! k = if decide (k ∈ l) then None else d !! k.
Proof.
  unfold unset_fields. induction l as [|k' l IH].
  { by rewrite decide_False by apply not_elem_of_nil. }
  change (foldr delete d (k' :: l)) with (delete k' (foldr delete d l)).
  destruct (decide (k = k')) as [->|Hne].
  - rewrite lookup_delete_eq, decide_True; [done|]. left.
  - rewrite lookup_delete_ne, IH by done. apply decide_ext. rewrite elem_of_cons. naive_solver.
Qed.

Lemma matches_cons k e f d : matches ((k, e) :: f) d = cond_matches d k e && matches f d.
Proof. done. Qed.

(** A filter on [_id] alone selects at most the document stored under it. *)
Lemma matches_id id f d : matches (("_id", GVal (GString id)) :: f) d = true ->
  d !! "_id" = Some (BString id) /\ matches f d = true.
Proof. rewrite matches_cons, andb_true_iff. simpl. rewrite bool_decide_eq_true. naive_solver. Qed.

(** ** A server in memory *)

Module Ref.

Record RefColl := mkRefColl { rc_docs : gmap string document; rc_indexes : list IndexModel }.

Definition dup_err : goerr := ErrVar "mongo.WriteException" "E11000 duplicate key error".

(** [d] stored under [id] agrees with no other document on a unique index. *)
Definition fits (ixs : list IndexModel) (m : gmap string document) (id : string) (d : document) : bool :=
  forallb (fun ix => negb (ix_Unique ix) ||
    forallb (fun '(id', d') => bool_decide (id' = id) || negb (bool_decide (index_key ix d' = index_key ix d)))
      (map_to_list m)) ixs.

Definition put (c : RefColl) (id : string) (d : document) : option goerr * RefColl :=
  if fits (rc_indexes c) (rc_docs c) id d then (None, mkRefColl (<[id := d]> (rc_docs c)) (rc_indexes c))
  else (Some dup_err, c).

Definition first (f : bsonD) (m : gmap string document) : option (string * document) :=
  head (List.filter (fun p => matches f p.2) (map_to_list m)).

Definition findOne (f : bsonD) : ST RefColl (document + goerr) := fun c =>
  (Ret (match first f (rc_docs c) with
        | Some (_, d) => inl d
        | None => inr (ErrVar "mongo.ErrNoDocuments" "mongo: no documents in result") end), c).

Definition id_of (d : document) : string :=
  match d !! "_id" with Some (BString id) => id | _ => "" end.

Definition insertOne (s : gstruct) : ST RefColl (option goerr) := fun c =>
  let d := list_to_map (marshal s) in
  match rc_docs c !! id_of d with
  | Some _ => (Ret (Some dup_err), c)
  | None => let '(e, c') := put c (id_of d) d in (Ret e, c')
  end.

Definition updateOne (f u : bsonD) (upsert : bool) : ST RefColl (Z * option goerr) := fun c =>
  match first f (rc_docs c) with
  | Some (id, d) => let '(e, c') := put c id (apply_update u d) in (Ret (1, e), c')
  | None =>
    if upsert then
      let d := apply_update u (filter_fields f) in
      match d !! "_id" with
      | Some (BString id) => let '(e, c') := put c id d in (Ret (0, e), c')
      | _ => (Ret (0, Some (ErrMsg "no _id")), c)
      end
    else (Ret (0, None), c)
  end.

Definition updateMany (f u : bsonD) : ST RefColl (option goerr) := fun c =>
  let m := updated_by f u <$> rc_docs c in
  if forallb (fun '(id, d) => fits (rc_indexes c) m id d) (map_to_list m)
  then (Ret None, mkRefColl m (rc_indexes c)) else (Ret (Some dup_err), c).

Definition createMany (ixs : list IndexModel) : ST RefColl (option goerr) := fun c =>
  if forallb (fun '(id, d) => fits ixs (rc_docs c) id d) (map_to_list (rc_docs c))
  then (Ret None, mkRefColl (rc_docs c) (rc_indexes c ++ ixs)) else (Ret (Some dup_err), c).

Definition dec_fail {A} : A + goerr := inr (ErrMsg "cannot decode value").

End Ref.

Definition RefMongo : MongoDriver := {|
  Coll := Ref.RefColl;
  ErrNoDocuments := ErrVar "mongo.ErrNoDocuments" "mongo: no documents in result";
  IsDuplicateKeyError e := bool_decide (e = Ref.dup_err);
  col_CreateMany := Ref.createMany;
  col_FindOne := Ref.findOne;
  col_InsertOne := Ref.insertOne;
  col_UpdateOne := Ref.updateOne;
  col_UpdateMany := Ref.updateMany;
  dec_string v := match v with Some (BString s) => inl s | Some BNull | None => inl "" | _ => Ref.dec_fail end;
  dec_bool v := match v with Some (BBool b) => inl b | Some BNull | None => inl false | _ => Ref.dec_fail end;
  dec_int v := match v with Some (BInt64 n) => inl n | Some BNull | None => inl 0 | _ => Ref.dec_fail end;
  dec_time v := match v with Some (BDateTime ms) => inl (ms * Millisecond) | _ => Ref.dec_fail end;
  coll_docs := Ref.rc_docs;
  coll_indexes := Ref.rc_indexes;
|}.

Section RefMongoSpec.
Import Ref.

Lemma first_Some f m id d : first f m = Some (id, d) -> m !! id = Some d /\ matches f d = true.
Proof.
  unfold first. intros H%head_Some_elem_of.
  apply list_elem_of_In, filter_In in H as [Hin ?].
  apply list_elem_of_In, elem_of_map_to_list in Hin. done.
Qed.

Lemma first_None f m : first f m = None -> map_Forall (fun _ d => matches f d = false) m.
Proof.
  unfold first. intros H%head_None id d Hd. destruct (matches f d) eqn:Hm; [|done].
  assert ((id, d) ∈ List.filter (fun p => matches f p.2) (map_to_list m)) as Hin.
  { apply list_elem_of_In, filter_In. split; [|done]. by apply list_elem_of_In, elem_of_map_to_list. }
  rewrite H in Hin. by apply not_elem_of_nil in Hin.
Qed.

Lemma fits_spec ixs m id d :
  fits ixs m id d = true <->
  forall ix id' d', ix ∈ ixs -> ix_Unique ix = true -> m !! id' = Some d' ->
    index_key ix d' = index_key ix d -> id' = id.
Proof.
  unfold fits. rewrite forallb_forall. split.
  - intros H ix id' d' Hix Hu Hd' Hk. apply list_elem_of_In in Hix. specialize (H ix Hix).
    rewrite Hu in H. simpl in H. rewrite forallb_forall in H.
    specialize (H (id', d')). simpl in H. rewrite <-list_elem_of_In, elem_of_map_to_list in H.
    specialize (H Hd'). rewrite orb_true_iff, bool_decide_eq_true in H.
    destruct H as [?|H]; [done|]. rewrite bool_decide_true in H; done.
  - intros H ix Hix%list_elem_of_In. destruct (ix_Unique ix) eqn:Hu; [|done]. simpl.
    apply forallb_forall. intros [id' d'] Hin%list_elem_of_In%elem_of_map_to_list.
    case_bool_decide as Hid; [done|]. case_bool_decide as Hk; [|done]. exfalso. eauto.
Qed.

Lemma fits_all ixs m :
  forallb (fun '(id, d) => fits ixs m id d) (map_to_list m) = true ->
  forall ix id1 id2 d1 d2, ix ∈ ixs -> ix_Unique ix = true ->
    m !! id1 = Some d1 -> m !! id2 = Some d2 -> index_key ix d1 = index_key ix d2 -> id1 = id2.
Proof.
  rewrite forallb_forall. intros H ix id1 id2 d1 d2 Hix Hu H1 H2 Hk.
  specialize (H (id2, d2)). rewrite <-list_elem_of_In, elem_of_map_to_list, fits_spec in H. eauto.
Qed.

Lemma put_ok (c : RefColl) id d e c' :
  coll_ok (M := RefMongo) c -> d !! "_id" = Some (BString id) -> put c id d = (e, c') ->
  coll_ok (M := RefMongo) c' /\ rc_indexes c' = rc_indexes c /\
  ((e = None /\ rc_docs c' = <[id := d]> (rc_docs c)) \/
   (e = Some dup_err /\ c' = c /\ exists id' d' ix, rc_docs c !! id' = Some d' /\ ix ∈ rc_indexes c /\
      ix_Unique ix = true /\ index_key ix d = index_key ix d')).
Proof.
  intros [Hid Hu] Hd. unfold put. destruct (fits _ _ _ _) eqn:Hf; intros [= <- <-].
  - rewrite fits_spec in Hf. split; [|by auto]. split; simpl in *.
    + intros id' d' [[-> ->]|[Hne Hl]]%lookup_insert_Some; eauto.
    + intros ix id1 id2 d1 d2 Hix Hux [[-> ->]|[Hn1 H1]]%lookup_insert_Some
        [[-> ->]|[Hn2 H2]]%lookup_insert_Some Hk; try done; eauto. symmetry. eauto.
  - split; [done|]. split; [done|]. right. split; [done|]. split; [done|].
    apply not_true_iff_false in Hf. rewrite fits_spec in Hf.
    destruct (decide (Exists (fun ix => ix_Unique ix = true /\
      Exists (fun p => p.1 <> id /\ index_key ix p.2 = index_key ix d) (map_to_list (rc_docs c)))
      (rc_indexes c))) as [Hx|Hx].
    + apply Exists_exists in Hx as (ix & Hix & Hux & Hx).
      apply Exists_exists in Hx as ([id' d'] & Hin & _ & Hk). apply elem_of_map_to_list in Hin.
      exists id', d', ix. eauto.
    + destruct Hf. intros ix id' d' Hix Hux Hl Hk. destruct (decide (id' = id)); [done|].
      destruct Hx. apply Exists_exists. exists ix. split; [done|]. split; [done|].
      apply Exists_exists. exists (id', d'). by rewrite elem_of_map_to_list.
Qed.

(** Every promise of [MongoSpec] can be kept. *)
#[export] Instance RefMongo_spec : MongoSpec RefMongo.
Proof.
  split; try done.
  - intros ixs c Hok. simpl. unfold createMany.
    destruct (forallb _ _) eqn:Hf; eexists _, _; (split; [reflexivity|]); [|done].
    split; [|split; [done|]; intros ix; simpl; rewrite elem_of_app; tauto].
    destruct Hok as [Hid Hu]. split; simpl in *; [done|].
    intros ix id1 id2 d1 d2 [Hix|Hix]%elem_of_app; [eauto|]. intros. eapply fits_all; eauto.
  - intros f c Hok. eexists _, _. split; [reflexivity|]. do 3 (split; [done|]).
    destruct (first f (rc_docs c)) as [[id d]|] eqn:Hf; simpl; [by exists id; apply first_Some|].
    split; [done|]. intros _. by apply first_None.
  - intros s id c Hok Hid. simpl. unfold insertOne, id_of. rewrite Hid.
    destruct (rc_docs c !! id) as [d'|] eqn:Hl.
    { eexists _, _. split; [reflexivity|]. do 2 (split; [done|]). simpl. split; [split; [done|by left]|].
      intros _. exists id, d'. eauto. }
    destruct (put _ _ _) as [e c'] eqn:Hp. destruct (put_ok _ _ _ _ _ Hok Hid Hp)
      as (Hok' & Hix & [[-> Hd]|(-> & -> & id' & d' & ix & ?)]);
      eexists _, _; (split; [reflexivity|]); (split; [done|]); (split; [done|]); simpl.
    + done.
    + split; [split; [done|by left]|]. intros _. exists id', d'. naive_solver.
  - intros f u up c Hok Hkeep. simpl. unfold updateOne.
    destruct (first f (rc_docs c)) as [[id d]|] eqn:Hf.
    + apply first_Some in Hf as [Hl Hm].
      destruct (put _ _ _) as [e c'] eqn:Hp. apply put_ok in Hp as (Hok' & Hix & Hp); [|done|].
      2:{ rewrite (Hkeep id d Hl Hm). by apply (coll_id c). }
      exists 1, e, c'. do 3 (split; [done|]).
      destruct Hp as [[-> Hd]|(-> & -> & _)]; simpl; [rewrite Hd; by apply updated|].
      split; [done|by left].
    + apply first_None in Hf. destruct up; [|exists 0, None, c; do 3 (split; [done|]); by apply unmatched].
      destruct (apply_update u (filter_fields f) !! "_id") as [[id| | | |]|] eqn:Hid;
        try (eexists _, _, _; split; [reflexivity|]; do 2 (split; [done|]); split; [done|by left]).
      destruct (put _ _ _) as [e c'] eqn:Hp. apply put_ok in Hp as (Hok' & Hix & Hp); [|done..].
      exists 0, e, c'. do 3 (split; [done|]).
      destruct Hp as [[-> Hd]|(-> & -> & _)]; simpl; [rewrite Hd; by eapply upserted|].
      split; [done|by left].
  - intros f u c Hok Hkeep. simpl. unfold updateMany.
    destruct (forallb _ _) eqn:Hf; eexists _, _; (split; [reflexivity|]).
    2:{ do 2 (split; [done|]). split; [done|]. intros id. by left. }
    split; [|done]. destruct Hok as [Hid Hu]. split; simpl in *.
    + intros id d. rewrite lookup_fmap. destruct (rc_docs c !! id) as [d0|] eqn:Hl; simpl; [|done].
      intros [= <-]. unfold updated_by. destruct (matches f d0) eqn:Hm; [rewrite (Hkeep id)|]; eauto.
    + intros ix id1 id2 d1 d2 ?. by apply (fits_all _ _ Hf).
Qed.

End RefMongoSpec.
