(* ===== verification/MongoAdapters.v ===== *)
(** * MongoDB adapters (modules/auth/adapter/out/mongo_*_repository.go)

    The three repositories of the MongoDB backend on one collection each.  They
    share documents and codecs with the file backend; what differs is the
    storage: every lookup decodes a fresh copy, every write is one command, and
    the conditions that must hold at the write are part of its filter. *)

From S2P Require Import Prelude GoStd Crypto Errors Env Cipher Scope User Token Client AuthFlow Cache FileRepo Ports Adapters Mongo.

Local Open Scope Z_scope.

(** ** A repository: its collection, and the entities it handed out *)

Record MongoRepo `{!MongoDriver} (T : Type) := mkMongoRepo {
  mr_heap : list T;
  mr_col : Coll;
}.
Arguments mkMongoRepo {_ T}.
Arguments mr_heap {_ _}.
Arguments mr_col {_ _}.

Section MongoRepo.
  Context {M : MongoDriver} {T : Type}.
  Notation MST := (ST (Sys * MongoRepo T)).

Definition in_col {A} (m : ST Coll A) : MST A := fun p =>
  match m (mr_col p.2) with (o, c) => (o, (p.1, mkMongoRepo (mr_heap p.2) c)) end.

Definition on_sys {A} (m : ST Sys A) : MST A := fun p =>
  match m p.1 with (o, s) => (o, (s, p.2)) end.

Definition mr_new (x : T) : MST nat := fun p =>
  (Ret (length (mr_heap p.2)), (p.1, mkMongoRepo (mr_heap p.2 ++ [x]) (mr_col p.2))).

Definition mr_assign (l : nat) (x : T) : MST unit := fun p =>
  (Ret tt, (p.1, mkMongoRepo (<[l := x]> (mr_heap p.2)) (mr_col p.2))).

Definition mr_deref (l : nat) : MST T := fun p =>
  match mr_heap p.2 !! l with
  | Some x => (Ret x, p)
  | None => (Panic "nil pointer dereference", p)
  end.

(** [FindOne(filter).Decode(&doc)] and the translation that follows it. *)
Definition mr_findOne {D} (decode : document -> D + goerr) (toEntity : D -> T + goerr) (filter : bsonD)
  : MST (T + goerr) :=
  r ← in_col (col_FindOne filter);
  mret match r with
       | inr err => if bool_decide (err = ErrNoDocuments) then inr ErrNotFound else inr err
       | inl raw =>
         match decode raw with
         | inr err => inr err
         | inl doc => toEntity doc
         end
       end.

(** The pointer a lookup returns is a fresh one. *)
Definition mr_return (r : T + goerr) : MST (option nat * option goerr) :=
  match r with
  | inr err => mret (None, Some err)
  | inl x => l ← mr_new x; mret (Some l, None)
  end.

End MongoRepo.

(** Decoding field by field: the first error is the result. *)
Definition sum_bind {A B} (m : A + goerr) (f : A -> B + goerr) : B + goerr :=
  match m with inl a => f a | inr e => inr e end.
Notation "'let!' x := m 'in' k" := (sum_bind m (fun x => k))
  (at level 200, x name, m at level 100, k at level 200) : go_scope.

(** ** Grants (grant_doc.go, mongo_grant_repository.go) *)

Section MongoGrants.
  Context {M : MongoDriver}.

Definition grantDoc_struct (d : grantDoc) : gstruct :=
  [("_id", false, GString (gd_ID d)); ("user_id", false, GString (gd_UserID d));
   ("client_id", false, GString (gd_ClientID d)); ("device_id", false, GString (gd_DeviceID d));
   ("authenticated_at", false, GTime (gd_AuthenticatedAt d)); ("created_at", false, GTime (gd_CreatedAt d));
   ("expires_at", false, GTime (gd_ExpiresAt d)); ("revoked_at", false, gptr GTime (gd_RevokedAt d))].

Definition grantDoc_decode (b : document) : grantDoc + goerr :=
  let! id := dec_string (b !! "_id") in
  let! userID := dec_string (b !! "user_id") in
  let! clientID := dec_string (b !! "client_id") in
  let! deviceID := dec_string (b !! "device_id") in
  let! authenticatedAt := dec_time (b !! "authenticated_at") in
  let! createdAt := dec_time (b !! "created_at") in
  let! expiresAt := dec_time (b !! "expires_at") in
  let! revokedAt := dec_ptr dec_time (b !! "revoked_at") in
  inl (mk_grantDoc id userID clientID deviceID authenticatedAt createdAt expiresAt revokedAt).

Definition grant_indexes : list IndexModel := [mkIndexModel ["expires_at"] false (Some 0)].

Definition NewMongoGrantRepository : ST Coll (option goerr) :=
  err ← col_CreateMany grant_indexes;
  mret match err with
       | Some e => Some (ErrWrapped "failed to create grant indexes: " e)
       | None => None
       end.

Definition MongoGrant_Save (l : nat) : ST (Sys * MongoRepo Grant) (option goerr) :=
  g ← mr_deref l;
  let doc := grantToDoc g in
  let filter := [("_id", GVal (GString (gd_ID doc)))] in
  let update := [("$set", GStruct (grantDoc_struct doc))] in
  ' (_, err) ← in_col (col_UpdateOne filter update true);
  mret err.

Definition MongoGrant_FindByID (grantID : string)
  : ST (Sys * MongoRepo Grant) (option nat * option goerr) :=
  r ← mr_findOne grantDoc_decode grantToEntity [("_id", GVal (GString grantID))];
  mr_return r.

Definition MongoGrant_Revoke (grantID : string) (at_ : Z) : ST (Sys * MongoRepo Grant) (option goerr) :=
  let filter := [("_id", GVal (GString grantID)); ("revoked_at", GVal GNil)] in
  let update := [("$set", GDoc [("revoked_at", GTime at_)])] in
  ' (matched, err) ← in_col (col_UpdateOne filter update false);
  match err with
  | Some e => mret (Some e)
  | None => if matched =? 0 then mret (Some ErrNotFound) else mret None
  end.

End MongoGrants.

(** ** Refresh tokens (mongo_refresh_token_repository.go) *)

Section MongoRefreshTokens.
  Context {E : Env} {M : MongoDriver}.
  Notation MST := (ST (Sys * MongoRepo RefreshToken)).

Definition rtDoc_struct (d : refreshTokenDoc) : gstruct :=
  [("_id", false, GString (rd_ID d)); ("user_id", false, GString (rd_UserID d));
   ("client_id", false, GString (rd_ClientID d)); ("grant_id", false, GString (rd_GrantID d));
   ("token_hash", false, GString (rd_TokenHash d)); ("scope", false, GString (rd_Scope d));
   ("device_id", false, GString (rd_DeviceID d)); ("authenticated_at", false, GTime (rd_AuthenticatedAt d));
   ("created_at", false, GTime (rd_CreatedAt d)); ("expires_at", false, GTime (rd_ExpiresAt d));
   ("revoked_at", false, gptr GTime (rd_RevokedAt d))].

Definition rtDoc_decode (b : document) : refreshTokenDoc + goerr :=
  let! id := dec_string (b !! "_id") in
  let! userID := dec_string (b !! "user_id") in
  let! clientID := dec_string (b !! "client_id") in
  let! grantID := dec_string (b !! "grant_id") in
  let! tokenHash := dec_string (b !! "token_hash") in
  let! scope := dec_string (b !! "scope") in
  let! deviceID := dec_string (b !! "device_id") in
  let! authenticatedAt := dec_time (b !! "authenticated_at") in
  let! createdAt := dec_time (b !! "created_at") in
  let! expiresAt := dec_time (b !! "expires_at") in
  let! revokedAt := dec_ptr dec_time (b !! "revoked_at") in
  inl (mk_refreshTokenDoc id userID clientID grantID tokenHash scope deviceID authenticatedAt createdAt
         expiresAt revokedAt).

Definition rt_indexes : list IndexModel :=
  [mkIndexModel ["token_hash"] true None;
   mkIndexModel ["user_id"; "revoked_at"] false None;
   mkIndexModel ["grant_id"; "revoked_at"] false None;
   mkIndexModel ["expires_at"] false (Some 0)].

Definition NewMongoRefreshTokenRepository : ST Coll (option goerr) :=
  err ← col_CreateMany rt_indexes;
  mret match err with
       | Some e => Some (ErrWrapped "failed to create refresh token indexes: " e)
       | None => None
       end.

Definition MongoRT_Save (rt : RefreshToken) : MST (option goerr) :=
  let doc := rtToDoc rt in
  let filter := [("_id", GVal (GString (rd_ID doc)))] in
  let update := [("$set", GStruct (rtDoc_struct doc))] in
  ' (_, err) ← in_col (col_UpdateOne filter update true);
  mret err.

Definition MongoRT_FindByTokenHash (tokenHash : string) : MST (option RefreshToken * option goerr) :=
  r ← mr_findOne rtDoc_decode rtToEntity [("token_hash", GVal (GString tokenHash))];
  mret match r with inl x => (Some x, None) | inr err => (None, Some err) end.

Definition MongoRT_RevokeByTokenHash (tokenHash : string) : MST (option goerr) :=
  t ← on_sys time_Now;
  let filter := [("token_hash", GVal (GString tokenHash)); ("revoked_at", GVal GNil);
                 ("expires_at", GDoc [("$gt", GTime t)])] in
  let update := [("$set", GDoc [("revoked_at", GTime t)])] in
  ' (matched, err) ← in_col (col_UpdateOne filter update false);
  match err with
  | Some e => mret (Some e)
  | None => if matched =? 0 then mret (Some ErrNotFound) else mret None
  end.

Definition MongoRT_RevokeAllForUser (userID : string) : MST (option goerr) :=
  let filter := [("user_id", GVal (GString userID)); ("revoked_at", GVal GNil)] in
  t ← on_sys time_Now;
  in_col (col_UpdateMany filter [("$set", GDoc [("revoked_at", GTime t)])]).

Definition MongoRT_RevokeAllForGrant (grantID : string) : MST (option goerr) :=
  let filter := [("grant_id", GVal (GString grantID)); ("revoked_at", GVal GNil)] in
  t ← on_sys time_Now;
  in_col (col_UpdateMany filter [("$set", GDoc [("revoked_at", GTime t)])]).

End MongoRefreshTokens.

(** ** Users (user_doc.go, mongo_user_repository.go) *)

Section MongoUsers.
  Context {E : Env} {A : Aead} {EC : EmailCipher} {M : MongoDriver}.
  Notation MST := (ST (Sys * MongoRepo User)).

Definition userDoc_struct (d : userDoc) : gstruct :=
  [("_id", false, GString (ud_ID d)); ("tenant_id", false, GString (ud_TenantID d));
   ("username", false, GString (ud_Username d)); ("nickname", false, GString (ud_Nickname d));
   ("password", false, GString (ud_Password d));
   ("email_ciphertext", false, GString (ud_EmailCiphertext d));
   ("email_blind_index", false, GString (ud_EmailBlindIndex d));
   ("email_verified", false, GBool (ud_EmailVerified d));
   ("password_reset_token_hash", true, gptr GString (ud_PasswordResetTokenHash d));
   ("password_reset_expires_at", true, gptr GTime (ud_PasswordResetExpiresAt d));
   ("sessions_invalidated_at", true, gptr GTime (ud_SessionsInvalidatedAt d));
   ("failed_login_attempts", false, GInt (ud_FailedLoginAttempts d));
   ("locked_until", true, gptr GTime (ud_LockedUntil d));
   ("created_at", false, GTime (ud_CreatedAt d)); ("updated_at", false, GTime (ud_UpdatedAt d))].

Definition userDoc_decode (b : document) : userDoc + goerr :=
  let! id := dec_string (b !! "_id") in
  let! tenantID := dec_string (b !! "tenant_id") in
  let! username := dec_string (b !! "username") in
  let! nickname := dec_string (b !! "nickname") in
  let! password := dec_string (b !! "password") in
  let! ciphertext := dec_string (b !! "email_ciphertext") in
  let! blindIndex := dec_string (b !! "email_blind_index") in
  let! emailVerified := dec_bool (b !! "email_verified") in
  let! resetHash := dec_ptr dec_string (b !! "password_reset_token_hash") in
  let! resetExpiresAt := dec_ptr dec_time (b !! "password_reset_expires_at") in
  let! sessionsInvalidatedAt := dec_ptr dec_time (b !! "sessions_invalidated_at") in
  let! failedLoginAttempts := dec_int (b !! "failed_login_attempts") in
  let! lockedUntil := dec_ptr dec_time (b !! "locked_until") in
  let! createdAt := dec_time (b !! "created_at") in
  let! updatedAt := dec_time (b !! "updated_at") in
  inl (mk_userDoc id tenantID username nickname password ciphertext blindIndex emailVerified resetHash
         resetExpiresAt sessionsInvalidatedAt failedLoginAttempts lockedUntil createdAt updatedAt).

Definition user_indexes : list IndexModel := [mkIndexModel ["tenant_id"; "email_blind_index"] true None].

Definition NewMongoUserRepository : ST Coll (option goerr) :=
  err ← col_CreateMany user_indexes;
  mret match err with
       | Some e => Some (ErrWrapped "failed to create user indexes: " e)
       | None => None
       end.

Definition MongoUser_CreateUser (l : nat) : MST (option goerr) :=
  user ← mr_deref l;
  doc ← on_sys (userCodec_toDoc user);
  err ← in_col (col_InsertOne (userDoc_struct doc));
  mret match err with
       | Some e => if IsDuplicateKeyError e then Some ErrConflict else Some e
       | None => None
       end.

Definition MongoUser_findOne (filter : bsonD) : MST (User + goerr) :=
  mr_findOne userDoc_decode userCodec_toEntity filter.

Definition MongoUser_FindByEmail (tenantID email : string) : MST (option nat * option goerr) :=
  let bi := Cipher_BlindIndex email_cipher email in
  r ← MongoUser_findOne [("tenant_id", GVal (GString tenantID)); ("email_blind_index", GVal (GString bi))];
  mr_return r.

Definition MongoUser_FindByID (id : string) : MST (option nat * option goerr) :=
  r ← MongoUser_findOne [("_id", GVal (GString id))];
  mr_return r.

Definition MongoUser_FindByPasswordResetTokenHash (tokenHash : string) : MST (option nat * option goerr) :=
  r ← MongoUser_findOne [("password_reset_token_hash", GVal (GString tokenHash))];
  mr_return r.

Definition buildUserUpdate (doc : userDoc) : bsonD :=
  let update := [("$set", GStruct (userDoc_struct doc))] in
  let unset :=
    (if ud_PasswordResetTokenHash doc then [] else [("password_reset_token_hash", GString "")]) ++
    (if ud_PasswordResetExpiresAt doc then [] else [("password_reset_expires_at", GString "")]) ++
    (if ud_SessionsInvalidatedAt doc then [] else [("sessions_invalidated_at", GString "")]) ++
    (if ud_LockedUntil doc then [] else [("locked_until", GString "")]) in
  if Nat.ltb 0 (length unset) then update ++ [("$unset", GDoc unset)] else update.

Definition MongoUser_Save (l : nat) : MST (option goerr) :=
  user ← mr_deref l;
  doc ← on_sys (userCodec_toDoc user);
  ' (_, err) ← in_col (col_UpdateOne [("_id", GVal (GString (ud_ID doc)))] (buildUserUpdate doc) true);
  mret err.

(** The last half of [UpdateByPasswordResetTokenHash]: the write, which only
    takes effect while the token is still there. *)
Definition MongoUser_consume (tokenHash : string) (user : User) : MST (option goerr) :=
  let filter := [("_id", GVal (GString (u_ID user)));
                 ("password_reset_token_hash", GVal (GString tokenHash))] in
  doc ← on_sys (userCodec_toDoc user);
  ' (matched, err) ← in_col (col_UpdateOne filter (buildUserUpdate doc) false);
  match err with
  | Some e => mret (Some e)
  | None => if matched =? 0 then mret (Some ErrNotFound) else mret None
  end.

Definition MongoUser_UpdateByPasswordResetTokenHash {C} (tokenHash : string) (c0 : C)
    (update : User -> ST Sys (C * User * option goerr)) : MST (C * option goerr) :=
  r ← MongoUser_findOne [("password_reset_token_hash", GVal (GString tokenHash))];
  match r with
  | inr err => mret (c0, Some err)
  | inl user =>
    ' (c, user', err) ← on_sys (update user);
    match err with
    | Some e => mret (c, Some e)
    | None => e ← MongoUser_consume tokenHash user'; mret (c, e)
    end
  end.

End MongoUsers.
