(* ===== verification/MongoRows.v ===== *)
(** * Rows of a MongoDB collection

    What a repository keeps in its collection is a map of documents of one
    struct type.  [rows c m] relates the two; the lemmas below say what each
    command of the adapters does to the rows: a lookup, the upsert of a whole
    document and the update of one field. *)

From S2P Require Import Prelude GoStd Crypto Errors Env Cipher Scope User Token Client AuthFlow Cache FileRepo Ports Adapters Contract Mongo MongoAdapters.

Local Open Scope Z_scope.

(** ** Replacing a document *)

Definition struct_keys (s : gstruct) : list string := (fun f => f.1.1) <$> s.

(** The fields [omitempty] drops. *)
Definition nil_keys (s : gstruct) : list string :=
  omap (fun '(k, o, v) => if (o : bool) && match v with GNil => true | _ => false end
                          then Some k else None) s.

Definition enc_struct (s : gstruct) : document := list_to_map (marshal s).

Lemma struct_key_cases s k :
  k ∈ struct_keys s <-> k ∈ (marshal s).*1 \/ k ∈ nil_keys s.
Proof.
  induction s as [|[[k' o] v] s IH]; [set_solver|].
  unfold struct_keys, nil_keys, marshal in *. simpl. rewrite elem_of_cons, IH.
  destruct (o && _); simpl; rewrite elem_of_cons; tauto.
Qed.

Lemma nil_key_dropped s k : NoDup (struct_keys s) -> k ∈ nil_keys s -> k ∉ (marshal s).*1.
Proof.
  induction s as [|[[k' o] v] s IH]; [set_solver|].
  pose proof (struct_key_cases s k) as Hc.
  unfold struct_keys, nil_keys, marshal in *. simpl. rewrite NoDup_cons. intros [Hn Hd].
  destruct (o && _); simpl; rewrite ?elem_of_cons; [intros [->|]; tauto|].
  intros Hk. intros [->|?]; [|by apply IH]. apply Hn, Hc. by right.
Qed.

Lemma enc_struct_None s k : k ∉ (marshal s).*1 -> enc_struct s !! k = None.
Proof. apply not_elem_of_list_to_map_1. Qed.

Lemma enc_struct_keys s k v : enc_struct s !! k = Some v -> k ∈ struct_keys s.
Proof.
  intros H%elem_of_list_to_map_2. apply struct_key_cases. left.
  apply list_elem_of_fmap. by exists (k, v).
Qed.

(** Setting every field and removing the nil ones leaves nothing of a document
    of the same type behind. *)
Lemma replace_document s d :
  NoDup (struct_keys s) -> (forall k v, d !! k = Some v -> k ∈ struct_keys s) ->
  unset_fields (nil_keys s) (set_fields (marshal s) d) = enc_struct s.
Proof.
  intros Hnd Hd. apply map_eq. intros k. rewrite lookup_unset_fields, lookup_set_fields.
  fold (enc_struct s). case_decide as Hk.
  - by rewrite enc_struct_None by (by apply nil_key_dropped).
  - destruct (enc_struct s !! k) eqn:He; [done|]. destruct (d !! k) as [v|] eqn:Hl; [|done].
    apply Hd, struct_key_cases in Hl as [Hm|]; [|done].
    by apply not_elem_of_list_to_map_2 in He.
Qed.

(** A document with one field set. *)
Lemma set_one_field k v d : set_fields [(k, v)] d = <[k := v]> d.
Proof. unfold set_fields. simpl. by rewrite <-insert_union_l, (left_id_L ∅ (∪)). Qed.

(** ** Codecs *)

Class MongoCodec `{!MongoDriver} (T D : Type) := {
  mc_struct : D -> gstruct;
  mc_decode : document -> D + goerr;
  mc_toEntity : D -> T + goerr;
  mc_update : D -> bsonD;          (** the update that writes a whole document *)
  mc_ID : D -> string;
  mc_norm : D -> D;                (** what comes back of a document: milliseconds *)
  mc_row : D -> Prop;              (** what holds of every stored document *)
}.

Section Codec.
  Context {M : MongoDriver} {T D : Type} {MC : MongoCodec T D}.

Definition enc (d : D) : document := enc_struct (mc_struct d).

Class MongoCodecOk := {
  decode_enc : forall d, mc_decode (enc d) = inl (mc_norm d);
  enc_norm : forall d, enc (mc_norm d) = enc d;
  norm_idem : forall d, mc_norm (mc_norm d) = mc_norm d;
  norm_ID : forall d, mc_ID (mc_norm d) = mc_ID d;
  enc_id : forall d, enc d !! "_id" = Some (BString (mc_ID d));
  keys_fixed : forall d d', struct_keys (mc_struct d) = struct_keys (mc_struct d');
  keys_NoDup : forall d, NoDup (struct_keys (mc_struct d));
  update_fields : forall d b, apply_update (mc_update d) b =
    unset_fields (nil_keys (mc_struct d)) (set_fields (marshal (mc_struct d)) b);
  row_entity : forall d, mc_row d -> exists x, mc_toEntity d = inl x;
}.

(** The rows a collection holds. *)
Definition rows (c : Coll) (m : gmap string D) : Prop :=
  coll_docs c = enc <$> m /\
  forall id d, m !! id = Some d -> mc_ID d = id /\ mc_norm d = d /\ mc_row d.

Definition decode_entity (b : document) : option T :=
  match mc_decode b with
  | inl d => match mc_toEntity d with inl x => Some x | inr _ => None end
  | inr _ => None
  end.

(** The entities lookups return. *)
Definition coll_view (c : Coll) : gmap string T := omap decode_entity (coll_docs c).

(** Nothing a lookup can see changed. *)
Definition col_same (c c' : Coll) : Prop :=
  coll_ok c' /\ coll_docs c' = coll_docs c /\ coll_indexes c' = coll_indexes c.

Lemma same_view c c' : coll_docs c' = coll_docs c -> coll_view c' = coll_view c.
Proof. unfold coll_view. by intros ->. Qed.

Lemma same_rows c c' m : coll_docs c' = coll_docs c -> rows c m -> rows c' m.
Proof. unfold rows. by intros ->. Qed.

Context {MS : MongoSpec M} {MO : MongoCodecOk}.

Lemma view_lookup c m id x : rows c m ->
  coll_view c !! id = Some x <-> exists d, m !! id = Some d /\ mc_toEntity d = inl x.
Proof.
  intros [Hd Hr]. unfold coll_view. rewrite lookup_omap, Hd, lookup_fmap.
  destruct (m !! id) as [d|] eqn:Hl; simpl; [|naive_solver].
  unfold decode_entity. rewrite decode_enc. destruct (Hr id d Hl) as (_ & -> & _).
  destruct (mc_toEntity d) as [y|] eqn:Hy; split; [intros [= <-]; eauto|intros (d' & [= <-] & ?); congruence|done|intros (d' & [= <-] & ?); congruence].
Qed.

(** Writing one row changes the view at its id. *)
Lemma view_insert c c' m id d x : rows c m -> rows c' (<[id := d]> m) -> mc_toEntity d = inl x ->
  coll_view c' = <[id := x]> (coll_view c).
Proof.
  intros Hr Hr' Hx. apply map_eq. intros id'. apply option_eq. intros y.
  rewrite (view_lookup c' _ id' y Hr'). destruct (decide (id' = id)) as [->|Hne].
  - rewrite !lookup_insert_eq. split; [intros (d' & [= <-] & Hy); congruence|]. intros [= <-]. eauto.
  - rewrite !lookup_insert_ne by done. by rewrite (view_lookup c m id' y Hr).
Qed.

Lemma rows_insert c c' m id d : rows c m -> mc_ID d = id -> mc_row (mc_norm d) ->
  coll_docs c' = <[id := enc d]> (coll_docs c) -> rows c' (<[id := mc_norm d]> m).
Proof.
  intros [Hd Hr] Hid Hrow Hd'. split.
  - by rewrite Hd', Hd, fmap_insert, enc_norm.
  - intros id' d' [[<- <-]|[Hne Hl]]%lookup_insert_Some; [|eauto].
    by rewrite norm_ID, norm_idem.
Qed.

(** Writing a whole document replaces what was there. *)
Lemma update_replaces d b : (forall k v, b !! k = Some v -> k ∈ struct_keys (mc_struct d)) ->
  apply_update (mc_update d) b = enc d.
Proof. intros Hb. rewrite update_fields. by apply replace_document; [apply keys_NoDup|]. Qed.

Lemma update_enc d d' : apply_update (mc_update d) (enc d') = enc d.
Proof. apply update_replaces. intros k v H%enc_struct_keys. by rewrite (keys_fixed d d'). Qed.

Lemma id_is_key d : "_id" ∈ struct_keys (mc_struct d).
Proof. exact (enc_struct_keys _ _ _ (enc_id d)). Qed.

Lemma update_upsert d : apply_update (mc_update d) (filter_fields [("_id", GVal (GString (mc_ID d)))]) = enc d.
Proof.
  apply update_replaces. intros k v. unfold filter_fields. simpl.
  intros [[<- _]|[_ ?]]%lookup_insert_Some; [apply id_is_key|done].
Qed.

Lemma matches_row_id id d : matches [("_id", GVal (GString id))] (enc d) = true <-> mc_ID d = id.
Proof.
  rewrite matches_cons. simpl. rewrite enc_id, andb_true_r, bool_decide_eq_true. naive_solver.
Qed.

(** ** Lookups *)

Lemma mr_findOne_run f s (r : MongoRepo T) m : coll_ok (mr_col r) -> rows (mr_col r) m ->
  exists x c', mr_findOne mc_decode mc_toEntity f (s, r) = (Ret x, (s, mkMongoRepo (mr_heap r) c')) /\
    col_same (mr_col r) c' /\
    ((exists id d e, x = inl e /\ m !! id = Some d /\ matches f (enc d) = true /\ mc_toEntity d = inl e) \/
     (x = inr ErrNotFound /\ forall id d, m !! id = Some d -> matches f (enc d) = false) \/
     (exists e, x = inr e /\ driver_error e)).
Proof.
  intros Hok [Hd Hr]. destruct (findOne_law f (mr_col r) Hok) as (x & c' & Hrun & Hok' & Hd' & Hi' & Hx).
  unfold mr_findOne, bind, in_col. simpl. rewrite Hrun. eexists _, c'. split; [reflexivity|].
  split; [done|]. destruct x as [b|err].
  - destruct Hx as (id & Hb & Hm). rewrite Hd, lookup_fmap in Hb.
    destruct (m !! id) as [d|] eqn:Hl; simpl in Hb; [|done]. injection Hb as <-.
    destruct (Hr id d Hl) as (_ & Hn & Hrow). rewrite decode_enc, Hn.
    destruct (row_entity d Hrow) as [e He]. left. by exists id, d, e.
  - destruct Hx as [He Hnone]. case_bool_decide as Hnd; [|by right; right; eauto].
    right. left. split; [done|]. intros id d Hl. apply (Hnone Hnd id). by rewrite Hd, lookup_fmap, Hl.
Qed.

(** ** Writes *)

Lemma upsert_run d s (r : MongoRepo T) m : coll_ok (mr_col r) -> rows (mr_col r) m -> mc_row (mc_norm d) ->
  exists n e c', in_col (col_UpdateOne [("_id", GVal (GString (mc_ID d)))] (mc_update d) true) (s, r) =
      (Ret (n, e), (s, mkMongoRepo (mr_heap r) c')) /\
    coll_ok c' /\ coll_indexes c' = coll_indexes (mr_col r) /\
    match e with
    | None => rows c' (<[mc_ID d := mc_norm d]> m)
    | Some err => driver_error err /\
        (coll_docs c' = coll_docs (mr_col r) \/ rows c' (<[mc_ID d := mc_norm d]> m))
    end.
Proof.
  intros Hok Hr Hrow. pose proof Hr as [Hd Hm].
  destruct (updateOne_law [("_id", GVal (GString (mc_ID d)))] (mc_update d) true (mr_col r) Hok)
    as (n & e & c' & Hrun & Hok' & Hi' & He).
  { intros id b Hb [Hid _]%matches_id. rewrite Hd, lookup_fmap in Hb.
    destruct (m !! id) as [d'|]; [|done]. injection Hb as <-. by rewrite update_enc, enc_id, Hid. }
  assert (forall n m', update_effect [("_id", GVal (GString (mc_ID d)))] (mc_update d) true
            (coll_docs (mr_col r)) n m' -> m' = <[mc_ID d := enc d]> (coll_docs (mr_col r))) as Heff.
  { intros n' m' [id b Hb [Hid _]%matches_id|id _ _ Hid|]; [|rewrite update_upsert, enc_id in *; congruence|done].
    rewrite (coll_id _ Hok id b Hb) in Hid. injection Hid as ->.
    rewrite Hd, lookup_fmap in Hb. destruct (m !! mc_ID d); [|done]. injection Hb as <-.
    by rewrite update_enc. }
  exists n, e, c'. unfold in_col. simpl. rewrite Hrun. do 3 (split; [done|]).
  destruct e as [err|]; [|by eapply rows_insert; eauto].
  destruct He as [Herr [?|[_ [n' ?]]]]; (split; [done|]); [by left|right].
  by eapply rows_insert; eauto.
Qed.

(** An update of the rows a filter selects acts on each as [upd] does. *)
Definition acts (f u : bsonD) (upd : D -> D) (m : gmap string D) : Prop :=
  forall id d, m !! id = Some d -> matches f (enc d) = true ->
    apply_update u (enc d) = enc (upd d) /\ mc_ID (upd d) = mc_ID d /\
    mc_norm (upd d) = upd d /\ mc_row (upd d).

Lemma acts_id f u upd c m : rows c m -> acts f u upd m ->
  forall id b, coll_docs c !! id = Some b -> matches f b = true -> apply_update u b !! "_id" = b !! "_id".
Proof.
  intros [Hd _] Ha id b Hb Hm. rewrite Hd, lookup_fmap in Hb.
  destruct (m !! id) as [d|] eqn:Hl; [|done]. injection Hb as <-.
  destruct (Ha id d Hl Hm) as (-> & Hid & _). by rewrite !enc_id, Hid.
Qed.

(** One selected row, changed by [upd]. *)
Definition one_row (f : bsonD) (upd : D -> D) (m : gmap string D) (c' : Coll) : Prop :=
  exists id d, m !! id = Some d /\ matches f (enc d) = true /\ rows c' (<[id := upd d]> m).

Lemma updateOne_run f u upd s (r : MongoRepo T) m :
  coll_ok (mr_col r) -> rows (mr_col r) m -> acts f u upd m ->
  exists n e c', in_col (col_UpdateOne f u false) (s, r) = (Ret (n, e), (s, mkMongoRepo (mr_heap r) c')) /\
    coll_ok c' /\ coll_indexes c' = coll_indexes (mr_col r) /\
    match e with
    | None => (n = 1 /\ one_row f upd m c') \/
        (n = 0 /\ coll_docs c' = coll_docs (mr_col r) /\ forall id d, m !! id = Some d -> matches f (enc d) = false)
    | Some err => driver_error err /\ (coll_docs c' = coll_docs (mr_col r) \/ one_row f upd m c')
    end.
Proof.
  intros Hok Hr Ha. pose proof Hr as [Hd Hm].
  destruct (updateOne_law f u false (mr_col r) Hok (acts_id f u upd _ m Hr Ha))
    as (n & e & c' & Hrun & Hok' & Hi' & He).
  assert (forall n m', update_effect f u false (coll_docs (mr_col r)) n m' -> coll_docs c' = m' ->
    (n = 1 /\ one_row f upd m c') \/
    (n = 0 /\ m' = coll_docs (mr_col r) /\ forall id d, m !! id = Some d -> matches f (enc d) = false)) as Heff.
  { intros n' m' [id b Hb Hmb|id ? _ _|_ Hnone] Hc'; [left|done|right].
    - split; [done|]. rewrite Hd, lookup_fmap in Hb. destruct (m !! id) as [d|] eqn:Hl; [|done].
      injection Hb as <-. destruct (Ha id d Hl Hmb) as (Hu & Hid & Hn & Hrow). exists id, d.
      do 2 (split; [done|]). rewrite <-Hn. eapply rows_insert; [done| |by rewrite Hn|by rewrite Hc', Hu].
      rewrite Hid. by apply Hm.
    - do 2 (split; [done|]). intros id d Hl. apply (Hnone id). by rewrite Hd, lookup_fmap, Hl. }
  exists n, e, c'. unfold in_col. simpl. rewrite Hrun. do 3 (split; [done|]).
  destruct e as [err|].
  - destruct He as [Herr [?|[_ [n' Hx]]]]; (split; [done|]); [by left|].
    destruct (Heff _ _ Hx eq_refl) as [[_ ?]|(_ & ? & _)]; auto.
  - destruct (Heff _ _ He eq_refl) as [?|(? & ? & ?)]; auto.
Qed.

(** The rows after an update of all that a filter selects. *)
Definition upd_if (f : bsonD) (upd : D -> D) (d : D) : D := if matches f (enc d) then upd d else d.

Lemma updated_by_enc f u upd m id d : acts f u upd m -> m !! id = Some d ->
  updated_by f u (enc d) = enc (upd_if f upd d).
Proof.
  intros Ha Hl. unfold updated_by, upd_if. destruct (matches f (enc d)) eqn:Hm; [|done].
  by apply (Ha id).
Qed.

Lemma upd_if_row f u upd m id d : acts f u upd m -> m !! id = Some d ->
  (mc_ID d = id /\ mc_norm d = d /\ mc_row d) ->
  mc_ID (upd_if f upd d) = id /\ mc_norm (upd_if f upd d) = upd_if f upd d /\ mc_row (upd_if f upd d).
Proof.
  intros Ha Hl Hd. unfold upd_if. destruct (matches f (enc d)) eqn:Hm; [|done].
  destruct (Ha id d Hl Hm) as (_ & -> & ? & ?). naive_solver.
Qed.

Lemma updateMany_run f u upd s (r : MongoRepo T) m :
  coll_ok (mr_col r) -> rows (mr_col r) m -> acts f u upd m ->
  exists e c' m', in_col (col_UpdateMany f u) (s, r) = (Ret e, (s, mkMongoRepo (mr_heap r) c')) /\
    coll_ok c' /\ coll_indexes c' = coll_indexes (mr_col r) /\ rows c' m' /\
    (forall id, m !! id = None -> m' !! id = None) /\
    forall id d, m !! id = Some d -> exists d', m' !! id = Some d' /\
      (d' = upd_if f upd d \/ (d' = d /\ e <> None)).
Proof.
  intros Hok Hr Ha. pose proof Hr as [Hd Hm].
  destruct (updateMany_law f u (mr_col r) Hok (acts_id f u upd _ m Hr Ha)) as (e & c' & Hrun & Hok' & Hi' & He).
  set (keep := fun id => match e with None => false | Some _ => bool_decide (coll_docs c' !! id = coll_docs (mr_col r) !! id) end).
  set (m' := map_imap (fun id d => Some (if keep id then d else upd_if f upd d)) m).
  exists e, c', m'. unfold in_col. simpl. rewrite Hrun. do 3 (split; [done|]).
  assert (forall id, m' !! id = (fun d => if keep id then d else upd_if f upd d) <$> (m !! id)) as Hm'.
  { intros id. unfold m'. rewrite map_lookup_imap. by destruct (m !! id). }
  split; [split|split].
  - apply map_eq. intros id. rewrite lookup_fmap, Hm'. unfold keep.
    assert (updated_by f u <$> (coll_docs (mr_col r) !! id) = enc <$> (upd_if f upd <$> (m !! id))) as Hup.
    { rewrite Hd, lookup_fmap. destruct (m !! id) as [d|] eqn:Hl; simpl; [|done].
      by rewrite (updated_by_enc f u upd m id). }
    destruct e as [err|].
    + case_bool_decide as Hk; [rewrite Hk, Hd, lookup_fmap; by destruct (m !! id)|].
      destruct He as [_ He]. destruct (He id) as [?|He']; [done|]. rewrite He', Hup. by destruct (m !! id).
    + rewrite He, lookup_fmap, Hup. by destruct (m !! id).
  - intros id d. rewrite Hm'. destruct (m !! id) as [d0|] eqn:Hl; simpl; [|done]. intros [= <-].
    destruct (keep id); [by apply Hm|]. eapply upd_if_row; eauto.
  - intros id Hn. by rewrite Hm', Hn.
  - intros id d Hl. rewrite Hm', Hl. simpl. eexists. split; [reflexivity|].
    unfold keep. destruct e; [|by left]. case_bool_decide; [by right|by left].
Qed.

(** ** A repository on a collection *)

(** The collection is in order, carries the indexes the constructor created and
    holds documents of the repository's type. *)
Definition mongo_inv (ixs : list IndexModel) (r : MongoRepo T) : Prop :=
  coll_ok (mr_col r) /\ (forall ix, ix ∈ ixs -> ix ∈ coll_indexes (mr_col r)) /\ exists m, rows (mr_col r) m.

Definition mongoPtrStore (ixs : list IndexModel) (save : nat -> ST (Sys * MongoRepo T) (option goerr))
  : PtrStore T := {|
  PS := MongoRepo T;
  ps_ptr r l := mr_heap r !! l;
  ps_view r := coll_view (mr_col r);
  ps_inv := mongo_inv ixs;
  ps_new := mr_new;
  ps_assign := mr_assign;
  ps_Save := save;
|}.

Lemma inv_same ixs (r : MongoRepo T) h c' : mongo_inv ixs r -> col_same (mr_col r) c' ->
  mongo_inv ixs (mkMongoRepo h c').
Proof.
  intros (Hok & Hix & m & Hm) (Hok' & Hd & Hi). split; [done|]. simpl. rewrite Hi. split; [done|].
  exists m. by eapply same_rows.
Qed.

Lemma mongo_find_law ixs save f (P : T -> Prop) s (r : MongoRepo T) :
  mongo_inv ixs r ->
  (forall d x, mc_row d -> mc_toEntity d = inl x -> matches f (enc d) = true <-> P x) ->
  wp (bind (mr_findOne mc_decode mc_toEntity f) mr_return)
     (find_spec (PtrStore0 := mongoPtrStore ixs save) P s r) (s, r).
Proof.
  intros Hinv HP. pose proof Hinv as (Hok & Hix & m & Hm).
  destruct (mr_findOne_run f s r m Hok Hm) as (x & c' & Hrun & Hs & Hx).
  apply wp_bind. eapply wp_eq; [exact Hrun|]. pose proof Hs as (_ & Hd & _).
  destruct x as [x|err]; simpl.
  - destruct Hx as [(id & d & e & [= <-] & Hl & Hmt & He)|[[? _]|[? [? _]]]]; [|done..].
    unfold wp, bind, mr_new, find_spec. simpl. split; [done|]. split; [by eapply inv_same|].
    split; [by apply same_view|]. left. exists (length (mr_heap r)), x, id. split; [done|].
    rewrite lookup_app_r by done. rewrite Nat.sub_diag. split; [done|].
    rewrite (view_lookup _ m) by done. split; [eauto|]. apply (HP d); [by eapply Hm|done|done].
  - apply wp_ret. split; [done|]. split; [by eapply inv_same|]. split; [by apply same_view|]. right.
    destruct Hx as [(?&?&?&?&_)|[([= ->] & Hno)|(e & [= <-] & He & _)]]; [done| |right; eauto].
    left. split; [done|]. intros id x (d & Hl & He)%(view_lookup _ m _ _ Hm) HPx.
    apply (HP d x) in HPx; [|by eapply Hm|done]. by rewrite (Hno id d Hl) in HPx.
Qed.

(** The contract of a store whose [Save] upserts the whole document. *)
Lemma mongo_ptr_contract (E : Env) ixs (save : nat -> ST (Sys * MongoRepo T) (option goerr))
    getID norm (same : T -> T -> Prop) (savable : T -> gmap string T -> Prop) :
  (forall d x, mc_row d -> mc_toEntity d = inl x -> getID x = mc_ID d) ->
  (forall l x s (r : MongoRepo T), mongo_inv ixs r -> mr_heap r !! l = Some x -> savable x (coll_view (mr_col r)) ->
     wp (save l) (fun o '(s', r') => sys_le s s' /\ mr_heap r' = mr_heap r /\ coll_ok (mr_col r') /\
       coll_indexes (mr_col r') = coll_indexes (mr_col r) /\
       ((o <> Ret None /\ coll_docs (mr_col r') = coll_docs (mr_col r)) \/
        exists d, mc_toEntity d = inl (norm x) /\ mc_ID d = getID x /\ forall m, rows (mr_col r) m ->
        written o (coll_docs (mr_col r)) (coll_docs (mr_col r')) (rows (mr_col r') (<[mc_ID d := d]> m)))) (s, r)) ->
  PtrContract E T (mongoPtrStore ixs save) getID norm same savable.
Proof.
  intros Hid Hsave. split.
  - intros r id x (_ & _ & m & Hm) (d & Hl & He)%(view_lookup _ m _ _ Hm).
    destruct Hm as [_ Hm]. destruct (Hm id d Hl) as (<- & _ & Hrow). by apply Hid.
  - intros x s r Hinv. unfold wp. simpl. split; [done|]. split; [by destruct Hinv|]. split; [done|].
    exists (length (mr_heap r)). by rewrite lookup_app_r, Nat.sub_diag by done.
  - intros l x x' s r Hinv Hl _. unfold wp. simpl. do 2 (split; [done|]). split; [by destruct Hinv|].
    split; [|by left]. apply list_lookup_insert_eq. by eapply lookup_lt_Some.
  - intros l x s r Hinv Hl Hsv. eapply wp_mono; [by apply Hsave|]. pose proof Hinv as (_ & Hix & m & Hm).
    intros o [s' r'] (Hle & Hh & Hok' & Hi & Ho). split; [done|].
    assert (forall m', rows (mr_col r') m' -> mongo_inv ixs r') as Hinv'.
    { intros m' Hm'. split; [done|]. rewrite Hi. eauto. }
    assert (coll_docs (mr_col r') = coll_docs (mr_col r) -> mongo_inv ixs r') as Hinv''.
    { intros Hs. eapply Hinv', same_rows; eauto. }
    destruct Ho as [[Hno Hs]|(d & He & Hd & Ho)].
    { split; [by apply Hinv''|]. split; [simpl; by rewrite Hh|]. unfold written. simpl.
      destruct o as [[]|]; [left; by apply same_view|done|left; by apply same_view]. }
    specialize (Ho m Hm).
    assert (rows (mr_col r') (<[mc_ID d := d]> m) ->
      coll_view (mr_col r') = <[getID x := norm x]> (coll_view (mr_col r))) as Hst.
    { intros Hr. rewrite <-Hd. by eapply view_insert. }
    split; [unfold written in Ho; destruct o as [[]|]; naive_solver|]. split; [simpl; by rewrite Hh|].
    unfold written in *. simpl. destruct o as [[]|]; [| |]; try (destruct Ho as [Ho|Ho]; [left|right]);
      auto; by apply same_view.
Qed.

End Codec.
Arguments coll_view {M} T {D MC} c.
