(* ===== verification/MongoCodecs.v ===== *)
(** * Document codecs of the MongoDB backend

    For each of the three document types: encoding and decoding are inverse up
    to the millisecond, and the update the adapter sends replaces the whole
    document. *)

From S2P Require Import Prelude GoStd Crypto Errors Env Cipher Scope User Token Client AuthFlow Cache FileRepo Ports Adapters Contract Mongo MongoAdapters MongoRows.

Local Open Scope Z_scope.

(** What MongoDB keeps of a time. *)
Definition ms_trunc (t : Z) : Z := t / Millisecond * Millisecond.

Lemma ms_trunc_div t : ms_trunc t / Millisecond = t / Millisecond.
Proof. unfold ms_trunc. apply Z.div_mul. done. Qed.

Lemma ms_trunc_idem t : ms_trunc (ms_trunc t) = ms_trunc t.
Proof. unfold ms_trunc at 1. by rewrite ms_trunc_div. Qed.

Lemma ms_trunc_le t : ms_trunc t <= t.
Proof. unfold ms_trunc. rewrite Z.mul_comm. by apply Z.mul_div_le. Qed.

(** ** Grants *)

Definition grantDoc_norm (d : grantDoc) : grantDoc :=
  mk_grantDoc (gd_ID d) (gd_UserID d) (gd_ClientID d) (gd_DeviceID d) (ms_trunc (gd_AuthenticatedAt d))
    (ms_trunc (gd_CreatedAt d)) (ms_trunc (gd_ExpiresAt d)) (ms_trunc <$> gd_RevokedAt d).

Definition rtDoc_norm (d : refreshTokenDoc) : refreshTokenDoc :=
  mk_refreshTokenDoc (rd_ID d) (rd_UserID d) (rd_ClientID d) (rd_GrantID d) (rd_TokenHash d) (rd_Scope d)
    (rd_DeviceID d) (ms_trunc (rd_AuthenticatedAt d)) (ms_trunc (rd_CreatedAt d))
    (ms_trunc (rd_ExpiresAt d)) (ms_trunc <$> rd_RevokedAt d).

Definition userDoc_norm (d : userDoc) : userDoc :=
  mk_userDoc (ud_ID d) (ud_TenantID d) (ud_Username d) (ud_Nickname d) (ud_Password d)
    (ud_EmailCiphertext d) (ud_EmailBlindIndex d) (ud_EmailVerified d) (ud_PasswordResetTokenHash d)
    (ms_trunc <$> ud_PasswordResetExpiresAt d) (ms_trunc <$> ud_SessionsInvalidatedAt d)
    (ud_FailedLoginAttempts d) (ms_trunc <$> ud_LockedUntil d) (ms_trunc (ud_CreatedAt d))
    (ms_trunc (ud_UpdatedAt d)).

(** Looking up a field in an encoded document. *)
Fixpoint field_of (k : string) (l : list (string * bval)) : option bval :=
  match l with
  | [] => None
  | (k', v) :: l' => if String.eqb k' k then Some v else field_of k l'
  end.

Lemma enc_struct_field s k : enc_struct s !! k = field_of k (marshal s).
Proof.
  unfold enc_struct. induction (marshal s) as [|[k' v] l IH]; [done|]. simpl.
  destruct (String.eqb_spec k' k) as [->|Hne]; [by rewrite lookup_insert_eq|].
  by rewrite lookup_insert_ne.
Qed.

Ltac solve_decode :=
  unfold enc; rewrite !enc_struct_field; simpl; unfold dec_ptr, sum_bind;
  repeat rewrite ?dec_string_law, ?dec_time_law, ?dec_bool_law, ?dec_int_law; reflexivity.

Section Codecs.
  Context {E : Env} {A : Aead} {EC : EmailCipher} {M : MongoDriver}.

#[export] Instance mongo_grantCodec : MongoCodec Grant grantDoc := {|
  mc_struct := grantDoc_struct;
  mc_decode := grantDoc_decode;
  mc_toEntity := grantToEntity;
  mc_update d := [("$set", GStruct (grantDoc_struct d))];
  mc_ID := gd_ID;
  mc_norm := grantDoc_norm;
  mc_row _ := True;
|}.

#[export] Instance mongo_rtCodec : MongoCodec RefreshToken refreshTokenDoc := {|
  mc_struct := rtDoc_struct;
  mc_decode := rtDoc_decode;
  mc_toEntity := rtToEntity;
  mc_update d := [("$set", GStruct (rtDoc_struct d))];
  mc_ID := rd_ID;
  mc_norm := rtDoc_norm;
  mc_row d := exists x, rtToEntity d = inl x;
|}.

(** The address of a stored user decrypts, and the blind index is its own. *)
Definition user_row (d : userDoc) : Prop :=
  ud_TenantID d <> "" /\ exists email, Cipher_Decrypt email_cipher (ud_EmailCiphertext d) = inl email /\
    ud_EmailBlindIndex d = Cipher_BlindIndex email_cipher email.

#[export] Instance mongo_userCodec : MongoCodec User userDoc := {|
  mc_struct := userDoc_struct;
  mc_decode := userDoc_decode;
  mc_toEntity := userCodec_toEntity;
  mc_update := buildUserUpdate;
  mc_ID := ud_ID;
  mc_norm := userDoc_norm;
  mc_row := user_row;
|}.

Context {MS : MongoSpec M}.

#[export] Instance mongo_grantCodec_ok : MongoCodecOk (MC := mongo_grantCodec).
Proof.
  split.
  - intros [id u c dv at_ ct et [rt|]]; unfold mc_decode; simpl; unfold grantDoc_decode; solve_decode.
  - intros [id u c dv at_ ct et [rt|]]; unfold enc, enc_struct; simpl; by rewrite !ms_trunc_div.
  - intros [id u c dv at_ ct et [rt|]]; simpl; unfold grantDoc_norm; simpl; by rewrite !ms_trunc_idem.
  - done.
  - intros d. unfold enc. by rewrite enc_struct_field.
  - done.
  - intros d. by apply (bool_decide_unpack _).
  - done.
  - intros d _. by eexists.
Qed.

#[export] Instance mongo_rtCodec_ok : MongoCodecOk (MC := mongo_rtCodec).
Proof.
  split.
  - intros [id u c g h sc dv at_ ct et [rt|]]; unfold mc_decode; simpl; unfold rtDoc_decode; solve_decode.
  - intros [id u c g h sc dv at_ ct et [rt|]]; unfold enc, enc_struct; simpl; by rewrite !ms_trunc_div.
  - intros [id u c g h sc dv at_ ct et [rt|]]; simpl; unfold rtDoc_norm; simpl; by rewrite !ms_trunc_idem.
  - done.
  - intros d. unfold enc. by rewrite enc_struct_field.
  - done.
  - intros d. by apply (bool_decide_unpack _).
  - done.
  - done.
Qed.

#[export] Instance mongo_userCodec_ok : MongoCodecOk (MC := mongo_userCodec).
Proof.
  split.
  - intros [id ten un nn pw ct bi ev [h|] [he|] [si|] fl [lu|] ca ua]; unfold mc_decode; simpl;
      unfold userDoc_decode; solve_decode.
  - intros [id ten un nn pw ct bi ev [h|] [he|] [si|] fl [lu|] ca ua]; unfold enc, enc_struct; simpl;
      by rewrite !ms_trunc_div.
  - intros [id ten un nn pw ct bi ev [h|] [he|] [si|] fl [lu|] ca ua]; simpl; unfold userDoc_norm; simpl;
      by rewrite !ms_trunc_idem.
  - done.
  - intros [id ten un nn pw ct bi ev [h|] [he|] [si|] fl [lu|] ca ua]; unfold enc; by rewrite enc_struct_field.
  - done.
  - intros d. by apply (bool_decide_unpack _).
  - intros [id ten un nn pw ct bi ev [h|] [he|] [si|] fl [lu|] ca ua] b; reflexivity.
  - intros d (_ & email & He & _). simpl. unfold userCodec_toEntity. rewrite He. by eexists.
Qed.

End Codecs.

(** ** Setting the last field of a struct *)

Lemma enc_struct_snoc s k v : k ∉ struct_keys s ->
  enc_struct (s ++ [(k, false, v)]) = <[k := bson_value v]> (enc_struct s).
Proof.
  intros Hk. unfold enc_struct, marshal. rewrite omap_app. simpl.
  apply list_to_map_snoc. intros Hin. apply Hk, struct_key_cases. by left.
Qed.

Lemma revoke_enc s t v : "revoked_at" ∉ struct_keys s ->
  apply_update [("$set", GDoc [("revoked_at", GTime t)])] (enc_struct (s ++ [("revoked_at", false, v)])) =
  enc_struct (s ++ [("revoked_at", false, gptr GTime (Some (ms_trunc t)))]).
Proof.
  intros Hk.
  change (set_fields [("revoked_at", bson_value (GTime t))] (enc_struct (s ++ [("revoked_at", false, v)])) =
    enc_struct (s ++ [("revoked_at", false, GTime (ms_trunc t))])).
  rewrite set_one_field, !enc_struct_snoc, insert_insert_eq by done. simpl. by rewrite ms_trunc_div.
Qed.
