(* ===== verification/MongoContract.v ===== *)
(** * The MongoDB backend keeps the contract

    The three repositories as instances of
    the ports' operations, and the proof that each keeps the contract of
    Contract.v with times rounded down to the millisecond. *)

From S2P Require Import Prelude GoStd Crypto Errors Env Cipher Scope User Token Client AuthFlow Cache FileRepo Ports Adapters Contract Mongo MongoAdapters MongoRows MongoCodecs.

Local Open Scope Z_scope.

Section MongoGrantContract.
  Context {E : Env} {M : MongoDriver}.

#[export] Instance mongoGrantRepo : GrantRepoI := {|
  gr_store := mongoPtrStore grant_indexes MongoGrant_Save;
  gr_FindByID := MongoGrant_FindByID;
  gr_Revoke := MongoGrant_Revoke;
|}.

Context {MS : MongoSpec M}.

Definition set_gd_RevokedAt (v : option Z) (d : grantDoc) : grantDoc :=
  mk_grantDoc (gd_ID d) (gd_UserID d) (gd_ClientID d) (gd_DeviceID d) (gd_AuthenticatedAt d)
    (gd_CreatedAt d) (gd_ExpiresAt d) v.

Notation revoke_filter id := [("_id", GVal (GString id)); ("revoked_at", GVal GNil)].

Lemma grant_unrevoked_matches id (d : grantDoc) :
  matches (revoke_filter id) (enc d) = true <-> gd_ID d = id /\ gd_RevokedAt d = None.
Proof.
  rewrite matches_cons. unfold enc, matches, cond_matches. simpl. rewrite !enc_struct_field.
  destruct d as [id' ? ? ? ? ? ? [r|]]; simpl; rewrite ?andb_true_iff, ?bool_decide_eq_true; naive_solver.
Qed.

Lemma grant_revoke_acts id t (m : gmap string grantDoc) c : rows c m ->
  acts (revoke_filter id) [("$set", GDoc [("revoked_at", GTime t)])]
    (set_gd_RevokedAt (Some (ms_trunc t))) m.
Proof.
  intros [_ Hm] id' d Hl _. destruct (Hm id' d Hl) as (_ & Hn & _). split.
  - unfold enc. exact (revoke_enc (take 7 (grantDoc_struct d)) t _ ltac:(by apply (bool_decide_unpack _))).
  - split; [done|]. split; [|done]. destruct d as [? ? ? ? ? ? ? ?].
    simpl in *. unfold grantDoc_norm, set_gd_RevokedAt in *. simpl in *. rewrite ms_trunc_idem. congruence.
Qed.

Lemma mongo_grant_save l g s (r : MongoRepo Grant) :
  mongo_inv grant_indexes r -> mr_heap r !! l = Some g ->
  wp (MongoGrant_Save l) (fun o '(s', r') => sys_le s s' /\ mr_heap r' = mr_heap r /\ coll_ok (mr_col r') /\
    coll_indexes (mr_col r') = coll_indexes (mr_col r) /\
    (o <> Ret None /\ coll_docs (mr_col r') = coll_docs (mr_col r) \/
     exists d, mc_toEntity d = inl (grant_norm ms_trunc g) /\ mc_ID d = g_ID g /\ forall m, rows (mr_col r) m ->
     written o (coll_docs (mr_col r)) (coll_docs (mr_col r')) (rows (mr_col r') (<[mc_ID d := d]> m)))) (s, r).
Proof.
  intros (Hok & Hix & m & Hm) Hl. unfold MongoGrant_Save. apply wp_bind.
  eapply wp_eq; [unfold mr_deref; simpl; by rewrite Hl|]. apply wp_bind.
  destruct (upsert_run (grantToDoc g) s r m Hok Hm I) as (n & e & c' & Hrun & Hok' & Hi & He).
  eapply wp_eq; [exact Hrun|]. apply wp_ret. do 4 (split; [done|]).
  right. exists (grantDoc_norm (grantToDoc g)). do 2 (split; [done|]). intros m' Hm'.
  destruct (upsert_run (grantToDoc g) s r m' Hok Hm' I) as (n' & e' & c'' & Hrun' & _ & _ & He').
  rewrite Hrun in Hrun'. injection Hrun' as <- <- <-. unfold written. destruct e as [err|]; simpl.
  - by destruct He'.
  - done.
Qed.

Lemma mongo_grant_revoke id t s (r : MongoRepo Grant) : mongo_inv grant_indexes r ->
  wp (MongoGrant_Revoke id t) (fun o '(s', r') => sys_le s s' /\ mongo_inv grant_indexes r' /\
    exists e, o = Ret e /\
    let revoked := exists g, coll_view Grant (mr_col r) !! id = Some g /\ g_RevokedAt g = None /\
      coll_view Grant (mr_col r') = <[id := set_g_RevokedAt (Some (ms_trunc t)) g]> (coll_view Grant (mr_col r)) in
    match e with
    | None => revoked
    | Some err => (coll_view Grant (mr_col r') = coll_view Grant (mr_col r) \/ revoked) /\
        (errors_Is err ErrNotFound = true -> coll_view Grant (mr_col r') = coll_view Grant (mr_col r) /\
           forall g, coll_view Grant (mr_col r) !! id = Some g -> is_Some (g_RevokedAt g))
    end) (s, r).
Proof.
  intros Hinv. pose proof Hinv as (Hok & Hix & m & Hm). unfold MongoGrant_Revoke. apply wp_bind.
  destruct (updateOne_run _ _ _ s r m Hok Hm (grant_revoke_acts id t m _ Hm)) as (n & e & c' & Hrun & Hok' & Hi & He).
  eapply wp_eq; [exact Hrun|]. clear Hrun.
  assert (one_row (revoke_filter id) (set_gd_RevokedAt (Some (ms_trunc t))) m c' ->
    mongo_inv grant_indexes (mkMongoRepo (mr_heap r) c') /\
    exists g, coll_view Grant (mr_col r) !! id = Some g /\ g_RevokedAt g = None /\
      coll_view Grant c' = <[id := set_g_RevokedAt (Some (ms_trunc t)) g]> (coll_view Grant (mr_col r))) as Hone.
  { intros (id' & d & Hl & [Hid Hr]%grant_unrevoked_matches & Hrows).
    destruct Hm as [Hd Hmm]. destruct (Hmm id' d Hl) as (Heq & _). simpl in Heq. rewrite Hid in Heq. subst id'.
    split; [split; [done|]; split; [simpl; by rewrite Hi|simpl; eauto]|].
    eexists. split; [apply (view_lookup _ m); [done|]; eexists; split; [done|reflexivity]|].
    split; [done|]. by eapply view_insert. }
  assert (coll_docs c' = coll_docs (mr_col r) -> mongo_inv grant_indexes (mkMongoRepo (mr_heap r) c')) as Hsame.
  { intros Hs. eapply inv_same; [exact Hinv|]. split; [done|]. split; done. }
  destruct e as [err|]; [|destruct He as [[-> Hx]|(-> & Hs & Hno)]]; simpl; apply wp_ret; (split; [done|]).
  - destruct He as [Herr He]. split; [destruct He; [auto|by apply Hone]|]. eexists. split; [done|].
    split; [destruct He as [?|?%Hone]; [left; by apply same_view|right; by destruct H]|].
    destruct Herr as [-> _]. done.
  - apply Hone in Hx as [? ?]. split; [done|]. by eexists.
  - split; [auto|]. eexists. split; [done|]. simpl. split; [left; by apply same_view|].
    intros _. split; [by apply same_view|]. intros g (d & Hl & [= <-])%(view_lookup _ m _ _ Hm). simpl.
    specialize (Hno id d Hl). destruct Hm as [_ Hmm]. destruct (Hmm id d Hl) as (Hid & _).
    destruct (gd_RevokedAt d) eqn:Hr; [done|]. exfalso. apply not_true_iff_false in Hno.
    by apply Hno, grant_unrevoked_matches.
Qed.

#[export] Instance mongo_grant_contract : GrantContract E ms_trunc mongoGrantRepo.
Proof.
  split.
  - apply mongo_ptr_contract; [by intros d x _ [= <-]|]. intros l x s r Hinv Hl _. by apply mongo_grant_save.
  - intros id s r Hinv. refine (mongo_find_law grant_indexes MongoGrant_Save [("_id", GVal (GString id))] _ s r Hinv _). intros d x _ [= <-]. exact (matches_row_id id d).
  - intros id t s r Hinv. exact (mongo_grant_revoke id t s r Hinv).
Qed.

End MongoGrantContract.

(** ** Refresh tokens *)

Section MongoRTContract.
  Context {E : Env} {CM : ClockMono E} {M : MongoDriver}.

#[export] Instance mongoRTRepo : RefreshTokenRepoI := {|
  RS := MongoRepo RefreshToken;
  rs_rows r := coll_view RefreshToken (mr_col r);
  rs_inv := mongo_inv (T := RefreshToken) rt_indexes;
  rr_Save := MongoRT_Save;
  rr_FindByTokenHash := MongoRT_FindByTokenHash;
  rr_RevokeByTokenHash := MongoRT_RevokeByTokenHash;
  rr_RevokeAllForUser := MongoRT_RevokeAllForUser;
  rr_RevokeAllForGrant := MongoRT_RevokeAllForGrant;
|}.

Context {MS : MongoSpec M}.

Definition set_rd_RevokedAt (v : option Z) (d : refreshTokenDoc) : refreshTokenDoc :=
  mk_refreshTokenDoc (rd_ID d) (rd_UserID d) (rd_ClientID d) (rd_GrantID d) (rd_TokenHash d) (rd_Scope d)
    (rd_DeviceID d) (rd_AuthenticatedAt d) (rd_CreatedAt d) (rd_ExpiresAt d) v.

Notation set_revoked t := [("$set", GDoc [("revoked_at", GTime t)])].
Notation hash_filter h t := [("token_hash", GVal (GString h)); ("revoked_at", GVal GNil);
                             ("expires_at", GDoc [("$gt", GTime t)])].
Notation field_filter k v := [(k, GVal (GString v)); ("revoked_at", GVal GNil)].

(** The fields a row shares with its document. *)
Lemma rt_entity_fields d x : rtToEntity d = inl x ->
  rt_ID x = rd_ID d /\ rt_UserID x = rd_UserID d /\ rt_GrantID x = rd_GrantID d /\
  rt_TokenHash x = rd_TokenHash d /\ rt_ExpiresAt x = rd_ExpiresAt d /\ rt_RevokedAt x = rd_RevokedAt d /\
  forall v, rtToEntity (set_rd_RevokedAt v d) = inl (set_rt_RevokedAt v x).
Proof.
  unfold rtToEntity. simpl. destruct (NewScope _) as [sc [err|]]; [done|]. intros [= <-]. done.
Qed.

Lemma rt_doc_norm_entity x : scope_ok (rt_Scope x) ->
  rtToEntity (rtDoc_norm (rtToDoc x)) = inl (rt_norm ms_trunc x).
Proof. intros Hs. unfold rtToEntity. simpl. by rewrite Scope_String_parse. Qed.

Lemma rt_hash_matches h (d : refreshTokenDoc) :
  matches [("token_hash", GVal (GString h))] (enc d) = true <-> rd_TokenHash d = h.
Proof.
  rewrite matches_cons. unfold enc, matches, cond_matches. simpl. rewrite !enc_struct_field. simpl.
  rewrite andb_true_r, bool_decide_eq_true. naive_solver.
Qed.

Lemma rt_revocable_matches h t (d : refreshTokenDoc) : rtDoc_norm d = d ->
  matches (hash_filter h t) (enc d) = true <->
  rd_TokenHash d = h /\ rd_RevokedAt d = None /\ t < rd_ExpiresAt d.
Proof.
  intros Hn. assert (ms_trunc (rd_ExpiresAt d) = rd_ExpiresAt d) as He by (rewrite <-Hn; apply ms_trunc_idem).
  assert (t / Millisecond < rd_ExpiresAt d / Millisecond <-> t < rd_ExpiresAt d) as Hlt.
  { rewrite <-He at 2. unfold ms_trunc. pose proof (Z.mul_div_le t Millisecond eq_refl).
    pose proof (Z.mul_succ_div_gt t Millisecond eq_refl). unfold Millisecond in *. lia. }
  rewrite !matches_cons. unfold enc, cond_matches. rewrite !enc_struct_field.
  destruct d as [? ? ? ? h' ? ? ? ? e [r|]]; simpl in *; rewrite ?andb_true_iff, ?bool_decide_eq_true.
  - naive_solver.
  - rewrite Z.ltb_lt. naive_solver.
Qed.

Lemma rt_selected_matches k v get (d : refreshTokenDoc) :
  k <> "revoked_at" -> enc d !! k = Some (BString (get d)) ->
  matches (field_filter k v) (enc d) = true <-> get d = v /\ rd_RevokedAt d = None.
Proof.
  intros Hk Hg. rewrite !matches_cons. unfold cond_matches at 1. rewrite Hg.
  unfold cond_matches, enc. rewrite enc_struct_field.
  destruct d as [? ? ? ? ? ? ? ? ? ? [r|]]; simpl; rewrite ?andb_true_iff, ?bool_decide_eq_true; naive_solver.
Qed.

Lemma rt_revoke_acts f t (m : gmap string refreshTokenDoc) c : rows c m ->
  acts f (set_revoked t) (set_rd_RevokedAt (Some (ms_trunc t))) m.
Proof.
  intros [_ Hm] id' d Hl _. destruct (Hm id' d Hl) as (_ & Hn & x & Hx). split.
  - unfold enc. exact (revoke_enc (take 10 (rtDoc_struct d)) t _ ltac:(by apply (bool_decide_unpack _))).
  - split; [done|]. split; [|by eexists; apply (rt_entity_fields d x)].
    destruct d as [? ? ? ? ? ? ? ? ? ? ?].
    simpl in *. unfold rtDoc_norm, set_rd_RevokedAt in *. simpl in *. rewrite ms_trunc_idem. congruence.
Qed.

Lemma mongo_rt_hash_inj (r : MongoRepo RefreshToken) id1 id2 x1 x2 : mongo_inv rt_indexes r ->
  coll_view RefreshToken (mr_col r) !! id1 = Some x1 -> coll_view RefreshToken (mr_col r) !! id2 = Some x2 ->
  rt_TokenHash x1 = rt_TokenHash x2 -> id1 = id2.
Proof.
  intros (Hok & Hix & m & Hm) (d1 & H1 & E1)%(view_lookup _ m _ _ Hm) (d2 & H2 & E2)%(view_lookup _ m _ _ Hm) Hh.
  destruct (rt_entity_fields _ _ E1) as (_ & _ & _ & Hh1 & _).
  destruct (rt_entity_fields _ _ E2) as (_ & _ & _ & Hh2 & _). destruct Hm as [Hd _].
  apply (coll_unique _ Hok (mkIndexModel ["token_hash"] true None) id1 id2 (enc d1) (enc d2)); [apply Hix; left|done|..];
    rewrite ?Hd, ?lookup_fmap, ?H1, ?H2; try done.
  unfold index_key, enc. simpl. rewrite !enc_struct_field. simpl. congruence.
Qed.

Lemma mongo_rt_save x s (r : MongoRepo RefreshToken) : mongo_inv rt_indexes r -> scope_ok (rt_Scope x) ->
  wp (MongoRT_Save x) (fun o '(s', r') => sys_le s s' /\ mongo_inv rt_indexes r' /\
    written o (coll_view RefreshToken (mr_col r)) (coll_view RefreshToken (mr_col r'))
      (coll_view RefreshToken (mr_col r') = <[rt_ID x := rt_norm ms_trunc x]> (coll_view RefreshToken (mr_col r)))) (s, r).
Proof.
  intros Hinv Hs. pose proof Hinv as (Hok & Hix & m & Hm). pose proof (rt_doc_norm_entity x Hs) as Hx.
  destruct (upsert_run (rtToDoc x) s r m Hok Hm (ex_intro _ _ Hx)) as (n & e & c' & Hrun & Hok' & Hi & He).
  apply wp_bind. eapply wp_eq; [exact Hrun|]. apply wp_ret. split; [done|].
  assert (rows c' (<[rt_ID x := rtDoc_norm (rtToDoc x)]> m) -> mongo_inv rt_indexes (mkMongoRepo (mr_heap r) c') /\
    coll_view RefreshToken c' = <[rt_ID x := rt_norm ms_trunc x]> (coll_view RefreshToken (mr_col r))) as Hst.
  { intros Hr. split; [|by eapply view_insert]. split; [done|]. simpl. rewrite Hi. eauto. }
  unfold written. destruct e as [err|]; simpl; [|by apply Hst]. destruct He as [_ [Hs'|Hr]].
  - split; [eapply inv_same; [done|]; by split|]. left. by apply same_view.
  - split; [by apply Hst|]. right. by apply Hst.
Qed.

Lemma mongo_rt_find h s (r : MongoRepo RefreshToken) : mongo_inv rt_indexes r ->
  wp (MongoRT_FindByTokenHash h) (fun o '(s', r') => sys_le s s' /\ mongo_inv rt_indexes r' /\
    coll_view RefreshToken (mr_col r') = coll_view RefreshToken (mr_col r) /\
    ((exists x, o = Ret (Some x, None) /\ coll_view RefreshToken (mr_col r) !! rt_ID x = Some x /\ rt_TokenHash x = h) \/
     (o = Ret (None, Some ErrNotFound) /\
        forall id x, coll_view RefreshToken (mr_col r) !! id = Some x -> rt_TokenHash x <> h) \/
     (exists e, o = Ret (None, Some e) /\ errors_Is e ErrNotFound = false))) (s, r).
Proof.
  intros Hinv. pose proof Hinv as (Hok & Hix & m & Hm).
  destruct (mr_findOne_run [("token_hash", GVal (GString h))] s r m Hok Hm) as (x & c' & Hrun & Hs & Hx).
  apply wp_bind. eapply wp_eq; [exact Hrun|]. apply wp_ret. split; [done|].
  split; [by eapply inv_same|]. split; [apply same_view; by destruct Hs as (_ & ? & _)|].
  destruct Hx as [(id & d & y & -> & Hl & Hmt & Hy)|[(-> & Hno)|(e & -> & He & _)]].
  - left. exists y. destruct (rt_entity_fields _ _ Hy) as (Hid & _ & _ & Hh & _).
    split; [done|]. rewrite Hh. split; [|by apply rt_hash_matches]. rewrite Hid.
    destruct Hm as [? Hmm]. destruct (Hmm id d Hl) as (Hid' & _). simpl in Hid'. rewrite Hid'.
    apply (view_lookup _ m); [done|]. eauto.
  - right. left. split; [done|]. intros id y (d & Hl & Hy)%(view_lookup _ m _ _ Hm) Hh.
    destruct (rt_entity_fields _ _ Hy) as (_ & _ & _ & Hh' & _). specialize (Hno id d Hl).
    apply not_true_iff_false in Hno. apply Hno, rt_hash_matches. congruence.
  - right. right. eauto.
Qed.

(** The row an update of one document revoked. *)
Lemma rt_one_row h t (r : MongoRepo RefreshToken) m c' : rows (mr_col r) m ->
  one_row (hash_filter h t) (set_rd_RevokedAt (Some (ms_trunc t))) m c' ->
  exists x, coll_view RefreshToken (mr_col r) !! rt_ID x = Some x /\ rt_TokenHash x = h /\ rt_RevokedAt x = None /\
    t < rt_ExpiresAt x /\
    coll_view RefreshToken c' = <[rt_ID x := set_rt_RevokedAt (Some (ms_trunc t)) x]> (coll_view RefreshToken (mr_col r)).
Proof.
  intros Hm (id & d & Hl & Hmt & Hr). pose proof Hm as [_ Hmm].
  destruct (Hmm id d Hl) as (Hid & Hn & x & Hx).
  apply rt_revocable_matches in Hmt as (Hh & Hrv & Hexp); [|done].
  destruct (rt_entity_fields _ _ Hx) as (Hxid & _ & _ & Hxh & Hxe & Hxr & Hset).
  simpl in Hid. exists x. rewrite Hxid, Hid, Hxh, Hxr, Hxe. split_and!; try done.
  - apply (view_lookup _ m); eauto.
  - eapply view_insert; eauto.
Qed.

Lemma mongo_rt_revoke h s (r : MongoRepo RefreshToken) : mongo_inv rt_indexes r ->
  wp (MongoRT_RevokeByTokenHash h) (fun o '(s', r') => sys_le s s' /\ mongo_inv rt_indexes r' /\
    exists e, o = Ret e /\
    let revoked := exists x t, coll_view RefreshToken (mr_col r) !! rt_ID x = Some x /\ rt_TokenHash x = h /\
      rt_RevokedAt x = None /\ now s <= t <= now s' /\ now s <= rt_ExpiresAt x /\
      coll_view RefreshToken (mr_col r') =
        <[rt_ID x := set_rt_RevokedAt (Some (ms_trunc t)) x]> (coll_view RefreshToken (mr_col r)) in
    match e with
    | None => revoked
    | Some err => (coll_view RefreshToken (mr_col r') = coll_view RefreshToken (mr_col r) \/ revoked) /\
        is_ErrorStruct err = false /\
        (errors_Is err ErrNotFound = true ->
           coll_view RefreshToken (mr_col r') = coll_view RefreshToken (mr_col r) /\
           forall id x, coll_view RefreshToken (mr_col r) !! id = Some x -> rt_TokenHash x = h ->
             is_Some (rt_RevokedAt x) \/ rt_ExpiresAt x <= now s')
    end) (s, r).
Proof.
  intros Hinv. pose proof Hinv as (Hok & Hix & m & Hm). unfold MongoRT_RevokeByTokenHash. apply wp_bind.
  eapply wp_eq; [reflexivity|]. simpl. change (clock (n_clock s)) with (now s). fold (tick s). apply wp_bind.
  assert (now s <= now (tick s)) as Hmono by apply now_mono, sys_le_tick.
  destruct (updateOne_run (hash_filter h (now s)) (set_revoked (now s)) _ (tick s) r m Hok Hm
    (rt_revoke_acts _ (now s) m _ Hm)) as (n & e & c' & Hrun & Hok' & Hi & He).
  eapply wp_eq; [exact Hrun|]. clear Hrun.
  assert (one_row (hash_filter h (now s)) (set_rd_RevokedAt (Some (ms_trunc (now s)))) m c' ->
    mongo_inv rt_indexes (mkMongoRepo (mr_heap r) c')) as Hinv1.
  { intros (id & d & _ & _ & Hr). split; [done|]. simpl. rewrite Hi. eauto. }
  pose proof (rt_one_row h (now s) r m c' Hm) as Hone.
  assert (coll_docs c' = coll_docs (mr_col r) -> mongo_inv rt_indexes (mkMongoRepo (mr_heap r) c')) as Hsame.
  { intros Hs. eapply inv_same; [exact Hinv|]. split; [done|]. split; done. }
  destruct e as [err|]; [|destruct He as [[-> Hx]|(-> & Hs & Hno)]]; simpl; apply wp_ret;
    (split; [apply sys_le_tick|]).
  - destruct He as [[Hnf [_ Hes]] He]. split; [destruct He; auto|]. eexists. split; [done|]. simpl.
    split; [|by rewrite Hnf]. destruct He as [?|Hx]; [left; by apply same_view|right].
    destruct (Hone Hx) as (x & ? & ? & ? & ? & ?). exists x, (now s). split_and!; try done; lia.
  - split; [auto|]. eexists. split; [done|]. destruct (Hone Hx) as (x & ? & ? & ? & ? & ?).
    exists x, (now s). split_and!; try done; lia.
  - split; [auto|]. eexists. split; [done|]. simpl. split; [left; by apply same_view|]. split; [done|].
    intros _. split; [by apply same_view|]. intros id x (d & Hl & Hx)%(view_lookup _ m _ _ Hm) Hh.
    destruct (rt_entity_fields _ _ Hx) as (_ & _ & _ & Hxh & Hxe & Hxr & _). rewrite Hxr, Hxe.
    destruct (rd_RevokedAt d) eqn:Hr; [by left; eexists|]. right.
    specialize (Hno id d Hl). apply not_true_iff_false in Hno. rewrite rt_revocable_matches in Hno by (by eapply Hm).
    destruct (Z.lt_ge_cases (now s) (rd_ExpiresAt d)); [destruct Hno; split_and!; congruence|lia].
Qed.

(** Both sweeps: [get] is the field of the filter. *)
Lemma mongo_rt_sweep k v (get : refreshTokenDoc -> string) (P : RefreshToken -> Prop) s (r : MongoRepo RefreshToken) :
  mongo_inv rt_indexes r -> k <> "revoked_at" -> (forall d, enc d !! k = Some (BString (get d))) ->
  (forall d x, rtToEntity d = inl x -> get d = v <-> P x) ->
  wp (bind (on_sys time_Now) (fun t => in_col (col_UpdateMany (field_filter k v) (set_revoked t))))
     (sweep_contract ms_trunc P s r) (s, r).
Proof.
  intros Hinv Hk Hget HP. pose proof Hinv as (Hok & Hix & m & Hm). apply wp_bind.
  eapply wp_eq; [reflexivity|]. simpl. change (clock (n_clock s)) with (now s). fold (tick s).
  assert (now s <= now (tick s)) as Hmono by apply now_mono, sys_le_tick.
  destruct (updateMany_run (field_filter k v) (set_revoked (now s)) _ (tick s) r m Hok Hm
    (rt_revoke_acts _ (now s) m _ Hm)) as (e & c' & m' & Hrun & Hok' & Hi & Hm' & Hnone & Hsome).
  eapply wp_eq; [exact Hrun|]. split; [apply sys_le_tick|].
  split; [split; [done|]; simpl; rewrite Hi; eauto|]. exists e. split; [done|]. simpl. split.
  - intros id. rewrite !eq_None_not_Some. intros Hn [x (d & Hl & _)%(view_lookup _ m' _ _ Hm')]. apply Hn.
    destruct (m !! id) as [d0|] eqn:Hl0; [|by rewrite (Hnone id Hl0) in Hl].
    pose proof Hm as [_ Hmm]. destruct (Hmm id d0 Hl0) as (_ & _ & x0 & Hx0). exists x0.
    apply (view_lookup _ m); eauto.
  - intros id x (d & Hl & Hx)%(view_lookup _ m _ _ Hm). destruct (Hsome id d Hl) as (d' & Hl' & Hd').
    destruct (rt_entity_fields _ _ Hx) as (_ & _ & _ & _ & _ & Hxr & Hset).
    assert (forall y, rtToEntity d' = inl y -> coll_view RefreshToken c' !! id = Some y) as Hy.
    { intros y Hy. apply (view_lookup _ m'); eauto. }
    unfold upd_if in Hd'. pose proof (rt_selected_matches k v get d Hk (Hget d)) as Hsel.
    destruct (matches _ (enc d)) eqn:Hmt.
    + destruct (proj1 Hsel eq_refl) as [Hv Hr]. destruct Hd' as [->|[-> He]].
      * exists (set_rt_RevokedAt (Some (ms_trunc (now s))) x). split; [by apply Hy|].
        split; [|intros _ _; by eexists]. right. split; [by apply (HP d)|]. split; [congruence|].
        exists (now s). split; [lia|done].
      * exists x. split; [by apply Hy|]. split; [by left|]. by destruct e.
    + assert (d' = d) as -> by tauto. exists x. split; [by apply Hy|]. split; [by left|]. intros _ HPx.
      rewrite Hxr. destruct (rd_RevokedAt d); [by eexists|]. exfalso.
      assert (false = true) by (apply Hsel; split; [by apply (HP d x)|done]). done.
Qed.

#[export] Instance mongo_rt_contract : RefreshTokenContract E ms_trunc mongoRTRepo.
Proof.
  split.
  - intros r id x (_ & _ & m & Hm) (d & Hl & Hx)%(view_lookup _ m _ _ Hm).
    destruct (rt_entity_fields _ _ Hx) as (-> & _). by apply Hm.
  - intros r id1 id2 x1 x2. apply mongo_rt_hash_inj.
  - intros x s r Hinv _ Hs. exact (mongo_rt_save x s r Hinv Hs).
  - intros h s r Hinv. exact (mongo_rt_find h s r Hinv).
  - intros h s r Hinv. exact (mongo_rt_revoke h s r Hinv).
  - intros uid s r Hinv. apply (mongo_rt_sweep "user_id" uid rd_UserID); [done|done|..].
    + intros d. unfold enc. by rewrite enc_struct_field.
    + intros d x Hx. by destruct (rt_entity_fields _ _ Hx) as (_ & -> & _).
  - intros gid s r Hinv. apply (mongo_rt_sweep "grant_id" gid rd_GrantID); [done|done|..].
    + intros d. unfold enc. by rewrite enc_struct_field.
    + intros d x Hx. by destruct (rt_entity_fields _ _ Hx) as (_ & _ & -> & _).
Qed.

End MongoRTContract.

(** ** Users *)

Section MongoUserContract.
  Context {E : Env} {A : Aead} {AS : AeadSpec A} {EC : EmailCipher} {M : MongoDriver}.

#[export] Instance mongoUserRepo : UserRepoI := {|
  ur_store := mongoPtrStore user_indexes MongoUser_Save;
  ur_CreateUser := MongoUser_CreateUser;
  ur_FindByEmail := MongoUser_FindByEmail;
  ur_FindByID := MongoUser_FindByID;
  ur_FindByPasswordResetTokenHash := MongoUser_FindByPasswordResetTokenHash;
  ur_UpdateByPasswordResetTokenHash := @MongoUser_UpdateByPasswordResetTokenHash E A EC M;
|}.

(** Addresses are told apart by their blind index. *)
Definition blind_equal (e1 e2 : string) : Prop :=
  Cipher_BlindIndex email_cipher e1 = Cipher_BlindIndex email_cipher e2.

Context {MS : MongoSpec M}.

(** The fields a user shares with its document. *)
Lemma user_entity_fields d u : user_row d -> userCodec_toEntity d = inl u ->
  u_ID u = ud_ID d /\ u_TenantID u = ud_TenantID d /\ u_TenantID u <> "" /\
  ud_EmailBlindIndex d = Cipher_BlindIndex email_cipher (u_Email u) /\
  u_PasswordResetTokenHash u = ud_PasswordResetTokenHash d.
Proof.
  intros (Ht & email & He & Hb). unfold userCodec_toEntity. rewrite He.
  destruct (String.eqb_spec (ud_TenantID d) ""); [done|]. intros [= <-]. simpl. auto.
Qed.

(** The document made of a user stands for the user. *)
Definition doc_of (u : User) (d : userDoc) : Prop :=
  ud_ID d = u_ID u /\ ud_TenantID d = u_TenantID u /\
  ud_EmailBlindIndex d = Cipher_BlindIndex email_cipher (u_Email u) /\
  ud_PasswordResetTokenHash d = u_PasswordResetTokenHash u /\
  (u_TenantID u <> "" -> user_row (userDoc_norm d) /\
     userCodec_toEntity (userDoc_norm d) = inl (user_norm ms_trunc u)).

Lemma toDoc_run u s : exists o s', userCodec_toDoc u s = (o, s') /\ sys_le s s' /\
  match o with Ret d => doc_of u d | Panic _ => True end.
Proof.
  unfold userCodec_toDoc. destruct (cipher_roundtrip email_cipher (u_Email u) s) as (r & s' & Hr & Hle & Hd).
  unfold bind. rewrite Hr. destruct r as [ct|err]; eexists _, _; (split; [reflexivity|]); (split; [done|]); [|done].
  split_and!; try done. intros Ht. split.
  - split; [done|]. exists (u_Email u). done.
  - unfold userCodec_toEntity. simpl. rewrite Hd. by destruct (String.eqb_spec (u_TenantID u) "").
Qed.

Lemma mongo_user_save l u s (r : MongoRepo User) :
  mongo_inv user_indexes r -> mr_heap r !! l = Some u -> u_TenantID u <> "" ->
  wp (MongoUser_Save l) (fun o '(s', r') => sys_le s s' /\ mr_heap r' = mr_heap r /\ coll_ok (mr_col r') /\
    coll_indexes (mr_col r') = coll_indexes (mr_col r) /\
    (o <> Ret None /\ coll_docs (mr_col r') = coll_docs (mr_col r) \/
     exists d, mc_toEntity d = inl (user_norm ms_trunc u) /\ mc_ID d = u_ID u /\ forall m, rows (mr_col r) m ->
     written o (coll_docs (mr_col r)) (coll_docs (mr_col r')) (rows (mr_col r') (<[mc_ID d := d]> m)))) (s, r).
Proof.
  intros (Hok & Hix & m & Hm) Hl Ht. unfold MongoUser_Save. apply wp_bind.
  eapply wp_eq; [unfold mr_deref; simpl; by rewrite Hl|]. apply wp_bind.
  destruct (toDoc_run u s) as (o & s1 & Hdoc & Hle & Hd).
  eapply wp_eq; [unfold on_sys; simpl; by rewrite Hdoc|]. destruct o as [doc|]; [|by eauto 10].
  destruct Hd as (Hid & _ & _ & _ & Hrow). destruct (Hrow Ht) as [Hr He].
  destruct (upsert_run doc s1 r m Hok Hm Hr) as (n & e & c' & Hrun & Hok' & Hi & _).
  apply wp_bind. eapply wp_eq; [exact Hrun|]. apply wp_ret. do 4 (split; [done|]). right.
  exists (userDoc_norm doc). do 2 (split; [done|]). intros m' Hm'.
  destruct (upsert_run doc s1 r m' Hok Hm' Hr) as (n' & e' & c'' & Hrun' & _ & _ & He').
  rewrite Hrun in Hrun'. injection Hrun' as <- <- <-. unfold written. destruct e as [err|]; [by destruct He'|done].
Qed.

(** Two users of one tenant never share a blind index. *)
Lemma mongo_users_unique (r : MongoRepo User) id1 id2 u1 u2 : mongo_inv user_indexes r ->
  coll_view User (mr_col r) !! id1 = Some u1 -> coll_view User (mr_col r) !! id2 = Some u2 ->
  u_TenantID u1 = u_TenantID u2 -> blind_equal (u_Email u1) (u_Email u2) -> id1 = id2.
Proof.
  intros (Hok & Hix & m & Hm) (d1 & H1 & E1)%(view_lookup _ m _ _ Hm) (d2 & H2 & E2)%(view_lookup _ m _ _ Hm) Ht He.
  pose proof Hm as [Hd Hmm]. destruct (Hmm id1 d1 H1) as (_ & _ & R1). destruct (Hmm id2 d2 H2) as (_ & _ & R2).
  destruct (user_entity_fields _ _ R1 E1) as (_ & T1 & _ & B1 & _).
  destruct (user_entity_fields _ _ R2 E2) as (_ & T2 & _ & B2 & _). unfold blind_equal in He.
  apply (coll_unique _ Hok (mkIndexModel ["tenant_id"; "email_blind_index"] true None) id1 id2 (enc d1) (enc d2));
    [apply Hix; left|done|..]; rewrite ?Hd, ?lookup_fmap, ?H1, ?H2; try done.
  unfold index_key, enc. simpl. rewrite !enc_struct_field. simpl. congruence.
Qed.

Lemma user_id_field (d : userDoc) : enc d !! "_id" = Some (BString (ud_ID d)).
Proof. exact (enc_id d). Qed.

Lemma user_hash_matches h (d : userDoc) :
  matches [("password_reset_token_hash", GVal (GString h))] (enc d) = true <->
  ud_PasswordResetTokenHash d = Some h.
Proof.
  rewrite matches_cons. unfold enc, matches, cond_matches. simpl. rewrite !enc_struct_field.
  destruct d as [? ? ? ? ? ? ? ? [h'|] [] [] ? [] ? ?]; simpl; rewrite ?andb_true_r, ?bool_decide_eq_true; naive_solver.
Qed.

Lemma user_email_matches tid bi (d : userDoc) :
  matches [("tenant_id", GVal (GString tid)); ("email_blind_index", GVal (GString bi))] (enc d) = true <->
  ud_EmailBlindIndex d = bi /\ ud_TenantID d = tid.
Proof.
  rewrite matches_cons. unfold enc, matches, cond_matches. simpl. rewrite !enc_struct_field. simpl.
  rewrite andb_true_r, andb_true_iff, !bool_decide_eq_true. naive_solver.
Qed.

(** A document the server accepted is a new user: no user of the tenant has the
    address. *)
Lemma mongo_user_inserted u doc (r : MongoRepo User) c' :
  mongo_inv user_indexes r -> doc_of u doc -> u_TenantID u <> "" ->
  coll_ok c' -> coll_indexes c' = coll_indexes (mr_col r) ->
  coll_docs (mr_col r) !! ud_ID doc = None -> coll_docs c' = <[ud_ID doc := enc doc]> (coll_docs (mr_col r)) ->
  mongo_inv user_indexes (mkMongoRepo (mr_heap r) c') /\
  coll_view User c' = <[u_ID u := user_norm ms_trunc u]> (coll_view User (mr_col r)) /\
  forall id u', coll_view User (mr_col r) !! id = Some u' -> u_TenantID u' = u_TenantID u ->
    ~ blind_equal (u_Email u') (u_Email u).
Proof.
  intros (Hok & Hix & m & Hm) (Hid & _ & _ & _ & Hrow) Ht Hok' Hi Hfree Hd'. destruct (Hrow Ht) as [Hr He].
  assert (rows c' (<[ud_ID doc := userDoc_norm doc]> m)) as Hrows by exact (rows_insert (mr_col r) c' m (ud_ID doc) doc Hm eq_refl Hr Hd').
  assert (mongo_inv user_indexes (mkMongoRepo (mr_heap r) c')) as Hinv'
    by (split; [done|]; simpl; rewrite Hi; eauto).
  assert (coll_view User c' = <[u_ID u := user_norm ms_trunc u]> (coll_view User (mr_col r))) as Hv
    by (rewrite <-Hid; by eapply view_insert).
  split; [done|]. split; [done|]. intros id u' Hu' Htn Hb. assert (id <> u_ID u) as Hne.
  { intros ->. apply (view_lookup _ m _ _ Hm) in Hu' as (d & Hl' & _). destruct Hm as [Hd0 _].
    by rewrite Hd0, lookup_fmap, Hid, Hl' in Hfree. }
  apply Hne. apply (mongo_users_unique (mkMongoRepo (mr_heap r) c') id (u_ID u) u' (user_norm ms_trunc u));
    simpl; rewrite ?Hv, ?lookup_insert_eq, ?lookup_insert_ne by done; done.
Qed.

Lemma mongo_user_create l u s (r : MongoRepo User) :
  mongo_inv user_indexes r -> mr_heap r !! l = Some u -> u_TenantID u <> "" ->
  wp (MongoUser_CreateUser l) (fun o '(s', r') => sys_le s s' /\ mongo_inv user_indexes r' /\
    mr_heap r' !! l = Some u /\
    written o (coll_view User (mr_col r)) (coll_view User (mr_col r'))
      (coll_view User (mr_col r') = <[u_ID u := user_norm ms_trunc u]> (coll_view User (mr_col r)) /\
       forall id u', coll_view User (mr_col r) !! id = Some u' -> u_TenantID u' = u_TenantID u ->
         ~ blind_equal (u_Email u') (u_Email u))) (s, r).
Proof.
  intros Hinv Hl Ht. pose proof Hinv as (Hok & Hix & m & Hm). unfold MongoUser_CreateUser. apply wp_bind.
  eapply wp_eq; [unfold mr_deref; simpl; by rewrite Hl|]. apply wp_bind.
  destruct (toDoc_run u s) as (o & s1 & Hdoc & Hle & Hd).
  eapply wp_eq; [unfold on_sys; simpl; by rewrite Hdoc|].
  destruct o as [doc|]; [|split; [done|]; split; [done|]; split; [done|by left]].
  destruct (insertOne_law (userDoc_struct doc) (ud_ID doc) (mr_col r) Hok (user_id_field doc))
    as (e & c' & Hrun & Hok' & Hi & Hx).
  apply wp_bind. eapply wp_eq; [unfold in_col; simpl; by rewrite Hrun|]. apply wp_ret. split; [done|].
  pose proof (mongo_user_inserted u doc r c' Hinv Hd Ht Hok' Hi) as Hst.
  unfold written. simpl. destruct e as [err|].
  - destruct Hx as [[_ [Hs|(_ & Hf & Hs)]] _].
    + split; [eapply inv_same; [exact Hinv|]; by split|]. split; [done|].
      destruct (IsDuplicateKeyError err); left; by apply same_view.
    + destruct (Hst Hf Hs) as [? ?]. split; [done|]. split; [done|]. destruct (IsDuplicateKeyError err); by right.
  - destruct Hx as [Hf Hs]. destruct (Hst Hf Hs). auto.
Qed.

Notation consume_filter id h :=
  [("_id", GVal (GString id)); ("password_reset_token_hash", GVal (GString h))].

Lemma consume_matches id h (d : userDoc) :
  matches (consume_filter id h) (enc d) = true <->
  ud_ID d = id /\ ud_PasswordResetTokenHash d = Some h.
Proof.
  rewrite matches_cons, andb_true_iff, user_hash_matches. unfold cond_matches.
  rewrite user_id_field, bool_decide_eq_true. naive_solver.
Qed.

Lemma consume_acts id h doc (m : gmap string userDoc) :
  ud_ID doc = id -> user_row (userDoc_norm doc) ->
  acts (consume_filter id h) (buildUserUpdate doc) (fun _ => userDoc_norm doc) m.
Proof.
  intros Hid Hr id' d Hl [Hd _]%consume_matches. split.
  - transitivity (enc doc); [exact (update_enc doc d)|]. symmetry. exact (enc_norm doc).
  - split; [simpl; congruence|]. split; [exact (norm_idem doc)|done].
Qed.

(** The write of the consumed token: the user is replaced if the token is still
    there, and nothing happens otherwise. *)
Lemma mongo_consume h u s (r : MongoRepo User) : mongo_inv user_indexes r -> u_TenantID u <> "" ->
  wp (MongoUser_consume h u) (fun o '(s', r') => sys_le s s' /\ mongo_inv user_indexes r' /\
    let stored := coll_view User (mr_col r') = <[u_ID u := user_norm ms_trunc u]> (coll_view User (mr_col r)) /\
      exists u0, coll_view User (mr_col r) !! u_ID u = Some u0 /\ u_PasswordResetTokenHash u0 = Some h in
    match o with
    | Ret None => stored
    | Ret (Some e) => is_ErrorStruct e = false /\ (coll_view User (mr_col r') = coll_view User (mr_col r) \/ stored)
    | Panic _ => coll_view User (mr_col r') = coll_view User (mr_col r)
    end) (s, r).
Proof.
  intros Hinv Ht. pose proof Hinv as (Hok & Hix & m & Hm). unfold MongoUser_consume. cbv zeta. apply wp_bind.
  destruct (toDoc_run u s) as (o & s1 & Hdoc & Hle & Hd).
  eapply wp_eq; [unfold on_sys; simpl; by rewrite Hdoc|]. destruct o as [doc|]; [|done].
  destruct Hd as (Hid & _ & _ & _ & Hrow). destruct (Hrow Ht) as [Hr He]. apply wp_bind.
  destruct (updateOne_run (consume_filter (u_ID u) h) (buildUserUpdate doc) _ s1 r m Hok Hm
    (consume_acts (u_ID u) h doc m Hid Hr)) as (n & e & c' & Hrun & Hok' & Hi & Hx).
  eapply wp_eq; [exact Hrun|]. clear Hrun.
  assert (one_row (consume_filter (u_ID u) h) (fun _ => userDoc_norm doc) m c' ->
    mongo_inv user_indexes (mkMongoRepo (mr_heap r) c') /\
    coll_view User c' = <[u_ID u := user_norm ms_trunc u]> (coll_view User (mr_col r)) /\
    exists u0, coll_view User (mr_col r) !! u_ID u = Some u0 /\ u_PasswordResetTokenHash u0 = Some h) as Hone.
  { intros (id & d & Hl & [Hdi Hdh]%consume_matches & Hrows). pose proof Hm as [_ Hmm].
    destruct (Hmm id d Hl) as (Hid' & _ & Hrd). simpl in Hid'. rewrite Hdi in Hid'. subst id.
    split; [split; [done|]; simpl; rewrite Hi; eauto|]. split; [by eapply view_insert|].
    destruct (row_entity d Hrd) as [u0 Hu0]. exists u0. split; [apply (view_lookup _ m); eauto|].
    destruct (user_entity_fields d u0 Hrd Hu0) as (_ & _ & _ & _ & ->). done. }
  assert (coll_docs c' = coll_docs (mr_col r) -> mongo_inv user_indexes (mkMongoRepo (mr_heap r) c')) as Hsame.
  { intros Hs. eapply inv_same; [exact Hinv|]. split; [done|]. split; done. }
  destruct e as [err|]; [|destruct Hx as [[-> Hx]|(-> & Hs & _)]]; simpl; apply wp_ret; (split; [done|]).
  - destruct Hx as [(_ & _ & Hes) [Hs|Hx]].
    + split; [auto|]. split; [done|]. left. by apply same_view.
    + destruct (Hone Hx). auto.
  - destruct (Hone Hx). auto.
  - split; [auto|]. split; [done|]. left. by apply same_view.
Qed.

Lemma mongo_user_update C h (c0 : C) upd s (r : MongoRepo User) : mongo_inv user_indexes r ->
  (forall id u s0, coll_view User (mr_col r) !! id = Some u -> u_PasswordResetTokenHash u = Some h ->
     sys_le s0 (upd u s0).2 /\
     forall c u', (upd u s0).1 = Ret (c, u', None) ->
       u_ID u' = u_ID u /\ u_TenantID u' = u_TenantID u /\ u_Email u' = u_Email u /\
       u_PasswordResetTokenHash u' = None) ->
  wp (MongoUser_UpdateByPasswordResetTokenHash h c0 upd) (fun o '(s', r') => sys_le s s' /\
    mongo_inv user_indexes r' /\
    let same := coll_view User (mr_col r') = coll_view User (mr_col r) in
    ((o = Ret (c0, Some ErrNotFound) /\ same /\
        forall id u, coll_view User (mr_col r) !! id = Some u -> u_PasswordResetTokenHash u <> Some h) \/
     (exists e, o = Ret (c0, Some e) /\ errors_Is e ErrNotFound = false /\ is_ErrorStruct e = false /\ same) \/
     exists u s0, coll_view User (mr_col r) !! u_ID u = Some u /\ u_PasswordResetTokenHash u = Some h /\
       sys_le s s0 /\ sys_le (upd u s0).2 s' /\
       match (upd u s0).1 with
       | Panic e => o = Panic e /\ same
       | Ret (c, _, Some err) => o = Ret (c, Some err) /\ same
       | Ret (c, u', None) =>
         let stored := coll_view User (mr_col r') = <[u_ID u := user_norm ms_trunc u']> (coll_view User (mr_col r)) in
         match o with
         | Ret (c', None) => c' = c /\ stored
         | Ret (c', Some e) => c' = c /\ is_ErrorStruct e = false /\ (same \/ stored)
         | Panic _ => same \/ stored
         end
       end)) (s, r).
Proof.
  intros Hinv Hupd. pose proof Hinv as (Hok & Hix & m & Hm).
  destruct (mr_findOne_run [("password_reset_token_hash", GVal (GString h))] s r m Hok Hm)
    as (x & c' & Hrun & Hs & Hx).
  unfold MongoUser_UpdateByPasswordResetTokenHash. apply wp_bind. eapply wp_eq; [exact Hrun|].
  pose proof (inv_same _ r (mr_heap r) c' Hinv Hs) as Hinv'.
  assert (coll_view User c' = coll_view User (mr_col r)) as Hv by (apply same_view; by destruct Hs as (_ & ? & _)).
  destruct Hx as [(id & d & u & -> & Hl & Hh%user_hash_matches & Hu)|[(-> & Hno)|(e & -> & He & _ & Hes)]].
  - pose proof Hm as [_ Hmm]. destruct (Hmm id d Hl) as (Hid & _ & Hrow).
    destruct (user_entity_fields d u Hrow Hu) as (Huid & _ & Hten & _ & Huh). rewrite Hh in Huh.
    assert (coll_view User (mr_col r) !! u_ID u = Some u) as Hview.
    { simpl in Hid. rewrite Huid, Hid. apply (view_lookup _ m); eauto. }
    destruct (Hupd _ u s Hview Huh) as [Hle Hc].
    destruct (upd u s) as [o1 s1] eqn:Hup. simpl in Hle, Hc. apply wp_bind.
    eapply wp_eq; [unfold on_sys; simpl; by rewrite Hup|].
    destruct o1 as [[[c u'] [err|]]|err].
    + apply wp_ret. split; [done|]. split; [done|]. right. right. exists u, s. rewrite Hup. done.
    + destruct (Hc c u' eq_refl) as (Hid' & Ht' & _). apply wp_bind.
      eapply wp_mono; [apply (mongo_consume h u' s1 _ Hinv'); congruence|].
      intros o [s2 r2] (Hle2 & Hinv2 & Ho). simpl in Ho. rewrite Hv, Hid' in Ho.
      destruct o as [e|err]; [apply wp_ret|]; (split; [by etrans|]); (split; [done|]); right; right;
        exists u, s; rewrite Hup; (split; [done|]); (split; [done|]); (split; [done|]); (split; [done|]); simpl.
      * destruct e as [e|]; [|by destruct Ho]. destruct Ho as [? [?|[? _]]]; auto.
      * by left.
    + split; [done|]. split; [done|]. right. right. exists u, s. rewrite Hup. done.
  - apply wp_ret. split; [done|]. split; [done|]. left. split; [done|]. split; [done|].
    intros id u (d & Hl & Hu)%(view_lookup _ m _ _ Hm) Hh. pose proof Hm as [_ Hmm].
    destruct (Hmm id d Hl) as (_ & _ & Hrow). destruct (user_entity_fields d u Hrow Hu) as (_ & _ & _ & _ & Huh).
    specialize (Hno id d Hl). apply not_true_iff_false in Hno. apply Hno, user_hash_matches. congruence.
  - apply wp_ret. split; [done|]. split; [done|]. right. left. exists e. auto.
Qed.

#[export] Instance mongo_user_contract : UserContract E ms_trunc blind_equal mongoUserRepo.
Proof.
  split.
  - apply mongo_ptr_contract.
    + intros d x Hr Hx. by destruct (user_entity_fields d x Hr Hx).
    + intros l x s r Hinv Hl [Ht _]. by apply mongo_user_save.
  - intros r id1 id2 u1 u2 Hinv. apply (mongo_users_unique r id1 id2 u1 u2 Hinv).
  - intros l u s r Hinv Hl Ht _. exact (mongo_user_create l u s r Hinv Hl Ht).
  - intros tid email s r Hinv.
    refine (mongo_find_law user_indexes MongoUser_Save [("tenant_id", GVal (GString tid));
      ("email_blind_index", GVal (GString (Cipher_BlindIndex email_cipher email)))] _ s r Hinv _).
    intros d x Hr Hx. destruct (user_entity_fields d x Hr Hx) as (_ & Ht & _ & Hb & _).
    rewrite user_email_matches, Ht, Hb. done.
  - intros id s r Hinv. refine (mongo_find_law user_indexes MongoUser_Save [("_id", GVal (GString id))] _ s r Hinv _).
    intros d x Hr Hx. destruct (user_entity_fields d x Hr Hx) as (-> & _). exact (matches_row_id id d).
  - intros h s r Hinv. refine (mongo_find_law user_indexes MongoUser_Save
      [("password_reset_token_hash", GVal (GString h))] _ s r Hinv _).
    intros d x Hr Hx. destruct (user_entity_fields d x Hr Hx) as (_ & _ & _ & _ & ->). exact (user_hash_matches h d).
  - intros C h c0 upd s r Hinv Hupd. exact (mongo_user_update C h c0 upd s r Hinv Hupd).
Qed.

End MongoUserContract.
