(* ===== verification/Forward.v ===== *)
(** * The file backend only moves the counters forward

    [PortsForward] for the file adapters: no operation sets the clock back, in
    any state, failures and panics included. *)

From S2P Require Import Prelude GoStd Crypto Errors Env Cipher Scope User Token Client AuthFlow Cache FileRepo Ports Adapters.

Section FileForward.
  Context {E : Env} {T D : Type} `{!FileCodec E T D} {HF : CodecOk (T := T) (D := D)}.

Notation fwd := (forward (fst : Sys * FileRepo T D -> Sys)).

Lemma fr_get_forward : fwd fr_get.
Proof. intros p. reflexivity. Qed.
Lemma fr_modify_forward f : fwd (fr_modify f).
Proof. intros p. reflexivity. Qed.
Lemma fr_new_forward x : fwd (fr_new x).
Proof. intros p. reflexivity. Qed.
Lemma fr_range_forward : fwd fr_range.
Proof. intros p. reflexivity. Qed.
Lemma fr_deref_forward l : fwd (fr_deref l).
Proof. intros p. unfold fr_deref. destruct (fr_heap p.2 !! l); reflexivity. Qed.
Lemma fr_sys_forward {A} (m : ST Sys A) : forward (fun s => s) m -> fwd (fr_sys m).
Proof. intros H p. unfold fr_sys. specialize (H p.1). destruct (m p.1). exact H. Qed.
Lemma toDoc_forward x : forward (fun s => s) (fc_toDoc x).
Proof. intros s. apply toDoc_mono. Qed.

#[local] Hint Resolve fr_get_forward fr_modify_forward fr_new_forward fr_range_forward fr_deref_forward
  fr_sys_forward toDoc_forward : respects.

Lemma buildIndex_go_forward field l index : fwd (buildIndex_go field l index).
Proof. revert index. induction l as [|[id loc] l IH]; intros index; simpl; solve_respects. Qed.

Lemma toDocs_forward l : fwd (toDocs l).
Proof. induction l as [|[id loc] l IH]; simpl; solve_respects. Qed.

#[local] Hint Resolve buildIndex_go_forward toDocs_forward : respects.

Lemma rebuild_go_forward fields : fwd (rebuild_go fields).
Proof. induction fields; simpl; unfold buildIndex; solve_respects. Qed.

Lemma find_forward field value : fwd (findByFieldLocked field value).
Proof. unfold findByFieldLocked, ensureIndex, buildIndex. solve_respects. Qed.

Lemma writeToFile_forward docs : fwd (writeToFile docs).
Proof. unfold writeToFile. solve_respects. Qed.

#[local] Hint Resolve rebuild_go_forward find_forward writeToFile_forward : respects.

Lemma persist_forward item : fwd (persist item).
Proof. unfold persist, writeItemsWith, updateIndexesForItem. solve_respects. Qed.

#[local] Hint Resolve persist_forward : respects.

Lemma create_forward field value item : fwd (fr_CreateIfFieldNotExists field value item).
Proof. unfold fr_CreateIfFieldNotExists. solve_respects. Qed.

Lemma updateByField_forward {C} field value (c0 : C) update :
  (forall x, forward (fun s => s) (update x)) -> fwd (fr_UpdateByField field value c0 update).
Proof. intros H. unfold fr_UpdateByField. solve_respects. Qed.

(** An update that succeeds has called the callback. *)
Lemma updateByField_called {C} field value (c0 c : C) update q q' :
  (forall x, forward (fun s => s) (update x)) ->
  fr_UpdateByField field value c0 update q = (Ret (c, None), q') ->
  exists x x' s s', sys_le q.1 s /\ update x s = (Ret (c, x', None), s') /\ sys_le s' q'.1.
Proof.
  intros Hfwd Hrun. unfold fr_UpdateByField in Hrun.
  apply bind_Ret_inv in Hrun as (f & q1 & Hf & Hrun). pose proof (find_forward field value q) as L1. rewrite Hf in L1.
  destruct f as [[item|] [e|]]; try done. apply bind_Ret_inv in Hrun as (x & q2 & Hx & Hrun).
  pose proof (fr_deref_forward item q1) as L2. rewrite Hx in L2.
  apply bind_Ret_inv in Hrun as ([[c1 x'] e] & q3 & Hu & Hrun). unfold fr_sys in Hu.
  destruct (update x q2.1) as [o s3] eqn:Hupd. injection Hu as -> <-.
  destruct e as [err|]; [done|]. apply bind_Ret_inv in Hrun as (cp & q4 & Hn & Hrun).
  pose proof (fr_new_forward x' (s3, q2.2)) as L4. rewrite Hn in L4.
  apply bind_Ret_inv in Hrun as (e' & q5 & Hpe & [= -> -> ->]).
  pose proof (persist_forward cp q4) as L5. rewrite Hpe in L5. simpl in *.
  exists x, x', q2.1, s3. split_and!; [etrans; [exact L1|exact L2]|done|etrans; [exact L4|exact L5]].
Qed.

Lemma updateAll_go_forward update l next :
  (forall x, forward (fun s => s) (update x)) -> fwd (updateAll_go update l next).
Proof. intros H. revert next. induction l as [|[id item] l IH]; intros next; simpl; solve_respects. Qed.

Lemma updateAll_forward update : (forall x, forward (fun s => s) (update x)) -> fwd (fr_UpdateAll update).
Proof.
  intros H. pose proof (fun l next => updateAll_go_forward update l next H).
  unfold fr_UpdateAll, writeItems, rebuildIndexes. solve_respects.
Qed.

Lemma file_store_forward : PtrStoreForward T filePtrStore.
Proof. split; intros; simpl; unfold fr_assign, fr_Save; solve_respects. Qed.

End FileForward.

#[export] Hint Resolve fr_deref_forward find_forward create_forward updateByField_forward updateAll_forward
  persist_forward fr_new_forward : respects.
#[export] Hint Extern 0 CodecOk => exact _ : respects.

Lemma rt_sweep_forward {E : Env} sel x : forward (fun s => s) (rt_sweep sel x).
Proof. unfold rt_sweep. solve_respects. Qed.

#[export] Hint Resolve rt_sweep_forward : respects.

(** Reaching the end of the file backend: all its operations. *)
#[export] Instance file_forward {E : Env} {A : Aead} {EC : EmailCipher} :
  PortsForward fileUserRepo fileGrantRepo fileRTRepo.
Proof.
  split; try apply file_store_forward; intros; simpl in *;
    unfold fileUser_CreateUser, fileUser_FindByEmail, fileUser_FindByID,
      fileUser_UpdateByPasswordResetTokenHash, fileGrant_FindByID, fileGrant_Revoke, fileRT_Save,
      fileRT_FindByTokenHash, fileRT_RevokeByTokenHash, fileRT_RevokeAllForUser, fileRT_RevokeAllForGrant,
      fr_Save, fr_FindByField in *.
  all: try (by eapply updateByField_called).
  all: solve_respects.
  all: apply updateByField_forward; intros; unfold grant_revoke, rt_revoke; solve_respects.
Qed.

(** ** The backends implement the ports *)

(** C24: The file backend keeps the promises the use cases rely on: for users, grants
    and refresh tokens, every lookup, save, conditional update and sweep behaves
    as its port says, on success, on conflict and when the disk fails; no
    operation sets the clock back; and when no disk write fails, the operations
    the use cases ignore the errors of do not fail either. *)
Theorem file_backend_implements_ports {E : Env} {A : Aead} {EC : EmailCipher} :
  ClockMono E ->
  UserRepoLaws E fileUserRepo /\ GrantRepoLaws E fileGrantRepo /\ RefreshTokenRepoLaws E fileRTRepo /\
  PortsForward fileUserRepo fileGrantRepo fileRTRepo /\
  (DiskOk E -> GrantRepoReliable fileGrantRepo /\ RefreshTokenRepoReliable fileRTRepo).
Proof. intros CM. split_and!; try exact _. intros DO. split; exact _. Qed.
