(* ===== verification/Services.v ===== *)
(** * Application services and shared definitions
      (modules/auth/application/service, define)

    Client authentication, token issuance and the revocation markers, as used
    by the commands and queries; the lifetimes and response types of package
    define. *)

From S2P Require Import Prelude GoStd Crypto Errors Env Scope User Token Client AuthFlow Jwt Cache Ports.

Local Open Scope Z_scope.

(** ** define *)

Definition TokenTypeBearer : string := "Bearer".

Definition MetricFailedLogins : string := "auth_failed_logins_total".
Definition MetricTokensIssued : string := "auth_tokens_issued_total".
Definition MetricTokenRevocations : string := "auth_token_revocations_total".

Definition DefaultExpirySecs : Z := 900.
Definition MaxTokenExpirySecs : Z := 86400.
Definition RevokedGrantMarkerTTL : Z := MaxTokenExpirySecs * Second.
Definition SessionsInvalidationTTL : Z := MaxTokenExpirySecs * Second.

Definition ResolveExpirySecs (requested : option Z) : Z :=
  match requested with
  | None => DefaultExpirySecs
  | Some r => if r <=? 0 then DefaultExpirySecs else Z.min r MaxTokenExpirySecs
  end.

(** The dependencies every use case is built from (define.Dependencies). *)
Class Deps := {
  d_ClientRegistry : ClientRegistry;
  d_PostLogoutRedirectAllowlist : list string;
  d_ScopeAllowlist : list string;
  (** what the SMTP server answers to a mail, given the mails sent before *)
  d_SendMail : list (string * string) -> string * string -> option goerr;
}.

(** Requested lifetimes are clamped to a day, the default is a quarter of an
    hour, and the lifetime in nanoseconds fits an int64. *)
Theorem ResolveExpirySecs_bounds (requested : option Z) :
  let secs := ResolveExpirySecs requested in
  1 <= secs <= 86400 /\ wrap64 (Second * secs) = Second * secs /\
  (forall r, requested = Some r -> 1 <= r <= 86400 -> secs = r) /\
  Second * secs <= RevokedGrantMarkerTTL /\ Second * secs <= SessionsInvalidationTTL.
Proof.
  unfold ResolveExpirySecs, DefaultExpirySecs, MaxTokenExpirySecs, RevokedGrantMarkerTTL,
    SessionsInvalidationTTL, MaxTokenExpirySecs. cbn zeta.
  destruct requested as [r|]; [destruct (Z.leb_spec r 0)|];
    rewrite wrap64_id by (unfold two63, Second; lia); unfold Second;
    (split; [lia|]); (split; [done|]); (split; [intros ? [= <-]; lia|lia]) || (split; [done|lia]).
Qed.

(** ** service/client_authenticator.go *)

Record ClientCredentials := mkClientCredentials {
  cc_ClientID : string;
  cc_FormSecret : string;
  cc_BasicClientID : string;
  cc_BasicSecret : string;
}.

Definition resolveCredentialChannel (creds : ClientCredentials) : (string * string * bool) + goerr :=
  if String.eqb (cc_BasicClientID creds) "" then inl (cc_ClientID creds, cc_FormSecret creds, false)
  else if negb (String.eqb (cc_ClientID creds) "") &&
          negb (String.eqb (cc_ClientID creds) (cc_BasicClientID creds))
  then inr (ErrMsg "client_id mismatch between Basic auth and request body")
  else inl (cc_BasicClientID creds, cc_BasicSecret creds, true).

Section Services.
  Context {E : Env} {TS : TokenServiceI} {D : Deps}.

(** The switch on the registered method, and the secret check after it. *)
Definition checkCredentials (client : Client) (secret : string) (viaBasic : bool) : Client + goerr :=
  let verify :=
    if Client_VerifySecret client secret then inl client
    else inr (ErrMsg "client authentication failed") in
  if String.eqb (c_AuthMethod client) ClientAuthNone then
    if viaBasic || negb (String.eqb secret "")
    then inr (ErrMsg "public client must not present credentials")
    else inl client
  else if String.eqb (c_AuthMethod client) ClientAuthSecretBasic then
    if negb viaBasic then inr (ErrMsg "client must authenticate with client_secret_basic") else verify
  else if String.eqb (c_AuthMethod client) ClientAuthSecretPost then
    if viaBasic then inr (ErrMsg "client must authenticate with client_secret_post") else verify
  else inr (ErrMsg "unsupported client auth method").

Definition ClientAuthenticator_Authenticate (creds : ClientCredentials) : Client + goerr :=
  match resolveCredentialChannel creds with
  | inr err => inr err
  | inl (clientID, secret, viaBasic) =>
    match Registry_FindByID d_ClientRegistry DefaultTenantID clientID with
    | None => inr (ErrMsg "unknown client")
    | Some client => checkCredentials client secret viaBasic
    end
  end.

(** ** service/token_issuance.go *)

Record IssueTokensArgs := mkIssueTokensArgs {
  ita_User : User;
  ita_ClientID : string;
  ita_Nonce : string;
  ita_Scope : Scope;
  ita_ExpireSecs : Z;
  ita_ExistingGrantID : string;
}.

(** The part of [IssueTokens] after the choice of the grant. *)
Definition issueUnder (req : IssueTokensArgs) (newGrant : option Grant) (grantID : string)
  : ST Sys (option IssuedTokens * option goerr) :=
  a ← ts_GenAccessToken (u_ID (ita_User req)) (Scope_String (ita_Scope req)) grantID (ita_ExpireSecs req);
  match a with
  | (_, Some err) => mret (None, Some (NewErr GenTokenFailed err))
  | (accessToken, None) =>
    r ← ts_GenRefreshToken (u_ID (ita_User req));
    match r with
    | (_, Some err) => mret (None, Some (NewErr GenRefreshTokenFailed err))
    | (rawRefreshToken, None) =>
      i ← (if Scope_Contains (ita_Scope req) ScopeOpenID
           then ts_GenIDToken (mkIDTokenArgs (u_ID (ita_User req)) (ita_ClientID req)
                  (u_Email (ita_User req)) (ita_Nonce req) grantID (u_EmailVerified (ita_User req))
                  (ita_ExpireSecs req))
           else mret ("", None));
      match i with
      | (_, Some err) => mret (None, Some (NewErr GenTokenFailed err))
      | (idToken, None) =>
        mret (Some {| it_AccessToken := accessToken; it_RefreshToken := rawRefreshToken;
                      it_IDToken := idToken; it_Scope := ita_Scope req; it_GrantID := grantID;
                      it_NewGrant := newGrant |}, None)
      end
    end
  end.

Definition IssueTokens (req : IssueTokensArgs) : ST Sys (option IssuedTokens * option goerr) :=
  ' (newGrant, grantID) ←
    (if String.eqb (ita_ExistingGrantID req) ""
     then g ← NewGrant (u_ID (ita_User req)) (ita_ClientID req); mret (Some g, g_ID g)
     else mret (None, ita_ExistingGrantID req));
  issueUnder req newGrant grantID.

(** ** service/revocation_cache.go *)

Section RevocationCache.
  Context `{CI : CacheI} `{UI : UserRepoI} `{GI : GrantRepoI} `{RI : RefreshTokenRepoI}.

Definition BlacklistJTI (jti : string) (expiresAt : Z) : ST World (option goerr) :=
  t ← in_sys time_Now;
  in_cache (cache_Set (BlacklistKey jti) (VBool true) (Some (expiresAt - t))).

Definition MarkGrantRevoked (grantID : string) : ST World (option goerr) :=
  in_cache (cache_Set (RevokedGrantKey grantID) (VBool true) (Some RevokedGrantMarkerTTL)).

Definition MarkSessionsInvalidated (userID : string) (at_ : Z) : ST World (option goerr) :=
  in_cache (cache_Set (SessionsInvalidatedKey userID) (VInt64 (time_Unix at_)) (Some SessionsInvalidationTTL)).

End RevocationCache.

(** ** Client authentication *)

(** The credentials fit the registered method. *)
Definition credentials_fit (c : Client) (secret : string) (viaBasic : bool) : Prop :=
  (c_AuthMethod c = ClientAuthNone /\ viaBasic = false /\ secret = "") \/
  (c_AuthMethod c = ClientAuthSecretBasic /\ viaBasic = true /\ Client_VerifySecret c secret = true) \/
  (c_AuthMethod c = ClientAuthSecretPost /\ viaBasic = false /\ Client_VerifySecret c secret = true).

Lemma checkCredentials_spec c0 secret viaBasic c :
  checkCredentials c0 secret viaBasic = inl c <-> c0 = c /\ credentials_fit c secret viaBasic.
Proof.
  unfold checkCredentials, credentials_fit.
  assert (ClientAuthNone <> ClientAuthSecretBasic) by done.
  assert (ClientAuthNone <> ClientAuthSecretPost) by done.
  assert (ClientAuthSecretBasic <> ClientAuthSecretPost) by done.
  destruct (String.eqb_spec (c_AuthMethod c0) ClientAuthNone) as [Hn|Hn].
  { destruct viaBasic; simpl; [split; [done|intuition congruence]|].
    destruct (String.eqb_spec secret ""); simpl; split; [|intuition congruence|done|intuition congruence].
    intros [= ->]. auto. }
  destruct (String.eqb_spec (c_AuthMethod c0) ClientAuthSecretBasic) as [Hb|Hb];
    [|destruct (String.eqb_spec (c_AuthMethod c0) ClientAuthSecretPost) as [Hp|Hp]];
    destruct viaBasic, (Client_VerifySecret c0 secret) eqn:Hv; simpl; split;
    try done; intuition congruence.
Qed.

Lemma Authenticate_channel creds id secret viaBasic c :
  resolveCredentialChannel creds = inl (id, secret, viaBasic) ->
  ClientAuthenticator_Authenticate creds = inl c <->
  Registry_FindByID d_ClientRegistry DefaultTenantID id = Some c /\ credentials_fit c secret viaBasic.
Proof.
  intros H. unfold ClientAuthenticator_Authenticate. rewrite H.
  destruct (Registry_FindByID d_ClientRegistry DefaultTenantID id) as [c0|]; [|split; [done|intros [? _]; done]].
  rewrite checkCredentials_spec. split; [intros [-> ?]; auto|intros [[= ->] ?]; auto].
Qed.

(** C33: A client authenticates exactly when it is registered under the identifier of
    the chosen channel, the two channels do not name different clients, and the
    credentials fit its registered method: none at all for a public client, a
    verifying secret over HTTP Basic for client_secret_basic, a verifying secret
    in the form for client_secret_post. *)
Theorem authenticate_sound_complete (creds : ClientCredentials) (c : Client) :
  ClientAuthenticator_Authenticate creds = inl c <->
  exists id secret (viaBasic : bool),
    (if viaBasic
     then cc_BasicClientID creds = id /\ id <> "" /\ cc_BasicSecret creds = secret /\
          (cc_ClientID creds = "" \/ cc_ClientID creds = id)
     else cc_BasicClientID creds = "" /\ cc_ClientID creds = id /\ cc_FormSecret creds = secret) /\
    Registry_FindByID d_ClientRegistry DefaultTenantID id = Some c /\
    credentials_fit c secret viaBasic.
Proof.
  destruct (resolveCredentialChannel creds) as [[[id secret] viaBasic]|err] eqn:Hch.
  - rewrite (Authenticate_channel _ _ _ _ _ Hch). unfold resolveCredentialChannel in Hch.
    destruct (String.eqb_spec (cc_BasicClientID creds) "") as [Hbe|Hbe].
    { injection Hch as <- <- <-. split.
      - intros H. eexists _, _, false. by split.
      - intros (id & secret & [|] & Hc & H); [naive_solver|]. destruct Hc as (_ & <- & <-). done. }
    destruct (String.eqb_spec (cc_ClientID creds) "") as [Hce|Hce],
      (String.eqb_spec (cc_ClientID creds) (cc_BasicClientID creds)) as [Heq|Heq]; simpl in Hch;
      try done; injection Hch as <- <- <-; (split;
      [intros H; eexists _, _, true; split; [auto|exact H]
      |intros (id & secret & [|] & Hc & H); [destruct Hc as (<- & _ & <- & _); done|naive_solver]]).
  - unfold ClientAuthenticator_Authenticate. rewrite Hch. split; [done|].
    unfold resolveCredentialChannel in Hch.
    destruct (String.eqb_spec (cc_BasicClientID creds) "") as [Hbe|Hbe]; [done|].
    destruct (String.eqb_spec (cc_ClientID creds) "") as [Hce|Hce]; [done|].
    destruct (String.eqb_spec (cc_ClientID creds) (cc_BasicClientID creds)) as [Heq|Heq]; [done|].
    intros (id & secret & [|] & Hc & _); naive_solver.
Qed.

End Services.

(** ** Token issuance *)

Section IssueProps.
  Context {E : Env} {TS : TokenServiceI} `{TL : !TokenServiceLaws E TS}.

(** What a successful issuance returns: the scope asked for; an existing grant,
    or a new unrevoked one of this user and client when there was none; an
    access token, a refresh token and, with the openid scope, an ID token that
    all name that grant and that user. *)
Definition issued (req : IssueTokensArgs) (s s' : Sys) (t : IssuedTokens) : Prop :=
  it_Scope t = ita_Scope req /\
  match it_NewGrant t with
  | Some g => ita_ExistingGrantID req = "" /\ it_GrantID t = g_ID g /\ g_ID g = uuid_NewString (n_uuid s) /\
              g_UserID g = u_ID (ita_User req) /\ g_ClientID g = ita_ClientID req /\ g_RevokedAt g = None
  | None => ita_ExistingGrantID req <> "" /\ it_GrantID t = ita_ExistingGrantID req
  end /\
  (exists s1 s2, sys_le s s1 /\ sys_le s2 s' /\
     ts_GenAccessToken (u_ID (ita_User req)) (Scope_String (ita_Scope req)) (it_GrantID t)
       (ita_ExpireSecs req) s1 = (Ret (it_AccessToken t, None), s2)) /\
  (exists s1 s2, sys_le s s1 /\ sys_le s2 s' /\
     ts_GenRefreshToken (u_ID (ita_User req)) s1 = (Ret (it_RefreshToken t, None), s2)) /\
  (if Scope_Contains (ita_Scope req) ScopeOpenID
   then exists s1 s2, sys_le s s1 /\ sys_le s2 s' /\
     ts_GenIDToken (mkIDTokenArgs (u_ID (ita_User req)) (ita_ClientID req) (u_Email (ita_User req))
       (ita_Nonce req) (it_GrantID t) (u_EmailVerified (ita_User req)) (ita_ExpireSecs req)) s1 =
     (Ret (it_IDToken t, None), s2)
   else it_IDToken t = "").

Definition issue_post (req : IssueTokensArgs) (s s' : Sys) (r : option IssuedTokens * option goerr) : Prop :=
  match r with
  | (Some t, None) => issued req s s' t
  | (None, Some e) => exists c err, (c = GenTokenFailed \/ c = GenRefreshTokenFailed) /\ e = NewErr c err
  | _ => False
  end.

Lemma issueUnder_run req g gid s0 s :
  sys_le s0 s ->
  match g with
  | Some g => ita_ExistingGrantID req = "" /\ gid = g_ID g /\ g_ID g = uuid_NewString (n_uuid s0) /\
              g_UserID g = u_ID (ita_User req) /\ g_ClientID g = ita_ClientID req /\ g_RevokedAt g = None
  | None => ita_ExistingGrantID req <> "" /\ gid = ita_ExistingGrantID req
  end ->
  exists r s', issueUnder req g gid s = (Ret r, s') /\ sys_le s s' /\ issue_post req s0 s' r.
Proof.
  intros H0 Hg. unfold issueUnder.
  destruct (ts_genAccess_returns (u_ID (ita_User req)) (Scope_String (ita_Scope req)) gid (ita_ExpireSecs req) s)
    as ([tok err] & s1 & HA & L1). rewrite (bind_run _ _ _ _ _ HA).
  destruct err as [e|]; [eexists _, s1; split; [reflexivity|]; split; [done|]; exists GenTokenFailed, e; auto|].
  destruct (ts_genRefresh_returns (u_ID (ita_User req)) s1) as ([raw err] & s2 & HR & L2).
  rewrite (bind_run _ _ _ _ _ HR). assert (sys_le s s2) by (by etrans).
  destruct err as [e|]; [eexists _, s2; split; [reflexivity|]; split; [done|]; exists GenRefreshTokenFailed, e; auto|].
  destruct (Scope_Contains (ita_Scope req) ScopeOpenID) eqn:Hopen.
  - edestruct ts_genID_returns as ([idt err] & s3 & HI & L3). rewrite (bind_run _ _ _ _ _ HI).
    assert (sys_le s s3) by (by etrans).
    destruct err as [e|]; [eexists _, s3; split; [reflexivity|]; split; [done|]; exists GenTokenFailed, e; auto|].
    eexists _, s3. split; [reflexivity|]. split; [done|]. unfold issue_post, issued. simpl. rewrite Hopen.
    split_and!; [done|done|exists s, s1|exists s1, s2|exists s2, s3]; split_and!; first [done | sys_lia].
  - eexists _, s2. split; [reflexivity|]. split; [done|]. unfold issue_post, issued. simpl. rewrite Hopen.
    split_and!; [done|done|exists s, s1|exists s1, s2|done]; split_and!; first [done | sys_lia].
Qed.

Lemma IssueTokens_run req s :
  exists r s', IssueTokens req s = (Ret r, s') /\ sys_le s s' /\ issue_post req s s' r.
Proof.
  unfold IssueTokens. destruct (String.eqb_spec (ita_ExistingGrantID req) "") as [He|He].
  - destruct (issueUnder_run req
      (Some (mkGrant (uuid_NewString (n_uuid s)) (u_ID (ita_User req)) (ita_ClientID req) "" (now s) (now s)
          (now s + (RefreshTokenTTL + grantExpiryMargin)) None)) (uuid_NewString (n_uuid s)) s
      (mk_Sys (S (n_clock s)) (n_rand s) (S (n_uuid s)) (n_salt s) (n_disk s)))
      as (r & s' & Hr & Hle & Hp); [unfold sys_le; simpl; lia|done|].
    exists r, s'. split; [exact Hr|]. split; [|done]. etrans; [|exact Hle]. unfold sys_le; simpl; lia.
  - destruct (issueUnder_run req None (ita_ExistingGrantID req) s s) as (r & s' & Hr & Hle & Hp); [done..|].
    by exists r, s'.
Qed.

End IssueProps.
