(* ===== verification/Responses.v ===== *)
(** * Responses of the use cases (modules/auth/application/define/response.go)

    The values a use case returns, with the methods the HTTP responder looks
    for: a redirect target, cookies, an HTML page. *)

From S2P Require Import Prelude GoStd Crypto Errors Env Scope User Token AuthFlow Jwt Services.

Local Open Scope Z_scope.

Definition SignInPath : string := "/sign-in".
Definition CookieRefreshToken : string := "refresh_token".
Definition CookieAuthorizeRequest : string := "auth_session".
Definition HTMLKeyCsrfToken : string := "csrf_token".
Definition HTMLKeyTitle : string := "title".
Definition HTMLPageSignIn : string := "sign_in".
Definition HTMLTitleSignIn : string := "Sign In".

Inductive SameSite := SameSiteLaxMode | SameSiteStrictMode.

(** web.Cookie *)
Record Cookie := mkCookie {
  ck_Name : string;
  ck_Value : string;
  ck_MaxAge : Z;
  ck_SameSite : option SameSite;
}.

Record CreateUserResponse := mkCreateUserResponse {
  cur_Username : string; cur_Nickname : string; cur_Email : string;
}.

Definition CreateUserResponse_FromEntity (u : User) : CreateUserResponse :=
  mkCreateUserResponse (u_Username u) (u_Nickname u) (u_Email u).

Record TokenResponse := mkTokenResponse {
  tr_Scope : string;
  tr_TokenType : string;
  tr_AccessToken : string;
  tr_IDToken : string;
  tr_RefreshToken : string;
  tr_ExpiresIn : Z;
}.

Definition TokenResponse_FromEntity (tokens : IssuedTokens) (expireSecs : Z) : TokenResponse :=
  mkTokenResponse (Scope_String (it_Scope tokens)) TokenTypeBearer (it_AccessToken tokens)
    (it_IDToken tokens) (it_RefreshToken tokens) expireSecs.

Record GetProfileResponse := mkGetProfileResponse {
  gp_Sub : string; gp_PreferredUsername : string; gp_Nickname : string; gp_Email : string;
  gp_EmailVerified : bool; gp_UpdatedAt : Z;
}.

Record UpdateProfileResponse := mkUpdateProfileResponse {
  up_UpdatedAt : option Z; up_UserID : string; up_Email : string; up_Username : string;
  up_Nickname : string; up_EmailVerified : bool;
}.

Definition UpdateProfileResponse_zero : UpdateProfileResponse :=
  mkUpdateProfileResponse None "" "" "" "" false.

Record IntrospectResponse := mkIntrospectResponse {
  ir_Active : bool; ir_Sub : string; ir_Issuer : string; ir_Audience : list string; ir_Scope : string;
  ir_ExpiresAt : Z; ir_IssuedAt : Z; ir_JWTID : string; ir_TokenType : string;
}.

Definition IntrospectResponse_inactive : IntrospectResponse :=
  mkIntrospectResponse false "" "" [] "" 0 0 "" "".

Record DiscoveryResponse := mkDiscoveryResponse {
  dr_Issuer : string; dr_AuthorizationEndpoint : string; dr_TokenEndpoint : string;
  dr_UserinfoEndpoint : string; dr_JWKSURI : string; dr_RevocationEndpoint : string;
  dr_EndSessionEndpoint : string; dr_IntrospectionEndpoint : string;
  dr_ResponseTypesSupported : list string; dr_SubjectTypesSupported : list string;
  dr_IDTokenSigningAlgValuesSupported : list string; dr_ScopesSupported : list string;
  dr_GrantTypesSupported : list string; dr_TokenEndpointAuthMethods : list string;
  dr_CodeChallengeMethodsSupported : list string; dr_ClaimsSupported : list string;
}.

(** The dynamic type and value of a use case's first result. *)
Inductive Response :=
| RNil
| RCreateUser (r : CreateUserResponse)
| RToken (r : TokenResponse)
| RSignIn (csrfToken : string)
| RCreateAuthCode (redirectURI : string)
| RLogout (redirectURI : string)
| RAuthorizeError (redirectURI errCode : string) (state : option string)
| RAuthorize (sessionID : string)
| RGetProfile (r : GetProfileResponse)
| RUpdateProfile (r : UpdateProfileResponse)
| RIntrospect (r : IntrospectResponse)
| RDiscovery (r : DiscoveryResponse)
| RJWKS (r : gmap string (list JWK)).

Section Responses.
  Context {E : Env}.

(** [AuthorizeErrorRedirect.URL] *)
Definition AuthorizeErrorRedirect_URL (redirectURI errCode : string) (state : option string) : string :=
  match url_Parse redirectURI with
  | inr _ => redirectURI
  | inl u =>
    url_String (url_SetQuery
      (("error", errCode) :: match state with Some st => [("state", st)] | None => [] end) u)
  end.

(** The [URL] method, for the types that have one. *)
Definition response_URL (r : Response) : option string :=
  match r with
  | RCreateAuthCode u | RLogout u => Some u
  | RAuthorizeError u c st => Some (AuthorizeErrorRedirect_URL u c st)
  | RAuthorize _ => Some SignInPath
  | _ => None
  end.

(** The [Cookies] method, for the types that have one. *)
Definition response_Cookies (r : Response) : option (list Cookie) :=
  match r with
  | RCreateAuthCode _ => Some [mkCookie CookieAuthorizeRequest "" (-1) (Some SameSiteLaxMode)]
  | RLogout _ => Some [mkCookie CookieRefreshToken "" (-1) None]
  | RAuthorize id =>
    Some [mkCookie CookieAuthorizeRequest id (AuthorizeRequestTTL / Second) (Some SameSiteLaxMode)]
  | _ => None
  end.

(** [HTMLPage], [HTMLData] and [NoStore]. *)
Definition response_HTML (r : Response) : option (string * gmap string string) :=
  match r with
  | RSignIn tok =>
    Some (HTMLPageSignIn, {[HTMLKeyTitle := HTMLTitleSignIn; HTMLKeyCsrfToken := tok]})
  | _ => None
  end.

Definition response_NoStore (r : Response) : bool :=
  match r with RSignIn _ => true | _ => false end.

End Responses.

(** A use case's pair of results. *)
Notation Result := (Response * option goerr)%type.

Definition fail {S} (err : goerr) : ST S Result := mret (RNil, Some err).
Definition ok {S} (r : Response) : ST S Result := mret (r, None).
