(* ===== verification/CmdTokens.v ===== *)
(** * Token commands (modules/auth/application/command: exchange_code.go,
      refresh_token.go, revoke_token.go, logout.go)

    The life of a token family: a code is exchanged for the first tokens of a
    grant, a refresh token is rotated, a replayed one kills the grant, and
    revocation and logout tear a grant down.  The log statements of the source
    are not part of the model. *)

From S2P Require Import Prelude GoStd Crypto Errors Env Scope User Token Client AuthFlow Jwt Cache Ports Services Responses.

Local Open Scope Z_scope.

(** ** Commands *)

Record ExchangeCodeCommand := mkExchangeCodeCommand {
  xc_Code : string;
  xc_ClientID : string;
  xc_ClientSecret : string;
  xc_BasicClientID : string;
  xc_BasicClientSecret : string;
  xc_RedirectURI : string;
  xc_ExpireSecs : option Z;
  xc_CodeVerifier : string;
}.

Record RefreshTokenCommand := mkRefreshTokenCommand {
  rc_GrantType : string;
  rc_ClientID : string;
  rc_ClientSecret : string;
  rc_BasicClientID : string;
  rc_BasicClientSecret : string;
  rc_RefreshToken : string;
  rc_ExpireSecs : option Z;
}.

Record RevokeTokenCommand := mkRevokeTokenCommand {
  vc_CallerID : string;
  vc_ClientID : string;
  vc_ClientSecret : string;
  vc_BasicClientID : string;
  vc_BasicClientSecret : string;
  vc_Token : string;
  vc_TokenTypeHint : option string;
}.

Record LogoutCommand := mkLogoutCommand {
  lc_AccessToken : option string;
  lc_PostLogoutRedirectURI : option string;
}.

Section CmdTokens.
  Context {E : Env} {TS : TokenServiceI} {D : Deps} {SV : StructValidator}.
  Context {CI : CacheI} {UI : UserRepoI} {GI : GrantRepoI} {RI : RefreshTokenRepoI}.

(** Reading through a user pointer. *)
Definition user_deref (p : option nat) : ST World User :=
  match p with
  | None => panic "nil pointer dereference"
  | Some l => in_users (ps_deref l)
  end.

(** [grantRepo.Save(ctx, g)] for a grant the caller just built. *)
Definition saveNewGrant (g : Grant) : ST World (option goerr) :=
  p ← in_grants (ps_new g); in_grants (ps_Save p).

(** ** exchange_code.go *)

Definition ExchangeCode_consumeAuthCode (code : string) : ST World (option AuthCode * option goerr) :=
  r ← in_cache (cache_GetAndDelete (AuthCodeCacheKey code) destCode);
  match r with
  | None => mret (None, Some (ErrMsg "auth code not found"))
  | Some ac =>
    match AuthCode_Validate ac with
    | Some _ => mret (None, Some (ErrMsg "auth code not found"))
    | None => mret (Some ac, None)
    end
  end.

Definition ExchangeCode_issueTokens (clientID : string) (expireSecs : Z) (authCode : AuthCode) (user : User)
  : ST World (option IssuedTokens * option goerr) :=
  let nonce := match ac_Nonce authCode with Some n => n | None => "" end in
  in_sys (IssueTokens (mkIssueTokensArgs user clientID nonce (ac_Scope authCode) expireSecs "")).

Definition ExchangeCode_saveRefreshToken (userID clientID : string) (tokens : IssuedTokens)
  : ST World (option goerr) :=
  rt ← in_sys (NewRefreshToken userID clientID tokens);
  e ← (match it_NewGrant tokens with
       | None => mret None
       | Some g => saveNewGrant (Grant_ExtendToCover (rt_ExpiresAt rt) g)
       end);
  match e with
  | Some err => mret (Some err)
  | None => in_rts (rr_Save rt)
  end.

(** The body of [Execute] after the code has been taken out of the cache. *)
Definition ExchangeCode_redeem (c : ExchangeCodeCommand) (client : Client) (authCode : AuthCode)
  : ST World Result :=
  if Client_IsPublic client && negb (bool_decide (is_Some (ac_CodeChallenge authCode)))
  then fail NewErrInvalidGrant else
  valid ← in_sys (AuthCode_IsValid authCode (c_ID client) (xc_RedirectURI c) (xc_CodeVerifier c));
  if negb valid then fail NewErrInvalidGrant else
  ' (p, err) ← in_users (ur_FindByID (ac_UserID authCode));
  match err with
  | Some e => fail e
  | None =>
    user ← user_deref p;
    let expireSecs := ResolveExpirySecs (xc_ExpireSecs c) in
    t ← ExchangeCode_issueTokens (c_ID client) expireSecs authCode user;
    match t with
    | (_, Some e) => fail e
    | (None, None) => panic "nil pointer dereference"
    | (Some tokens, None) =>
      e ← ExchangeCode_saveRefreshToken (u_ID user) (c_ID client) tokens;
      match e with
      | Some err => fail err
      | None => ok (RToken (TokenResponse_FromEntity tokens expireSecs))
      end
    end
  end.

Definition ExchangeCode_Execute (c : ExchangeCodeCommand) : ST World Result :=
  match ClientAuthenticator_Authenticate
          (mkClientCredentials (xc_ClientID c) (xc_ClientSecret c) (xc_BasicClientID c) (xc_BasicClientSecret c)) with
  | inr _ => fail NewErrInvalidClient
  | inl client =>
    if negb (Client_AllowsGrant client GrantAuthorizationCode) then fail NewErrInvalidClient else
    r ← ExchangeCode_consumeAuthCode (xc_Code c);
    match r with
    | (_, Some _) | (None, _) => fail NewErrAuthCodeNotFound
    | (Some authCode, None) => ExchangeCode_redeem c client authCode
    end
  end.

(** ** refresh_token.go *)

(** The error of the write is logged, not returned. *)
Definition RefreshToken_writeRevokedGrantMarker (grantID : string) : ST World unit :=
  MarkGrantRevoked grantID;; mret tt.

(** [grantRepo.Revoke(ctx, id, time.Now())] *)
Definition grant_RevokeNow (grantID : string) : ST World (option goerr) :=
  t ← in_sys time_Now; in_grants (gr_Revoke grantID t).

Definition RefreshToken_revokeGrant (grantID : string) : ST World unit :=
  grant_RevokeNow grantID;; mret tt.

Definition RefreshToken_findActiveRefreshToken (raw : string)
  : ST World (option RefreshToken * option goerr) :=
  let rejected := (None, Some NewErrInvalidRefreshToken) in
  r ← in_rts (rr_FindByTokenHash (Hash raw));
  match r with
  | (_, Some _) | (None, _) => mret rejected
  | (Some rt, None) =>
    match rt_RevokedAt rt with
    | Some _ =>
      (if negb (String.eqb (rt_GrantID rt) "") then
         RefreshToken_revokeGrant (rt_GrantID rt);;
         in_rts (rr_RevokeAllForGrant (rt_GrantID rt));;
         RefreshToken_writeRevokedGrantMarker (rt_GrantID rt)
       else
         in_rts (rr_RevokeAllForUser (rt_UserID rt));;
         mret tt);;
      mret rejected
    | None =>
      valid ← in_sys (RefreshToken_IsValid rt);
      if (valid : bool) then mret (Some rt, None) else mret rejected
    end
  end.

Definition RefreshToken_checkAndExtendGrant (grantID : string) (tokenExpiry : Z)
  : ST World (option goerr) :=
  if String.eqb grantID "" then mret None else
  ' (p, err) ← in_grants (gr_FindByID grantID);
  match err with
  | Some e => if errors_Is e ErrNotFound then mret None else mret (Some (NewErrGenRefreshTokenFailed e))
  | None =>
    match p with
    | None => panic "nil pointer dereference"
    | Some l =>
      grant ← in_grants (ps_deref l);
      valid ← in_sys (Grant_IsValid grant);
      if negb valid then mret (Some NewErrInvalidRefreshToken) else
      in_grants (ps_assign l (Grant_ExtendToCover tokenExpiry grant));;
      e ← in_grants (ps_Save l);
      match e with
      | Some err => mret (Some (NewErrGenRefreshTokenFailed err))
      | None => mret None
      end
    end
  end.

(** The function the unit of work runs. *)
Definition RefreshToken_rotateTx (oldRT newRT : RefreshToken) : ST World (option goerr) :=
  e ← RefreshToken_checkAndExtendGrant (rt_GrantID oldRT) (rt_ExpiresAt newRT);
  match e with
  | Some err => mret (Some err)
  | None =>
    e ← in_rts (rr_RevokeByTokenHash (rt_TokenHash oldRT));
    match e with
    | Some err =>
      if errors_Is err ErrNotFound then mret (Some NewErrInvalidRefreshToken)
      else mret (Some (NewErrGenRefreshTokenFailed err))
    | None =>
      e ← in_rts (rr_Save newRT);
      match e with
      | Some err => mret (Some (NewErrGenRefreshTokenFailed err))
      | None => mret None
      end
    end
  end.

Definition RefreshToken_updateRefreshToken (oldRT newRT : RefreshToken) : ST World (option goerr) :=
  e ← uow_Do (RefreshToken_rotateTx oldRT newRT);
  match e with
  | None => mret None
  | Some err =>
    if is_ErrorStruct err then mret (Some err) else mret (Some (NewErrGenRefreshTokenFailed err))
  end.

(** [user.SessionsInvalidatedAt != nil && !rt.AuthenticatedAt.After(...)] *)
Definition sessionInvalidated (user : User) (rt : RefreshToken) : bool :=
  match u_SessionsInvalidatedAt user with
  | Some at_ => negb (at_ <? rt_AuthenticatedAt rt)
  | None => false
  end.

(** The body of [Execute] once the presented token was found active and the
    user may use it: issue, rotate, persist. *)
Definition RefreshToken_rotate (c : RefreshTokenCommand) (client : Client) (rt : RefreshToken) (user : User)
  : ST World Result :=
  let expireSecs := ResolveExpirySecs (rc_ExpireSecs c) in
  t ← in_sys (IssueTokens
        (mkIssueTokensArgs user (c_ID client) "" (rt_Scope rt) expireSecs (rt_GrantID rt)));
  match t with
  | (_, Some e) => fail e
  | (None, None) => panic "nil pointer dereference"
  | (Some tokens, None) =>
    newRT ← in_sys (RefreshToken_Rotate (u_ID user) tokens rt);
    e ← (match it_NewGrant tokens with
         | None => mret None
         | Some g => saveNewGrant (Grant_ExtendToCover (rt_ExpiresAt newRT) g)
         end);
    match e with
    | Some err => fail (NewErrGenRefreshTokenFailed err)
    | None =>
      e ← RefreshToken_updateRefreshToken rt newRT;
      match e with
      | Some err => fail err
      | None => ok (RToken (TokenResponse_FromEntity tokens expireSecs))
      end
    end
  end.

(** The checks on the owner of an active token. *)
Definition RefreshToken_redeem (c : RefreshTokenCommand) (client : Client) (rt : RefreshToken)
  : ST World Result :=
  if negb (RefreshToken_IssuedTo rt (c_ID client)) then fail NewErrInvalidRefreshToken else
  f ← in_users (ur_FindByID (rt_UserID rt));
  match f with
  | (_, Some _) | (None, _) => fail NewErrInvalidRefreshToken
  | (Some p, None) =>
    user ← user_deref (Some p);
    if sessionInvalidated user rt then fail NewErrInvalidRefreshToken
    else RefreshToken_rotate c client rt user
  end.

Definition RefreshToken_Execute (c : RefreshTokenCommand) : ST World Result :=
  match ClientAuthenticator_Authenticate
          (mkClientCredentials (rc_ClientID c) (rc_ClientSecret c) (rc_BasicClientID c) (rc_BasicClientSecret c)) with
  | inr _ => fail NewErrInvalidClient
  | inl client =>
    if negb (Client_AllowsGrant client GrantRefreshToken) then fail NewErrInvalidClient else
    r ← RefreshToken_findActiveRefreshToken (rc_RefreshToken c);
    match r with
    | (_, Some e) => fail e
    | (None, None) => panic "nil pointer dereference"
    | (Some rt, None) => RefreshToken_redeem c client rt
    end
  end.

(** ** revoke_token.go *)

Definition RevokeToken_blacklistAccessToken (token callerID : string) : ST World (bool * option goerr) :=
  r ← in_sys (ts_ParseJWT token);
  match r with
  | (_, Some _) | (None, _) => mret (false, None)
  | (Some claims, None) =>
    if String.eqb (cl_ID claims) "" then mret (false, None) else
    if negb (String.eqb callerID "") && negb (String.eqb (cl_Subject claims) callerID)
    then mret (false, None) else
    expired ← in_sys (Claims_IsExpired claims);
    if (expired : bool) then mret (false, None) else
    match cl_ExpiresAt claims with
    | None => panic "nil pointer dereference"
    | Some exp =>
      e ← BlacklistJTI (cl_ID claims) exp;
      match e with
      | Some err => mret (false, Some err)
      | None => counter_Add MetricTokenRevocations 1;; mret (true, None)
      end
    end
  end.

(** The cascade of [revokeConfirmedRefreshToken] over the grant. *)
Definition RevokeToken_cascade (grantID : string) : ST World (option goerr) :=
  if String.eqb grantID "" then mret None else
  e ← grant_RevokeNow grantID;
  if match e with Some err => negb (errors_Is err ErrNotFound) | None => false end
  then mret e else
  e ← in_rts (rr_RevokeAllForGrant grantID);
  match e with
  | Some err => mret (Some err)
  | None => MarkGrantRevoked grantID
  end.

Definition RevokeToken_revokeConfirmedRefreshToken (rt : RefreshToken) : ST World (option goerr) :=
  let cascade :=
    e ← RevokeToken_cascade (rt_GrantID rt);
    match e with
    | Some err => mret (Some err)
    | None => counter_Add MetricTokenRevocations 1;; mret None
    end in
  e ← in_rts (rr_RevokeByTokenHash (rt_TokenHash rt));
  match e with
  | None => cascade
  | Some err =>
    if negb (errors_Is err ErrNotFound) then mret (Some err) else
    match rt_RevokedAt rt with
    | Some _ => cascade
    | None =>
      valid ← in_sys (RefreshToken_IsValid rt);
      if negb valid then mret None else cascade
    end
  end.

(** The owner check and revocation of a refresh token that was found. *)
Definition RevokeToken_revokeOwned (callerID : string) (rt : RefreshToken) : ST World Result :=
  if negb (String.eqb callerID "") && negb (String.eqb (rt_UserID rt) callerID)
  then mret (RNil, None)
  else e ← RevokeToken_revokeConfirmedRefreshToken rt; mret (RNil, e).

Definition RevokeToken_accessFirst (c : RevokeTokenCommand) : ST World Result :=
  ' (revoked, err) ← RevokeToken_blacklistAccessToken (vc_Token c) (vc_CallerID c);
  if bool_decide (is_Some err) || revoked then mret (RNil, err) else
  r ← in_rts (rr_FindByTokenHash (Hash (vc_Token c)));
  match r with
  | (Some rt, None) => RevokeToken_revokeOwned (vc_CallerID c) rt
  | (None, None) => panic "nil pointer dereference"
  | (_, Some lookupErr) =>
    if negb (errors_Is lookupErr ErrNotFound) then mret (RNil, Some lookupErr) else mret (RNil, None)
  end.

Definition RevokeToken_refreshFirst (c : RevokeTokenCommand) : ST World Result :=
  r ← in_rts (rr_FindByTokenHash (Hash (vc_Token c)));
  match r with
  | (Some rt, None) => RevokeToken_revokeOwned (vc_CallerID c) rt
  | (None, None) => panic "nil pointer dereference"
  | (_, Some lookupErr) =>
    ' (revoked, err) ← RevokeToken_blacklistAccessToken (vc_Token c) (vc_CallerID c);
    if errors_Is lookupErr ErrNotFound then mret (RNil, err) else
    match err with
    | Some atErr => mret (RNil, Some atErr)
    | None => if negb revoked then mret (RNil, Some lookupErr) else mret (RNil, None)
    end
  end.

Definition RevokeToken_Execute (c : RevokeTokenCommand) : ST World Result :=
  let authorized :=
    if String.eqb (vc_CallerID c) "" then
      if String.eqb (vc_ClientID c) "" && String.eqb (vc_BasicClientID c) "" then false
      else match ClientAuthenticator_Authenticate
                   (mkClientCredentials (vc_ClientID c) (vc_ClientSecret c) (vc_BasicClientID c)
                      (vc_BasicClientSecret c)) with
           | inl _ => true
           | inr _ => false
           end
    else true in
  if negb authorized then fail NewErrInvalidClient else
  let isAccessTokenHint :=
    match vc_TokenTypeHint c with Some h => String.eqb h "access_token" | None => false end in
  if (isAccessTokenHint : bool) then RevokeToken_accessFirst c else RevokeToken_refreshFirst c.

(** ** logout.go *)

Definition Logout_revokeGrant (grantID : string) : ST World unit :=
  grant_RevokeNow grantID;; mret tt.

Definition Logout_revokeGrantTokens (claims : Claims) : ST World unit :=
  if negb (String.eqb (cl_GrantID claims) "") then
    Logout_revokeGrant (cl_GrantID claims);;
    in_rts (rr_RevokeAllForGrant (cl_GrantID claims));;
    MarkGrantRevoked (cl_GrantID claims);;
    mret tt
  else if negb (String.eqb (cl_Subject claims) "") then
    in_rts (rr_RevokeAllForUser (cl_Subject claims));;
    mret tt
  else mret tt.

Definition Logout_blacklistAccessToken (claims : Claims) : ST World unit :=
  if String.eqb (cl_ID claims) "" then mret tt else
  expired ← in_sys (Claims_IsExpired claims);
  if (expired : bool) then mret tt else
  match cl_ExpiresAt claims with
  | None => panic "nil pointer dereference"
  | Some exp => BlacklistJTI (cl_ID claims) exp;; mret tt
  end.

Definition Logout_revokeIfAuthenticated (accessToken : option string) : ST World unit :=
  match accessToken with
  | None => mret tt
  | Some tok =>
    r ← in_sys (ts_ParseJWT tok);
    match r with
    | (_, Some _) | (None, _) => mret tt
    | (Some claims, None) =>
      Logout_blacklistAccessToken claims;;
      Logout_revokeGrantTokens claims
    end
  end.

Definition Logout_Execute (c : LogoutCommand) : ST World Result :=
  Logout_revokeIfAuthenticated (lc_AccessToken c);;
  let redirect :=
    match lc_PostLogoutRedirectURI c with
    | Some u => if contains d_PostLogoutRedirectAllowlist u then u else ""
    | None => ""
    end in
  ok (RLogout redirect).

End CmdTokens.
