(* ===== verification/CmdUsers.v ===== *)
(** * Account commands (modules/auth/application/command: create_auth_code.go,
      create_user.go, update_profile.go, forgot_password.go, reset_password.go)

    Sign-in, registration, profile changes and password recovery.  A user
    looked up in the repository is a pointer: sign-in assigns through it before
    it saves, the profile and recovery commands save a changed copy. *)

From S2P Require Import Prelude GoStd Crypto Errors Env Scope User Token Client AuthFlow Jwt Cache Ports Services Responses CmdTokens.

Local Open Scope Z_scope.

Record CreateAuthCodeCommand := mkCreateAuthCodeCommand {
  kc_Email : string; kc_Password : string; kc_CSRFToken : string; kc_SessionID : string;
}.

Record CreateUserCommand := mkCreateUserCommand {
  uc_Username : string; uc_Nickname : string; uc_Email : string; uc_Password : string;
}.

Record UpdateProfileCommand := mkUpdateProfileCommand {
  pc_UserID : string; pc_Username : option string; pc_Nickname : option string; pc_Email : option string;
}.

Record ForgotPasswordCommand := mkForgotPasswordCommand { fc_Email : string }.

Record ResetPasswordCommand := mkResetPasswordCommand { sc_Token : string; sc_Password : string }.

Definition forgotPasswordMaxPerWindow : Z := 3.
Definition forgotPasswordWindow : Z := Hour.

(** [subtle.ConstantTimeCompare(a, b) == 1] is equality of the bytes. *)
Definition CreateAuthCodeCommand_ValidateCSRF (c : CreateAuthCodeCommand) (csrfToken : string) : bool :=
  String.eqb (kc_CSRFToken c) csrfToken.

Section CmdUsers.
  Context {E : Env} {TS : TokenServiceI} {D : Deps} {SV : StructValidator}.
  Context {CI : CacheI} {UI : UserRepoI} {GI : GrantRepoI} {RI : RefreshTokenRepoI}.

(** A method with a pointer receiver, called on a stored user. *)
Definition user_update {A} (p : nat) (method : User -> ST Sys (User * A)) : ST World A :=
  u ← in_users (ps_deref p);
  ' (u', a) ← in_sys (method u);
  in_users (ps_assign p u');;
  mret a.

Definition void {A} (method : A -> ST Sys A) : A -> ST Sys (A * unit) :=
  fun a => a' ← method a; mret (a', tt).

(** ** create_auth_code.go *)

Definition CreateAuthCode_recordAccountFailure (user : option nat) : ST World unit :=
  match user with
  | None => mret tt
  | Some p => user_update p (void User_RecordFailedLogin);; in_users (ps_Save p);; mret tt
  end.

Definition CreateAuthCode_resetAccountFailures (p : nat) (dirty : bool) : ST World unit :=
  u ← in_users (ps_deref p);
  let hasFailures := negb (u_FailedLoginAttempts u =? 0) || bool_decide (is_Some (u_LockedUntil u)) in
  if negb hasFailures && negb dirty then mret tt else
  (if hasFailures then user_update p (void User_ResetFailedLogins) else mret tt);;
  in_users (ps_Save p);; mret tt.

Definition CreateAuthCode_rejectCredentials (session : AuthorizeRequest) (user : option nat)
  : ST World (string * option goerr) :=
  CreateAuthCode_recordAccountFailure user;;
  let session := AuthorizeRequest_RequestFail session in
  if AuthorizeRequest_IsLockedOut session then mret ("", Some NewErrMaxLoginAttemptsExceeded) else
  in_cache (cache_Set (AuthorizeRequestCacheKey (ar_ID session)) (VSession session)
              (Some AuthorizeRequestTTL));;
  mret ("", Some NewErrInvalidEmailOrPassword).

Definition CreateAuthCode_verifyCredentials (session : AuthorizeRequest) (email password : string)
  : ST World (string * option goerr) :=
  ' (user, err) ← in_users (ur_FindByEmail DefaultTenantID email);
  if match err with Some e => negb (errors_Is e ErrNotFound) | None => false end then mret ("", err) else
  match user with
  | None => CreateAuthCode_rejectCredentials session None
  | Some p =>
    u ← in_users (ps_deref p);
    locked ← in_sys (User_IsLockedOut u);
    if (locked : bool) then mret ("", Some NewErrInvalidEmailOrPassword) else
    if negb (User_ValidatePassword u password) then CreateAuthCode_rejectCredentials session (Some p) else
    rehashed ← user_update p (User_RehashPasswordIfNeeded password);
    CreateAuthCode_resetAccountFailures p rehashed;;
    u' ← in_users (ps_deref p);
    mret (u_ID u', None)
  end.

Definition CreateAuthCode_Execute (c : CreateAuthCodeCommand) : ST World Result :=
  r ← in_cache (cache_GetAndDelete (AuthorizeRequestCacheKey (kc_SessionID c)) destSession);
  match r with
  | None => fail NewErrInvalidSession
  | Some session =>
    if bool_decide (is_Some (AuthorizeRequest_Validate session)) then fail NewErrInvalidSession else
    if negb (CreateAuthCodeCommand_ValidateCSRF c (ar_CSRFToken session)) then fail NewErrInvalidSession else
    ' (userID, err) ← CreateAuthCode_verifyCredentials session (kc_Email c) (kc_Password c);
    match err with
    | Some e => fail e
    | None =>
      a ← in_sys (NewAuthCode (mkAuthCodeArgs userID (ar_ClientID session) (ar_RedirectURI session)
            (ar_Scope session) (ar_Nonce session) (ar_CodeChallenge session)
            (ar_CodeChallengeMethod session)));
      match a with
      | (_, Some e) => fail (NewErrAuthCodeCreateFailed e)
      | (None, None) => panic "nil pointer dereference"
      | (Some authCode, None) =>
        e ← in_cache (cache_Set (AuthCodeCacheKey (ac_Code authCode)) (VAuthCode authCode) (Some AuthCodeTTL));
        match e with
        | Some err => fail err
        | None =>
          redirect ← AuthorizeRequest_BuildRedirectURI (ac_Code authCode) session;
          ok (RCreateAuthCode redirect)
        end
      end
    end
  end.

(** ** create_user.go *)

Definition CreateUser_Execute (c : CreateUserCommand) : ST World Result :=
  r ← in_sys (NewUser (mkUserArgs "" (uc_Username c) (uc_Nickname c) (uc_Password c) (uc_Email c) false));
  match r with
  | (_, Some err) => fail (NewErrInvalidUserArguments err)
  | (None, None) => panic "nil pointer dereference"
  | (Some user, None) =>
    p ← in_users (ps_new user);
    e ← in_users (ur_CreateUser p);
    match e with
    | Some err => if errors_Is err ErrConflict then fail NewErrEmailDuplicated else fail (NewErrCreateUser err)
    | None =>
      u ← in_users (ps_deref p);
      ok (RCreateUser (CreateUserResponse_FromEntity u))
    end
  end.

(** ** update_profile.go *)

Definition UpdateProfile_checkEmailAvailable (tenantID email excludeID : string)
  : ST World (option goerr) :=
  ' (userExists, err) ← in_users (ur_FindByEmail tenantID email);
  if match err with Some e => negb (errors_Is e ErrNotFound) | None => false end then mret err else
  match userExists with
  | None => mret None
  | Some p =>
    u ← in_users (ps_deref p);
    if negb (String.eqb (u_ID u) excludeID) then mret (Some NewErrEmailDuplicated) else mret None
  end.

Definition UpdateProfile_Execute (c : UpdateProfileCommand) : ST World Result :=
  let reject e := mret (RUpdateProfile UpdateProfileResponse_zero, Some e) in
  ' (p, err) ← in_users (ur_FindByID (pc_UserID c));
  match err with
  | Some e => if errors_Is e ErrNotFound then reject NewErrInvalidToken
              else reject (NewErrUpdateProfileFindFailed e)
  | None =>
    match p with
    | None => reject NewErrInvalidToken
    | Some l =>
      user ← in_users (ps_deref l);
      e ← (match pc_Email c with
           | None => mret None
           | Some email => UpdateProfile_checkEmailAvailable (u_TenantID user) email (pc_UserID c)
           end);
      match e with
      | Some err => reject err
      | None =>
        copy ← in_users (ps_deref l);
        updated ← in_sys (User_UpdateProfile
                    (mkUpdateProfileArgs (pc_Username c) (pc_Nickname c) (pc_Email c)) copy);
        q ← in_users (ps_new updated);
        e ← in_users (ps_Save q);
        match e with
        | Some err => reject (NewErrUpdateProfile err)
        | None =>
          ok (RUpdateProfile (mkUpdateProfileResponse (Some (u_UpdatedAt updated)) (u_ID updated)
                (u_Email updated) (u_Username updated) (u_Nickname updated) (u_EmailVerified updated)))
        end
      end
    end
  end.

(** ** forgot_password.go *)

Definition forgotPasswordRateKey (email : string) : string :=
  ForgotPasswordRateKey
    (hex_EncodeToString (sha256_Sum256 (bytes_of (strings_ToLower (strings_TrimSpace email))))).

Definition ForgotPassword_rateLimited (email : string) : ST World bool :=
  ' (count, err) ← in_cache (cache_IncrWindow (forgotPasswordRateKey email) forgotPasswordWindow);
  match err with
  | Some _ => mret false
  | None => mret (forgotPasswordMaxPerWindow <? count)
  end.

(** [emailSender.SendPasswordResetEmail]: the mail leaves the program. *)
Definition SendPasswordResetEmail (toEmail rawToken : string) : ST World (option goerr) := fun w =>
  (Ret (d_SendMail (w_mail w) (toEmail, rawToken)),
   mkWorld _ _ _ _ (w_sys w) (w_cache w) (w_users w) (w_grants w) (w_rts w) (w_metrics w)
     (w_mail w ++ [(toEmail, rawToken)])).

Definition ForgotPassword_Execute (c : ForgotPasswordCommand) : ST World Result :=
  limited ← ForgotPassword_rateLimited (fc_Email c);
  if (limited : bool) then mret (RNil, None) else
  ' (user, _) ← in_users (ur_FindByEmail DefaultTenantID (fc_Email c));
  match user with
  | None => mret (RNil, None)
  | Some p =>
    t ← in_sys GeneratePasswordResetToken;
    match t with
    | (_, Some _) => mret (RNil, None)
    | (token, None) =>
      copy ← in_users (ps_deref p);
      updated ← in_sys (User_SetPasswordResetToken token PasswordResetTokenTTL copy);
      q ← in_users (ps_new updated);
      e ← in_users (ps_Save q);
      match e with
      | Some _ => mret (RNil, None)
      | None =>
        SendPasswordResetEmail (u_Email updated) token;;
        mret (RNil, None)
      end
    end
  end.

(** ** reset_password.go *)

(** The callback of [UpdateByPasswordResetTokenHash], with the two variables it
    assigns. *)
Definition ResetPassword_callback (password : string) (vars : string * Z) (u : User)
  : ST Sys ((string * Z) * User * option goerr) :=
  expired ← User_IsResetTokenExpired u;
  if (expired : bool) then mret (vars, u, Some NewErrPasswordResetTokenExpired) else
  ' (u1, err) ← User_SetPassword password u;
  match err with
  | Some e => mret (vars, u1, Some (NewErrWeakPassword e))
  | None =>
    u2 ← User_InvalidateSessions u1;
    match u_SessionsInvalidatedAt u2 with
    | None => panic "nil pointer dereference"
    | Some invalidatedAt =>
      u3 ← User_ClearPasswordResetToken u2;
      mret ((u_ID u1, invalidatedAt), u3, None)
    end
  end.

Definition ResetPassword_Execute (c : ResetPasswordCommand) : ST World Result :=
  let vars := ("", time_zero) in
  ' (vars', err) ← uow_Do (in_users (ur_UpdateByPasswordResetTokenHash (Hash (sc_Token c)) vars
                     (ResetPassword_callback (sc_Password c) vars)));
  match err with
  | Some e =>
    if errors_Is e ErrNotFound then fail NewErrPasswordResetTokenNotFound
    else if is_ErrorStruct e then fail e
    else fail (NewErrResetPasswordFailed e)
  | None =>
    let '(userID, invalidatedAt) := vars' in
    in_rts (rr_RevokeAllForUser userID);;
    MarkSessionsInvalidated userID invalidatedAt;;
    mret (RNil, None)
  end.

End CmdUsers.
