(* ===== verification/Races.v ===== *)
(** * The handlers under concurrency

    The handlers that use up something - an authorization code, a sign-in
    session - and those that end or renew a session, as the sequences of port
    calls they are ([_proc]), with the proof that run alone they are the handlers
    of CmdTokens.v and CmdUsers.v.  The theorems are about any number of them, in
    any order of their calls, together with any other requests.

    [CacheTake] is what they need of the cache; both caches have it. *)

From S2P Require Import Prelude Interleave GoStd Crypto Errors Env Scope User Token Client AuthFlow Jwt Cache Redis Ports Services Responses CmdTokens CmdUsers.

Local Open Scope Z_scope.

(** ** The interface *)

(** Nothing is new in the cache, at [k]. *)
Definition kept_or_gone `{CacheI} (k : string) (c c' : CS) : Prop :=
  cache_entry c' k = cache_entry c k \/ cache_entry c' k = None.

Class CacheTake (C : CacheI) := {
  take_law : forall A k (d : dest A) s c, wp (cache_GetAndDelete k d) (fun o '(s', c') =>
    (forall k', kept_or_gone k' c c') /\ exists r, o = Ret r /\
      forall a, r = Some a -> cache_entry c' k = None /\ exists v x, cache_entry c k = Some (v, x) /\ d v = inl a) (s, c);
  put_law : forall k v ttl s c, wp (cache_Set k v ttl) (fun o '(s', c') =>
    (forall k', k' <> k -> kept_or_gone k' c c') /\
    (kept_or_gone k c c' \/ exists x, cache_entry c' k = Some (v, x))) (s, c);
}.

(** A cache with the laws of the port. *)
#[export] Instance laws_take (E : Env) (C : CacheI) (CL : CacheLaws E C) : CacheTake C.
Proof.
  split.
  - intros A k d s c. eapply wp_mono; [apply getAndDelete_law|]. intros o [s' c'] (_ & Hsame & r & -> & Hgone & Hr).
    split.
    { intros k'. destruct (decide (k' = k)) as [->|]; [|left; by apply Hsame]. destruct Hgone as [?|[_ ?]]; [by right|by left]. }
    exists r. split; [done|]. intros a ->. destruct Hgone as [Hgone|[? _]]; [|done]. split; [done|].
    destruct (Hr a eq_refl) as (v & Hv & Hd).
    unfold cache_live in Hv. destruct (cache_entry c k) as [[v' x]|]; [|done]. exists v', x. split; [done|].
    destruct x; [destruct (_ <=? _)|]; by simplify_eq.
  - intros k v ttl s c. eapply wp_mono; [apply set_law|]. intros o [s' c'] (_ & Hsame & err & -> & Hw).
    split; [intros k' Hk; left; by apply Hsame|].
    destruct Hw as [(x & Hx & _)|[_ Hx]]; [right; eauto|left; by left].
Qed.

(** The Redis cache. *)
Section RedisTake.
  Context {R : RedisServer} {RS : RedisSpec R}.

Lemma elapse_kept db db' k : elapse db db' -> rdb_entry db' k = rdb_entry db k \/ rdb_entry db' k = None.
Proof.
  intros [_ Ha]. specialize (Ha k). destruct (rdb_entry db k) as [[v [e|]]|]; simpl in Ha; [|by left..].
  destruct Ha as [[-> _]|[-> _]]; auto.
Qed.

Lemma redis_kept (db db' : RDB) k : rdb_entry db' k = rdb_entry db k \/ rdb_entry db' k = None ->
  kept_or_gone (H := RedisCacheI) k db db'.
Proof. unfold kept_or_gone. simpl. intros [->| ->]; auto. Qed.

Definition kept_raw (k : string) (db db' : RDB) : Prop := rdb_entry db' k = rdb_entry db k \/ rdb_entry db' k = None.

Lemma kept_raw_trans k db db0 db' : kept_raw k db db0 -> kept_raw k db0 db' -> kept_raw k db db'.
Proof. unfold kept_raw. intros [->| ->] [->| ->]; auto. Qed.

Lemma only_kept (db db' : RDB) k k' : only k db db' -> k' <> k -> kept_raw k' db db'.
Proof. intros [_ Ho] Hk. left. by apply Ho. Qed.

Lemma tries_kept once (db db' : RDB) k : (forall d d', once d d' -> kept_raw k d d') -> tries once db db' -> kept_raw k db db'.
Proof.
  intros Ho. induction 1 as [db db' Hel|db db0 db1 db' Hel H1 _ IH]; [by apply elapse_kept|].
  eapply kept_raw_trans; [by apply elapse_kept|]. by eapply kept_raw_trans; [apply Ho|].
Qed.

Lemma del_tries_kept k k' (db db' : RDB) : tries (del_once k) db db' -> kept_raw k' db db'.
Proof.
  apply tries_kept. intros d d' [Ho Hn]. destruct (decide (k' = k)) as [->|Hk]; [by right|by eapply only_kept].
Qed.

(** The entry of a key while writes of a value to it are repeated. *)
Lemma set_tries_entry k v d (db db' : RDB) : tries (set_once k v d) db db' ->
  kept_raw k db db' \/ exists x, rdb_entry db' k = Some (v, x).
Proof.
  intros H. apply (tries_inv _ (fun db' => kept_raw k db db' \/ exists x, rdb_entry db' k = Some (v, x)) db db'
    ) in H; [done|..|by left; left].
  - intros d1 d2 Hel%(fun H => elapse_kept _ _ k H). unfold kept_raw. intros [H1|[x Hx]]; [left; by eapply kept_raw_trans|].
    destruct Hel as [->| ->]; eauto.
  - intros d1 d2 [_ (_ & _ & x & Hx)] _. eauto.
Qed.

#[export] Instance redis_take : CacheTake RedisCacheI.
Proof.
  split.
  - intros A k d s db. unfold wp. simpl. unfold RedisCache_GetAndDelete, bind, in_redis. simpl.
    destruct (getdel_cmd_law k db) as (r & db0 & db' & Hrun & Htr & Hr). rewrite Hrun.
    assert (forall k', kept_or_gone (H := RedisCacheI) k' db db') as Hkept.
    { intros k'. apply redis_kept. eapply kept_raw_trans; [by eapply del_tries_kept|].
      destruct r as [v|e]; [destruct Hr as [_ [Ho Hn]]|destruct Hr as [_ [Ho Hn]]];
        (destruct (decide (k' = k)) as [->|Hk]; [|by eapply only_kept]); [by right|by left]. }
    destruct r as [v|e]; [|by split; [|exists None]].
    destruct Hr as [[x Hx] [_ Hgone]]. destruct (d v) as [a|e] eqn:Hd; (split; [done|]); eexists; (split; [reflexivity|]); [|done].
    intros a' [= <-]. simpl. rewrite Hgone. split; [done|].
    destruct (del_tries_kept k k db db0 Htr) as [He|He]; [|congruence]. rewrite <-He, Hx. by eexists v, _.
  - intros k v ttl s db. unfold wp. simpl. unfold RedisCache_Set, in_redis. simpl. set (d := match ttl with Some d => d | None => 0 end).
    destruct (set_cmd_law k v d db) as (e & db0 & db' & Hrun & Htr & He). rewrite Hrun.
    assert (only k db0 db') as Ho by (by destruct e; destruct He).
    split.
    { intros k' Hk. apply redis_kept. eapply kept_raw_trans; [|by eapply only_kept].
      eapply tries_kept; [|exact Htr]. intros d1 d2 [H1 _]. by eapply only_kept. }
    destruct (set_tries_entry _ _ _ _ _ Htr) as [Hk|[x Hx]], e as [e|].
    + left. apply redis_kept. eapply kept_raw_trans; [exact Hk|]. left. apply He.
    + right. destruct He as [_ (_ & _ & x & Hx)]. simpl. rewrite Hx. by eexists.
    + right. destruct He as [_ He]. simpl. rewrite He, Hx. by eexists.
    + right. destruct He as [_ (_ & _ & y & Hy)]. simpl. rewrite Hy. by eexists.
Qed.

End RedisTake.

(** ** The handlers as sequences of calls *)

Section Handlers.
  Context {E : Env} {TS : TokenServiceI} {D : Deps} {SV : StructValidator}.
  Context {CI : CacheI} {UI : UserRepoI} {GI : GrantRepoI} {RI : RefreshTokenRepoI}.
  Local Open Scope proc_scope.
  Notation P := (proc World).

Definition pfail (err : goerr) : P Result := Done (RNil, Some err).
Definition pok (r : Response) : P Result := Done (r, None).

Definition saveNewGrant_proc (g : Grant) : P (option goerr) :=
  p ⇐ call (in_grants (ps_new g)); call (in_grants (ps_Save p)).

Definition user_deref_proc (p : option nat) : P User :=
  match p with
  | None => Crash "nil pointer dereference"
  | Some l => call (in_users (ps_deref l))
  end.

Definition user_update_proc {A} (p : nat) (method : User -> ST Sys (User * A)) : P A :=
  u ⇐ call (in_users (ps_deref p));
  r ⇐ call (in_sys (method u));
  call (in_users (ps_assign p r.1)) ⨾ Done r.2.

Lemma saveNewGrant_exec g w : exec (saveNewGrant_proc g) w = saveNewGrant g w.
Proof. unfold saveNewGrant_proc, saveNewGrant. solve_exec. Qed.

Lemma user_deref_exec p w : exec (user_deref_proc p) w = user_deref p w.
Proof. destruct p; [apply exec_call|done]. Qed.

Lemma user_update_exec {A} p (method : User -> ST Sys (User * A)) w :
  exec (user_update_proc p method) w = user_update p method w.
Proof.
  unfold user_update_proc, user_update. apply exec_bind_eq; [intros; apply exec_call|]. intros u w1.
  apply exec_bind_eq; [intros; apply exec_call|]. intros [u' a] w2. solve_exec.
Qed.

(** *** exchange_code.go *)

Definition ExchangeCode_saveRefreshToken_proc (userID clientID : string) (tokens : IssuedTokens) : P (option goerr) :=
  rt ⇐ call (in_sys (NewRefreshToken userID clientID tokens));
  e ⇐ match it_NewGrant tokens with
      | None => Done None
      | Some g => saveNewGrant_proc (Grant_ExtendToCover (rt_ExpiresAt rt) g)
      end;
  match e with
  | Some err => Done (Some err)
  | None => call (in_rts (rr_Save rt))
  end.

Definition ExchangeCode_redeem_proc (c : ExchangeCodeCommand) (client : Client) (authCode : AuthCode) : P Result :=
  if Client_IsPublic client && negb (bool_decide (is_Some (ac_CodeChallenge authCode)))
  then pfail NewErrInvalidGrant else
  valid ⇐ call (in_sys (AuthCode_IsValid authCode (c_ID client) (xc_RedirectURI c) (xc_CodeVerifier c)));
  if negb valid then pfail NewErrInvalidGrant else
  f ⇐ call (in_users (ur_FindByID (ac_UserID authCode)));
  match f with
  | (_, Some e) => pfail e
  | (p, None) =>
    user ⇐ user_deref_proc p;
    let expireSecs := ResolveExpirySecs (xc_ExpireSecs c) in
    t ⇐ call (ExchangeCode_issueTokens (c_ID client) expireSecs authCode user);
    match t with
    | (_, Some e) => pfail e
    | (None, None) => Crash "nil pointer dereference"
    | (Some tokens, None) =>
      e ⇐ ExchangeCode_saveRefreshToken_proc (u_ID user) (c_ID client) tokens;
      match e with
      | Some err => pfail err
      | None => pok (RToken (TokenResponse_FromEntity tokens expireSecs))
      end
    end
  end.

Definition ExchangeCode_proc (c : ExchangeCodeCommand) : P Result :=
  match ClientAuthenticator_Authenticate
          (mkClientCredentials (xc_ClientID c) (xc_ClientSecret c) (xc_BasicClientID c) (xc_BasicClientSecret c)) with
  | inr _ => pfail NewErrInvalidClient
  | inl client =>
    if negb (Client_AllowsGrant client GrantAuthorizationCode) then pfail NewErrInvalidClient else
    r ⇐ call (in_cache (cache_GetAndDelete (AuthCodeCacheKey (xc_Code c)) destCode));
    match r with
    | None => pfail NewErrAuthCodeNotFound
    | Some authCode =>
      if bool_decide (is_Some (AuthCode_Validate authCode)) then pfail NewErrAuthCodeNotFound
      else ExchangeCode_redeem_proc c client authCode
    end
  end.

Lemma ExchangeCode_save_exec u cl t w :
  exec (ExchangeCode_saveRefreshToken_proc u cl t) w = ExchangeCode_saveRefreshToken u cl t w.
Proof.
  unfold ExchangeCode_saveRefreshToken_proc, ExchangeCode_saveRefreshToken. solve_exec. apply saveNewGrant_exec.
Qed.

Lemma ExchangeCode_redeem_exec c cl ac w : exec (ExchangeCode_redeem_proc c cl ac) w = ExchangeCode_redeem c cl ac w.
Proof.
  unfold ExchangeCode_redeem_proc, ExchangeCode_redeem. solve_exec.
  - apply user_deref_exec.
  - apply ExchangeCode_save_exec.
Qed.

Lemma ExchangeCode_exec c w : exec (ExchangeCode_proc c) w = ExchangeCode_Execute c w.
Proof.
  unfold ExchangeCode_proc, ExchangeCode_Execute, ExchangeCode_consumeAuthCode.
  destruct (ClientAuthenticator_Authenticate _) as [client|]; [|done]. destruct (negb _); [done|].
  rewrite exec_pbind. unfold bind. rewrite exec_call. destruct (in_cache _ w) as [[r|msg] w1]; [|done].
  destruct r as [ac|]; [|done]. destruct (AuthCode_Validate ac); [done|]. apply ExchangeCode_redeem_exec.
Qed.

(** *** create_auth_code.go *)

Definition CreateAuthCode_recordAccountFailure_proc (user : option nat) : P unit :=
  match user with
  | None => Done tt
  | Some p => user_update_proc p (void User_RecordFailedLogin) ⨾ call (in_users (ps_Save p)) ⨾ Done tt
  end.

Definition CreateAuthCode_resetAccountFailures_proc (p : nat) (dirty : bool) : P unit :=
  u ⇐ call (in_users (ps_deref p));
  let hasFailures := negb (u_FailedLoginAttempts u =? 0) || bool_decide (is_Some (u_LockedUntil u)) in
  if negb hasFailures && negb dirty then Done tt else
  (if hasFailures then user_update_proc p (void User_ResetFailedLogins) else Done tt) ⨾
  call (in_users (ps_Save p)) ⨾ Done tt.

Definition CreateAuthCode_rejectCredentials_proc (session : AuthorizeRequest) (user : option nat)
  : P (string * option goerr) :=
  CreateAuthCode_recordAccountFailure_proc user ⨾
  let session := AuthorizeRequest_RequestFail session in
  if AuthorizeRequest_IsLockedOut session then Done ("", Some NewErrMaxLoginAttemptsExceeded) else
  call (in_cache (cache_Set (AuthorizeRequestCacheKey (ar_ID session)) (VSession session) (Some AuthorizeRequestTTL))) ⨾
  Done ("", Some NewErrInvalidEmailOrPassword).

Definition CreateAuthCode_verifyCredentials_proc (session : AuthorizeRequest) (email password : string)
  : P (string * option goerr) :=
  f ⇐ call (in_users (ur_FindByEmail DefaultTenantID email));
  if match f.2 with Some e => negb (errors_Is e ErrNotFound) | None => false end then Done ("", f.2) else
  match f.1 with
  | None => CreateAuthCode_rejectCredentials_proc session None
  | Some p =>
    u ⇐ call (in_users (ps_deref p));
    locked ⇐ call (in_sys (User_IsLockedOut u));
    if (locked : bool) then Done ("", Some NewErrInvalidEmailOrPassword) else
    if negb (User_ValidatePassword u password) then CreateAuthCode_rejectCredentials_proc session (Some p) else
    rehashed ⇐ user_update_proc p (User_RehashPasswordIfNeeded password);
    CreateAuthCode_resetAccountFailures_proc p rehashed ⨾
    u' ⇐ call (in_users (ps_deref p));
    Done (u_ID u', None)
  end.

(** The code is made, stored and sent along with the redirect. *)
Definition CreateAuthCode_issue_proc (session : AuthorizeRequest) (userID : string) : P Result :=
  a ⇐ call (in_sys (NewAuthCode (mkAuthCodeArgs userID (ar_ClientID session) (ar_RedirectURI session)
        (ar_Scope session) (ar_Nonce session) (ar_CodeChallenge session) (ar_CodeChallengeMethod session))));
  match a with
  | (_, Some e) => pfail (NewErrAuthCodeCreateFailed e)
  | (None, None) => Crash "nil pointer dereference"
  | (Some authCode, None) =>
    e ⇐ call (in_cache (cache_Set (AuthCodeCacheKey (ac_Code authCode)) (VAuthCode authCode) (Some AuthCodeTTL)));
    match e with
    | Some err => pfail err
    | None =>
      redirect ⇐ call (AuthorizeRequest_BuildRedirectURI (ac_Code authCode) session);
      pok (RCreateAuthCode redirect)
    end
  end.

Definition CreateAuthCode_proc (c : CreateAuthCodeCommand) : P Result :=
  r ⇐ call (in_cache (cache_GetAndDelete (AuthorizeRequestCacheKey (kc_SessionID c)) destSession));
  match r with
  | None => pfail NewErrInvalidSession
  | Some session =>
    if bool_decide (is_Some (AuthorizeRequest_Validate session)) then pfail NewErrInvalidSession else
    if negb (CreateAuthCodeCommand_ValidateCSRF c (ar_CSRFToken session)) then pfail NewErrInvalidSession else
    v ⇐ CreateAuthCode_verifyCredentials_proc session (kc_Email c) (kc_Password c);
    match v.2 with
    | Some e => pfail e
    | None => CreateAuthCode_issue_proc session v.1
    end
  end.

Lemma CreateAuthCode_failure_exec user w :
  exec (CreateAuthCode_recordAccountFailure_proc user) w = CreateAuthCode_recordAccountFailure user w.
Proof.
  destruct user; [|done]. unfold CreateAuthCode_recordAccountFailure_proc, CreateAuthCode_recordAccountFailure.
  solve_exec. apply user_update_exec.
Qed.

Lemma CreateAuthCode_reset_exec p dirty w :
  exec (CreateAuthCode_resetAccountFailures_proc p dirty) w = CreateAuthCode_resetAccountFailures p dirty w.
Proof.
  unfold CreateAuthCode_resetAccountFailures_proc, CreateAuthCode_resetAccountFailures. solve_exec.
Qed.

Lemma CreateAuthCode_reject_exec session user w :
  exec (CreateAuthCode_rejectCredentials_proc session user) w = CreateAuthCode_rejectCredentials session user w.
Proof.
  unfold CreateAuthCode_rejectCredentials_proc, CreateAuthCode_rejectCredentials. solve_exec.
  apply CreateAuthCode_failure_exec.
Qed.

Lemma CreateAuthCode_verify_exec session email password w :
  exec (CreateAuthCode_verifyCredentials_proc session email password) w =
  CreateAuthCode_verifyCredentials session email password w.
Proof.
  unfold CreateAuthCode_verifyCredentials_proc, CreateAuthCode_verifyCredentials.
  apply exec_bind_eq; [intros; apply exec_call|]. intros [p err] w1. cbn [fst snd].
  set (b := match err with Some e => negb (errors_Is e ErrNotFound) | None => false end). destruct b; [done|].
  destruct p as [p|]; [|apply CreateAuthCode_reject_exec]. solve_exec.
  - apply CreateAuthCode_reject_exec.
  - apply user_update_exec.
  - apply CreateAuthCode_reset_exec.
Qed.

Lemma CreateAuthCode_exec c w : exec (CreateAuthCode_proc c) w = CreateAuthCode_Execute c w.
Proof.
  unfold CreateAuthCode_proc, CreateAuthCode_Execute. apply exec_bind_eq; [intros; apply exec_call|].
  intros [session|] w1; [|done]. destruct (bool_decide _); [done|]. destruct (negb _); [done|].
  apply exec_bind_eq; [intros; apply CreateAuthCode_verify_exec|]. intros [userID err] w2. cbn [fst snd].
  unfold CreateAuthCode_issue_proc. solve_exec.
Qed.

(** *** refresh_token.go *)

Definition grant_RevokeNow_proc (grantID : string) : P (option goerr) :=
  t ⇐ call (in_sys time_Now); call (in_grants (gr_Revoke grantID t)).

Definition revokeGrant_proc (grantID : string) : P unit := grant_RevokeNow_proc grantID ⨾ Done tt.

Definition RefreshToken_findActive_proc (raw : string) : P (option RefreshToken * option goerr) :=
  let rejected := (None, Some NewErrInvalidRefreshToken) in
  r ⇐ call (in_rts (rr_FindByTokenHash (Hash raw)));
  match r with
  | (_, Some _) | (None, _) => Done rejected
  | (Some rt, None) =>
    match rt_RevokedAt rt with
    | Some _ =>
      (if negb (String.eqb (rt_GrantID rt) "") then
         revokeGrant_proc (rt_GrantID rt) ⨾
         call (in_rts (rr_RevokeAllForGrant (rt_GrantID rt))) ⨾
         call (RefreshToken_writeRevokedGrantMarker (rt_GrantID rt))
       else call (in_rts (rr_RevokeAllForUser (rt_UserID rt))) ⨾ Done tt) ⨾
      Done rejected
    | None =>
      valid ⇐ call (in_sys (RefreshToken_IsValid rt));
      if (valid : bool) then Done (Some rt, None) else Done rejected
    end
  end.

Definition RefreshToken_checkAndExtendGrant_proc (grantID : string) (tokenExpiry : Z) : P (option goerr) :=
  if String.eqb grantID "" then Done None else
  f ⇐ call (in_grants (gr_FindByID grantID));
  match f.2 with
  | Some e => if errors_Is e ErrNotFound then Done None else Done (Some (NewErrGenRefreshTokenFailed e))
  | None =>
    match f.1 with
    | None => Crash "nil pointer dereference"
    | Some l =>
      grant ⇐ call (in_grants (ps_deref l));
      valid ⇐ call (in_sys (Grant_IsValid grant));
      if negb valid then Done (Some NewErrInvalidRefreshToken) else
      call (in_grants (ps_assign l (Grant_ExtendToCover tokenExpiry grant))) ⨾
      e ⇐ call (in_grants (ps_Save l));
      match e with Some err => Done (Some (NewErrGenRefreshTokenFailed err)) | None => Done None end
    end
  end.

Definition RefreshToken_rotateTx_proc (oldRT newRT : RefreshToken) : P (option goerr) :=
  e ⇐ RefreshToken_checkAndExtendGrant_proc (rt_GrantID oldRT) (rt_ExpiresAt newRT);
  match e with
  | Some err => Done (Some err)
  | None =>
    e ⇐ call (in_rts (rr_RevokeByTokenHash (rt_TokenHash oldRT)));
    match e with
    | Some err =>
      if errors_Is err ErrNotFound then Done (Some NewErrInvalidRefreshToken)
      else Done (Some (NewErrGenRefreshTokenFailed err))
    | None =>
      e ⇐ call (in_rts (rr_Save newRT));
      match e with Some err => Done (Some (NewErrGenRefreshTokenFailed err)) | None => Done None end
    end
  end.

(** With the unit of work of the file backend, which only calls its function. *)
Definition RefreshToken_updateRefreshToken_proc (oldRT newRT : RefreshToken) : P (option goerr) :=
  e ⇐ RefreshToken_rotateTx_proc oldRT newRT;
  match e with
  | None => Done None
  | Some err => if is_ErrorStruct err then Done (Some err) else Done (Some (NewErrGenRefreshTokenFailed err))
  end.

Definition RefreshToken_rotate_proc (c : RefreshTokenCommand) (client : Client) (rt : RefreshToken) (user : User) : P Result :=
  let expireSecs := ResolveExpirySecs (rc_ExpireSecs c) in
  t ⇐ call (in_sys (IssueTokens (mkIssueTokensArgs user (c_ID client) "" (rt_Scope rt) expireSecs (rt_GrantID rt))));
  match t with
  | (_, Some e) => pfail e
  | (None, None) => Crash "nil pointer dereference"
  | (Some tokens, None) =>
    newRT ⇐ call (in_sys (RefreshToken_Rotate (u_ID user) tokens rt));
    e ⇐ match it_NewGrant tokens with
        | None => Done None
        | Some g => saveNewGrant_proc (Grant_ExtendToCover (rt_ExpiresAt newRT) g)
        end;
    match e with
    | Some err => pfail (NewErrGenRefreshTokenFailed err)
    | None =>
      e ⇐ RefreshToken_updateRefreshToken_proc rt newRT;
      match e with
      | Some err => pfail err
      | None => pok (RToken (TokenResponse_FromEntity tokens expireSecs))
      end
    end
  end.

Definition RefreshToken_redeem_proc (c : RefreshTokenCommand) (client : Client) (rt : RefreshToken) : P Result :=
  if negb (RefreshToken_IssuedTo rt (c_ID client)) then pfail NewErrInvalidRefreshToken else
  f ⇐ call (in_users (ur_FindByID (rt_UserID rt)));
  match f with
  | (_, Some _) | (None, _) => pfail NewErrInvalidRefreshToken
  | (Some p, None) =>
    user ⇐ user_deref_proc (Some p);
    if sessionInvalidated user rt then pfail NewErrInvalidRefreshToken
    else RefreshToken_rotate_proc c client rt user
  end.

Definition RefreshToken_proc (c : RefreshTokenCommand) : P Result :=
  match ClientAuthenticator_Authenticate
          (mkClientCredentials (rc_ClientID c) (rc_ClientSecret c) (rc_BasicClientID c) (rc_BasicClientSecret c)) with
  | inr _ => pfail NewErrInvalidClient
  | inl client =>
    if negb (Client_AllowsGrant client GrantRefreshToken) then pfail NewErrInvalidClient else
    r ⇐ RefreshToken_findActive_proc (rc_RefreshToken c);
    match r with
    | (_, Some e) => pfail e
    | (None, None) => Crash "nil pointer dereference"
    | (Some rt, None) => RefreshToken_redeem_proc c client rt
    end
  end.

(** *** logout.go *)

Definition Logout_revokeGrantTokens_proc (claims : Claims) : P unit :=
  if negb (String.eqb (cl_GrantID claims) "") then
    revokeGrant_proc (cl_GrantID claims) ⨾
    call (in_rts (rr_RevokeAllForGrant (cl_GrantID claims))) ⨾
    call (MarkGrantRevoked (cl_GrantID claims)) ⨾ Done tt
  else if negb (String.eqb (cl_Subject claims) "") then
    call (in_rts (rr_RevokeAllForUser (cl_Subject claims))) ⨾ Done tt
  else Done tt.

Definition Logout_revokeIfAuthenticated_proc (accessToken : option string) : P unit :=
  match accessToken with
  | None => Done tt
  | Some tok =>
    r ⇐ call (in_sys (ts_ParseJWT tok));
    match r with
    | (_, Some _) | (None, _) => Done tt
    | (Some claims, None) => call (Logout_blacklistAccessToken claims) ⨾ Logout_revokeGrantTokens_proc claims
    end
  end.

Definition Logout_proc (c : LogoutCommand) : P Result :=
  Logout_revokeIfAuthenticated_proc (lc_AccessToken c) ⨾
  pok (RLogout match lc_PostLogoutRedirectURI c with
               | Some u => if contains d_PostLogoutRedirectAllowlist u then u else ""
               | None => ""
               end).

(** *** Run alone, they are the handlers *)

Lemma revokeGrant_exec g w : exec (revokeGrant_proc g) w = Logout_revokeGrant g w.
Proof. unfold revokeGrant_proc, Logout_revokeGrant, grant_RevokeNow_proc, grant_RevokeNow. solve_exec. Qed.

Lemma RefreshToken_find_exec raw w :
  exec (RefreshToken_findActive_proc raw) w = RefreshToken_findActiveRefreshToken raw w.
Proof.
  unfold RefreshToken_findActive_proc, RefreshToken_findActiveRefreshToken. cbv zeta. solve_exec.
Qed.

Lemma RefreshToken_check_exec g exp w :
  exec (RefreshToken_checkAndExtendGrant_proc g exp) w = RefreshToken_checkAndExtendGrant g exp w.
Proof.
  unfold RefreshToken_checkAndExtendGrant_proc, RefreshToken_checkAndExtendGrant. destruct (String.eqb g ""); [done|].
  apply exec_bind_eq; [intros; apply exec_call|]. intros [l err] w1. cbn [fst snd]. solve_exec.
Qed.

Lemma RefreshToken_rotate_exec c client rt user w :
  exec (RefreshToken_rotate_proc c client rt user) w = RefreshToken_rotate c client rt user w.
Proof.
  unfold RefreshToken_rotate_proc, RefreshToken_rotate. cbv zeta. solve_exec; [apply saveNewGrant_exec|].
  unfold RefreshToken_updateRefreshToken_proc, RefreshToken_updateRefreshToken, uow_Do. solve_exec.
  unfold RefreshToken_rotateTx_proc, RefreshToken_rotateTx. solve_exec. apply RefreshToken_check_exec.
Qed.

Lemma RefreshToken_exec c w : exec (RefreshToken_proc c) w = RefreshToken_Execute c w.
Proof.
  unfold RefreshToken_proc, RefreshToken_Execute. solve_exec; [apply RefreshToken_find_exec|].
  unfold RefreshToken_redeem_proc, RefreshToken_redeem. solve_exec; [apply user_deref_exec|]. apply RefreshToken_rotate_exec.
Qed.

Lemma Logout_exec c w : exec (Logout_proc c) w = Logout_Execute c w.
Proof.
  unfold Logout_proc, Logout_Execute. apply exec_bind_eq; [|done]. intros w1.
  unfold Logout_revokeIfAuthenticated_proc, Logout_revokeIfAuthenticated. solve_exec.
  unfold Logout_revokeGrantTokens_proc, Logout_revokeGrantTokens. solve_exec.
Qed.

End Handlers.

(** ** Taking from the cache *)

Section CacheTickets.
  Context {E : Env} {TS : TokenServiceI} {D : Deps} {SV : StructValidator}.
  Context {CI : CacheI} {CT : CacheTake CI} {UI : UserRepoI} {GI : GrantRepoI} {RI : RefreshTokenRepoI}.

(** The level of the entry under a key. *)
Definition entry_level (k : string) (value_level : cacheVal -> option Z) (w : World) : option Z :=
  match cache_entry (w_cache w) k with
  | Some (v, _) => value_level v
  | None => None
  end.

Section Level.
  Context (k : string) (value_level : cacheVal -> option Z).
  Notation lv := (entry_level k value_level).

Lemma kept_not_raised (w w' : World) : kept_or_gone k (w_cache w) (w_cache w') -> not_raised lv w w'.
Proof. unfold not_raised, entry_level. intros [->| ->]; auto. Qed.

(** Calls that leave the cache alone. *)
Lemma untouched {X} (m : ST World X) : (forall w, w_cache (m w).2 = w_cache w) -> forall w, not_raised lv w (m w).2.
Proof. intros H w. apply kept_not_raised. left. by rewrite H. Qed.

Lemma in_sys_cache {X} (m : ST Sys X) w : w_cache (in_sys m w).2 = w_cache w.
Proof. unfold in_sys. by destruct (m (w_sys w)). Qed.
Lemma in_users_cache {X} (m : ST (Sys * @PS User ur_store) X) w : w_cache (in_users m w).2 = w_cache w.
Proof. unfold in_users. by destruct (m _). Qed.
Lemma in_grants_cache {X} (m : ST (Sys * @PS Grant gr_store) X) w : w_cache (in_grants m w).2 = w_cache w.
Proof. unfold in_grants. by destruct (m _). Qed.
Lemma in_rts_cache {X} (m : ST (Sys * RS) X) w : w_cache (in_rts m w).2 = w_cache w.
Proof. unfold in_rts. by destruct (m _). Qed.

Lemma set_elsewhere k' v ttl : k <> k' -> forall w, not_raised lv w (in_cache (cache_Set k' v ttl) w).2.
Proof.
  intros Hk w. apply kept_not_raised. unfold in_cache.
  pose proof (put_law k' v ttl (w_sys w) (w_cache w)) as H. unfold wp in H.
  destruct (cache_Set k' v ttl (w_sys w, w_cache w)) as [o [s' c']]. destruct H as [H _]. by apply H.
Qed.

(** *** Walking through a process *)

Lemma bystander_pbind {X Y} (p : proc World X) (f : X -> proc World Y) :
  bystander lv p -> (forall x, bystander lv (f x)) -> bystander lv (pbind p f).
Proof. intros Hp Hf. induction p as [x|msg|Z m q IH]; simpl in *; [apply Hf|done|]. destruct Hp as [Hr Hq]. auto. Qed.

Lemma bystander_call {X} (m : ST World X) : (forall w, not_raised lv w (m w).2) -> bystander lv (call m).
Proof. by intros H; split. Qed.

Lemma holder_after {X Y} N c (p : proc World X) (f : X -> proc World Y) :
  bystander lv p -> (forall x, holder lv N c (f x)) -> holder lv N c (pbind p f).
Proof.
  intros Hp Hf. induction p as [x|msg|Z m q IH]; simpl in *; [apply Hf|done|]. destruct Hp as [Hr Hq]. left. auto.
Qed.

Lemma holder_before {X Y} N c (p : proc World X) (f : X -> proc World Y) :
  holder lv N c p -> (forall x, bystander lv (f x)) -> holder lv N c (pbind p f).
Proof.
  intros Hp Hf. induction p as [x|msg|Z m q IH]; simpl in *; [|done|].
  - specialize (Hf x). destruct (f x) as [y|msg|Z m q]; simpl in *; [done..|]. destruct Hf. right. split; [|done]. by left.
  - destruct Hp as [[Hr Hq]|[Hr Hq]]; [left; auto|right]. split; [done|]. intros z. apply bystander_pbind; auto.
Qed.

Lemma bystander_holder {X} N c (p : proc World X) : bystander lv p -> holder lv N c p.
Proof. induction p as [x|msg|Z m q IH]; simpl in *; [done..|]. intros [Hr Hq]. left. auto. Qed.

(** The take itself. *)
Lemma contender_take {A X} (took : X -> bool) N (d : dest A) (f : option A -> proc World X) :
  contender lv N took (f None) ->
  (forall v a, d v = inl a -> contender lv N took (f (Some a)) \/
     exists c, value_level v = Some c /\ (0 <= c < N -> holder lv N c (f (Some a)))) ->
  contender lv N took (pbind (call (in_cache (cache_GetAndDelete k d))) f).
Proof.
  intros Hnone Hsome. simpl. intros w. unfold in_cache.
  pose proof (take_law A k d (w_sys w) (w_cache w)) as H. unfold wp in H.
  destruct (cache_GetAndDelete k d (w_sys w, w_cache w)) as [o [s' c']]. cbn [fst snd] in H. destruct H as (Hkept & r & -> & Hr).
  split; [by apply kept_not_raised|]. simpl. intros x [= <-]. destruct r as [a|]; [|by left].
  destruct (Hr a eq_refl) as (Hgone & v & y & Hv & Hd). destruct (Hsome v a Hd) as [|(c & Hc & Hh)]; [by left|right].
  exists c. unfold entry_level. simpl. by rewrite Hv, Hgone.
Qed.

End Level.

(** ** Authorization codes *)

Definition succeeded (r : Result) : bool := match r.2 with None => true | Some _ => false end.

Definition code_level (v : cacheVal) : option Z := match destCode v with inl _ => Some 0 | inr _ => None end.

Create HintDb race discriminated.
#[local] Hint Resolve in_sys_cache in_users_cache in_grants_cache in_rts_cache : race.

(** Walks through a process; what is left are the calls no hint covers. *)
Ltac solve_bystander :=
  repeat match goal with
  | |- bystander _ (pbind _ _) => apply bystander_pbind; [|intros ?]
  | |- bystander _ (call _) => apply bystander_call, untouched; solve [auto with race]
  | |- bystander _ (Done _) => exact I
  | |- bystander _ (Crash _) => exact I
  | |- bystander _ (match ?x with _ => _ end) => destruct x
  | |- bystander _ (let _ := _ in _) => cbv zeta
  end.

Lemma redeem_bystander k f c client ac : bystander (entry_level k f) (ExchangeCode_redeem_proc c client ac).
Proof.
  unfold ExchangeCode_redeem_proc, ExchangeCode_saveRefreshToken_proc, saveNewGrant_proc, user_deref_proc,
    ExchangeCode_issueTokens, pfail, pok. solve_bystander.
Qed.

Lemma exchange_contender c code : xc_Code c = code ->
  contender (entry_level (AuthCodeCacheKey code) code_level) 1 succeeded (ExchangeCode_proc c).
Proof.
  intros <-. unfold ExchangeCode_proc, pfail. destruct (ClientAuthenticator_Authenticate _) as [client|]; [|done].
  destruct (negb _); [done|]. apply contender_take; [done|]. intros v ac Hd. right. exists 0. unfold code_level. rewrite Hd.
  split; [done|]. intros _. destruct (bool_decide _); [done|]. apply bystander_holder, redeem_bystander.
Qed.

(** C6: Any number of requests exchange one code, their calls interleaved in any
    order with each other and with those of other requests that do not write
    the code's entry: at most one of them gets tokens. *)
Theorem code_race (code : string) (cs : list ExchangeCodeCommand) (others : list (proc World Result)) (sched : list nat) (w : World) :
  Forall (fun c => xc_Code c = code) cs ->
  Forall (bystander (entry_level (AuthCodeCacheKey code) code_level)) others ->
  (length (takers succeeded (length cs) (run_schedule sched (map ExchangeCode_proc cs ++ others) w).1) <= 1)%nat.
Proof.
  intros Hcs Hothers. apply Nat2Z.inj_le. change (Z.of_nat 1) with (Z.max 0 1).
  apply (tickets_bound (entry_level (AuthCodeCacheKey code) code_level)).
  - intros i p. apply pool_of; [|done]. eapply Forall_impl; [exact Hcs|]. intros c. apply exchange_contender.
  - intros c. unfold entry_level, code_level. destruct (cache_entry _ _) as [[v x]|]; [|done].
    destruct (destCode v); [|done]. intros [= <-]. lia.
Qed.

(** *** The others *)

(** Refreshes and logouts write no code and no session: they may be among the
    other requests of the two theorems. *)
Lemma marker_elsewhere k f g : k <> RevokedGrantKey g -> bystander (entry_level k f) (call (MarkGrantRevoked g)).
Proof. intros Hk. apply bystander_call, set_elsewhere, Hk. Qed.

Lemma write_marker_elsewhere k f g : k <> RevokedGrantKey g ->
  bystander (entry_level k f) (call (RefreshToken_writeRevokedGrantMarker g)).
Proof.
  intros Hk. apply bystander_call. intros w. unfold RefreshToken_writeRevokedGrantMarker.
  pose proof (set_elsewhere k f (RevokedGrantKey g) (VBool true) (Some RevokedGrantMarkerTTL) Hk w) as H.
  unfold MarkGrantRevoked, bind. by destruct (in_cache _ w) as [[e|msg] w'].
Qed.

Lemma blacklist_elsewhere k f c : (forall j, k <> BlacklistKey j) ->
  bystander (entry_level k f) (call (Logout_blacklistAccessToken c)).
Proof.
  intros Hk. apply bystander_call. intros w. unfold Logout_blacklistAccessToken, BlacklistJTI.
  destruct (String.eqb _ ""); [by left|]. unfold bind.
  destruct (in_sys (Claims_IsExpired c) w) as [[b|msg] w1] eqn:H1;
    (assert (w_cache w1 = w_cache w) as Hc by (by rewrite <-(in_sys_cache (Claims_IsExpired c) w), H1)).
  2: { apply kept_not_raised. left. by rewrite <-Hc. }
  destruct b; [apply kept_not_raised; left; by rewrite <-Hc|]. destruct (cl_ExpiresAt c) as [e|].
  2: { apply kept_not_raised. left. by rewrite <-Hc. }
  simpl. set (w2 := upd_sys _ w1). pose proof (set_elsewhere k f (BlacklistKey (cl_ID c)) (VBool true)
    (Some (e - clock (n_clock (w_sys w1)))) (Hk _) w2) as H. unfold not_raised, entry_level in *. simpl in H.
  rewrite Hc in H. by destruct (in_cache _ w2) as [[e'|msg] w'].
Qed.

Lemma refresh_bystander k f c : (forall g, k <> RevokedGrantKey g) -> bystander (entry_level k f) (RefreshToken_proc c).
Proof.
  intros Hk. unfold RefreshToken_proc, RefreshToken_findActive_proc, revokeGrant_proc, grant_RevokeNow_proc,
    RefreshToken_redeem_proc, RefreshToken_rotate_proc, RefreshToken_updateRefreshToken_proc, RefreshToken_rotateTx_proc,
    RefreshToken_checkAndExtendGrant_proc, saveNewGrant_proc, user_deref_proc, pfail, pok. cbv zeta.
  solve_bystander. by apply write_marker_elsewhere.
Qed.

Lemma logout_bystander k f c : (forall g, k <> RevokedGrantKey g) -> (forall j, k <> BlacklistKey j) ->
  bystander (entry_level k f) (Logout_proc c).
Proof.
  intros Hk Hj. unfold Logout_proc, Logout_revokeIfAuthenticated_proc, Logout_revokeGrantTokens_proc, revokeGrant_proc,
    grant_RevokeNow_proc, pok. solve_bystander; [by apply blacklist_elsewhere|by apply marker_elsewhere].
Qed.

(** ** Sign-in sessions *)

(** The failures counted in the session; a request was let at the password
    unless it was told that there is no session. *)
Definition session_level (v : cacheVal) : option Z :=
  match destSession v with inl s => Some (ar_FailedAttempts s) | inr _ => None end.

Definition attempted (r : Result) : bool :=
  match r.2 with Some e => negb (bool_decide (e = NewErrInvalidSession)) | None => true end.

Section SignIn.
  Context (sid : string).
  Notation lv := (entry_level (AuthorizeRequestCacheKey sid) session_level).

Lemma failure_bystander user : bystander lv (CreateAuthCode_recordAccountFailure_proc user).
Proof. unfold CreateAuthCode_recordAccountFailure_proc, user_update_proc. solve_bystander. Qed.

Lemma issue_bystander session uid : bystander lv (CreateAuthCode_issue_proc session uid).
Proof.
  unfold CreateAuthCode_issue_proc, pfail, pok. solve_bystander.
  - apply bystander_call, set_elsewhere. key_ne.
  - apply bystander_call, untouched. intros w. unfold AuthorizeRequest_BuildRedirectURI. by destruct (url_Parse _).
Qed.

(** The session goes back with one failure more, or not at all. *)
Lemma put_session session w :
  0 <= ar_FailedAttempts session < maxFailedAttempts ->
  AuthorizeRequest_IsLockedOut (AuthorizeRequest_RequestFail session) = false ->
  let w' := (in_cache (cache_Set (AuthorizeRequestCacheKey (ar_ID (AuthorizeRequest_RequestFail session)))
               (VSession (AuthorizeRequest_RequestFail session)) (Some AuthorizeRequestTTL)) w).2 in
  not_raised lv w w' \/ (lv w' = Some (ar_FailedAttempts session + 1) /\ ar_FailedAttempts session + 1 < maxFailedAttempts).
Proof.
  intros Hc Hl. cbv zeta. destruct (decide (ar_ID session = sid)) as [Hid|Hid].
  - unfold in_cache. simpl ar_ID. rewrite Hid.
    pose proof (put_law (AuthorizeRequestCacheKey sid) (VSession (AuthorizeRequest_RequestFail session))
      (Some AuthorizeRequestTTL) (w_sys w) (w_cache w)) as H. unfold wp in H.
    destruct (cache_Set _ _ _ (w_sys w, w_cache w)) as [o [s' c']]. cbn [fst snd] in *. destruct H as [_ [H|[x H]]].
    { left. by apply kept_not_raised. }
    unfold not_raised, entry_level. simpl w_cache. rewrite H. unfold session_level.
    destruct (destSession _) as [s|] eqn:Hd; [right|left; by right].
    assert (ar_FailedAttempts s = ar_FailedAttempts session + 1) as ->.
    { simpl in Hd. destruct (json_Scope _); [|done]. injection Hd as <-. simpl.
      apply wrap64_id. unfold maxFailedAttempts, two63 in *. lia. }
    split; [done|]. unfold AuthorizeRequest_IsLockedOut in Hl. simpl in Hl.
    rewrite wrap64_id in Hl by (unfold maxFailedAttempts, two63 in *; lia). lia.
  - left. apply set_elsewhere. simpl. intros H%(key_inj AuthorizeRequestCacheKey); [done|]. unfold key_formats. left.
Qed.

Lemma reject_holder session user : 0 <= ar_FailedAttempts session < maxFailedAttempts ->
  holder lv maxFailedAttempts (ar_FailedAttempts session) (CreateAuthCode_rejectCredentials_proc session user).
Proof.
  intros Hc. unfold CreateAuthCode_rejectCredentials_proc. apply holder_after; [apply failure_bystander|]. intros _. cbv zeta.
  destruct (AuthorizeRequest_IsLockedOut _) eqn:Hl; [done|]. right. split; [|done]. intros w. by apply put_session.
Qed.

Lemma verify_holder session email password : 0 <= ar_FailedAttempts session < maxFailedAttempts ->
  holder lv maxFailedAttempts (ar_FailedAttempts session) (CreateAuthCode_verifyCredentials_proc session email password).
Proof.
  intros Hc. unfold CreateAuthCode_verifyCredentials_proc.
  apply holder_after; [solve_bystander|]. intros [p err]. cbn [fst snd].
  set (b := match err with Some e => negb (errors_Is e ErrNotFound) | None => false end). destruct b; [done|].
  destruct p as [p|]; [|by apply reject_holder]. apply holder_after; [solve_bystander|]. intros u.
  apply holder_after; [solve_bystander|]. intros [|]; [done|]. destruct (negb _); [by apply reject_holder|].
  apply bystander_holder. unfold user_update_proc, CreateAuthCode_resetAccountFailures_proc, user_update_proc. solve_bystander.
Qed.

Lemma sign_in_contender c : kc_SessionID c = sid -> contender lv maxFailedAttempts attempted (CreateAuthCode_proc c).
Proof.
  intros Hsid. unfold CreateAuthCode_proc, pfail. rewrite Hsid. apply contender_take; [done|].
  intros v session Hd. right. exists (ar_FailedAttempts session). unfold session_level. rewrite Hd. split; [done|]. intros Hc.
  destruct (bool_decide _); [done|]. destruct (negb _); [done|].
  apply holder_before; [by apply verify_holder|]. intros [uid [e|]]; [done|]. apply issue_bystander.
Qed.

End SignIn.

(** C11: Any number of forms posted to one sign-in session, their calls interleaved
    in any order with each other and with those of other requests that do not
    write the session's entry: at most three get at the password, however many
    arrive at the same time. *)
Theorem sign_in_race (sid : string) (cs : list CreateAuthCodeCommand) (others : list (proc World Result)) (sched : list nat) (w : World) :
  Forall (fun c => kc_SessionID c = sid) cs ->
  Forall (bystander (entry_level (AuthorizeRequestCacheKey sid) session_level)) others ->
  (forall v x s, cache_entry (w_cache w) (AuthorizeRequestCacheKey sid) = Some (v, x) -> destSession v = inl s ->
     0 <= ar_FailedAttempts s < maxFailedAttempts) ->
  (length (takers attempted (length cs) (run_schedule sched (map CreateAuthCode_proc cs ++ others) w).1) <= 3)%nat.
Proof.
  intros Hcs Hothers H0. apply Nat2Z.inj_le. change (Z.of_nat 3) with (Z.max 0 maxFailedAttempts).
  apply (tickets_bound (entry_level (AuthorizeRequestCacheKey sid) session_level)).
  - intros i p. apply pool_of; [|done]. eapply Forall_impl; [exact Hcs|]. intros c. apply sign_in_contender.
  - intros c. unfold entry_level, session_level. destruct (cache_entry _ _) as [[v x]|] eqn:Hv; [|done].
    destruct (destSession v) as [s|] eqn:Hs; [|done]. intros [= <-]. by apply (H0 v x).
Qed.

End CacheTickets.
