(* ===== verification/MongoFlow.v ===== *)
(** * MongoDB under concurrent requests

    Commands of different requests interleave at the server.  The consumption of
    a password-reset token relies on the condition in the filter of one write;
    it is single-use as long as nobody saves a stale copy of the user. *)

From S2P Require Import Prelude GoStd Crypto Errors Env Cipher Scope User Token Client AuthFlow Cache FileRepo Ports Adapters Contract Mongo MongoAdapters MongoRows MongoCodecs MongoContract.

Local Open Scope Z_scope.

(** ** Both backends keep the contract *)

Section Contract.
  Context {E : Env} {A : Aead} {EC : EmailCipher} {M : MongoDriver}.

(** The repositories of one backend. *)
Record backend_contract (nt : Z -> Z) (same_email : string -> string -> Prop)
    (U : UserRepoI) (G : GrantRepoI) (R : RefreshTokenRepoI) : Prop := {
  bc_users : UserContract E nt same_email U;
  bc_grants : GrantContract E nt G;
  bc_tokens : RefreshTokenContract E nt R;
}.

(** The constructors leave collections on which the invariant holds, whatever
    rows they held before. *)
Lemma mongo_constructors {MS : MongoSpec M} (c c' : Coll) :
  coll_ok c ->
  (forall m : gmap string userDoc, rows c m -> NewMongoUserRepository c = (Ret None, c') ->
     mongo_inv user_indexes (mkMongoRepo (T := User) [] c')) /\
  (forall m : gmap string grantDoc, rows c m -> NewMongoGrantRepository c = (Ret None, c') ->
     mongo_inv grant_indexes (mkMongoRepo (T := Grant) [] c')) /\
  (forall m : gmap string refreshTokenDoc, rows c m -> NewMongoRefreshTokenRepository c = (Ret None, c') ->
     mongo_inv rt_indexes (mkMongoRepo (T := RefreshToken) [] c')).
Proof.
  intros Hok.
  split_and!; intros m Hm; unfold NewMongoUserRepository, NewMongoGrantRepository, NewMongoRefreshTokenRepository, bind;
    match goal with |- context [col_CreateMany ?ixs c] =>
      destruct (createMany_law ixs c Hok) as (e & c1 & Hrun & Hok1 & Hd & He) end;
    rewrite Hrun; destruct e as [err|]; intros [= <-]; (split; [done|]);
    (split; [simpl; auto|exists m; by eapply same_rows]).
Qed.

(** C25: The file backend and the MongoDB backend keep one contract: what is saved is
    found again by every lookup of the port, lookups report exactly the stored
    entities, a grant or token is revoked only once, sweeps revoke what they
    select and nothing else, a second user with an address of the tenant is
    refused, and a reset token is consumed by the write that clears it.  MongoDB
    rounds times down to the millisecond, compares addresses by blind index and
    may have carried out a write it reports as failed. *)
Theorem backends_share_contract :
  ClockMono E -> AeadSpec A -> MongoSpec M ->
  backend_contract (fun t => t) eq fileUserRepo fileGrantRepo fileRTRepo /\
  backend_contract ms_trunc blind_equal mongoUserRepo mongoGrantRepo mongoRTRepo.
Proof.
  intros CM AS MS. split; split.
  - apply user_laws_contract, _.
  - apply grant_laws_contract, _.
  - apply rt_laws_contract, _.
  - apply _.
  - apply _.
  - apply _.
Qed.

End Contract.

(** ** A reset token is consumed once *)

Section ResetRace.
  Context {E : Env} {A : Aead} {AS : AeadSpec A} {EC : EmailCipher} {M : MongoDriver} {MS : MongoSpec M}.

(** The users who hold a reset token. *)
Definition holders (h : string) (c : Coll) : gset string :=
  dom (filter (fun '(_, u) => u_PasswordResetTokenHash u = Some h) (coll_view User c)).

Lemma elem_of_holders h c id :
  id ∈ holders h c <-> exists u, coll_view User c !! id = Some u /\ u_PasswordResetTokenHash u = Some h.
Proof.
  unfold holders. rewrite elem_of_dom. unfold is_Some. split.
  - intros [u [? ?]%map_lookup_filter_Some]. eauto.
  - intros (u & ? & ?). exists u. by apply map_lookup_filter_Some.
Qed.

(** Whether a copy of a user carries the token. *)
Definition carries (h : string) (u : User) : nat := if bool_decide (u_PasswordResetTokenHash u = Some h) then 1 else 0.

(** The writes requests send while a token is out, in any order: those that try to
    consume it, with their results, and between them saves and creations of users,
    from whatever copies their requests have; [g] counts the copies among those
    that carry the token.  (Reads change nothing.) *)
Inductive reset_run (h : string) : Coll -> list (option goerr) -> nat -> Coll -> Prop :=
| reset_done c : reset_run h c [] 0 c
| reset_consume c u hp s e s' hp' c1 es g c2 :
    u_TenantID u <> "" -> u_PasswordResetTokenHash u = None ->
    MongoUser_consume h u (s, mkMongoRepo hp c) = (Ret e, (s', mkMongoRepo hp' c1)) ->
    reset_run h c1 es g c2 -> reset_run h c (e :: es) g c2
| reset_save c l u hp s o s' hp' c1 es g c2 :
    hp !! l = Some u -> u_TenantID u <> "" ->
    MongoUser_Save l (s, mkMongoRepo hp c) = (o, (s', mkMongoRepo hp' c1)) ->
    reset_run h c1 es g c2 -> reset_run h c es (carries h u + g) c2
| reset_create c l u hp s o s' hp' c1 es g c2 :
    hp !! l = Some u -> u_TenantID u <> "" ->
    MongoUser_CreateUser l (s, mkMongoRepo hp c) = (o, (s', mkMongoRepo hp' c1)) ->
    reset_run h c1 es g c2 -> reset_run h c es (carries h u + g) c2.

Definition successes (es : list (option goerr)) : nat :=
  length (List.filter (fun e : option goerr => if e then false else true) es).

(** What one consuming write does to the holders. *)
Lemma consume_holders h u hp s e s' hp' c c1 :
  mongo_inv user_indexes (mkMongoRepo hp c) -> u_TenantID u <> "" -> u_PasswordResetTokenHash u = None ->
  MongoUser_consume h u (s, mkMongoRepo hp c) = (Ret e, (s', mkMongoRepo hp' c1)) ->
  mongo_inv user_indexes (mkMongoRepo hp' c1) /\ holders h c1 ⊆ holders h c /\
  (e = None -> exists id, id ∈ holders h c /\ id ∉ holders h c1).
Proof.
  intros Hinv Ht Hh Hrun. destruct (wp_run _ _ _ _ _ Hrun (mongo_consume h u s _ Hinv Ht)) as (_ & Hinv' & Ho).
  simpl in Ho. split; [done|].
  assert ((coll_view User c1 = <[u_ID u := user_norm ms_trunc u]> (coll_view User c) /\
      exists u0, coll_view User c !! u_ID u = Some u0 /\ u_PasswordResetTokenHash u0 = Some h) -> holders h c1 ⊆ holders h c /\ exists id, id ∈ holders h c /\ id ∉ holders h c1) as Hst.
  { intros [Hv (u0 & Hu0 & Hh0)]. split.
    - intros id (u' & Hu' & Hh')%elem_of_holders. rewrite Hv in Hu'.
      apply lookup_insert_Some in Hu' as [[_ <-]|[_ Hu']]; [simpl in Hh'; congruence|].
      apply elem_of_holders. eauto.
    - exists (u_ID u). split; [apply elem_of_holders; eauto|]. intros (u' & Hu' & Hh')%elem_of_holders.
      rewrite Hv, lookup_insert_eq in Hu'. injection Hu' as <-. simpl in Hh'. congruence. }
  destruct e as [e|].
  - split; [|done]. destruct Ho as [_ [Hv|Hx]]; [|by apply Hst]. unfold holders. by rewrite Hv.
  - destruct (Hst Ho). auto.
Qed.

(** Storing a copy hands the token to at most the user of the copy. *)
Lemma stored_holders h u c c1 :
  coll_view User c1 = coll_view User c \/
    coll_view User c1 = <[u_ID u := user_norm ms_trunc u]> (coll_view User c) ->
  (size (holders h c1) <= carries h u + size (holders h c))%nat.
Proof.
  intros [Hv|Hv]; [unfold holders; rewrite Hv; lia|]. unfold carries.
  assert (forall id, id ∈ holders h c1 -> id ∈ holders h c \/ u_PasswordResetTokenHash u = Some h /\ id = u_ID u) as Hin.
  { intros id (u' & Hu' & Hh')%elem_of_holders. rewrite Hv in Hu'.
    apply lookup_insert_Some in Hu' as [[<- <-]|[_ Hu']]; [by right|left; apply elem_of_holders; eauto]. }
  case_bool_decide as Hc.
  - assert (holders h c1 ⊆ {[u_ID u]} ∪ holders h c) as Hsub%subseteq_size by set_solver.
    etrans; [exact Hsub|]. rewrite size_union_alt, size_singleton.
    assert (holders h c ∖ {[u_ID u]} ⊆ holders h c) as H%subseteq_size by set_solver. lia.
  - apply subseteq_size. intros id [?|[? _]]%Hin; done.
Qed.

Lemma mongo_save_view l u s hp c o s' hp' c1 :
  mongo_inv user_indexes (mkMongoRepo hp c) -> hp !! l = Some u -> u_TenantID u <> "" ->
  MongoUser_Save l (s, mkMongoRepo hp c) = (o, (s', mkMongoRepo hp' c1)) ->
  mongo_inv user_indexes (mkMongoRepo (T := User) [] c1) /\
  (coll_view User c1 = coll_view User c \/ coll_view User c1 = <[u_ID u := user_norm ms_trunc u]> (coll_view User c)).
Proof.
  intros Hinv Hl Ht Hrun.
  destruct (wp_run _ _ _ _ _ Hrun (mongo_user_save l u s _ Hinv Hl Ht)) as (_ & _ & Hok & Hix & Hx).
  destruct Hinv as (_ & Hi & m & Hm). simpl in *.
  assert (coll_docs c1 = coll_docs c -> mongo_inv user_indexes (mkMongoRepo (T := User) [] c1) /\
    (coll_view User c1 = coll_view User c \/ coll_view User c1 = <[u_ID u := user_norm ms_trunc u]> (coll_view User c))) as Hsame.
  { intros Hd. split; [|left; by apply same_view]. split; [done|]. split; [simpl; by rewrite Hix|].
    exists m. by eapply same_rows. }
  destruct Hx as [[_ Hd]|(d & Hd & Hid & Hrows)]; [by apply Hsame|]. specialize (Hrows m Hm).
  assert (coll_docs c1 = coll_docs c \/ rows c1 (<[mc_ID d := d]> m)) as [He|Hr]; [|by apply Hsame|].
  { unfold written in Hrows. destruct o as [[e|]|]; tauto. }
  split; [|right; rewrite <-Hid; by eapply view_insert]. split; [done|]. split; [simpl; by rewrite Hix|]. by eexists.
Qed.

Lemma reset_run_bound h c es g c' : reset_run h c es g c' ->
  mongo_inv user_indexes (mkMongoRepo (T := User) [] c) ->
  (successes es + size (holders h c') <= size (holders h c) + g)%nat.
Proof.
  induction 1 as [c|c u hp s e s' hp' c1 es g c2 Ht Hh Hrun _ IH|c l u hp s o s' hp' c1 es g c2 Hl Ht Hrun _ IH
    |c l u hp s o s' hp' c1 es g c2 Hl Ht Hrun _ IH]; intros Hinv.
  - cbn. lia.
  - assert (mongo_inv user_indexes (mkMongoRepo hp c)) as Hinv0 by (by destruct Hinv).
    destruct (consume_holders _ _ _ _ _ _ _ _ _ Hinv0 Ht Hh Hrun) as (Hinv1 & Hsub & Hsucc).
    specialize (IH ltac:(by destruct Hinv1)). pose proof (subseteq_size _ _ Hsub).
    unfold successes in *. destruct e as [e|]; simpl; [lia|].
    destruct (Hsucc eq_refl) as (id & Hin & Hout).
    assert (size (holders h c1) < size (holders h c))%nat; [|lia].
    apply subset_size. split; [done|]. intros Hsup. by apply Hout, Hsup.
  - assert (mongo_inv user_indexes (mkMongoRepo hp c)) as Hinv0 by (by destruct Hinv).
    destruct (mongo_save_view _ _ _ _ _ _ _ _ _ Hinv0 Hl Ht Hrun) as [Hinv1 Hv].
    specialize (IH Hinv1). pose proof (stored_holders h u c c1 Hv). lia.
  - assert (mongo_inv user_indexes (mkMongoRepo hp c)) as Hinv0 by (by destruct Hinv).
    destruct (wp_run _ _ _ _ _ Hrun (mongo_user_create l u s _ Hinv0 Hl Ht)) as (_ & Hinv1 & _ & Hw).
    specialize (IH ltac:(by destruct Hinv1)).
    assert (coll_view User c1 = coll_view User c \/ coll_view User c1 = <[u_ID u := user_norm ms_trunc u]> (coll_view User c)) as Hv.
    { unfold written in Hw. simpl in Hw. destruct o as [[e|]|]; tauto. }
    pose proof (stored_holders h u c c1 Hv). lia.
Qed.

(** C26: A password-reset token held by one user lets at most one of the requests
    that consume it succeed, however their writes and those of other requests
    interleave, as long as no other request saves a copy of a user that still
    carries the token; then, once one has succeeded, nobody holds the token any
    more.  Every save of such a copy (a request that read the user before the
    reset) gives the token back and allows one success more. *)
Theorem reset_token_single_use (h : string) (c c' : Coll) (es : list (option goerr)) (g : nat) :
  mongo_inv user_indexes (mkMongoRepo (T := User) [] c) ->
  (forall id1 id2 u1 u2, coll_view User c !! id1 = Some u1 -> coll_view User c !! id2 = Some u2 ->
     u_PasswordResetTokenHash u1 = Some h -> u_PasswordResetTokenHash u2 = Some h -> id1 = id2) ->
  reset_run h c es g c' ->
  (successes es <= 1 + g)%nat /\
  (successes es = (1 + g)%nat -> forall id u, coll_view User c' !! id = Some u -> u_PasswordResetTokenHash u <> Some h).
Proof.
  intros Hinv Hone Hrun. pose proof (reset_run_bound h c es g c' Hrun Hinv) as Hb.
  assert (size (holders h c) <= 1)%nat as Hsz.
  { apply Nat.nlt_ge. intros Hlt. destruct (size_pos_elem_of (holders h c)) as [id1 H1]; [lia|].
    pose proof (size_difference (holders h c) {[id1]} ltac:(set_solver)) as Hd. rewrite size_singleton in Hd.
    destruct (size_pos_elem_of (holders h c ∖ {[id1]})) as [id2 [H2 Hne]%elem_of_difference]; [lia|].
    apply elem_of_holders in H1 as (u1 & ? & ?), H2 as (u2 & ? & ?). apply Hne, elem_of_singleton. eauto. }
  split; [lia|]. intros Hs id u Hu Hh.
  assert (size (holders h c') = 0)%nat as Hz by lia. apply size_empty_inv in Hz.
  assert (id ∈ holders h c') as Hin by (apply elem_of_holders; eauto). set_solver.
Qed.

End ResetRace.

Section StaleSave.
  Context {E : Env} {A : Aead} {AS : AeadSpec A} {EC : EmailCipher} {M : MongoDriver} {MS : MongoSpec M}.

(** [Save] writes every field of the copy its request read, whatever became of
    the user since: a sign-in that read the user before the reset puts the
    consumed token and the old password back. *)
Theorem stale_save_revives_reset_token (h : string) (l : nat) (u : User) (s s' : Sys) (r r' : MongoRepo User) :
  mongo_inv user_indexes r -> mr_heap r !! l = Some u -> u_TenantID u <> "" ->
  u_PasswordResetTokenHash u = Some h -> holders h (mr_col r) = ∅ ->
  MongoUser_Save l (s, r) = (Ret None, (s', r')) ->
  holders h (mr_col r') = {[u_ID u]} /\
  u_Password <$> (coll_view User (mr_col r') !! u_ID u) = Some (u_Password u).
Proof.
  intros Hinv Hl Ht Hh Hnone Hrun.
  destruct (wp_run _ _ _ _ _ Hrun (mongo_user_save l u s r Hinv Hl Ht)) as (_ & _ & _ & _ & [[? _]|Hx]); [done|].
  destruct Hx as (d & Hd & Hid & Hrows). destruct Hinv as (_ & _ & m & Hm). specialize (Hrows m Hm).
  assert (coll_view User (mr_col r') = <[u_ID u := user_norm ms_trunc u]> (coll_view User (mr_col r))) as Hv
    by (rewrite <-Hid; by eapply view_insert).
  split; [|by rewrite Hv, lookup_insert_eq]. apply set_eq. intros id. rewrite elem_of_holders, elem_of_singleton, Hv.
  split.
  - intros (u' & [[<- _]|[_ Hu']]%lookup_insert_Some & Hh'); [done|].
    assert (id ∈ holders h (mr_col r)) as Hin by (apply elem_of_holders; eauto). by rewrite Hnone in Hin.
  - intros ->. rewrite lookup_insert_eq. eauto.
Qed.

End StaleSave.
