(* ===== verification/Queries.v ===== *)
(** * Queries (modules/auth/application/query)

    The authorization endpoint, the sign-in page, the password grant, the
    profile, introspection, discovery and the key set. *)

From S2P Require Import Prelude GoStd Crypto Errors Env Scope User Token Client AuthFlow Jwt Cache Ports Services Responses CmdTokens CmdUsers.

Local Open Scope Z_scope.

Definition responseTypeCode : string := "code".
Definition codeChallengeLength : Z := 43.
Definition maxStateNonceLen : Z := 1024.

Record GetAuthorizeQuery := mkGetAuthorizeQuery {
  aq_ResponseType : string;
  aq_ClientID : string;
  aq_RedirectURI : string;
  aq_Scope : string;
  aq_State : option string;
  aq_Nonce : option string;
  aq_CodeChallenge : option string;
  aq_CodeChallengeMethod : option string;
}.

Record GetTokenQuery := mkGetTokenQuery {
  tq_Email : string; tq_Password : string; tq_Scope : option string; tq_ExpireSecs : option Z;
}.

Record IntrospectTokenQuery := mkIntrospectTokenQuery {
  iq_ClientID : string;
  iq_ClientSecret : string;
  iq_BasicClientID : string;
  iq_BasicClientSecret : string;
  iq_Token : string;
  iq_TokenTypeHint : option string;
}.

Definition validPKCE (q : GetAuthorizeQuery) : bool :=
  match aq_CodeChallenge q with
  | None => negb (bool_decide (is_Some (aq_CodeChallengeMethod q)))
  | Some ch =>
    if negb (len ch =? codeChallengeLength) then false
    else match aq_CodeChallengeMethod q with
         | Some m => String.eqb m CodeChallengeMethodS256
         | None => false
         end
  end.

Definition tooLong (s : option string) : bool :=
  match s with Some v => maxStateNonceLen <? len v | None => false end.

Definition Authorize_protocolError (q : GetAuthorizeQuery) (client : Client) : string :=
  if String.eqb (aq_ResponseType q) "" then OAuth2InvalidRequest
  else if negb (String.eqb (aq_ResponseType q) responseTypeCode) then OAuth2UnsupportedResponseType
  else
    let '(scope, err) := NewScope (strings_Fields (aq_Scope q)) in
    if bool_decide (is_Some err) || negb (Scope_Contains scope ScopeOpenID) then OAuth2InvalidScope
    else if negb (validPKCE q) ||
            (Client_IsPublic client && negb (bool_decide (is_Some (aq_CodeChallenge q))))
    then OAuth2InvalidRequest
    else if tooLong (aq_State q) || tooLong (aq_Nonce q) then OAuth2InvalidRequest
    else "".

(** strings.TrimRight(s, "/") *)
Fixpoint drop_slashes (l : list Z) : list Z :=
  match l with
  | [] => []
  | c :: l' => if c =? 47 then drop_slashes l' else l
  end.

Definition strings_TrimRight_slash (s : string) : string :=
  string_of (rev (drop_slashes (rev (bytes_of s)))).

Section Queries.
  Context {E : Env} {TS : TokenServiceI} {D : Deps} {SV : StructValidator}.
  Context {CI : CacheI} {UI : UserRepoI} {GI : GrantRepoI} {RI : RefreshTokenRepoI}.

(** ** authorize.go *)

Definition Authorize_Execute (q : GetAuthorizeQuery) : ST World Result :=
  match Registry_FindByID d_ClientRegistry DefaultTenantID (aq_ClientID q) with
  | None => fail NewErrInvalidRedirectURI
  | Some client =>
    if negb (Client_AllowsRedirectURI client (aq_RedirectURI q)) then fail NewErrInvalidRedirectURI else
    let errCode := Authorize_protocolError q client in
    if negb (String.eqb errCode "") then ok (RAuthorizeError (aq_RedirectURI q) errCode (aq_State q)) else
    r ← in_sys (NewAuthorizeRequest (mkAuthorizeRequestArgs (aq_ClientID q) (aq_RedirectURI q) (aq_Scope q)
          (aq_State q) (aq_Nonce q) (aq_CodeChallenge q) (aq_CodeChallengeMethod q)));
    match r with
    | (_, Some _) => ok (RAuthorizeError (aq_RedirectURI q) OAuth2InvalidRequest (aq_State q))
    | (None, None) => panic "nil pointer dereference"
    | (Some session, None) =>
      e ← in_cache (cache_Set (AuthorizeRequestCacheKey (ar_ID session)) (VSession session)
                      (Some AuthorizeRequestTTL));
      match e with
      | Some err => fail err
      | None => ok (RAuthorize (ar_ID session))
      end
    end
  end.

(** ** get_sign_in.go *)

Definition GetSignIn_Execute (sessionID : string) : ST World Result :=
  r ← in_cache (cache_GetErr (AuthorizeRequestCacheKey sessionID) destSession);
  match r with
  | (_, Some err) => fail err
  | (None, None) => fail NewErrInvalidSession
  | (Some session, None) =>
    if bool_decide (is_Some (AuthorizeRequest_Validate session)) then fail NewErrInvalidSession
    else ok (RSignIn (ar_CSRFToken session))
  end.

(** ** get_token.go: the password grant *)

(** The loop over the requested scopes: the first one not on the allowlist. *)
Fixpoint first_not_allowed (allow vs : list string) : option string :=
  match vs with
  | [] => None
  | s :: vs' => if contains allow s then first_not_allowed allow vs' else Some s
  end.

Definition GetToken_resolveScope (requested : option string) : Scope * option goerr :=
  match requested with
  | None => ((NewScope d_ScopeAllowlist).1, None)
  | Some raw =>
    if String.eqb raw "" then ((NewScope d_ScopeAllowlist).1, None) else
    match first_not_allowed d_ScopeAllowlist (strings_Fields raw) with
    | Some s => (Scope_zero, Some (NewErr InvalidArguments (ErrMsg ("invalid scope: " +:+ s))))
    | None => NewScope (strings_Fields raw)
    end
  end.

(** The bookkeeping after a correct password. *)
Definition GetToken_loginSucceeded (p : nat) (password : string) : ST World unit :=
  rehashed ← user_update p (User_RehashPasswordIfNeeded password);
  u ← in_users (ps_deref p);
  let hadFailures := (0 <? u_FailedLoginAttempts u) || bool_decide (is_Some (u_LockedUntil u)) in
  (if hadFailures then user_update p (void User_ResetFailedLogins) else mret tt);;
  if hadFailures || rehashed then in_users (ps_Save p);; mret tt else mret tt.

Definition GetToken_issue (p : nat) (scope : Scope) (expireSecs : Z) : ST World Result :=
  user ← in_users (ps_deref p);
  t ← in_sys (IssueTokens (mkIssueTokensArgs user "" "" scope expireSecs ""));
  match t with
  | (_, Some e) => fail e
  | (None, None) => panic "nil pointer dereference"
  | (Some tokens, None) =>
    rt ← in_sys (NewRefreshToken (u_ID user) "" tokens);
    e ← (match it_NewGrant tokens with
         | None => mret None
         | Some g => saveNewGrant (Grant_ExtendToCover (rt_ExpiresAt rt) g)
         end);
    match e with
    | Some err => fail (NewErr GenTokenFailed err)
    | None =>
      e ← in_rts (rr_Save rt);
      match e with
      | Some err => fail (NewErr GenTokenFailed err)
      | None => ok (RToken (TokenResponse_FromEntity tokens expireSecs))
      end
    end
  end.

Definition GetToken_Execute (q : GetTokenQuery) : ST World Result :=
  f ← in_users (ur_FindByEmail DefaultTenantID (tq_Email q));
  match f with
  | (_, Some _) | (None, _) => fail NewErrInvalidEmailOrPassword
  | (Some p, None) =>
    u ← in_users (ps_deref p);
    locked ← in_sys (User_IsLockedOut u);
    if (locked : bool) then fail NewErrInvalidEmailOrPassword else
    if negb (User_ValidatePassword u (tq_Password q)) then
      user_update p (void User_RecordFailedLogin);;
      in_users (ps_Save p);;
      fail NewErrInvalidEmailOrPassword
    else
      GetToken_loginSucceeded p (tq_Password q);;
      match GetToken_resolveScope (tq_Scope q) with
      | (_, Some err) => fail err
      | (scope, None) => GetToken_issue p scope (ResolveExpirySecs (tq_ExpireSecs q))
      end
  end.

(** ** get_profile.go *)

Definition GetProfile_Execute (userID : string) : ST World Result :=
  ' (p, err) ← in_users (ur_FindByID userID);
  match err with
  | Some e => if errors_Is e ErrNotFound then fail NewErrInvalidToken else fail e
  | None =>
    match p with
    | None => fail NewErrInvalidToken
    | Some l =>
      u ← in_users (ps_deref l);
      ok (RGetProfile (mkGetProfileResponse (u_ID u) (u_Username u) (u_Nickname u) (u_Email u)
            (u_EmailVerified u) (time_Unix (u_UpdatedAt u))))
    end
  end.

(** ** introspect_token.go *)

Definition Introspect_authorizeCaller (q : IntrospectTokenQuery) : option goerr :=
  if String.eqb (iq_ClientID q) "" && String.eqb (iq_BasicClientID q) "" then Some NewErrInvalidClient else
  match ClientAuthenticator_Authenticate
          (mkClientCredentials (iq_ClientID q) (iq_ClientSecret q) (iq_BasicClientID q)
             (iq_BasicClientSecret q)) with
  | inr _ => Some NewErrInvalidClient
  | inl client => if Client_IsPublic client then Some NewErrInvalidClient else None
  end.

(** A marker lookup: found, absent, or failed. *)
Definition marker_hit (r : option unit * option goerr) : bool :=
  bool_decide (is_Some r.2) || bool_decide (is_Some r.1).

(** The three revocation checks, in order; the first one that fails or hits
    ends the request. *)
Definition Introspect_revoked (claims : Claims) : ST World bool :=
  b1 ← (if negb (String.eqb (cl_ID claims) "")
        then r ← in_cache (cache_GetErr (BlacklistKey (cl_ID claims)) destNil); mret (marker_hit r)
        else mret false);
  if (b1 : bool) then mret true else
  b2 ← (if negb (String.eqb (cl_GrantID claims) "")
        then r ← in_cache (cache_GetErr (RevokedGrantKey (cl_GrantID claims)) destNil); mret (marker_hit r)
        else mret false);
  if (b2 : bool) then mret true else
  match cl_IssuedAt claims with
  | None => mret false
  | Some iat =>
    r ← in_cache (cache_GetErr (SessionsInvalidatedKey (cl_Subject claims)) destInt64);
    match r with
    | (_, Some _) => mret true
    | (Some invalidatedAt, None) => mret (time_Unix iat <=? invalidatedAt)
    | (None, None) => mret false
    end
  end.

Definition Introspect_active (claims : Claims) : IntrospectResponse :=
  mkIntrospectResponse true (cl_Subject claims) (cl_Issuer claims) (cl_Audience claims) (cl_Scope claims)
    (match cl_ExpiresAt claims with Some e => time_Unix e | None => 0 end)
    (match cl_IssuedAt claims with Some i => time_Unix i | None => 0 end)
    (cl_ID claims) TokenTypeBearer.

Definition Introspect_Execute (q : IntrospectTokenQuery) : ST World Result :=
  match Introspect_authorizeCaller q with
  | Some err => fail err
  | None =>
    r ← in_sys (ts_ParseJWT (iq_Token q));
    match r with
    | (_, Some _) | (None, _) => ok (RIntrospect IntrospectResponse_inactive)
    | (Some claims, None) =>
      revoked ← Introspect_revoked claims;
      if (revoked : bool) then ok (RIntrospect IntrospectResponse_inactive)
      else ok (RIntrospect (Introspect_active claims))
    end
  end.

(** ** get_discovery.go, get_jwks.go *)

Definition GetDiscovery_Execute : ST World Result :=
  let issuer := ts_GetIssuer in
  let endpointURL := strings_TrimRight_slash issuer in
  ok (RDiscovery {|
    dr_Issuer := issuer;
    dr_AuthorizationEndpoint := endpointURL +:+ "/authorize";
    dr_TokenEndpoint := endpointURL +:+ "/token";
    dr_UserinfoEndpoint := endpointURL +:+ "/userinfo";
    dr_JWKSURI := endpointURL +:+ "/.well-known/jwks.json";
    dr_RevocationEndpoint := endpointURL +:+ "/oidc/revoke";
    dr_EndSessionEndpoint := endpointURL +:+ "/oidc/logout";
    dr_IntrospectionEndpoint := endpointURL +:+ "/oidc/introspect";
    dr_ResponseTypesSupported := ["code"];
    dr_SubjectTypesSupported := ["public"];
    dr_IDTokenSigningAlgValuesSupported := ["RS256"];
    dr_ScopesSupported := SupportedScopes;
    dr_GrantTypesSupported := ["authorization_code"; "password"; "refresh_token"];
    dr_TokenEndpointAuthMethods := [ClientAuthNone; ClientAuthSecretBasic; ClientAuthSecretPost];
    dr_CodeChallengeMethodsSupported := [CodeChallengeMethodS256];
    dr_ClaimsSupported := ["sub"; "email"; "email_verified"; "preferred_username"; "nickname"; "updated_at"] |}).

Definition GetJWKS_Execute : ST World Result := ok (RJWKS ts_GetJWKS).

End Queries.
