(* ===== verification/Web.v ===== *)
(** * Delivery: middleware, dispatch and responses
      (handler/web/middleware, handler/web/responder, core/usecase,
       modules/auth/module.go, modules/auth/adapter/in/revocation_checker.go)

    A request context carries what the handlers read of the request, the keys
    set by middleware, and the response built so far.  gin runs a chain of
    handlers in order until one aborts; every middleware but the logger calls [Next] as
    its last action, so a chain is a sequence.  go-playground's tag validation is
    a parameter.  Binding of requests to commands is in [Binding.v], the routes
    in [Router.v]. *)

From stdpp Require Import pretty.
From S2P Require Import Prelude GoStd Crypto Errors Env Scope User Token Client AuthFlow Jwt Cache Ports Services Responses CmdTokens CmdUsers Queries.

Local Open Scope Z_scope.

(** ** Requests and responses *)

Inductive ctxVal := CtxStr (s : string) | CtxBool (b : bool) | CtxLogger.

Inductive Body :=
| BodyNone
| BodyJSON (r : Response)                              (** the use case's result *)
| BodyMsg (msg : string) (errCode : option Z)          (** responder.HTTPResponse *)
| BodyOAuth2 (error description : string)              (** RFC 6749 error body *)
| BodyHTML (page : string) (data : gmap string string)
| BodyText (text : string).

(** A Set-Cookie header: name, value, max age, same-site mode, secure; path
    "/" and HttpOnly are fixed. *)
Record SetCookie := mkSetCookie {
  sk_Name : string; sk_Value : string; sk_MaxAge : Z; sk_SameSite : SameSite; sk_Secure : bool;
}.

(** What binding reads of the request. *)
Record RawRequest := mkRawRequest {
  rq_Path : string;
  rq_RawQuery : string;
  rq_ContentType : string;
  rq_Body : string;
  rq_Cookies : gmap string string;              (** Cookie(name), unescaped *)
  rq_Files : gmap string nat;                   (** FormFile(name), by handle *)
  rq_RequestID : string;                        (** GetHeader("X-Request-Id") *)
  rq_Host : string;
  rq_UserAgent : string;
  rq_Referer : string;
}.

Record Ctx := mkCtx {
  x_raw : RawRequest;
  x_Method : string;
  x_Authorization : string;                     (** GetHeader("Authorization") *)
  x_BasicAuth : option (string * string);       (** Request.BasicAuth() *)
  x_RemoteIP : string;
  x_FullPath : string;
  x_PostFormGrantType : string;                 (** PostForm("grant_type") *)
  x_MediaType : option string;                  (** mime.ParseMediaType of the content type *)
  x_JSONGrantType : option string;              (** grant_type of the body read and decoded as JSON *)
  x_keys : gmap string ctxVal;
  x_aborted : bool;
  x_status : Z;
  x_header : gmap string string;
  x_cookies : list SetCookie;
  x_body : Body;
}.

Definition ctx_Set (k : string) (v : ctxVal) (x : Ctx) : Ctx :=
  mkCtx (x_raw x) (x_Method x) (x_Authorization x) (x_BasicAuth x) (x_RemoteIP x) (x_FullPath x)
    (x_PostFormGrantType x) (x_MediaType x) (x_JSONGrantType x)
    (<[k := v]> (x_keys x)) (x_aborted x) (x_status x) (x_header x) (x_cookies x) (x_body x).
Definition ctx_Abort (x : Ctx) : Ctx :=
  mkCtx (x_raw x) (x_Method x) (x_Authorization x) (x_BasicAuth x) (x_RemoteIP x) (x_FullPath x)
    (x_PostFormGrantType x) (x_MediaType x) (x_JSONGrantType x)
    (x_keys x) true (x_status x) (x_header x) (x_cookies x) (x_body x).
Definition ctx_Header (k v : string) (x : Ctx) : Ctx :=
  mkCtx (x_raw x) (x_Method x) (x_Authorization x) (x_BasicAuth x) (x_RemoteIP x) (x_FullPath x)
    (x_PostFormGrantType x) (x_MediaType x) (x_JSONGrantType x)
    (x_keys x) (x_aborted x) (x_status x) (<[k := v]> (x_header x)) (x_cookies x) (x_body x).
Definition ctx_DelHeader (k : string) (x : Ctx) : Ctx :=
  mkCtx (x_raw x) (x_Method x) (x_Authorization x) (x_BasicAuth x) (x_RemoteIP x) (x_FullPath x)
    (x_PostFormGrantType x) (x_MediaType x) (x_JSONGrantType x)
    (x_keys x) (x_aborted x) (x_status x) (delete k (x_header x)) (x_cookies x) (x_body x).
Definition ctx_Write (status : Z) (b : Body) (x : Ctx) : Ctx :=
  mkCtx (x_raw x) (x_Method x) (x_Authorization x) (x_BasicAuth x) (x_RemoteIP x) (x_FullPath x)
    (x_PostFormGrantType x) (x_MediaType x) (x_JSONGrantType x)
    (x_keys x) (x_aborted x) status (x_header x) (x_cookies x) b.
Definition ctx_AddCookie (c : SetCookie) (x : Ctx) : Ctx :=
  mkCtx (x_raw x) (x_Method x) (x_Authorization x) (x_BasicAuth x) (x_RemoteIP x) (x_FullPath x)
    (x_PostFormGrantType x) (x_MediaType x) (x_JSONGrantType x)
    (x_keys x) (x_aborted x) (x_status x) (x_header x) (x_cookies x ++ [c]) (x_body x).

(** The router stores the pattern of the route it found. *)
Definition ctx_Route (path : string) (x : Ctx) : Ctx :=
  mkCtx (x_raw x) (x_Method x) (x_Authorization x) (x_BasicAuth x) (x_RemoteIP x) path
    (x_PostFormGrantType x) (x_MediaType x) (x_JSONGrantType x)
    (x_keys x) (x_aborted x) (x_status x) (x_header x) (x_cookies x) (x_body x).

Definition ctx_GetBool (k : string) (x : Ctx) : bool :=
  match x_keys x !! k with Some (CtxBool b) => b | _ => false end.

(** ** responder/http_responder.go *)

Definition CookieSecureKey : string := "cookie_secure".
Definition OAuth2ErrorFormatKey : string := "oauth2_error_format".
Definition dquote : string := String (Ascii.ascii_of_nat 34) EmptyString.
Definition templateExt : string := ".html".

Definition responder_noStore (x : Ctx) : Ctx :=
  ctx_Header "Expires" "0" (ctx_Header "Pragma" "no-cache" (ctx_Header "Cache-Control" "no-store" x)).

Definition responder_redirectStatus (x : Ctx) : Z :=
  if String.eqb (x_Method x) "POST" then 303 else 302.

Definition responder_redirect (status : Z) (url : string) (x : Ctx) : Ctx :=
  ctx_Write status BodyNone (ctx_Header "Content-Length" "0" (ctx_Header "Location" url x)).

Definition responder_setCookies (cookies : list Cookie) (x : Ctx) : Ctx :=
  let cookieSecure := ctx_GetBool CookieSecureKey x in
  foldl (fun x c =>
    let sameSite := match ck_SameSite c with Some m => m | None => SameSiteStrictMode end in
    ctx_AddCookie (mkSetCookie (ck_Name c) (ck_Value c) (ck_MaxAge c) sameSite cookieSecure) x) x cookies.

(** [err.(HTTPError)]: an error with a code and an HTTP status. *)
Definition as_HTTPError (err : goerr) : option (Z * Z) :=
  match err_Code err, err_HTTPStatus err with
  | Some c, Some st => Some (c, st)
  | _, _ => None
  end.

Definition responder_failOAuth2 (err : goerr) (x : Ctx) : Ctx :=
  let status := match err_HTTPStatus err with
                | Some st => if st =? 0 then 400 else st
                | None => 400
                end in
  let code := match err_OAuth2Code err with
              | Some c => if String.eqb c "" then OAuth2InvalidRequest else c
              | None => OAuth2InvalidRequest
              end in
  let x := if String.eqb code OAuth2InvalidClient && (status =? 401)
           then ctx_Header "WWW-Authenticate" ("Basic realm=" +:+ dquote +:+ "oauth2" +:+ dquote) x else x in
  ctx_Write status (BodyOAuth2 code (err_Error err)) x.

Definition responder_fail (err : goerr) (isHTML : bool) (x : Ctx) : Ctx :=
  if isHTML then
    let status := match as_HTTPError err with
                  | Some (_, st) => if st =? 0 then 500 else st
                  | None => 500
                  end in
    ctx_Write status (BodyHTML ("error" +:+ templateExt)
      {["title" := "Something went wrong"; "message" := err_Error err]}) x
  else if ctx_GetBool OAuth2ErrorFormatKey x then responder_failOAuth2 err x
  else
    match as_HTTPError err with
    | Some (c, st) =>
      ctx_Write (if st =? 0 then 500 else st) (BodyMsg (err_Error err) (Some c)) x
    | None =>
      match err_Code err with
      | Some c => ctx_Write 500 (BodyMsg (err_Error err) (Some c)) x
      | None => ctx_Write 500 (BodyMsg "internal server error" (Some 90000)) x
      end
    end.

Section Web.
  Context {E : Env} {TS : TokenServiceI} {D : Deps} {SV : StructValidator}.
  Context {CI : CacheI} {UI : UserRepoI} {GI : GrantRepoI} {RI : RefreshTokenRepoI}.

Definition responder_Response (data : Response) (err : option goerr) (isHTML : bool) (x : Ctx) : Ctx :=
  match err with
  | Some e => responder_fail e isHTML x
  | None =>
    let x := match response_Cookies data with Some cs => responder_setCookies cs x | None => x end in
    match response_URL data with
    | Some url =>
      if negb (String.eqb url "") then
        let x := responder_noStore x in responder_redirect (responder_redirectStatus x) url x
      else ctx_Write 200 (BodyJSON data) x
    | None =>
      match response_HTML data with
      | Some (page, d) =>
        let x := if response_NoStore data then responder_noStore x else x in
        ctx_Write 200 (BodyHTML (page +:+ templateExt) d) x
      | None => ctx_Write 200 (BodyJSON data) x
      end
    end
  end.

(** ** Handler chains *)

Definition Handler : Type := Ctx -> ST World Ctx.

Fixpoint run_chain (hs : list Handler) (x : Ctx) : ST World Ctx :=
  match hs with
  | [] => mret x
  | h :: hs' => x' ← h x; if x_aborted x' then mret x' else run_chain hs' x'
  end.

(** ** adapter/in/revocation_checker.go *)

Definition revocationChecker_IsRevoked (claims : Claims) : ST World (bool * option goerr) :=
  r ← in_cache (cache_GetErr (BlacklistKey (cl_ID claims)) destNil);
  if marker_hit r then mret (bool_decide (is_Some r.1), r.2) else
  g ← (if negb (String.eqb (cl_GrantID claims) "")
       then in_cache (cache_GetErr (RevokedGrantKey (cl_GrantID claims)) destNil)
       else mret (None, None));
  if marker_hit g then mret (bool_decide (is_Some g.1), g.2) else
  match cl_IssuedAt claims with
  | None => mret (false, None)
  | Some iat =>
    m ← in_cache (cache_GetErr (SessionsInvalidatedKey (cl_Subject claims)) destInt64);
    match m with
    | (_, Some err) => mret (false, Some err)
    | (Some invalidatedAt, None) => mret (time_Unix iat <=? invalidatedAt, None)
    | (None, None) => mret (false, None)
    end
  end.

(** ** middleware/auth.go *)

Definition TokenKey : string := "access_token".
Definition IssuerKey : string := "issuer".
Definition UserIdKey : string := "user_id".
Definition GrantIdKey : string := "grant_id".
Definition BasicClientIDKey : string := "basic_client_id".
Definition BasicClientSecretKey : string := "basic_client_secret".

Definition bearer_prefix : string := "bearer ".

(** [strings.EqualFold] against an ASCII text without k or s, which have no
    non-ASCII case variants. *)
Definition EqualFold_ascii (a b : string) : bool :=
  bool_decide ((ascii_lower <$> bytes_of a) = (ascii_lower <$> bytes_of b)).

Definition extractBearerToken (header : string) : string * bool :=
  if (len header <=? len bearer_prefix) ||
     negb (EqualFold_ascii (String.substring 0 (String.length bearer_prefix) header) bearer_prefix)
  then ("", false)
  else
    let token := strings_TrimSpace
      (String.substring (String.length bearer_prefix)
         (String.length header - String.length bearer_prefix) header) in
    if String.eqb token "" then ("", false) else (token, true).

Definition verifyBearer (x : Ctx) : ST World (option (Claims * string)) :=
  match extractBearerToken (x_Authorization x) with
  | (_, false) => mret None
  | (accessToken, true) =>
    r ← in_sys (ts_ParseJWT accessToken);
    match r with
    | (_, Some _) | (None, _) => mret None
    | (Some claims, None) =>
      if String.eqb (cl_ID claims) "" then mret None else
      ' (revoked, err) ← revocationChecker_IsRevoked claims;
      if bool_decide (is_Some err) || revoked then mret None
      else mret (Some (claims, accessToken))
    end
  end.

Definition setBearerIdentity (claims : Claims) (token : string) (x : Ctx) : Ctx :=
  ctx_Set GrantIdKey (CtxStr (cl_GrantID claims))
    (ctx_Set UserIdKey (CtxStr (cl_Subject claims))
      (ctx_Set IssuerKey (CtxStr (cl_Issuer claims)) (ctx_Set TokenKey (CtxStr token) x))).

Definition ExtractClientCredentials : Handler := fun x =>
  match x_BasicAuth x with
  | Some (id, secret) =>
    mret (ctx_Set BasicClientSecretKey (CtxStr secret) (ctx_Set BasicClientIDKey (CtxStr id) x))
  | None => mret x
  end.

Definition ExtractAccessToken : Handler := fun x =>
  match extractBearerToken (x_Authorization x) with
  | (token, true) => mret (ctx_Set TokenKey (CtxStr token) x)
  | (_, false) => mret x
  end.

Definition Authenticate : Handler := fun x =>
  r ← verifyBearer x;
  match r with
  | None =>
    let x := ctx_Header "WWW-Authenticate" "Bearer" x in
    mret (ctx_Abort (responder_Response RNil
            (Some (ErrorStruct Unauthorized 401 (ErrMsg "invalid token"))) false x))
  | Some (claims, token) => mret (setBearerIdentity claims token x)
  end.

Definition AuthenticateOptional : Handler := fun x =>
  r ← verifyBearer x;
  match r with
  | None => mret x
  | Some (claims, token) => mret (setBearerIdentity claims token x)
  end.

(** ** middleware/grant_type.go, oauth2_errors.go, cookie_secure.go,
       security_headers.go *)

Definition GrantTypeKey : string := "grant_type".

Definition jsonGrantType (x : Ctx) : string :=
  match x_MediaType x with
  | Some mt =>
    if String.eqb mt "application/json"
    then match x_JSONGrantType x with Some gt => gt | None => "" end
    else ""
  | None => ""
  end.

Definition grantType (x : Ctx) : string :=
  if negb (String.eqb (x_PostFormGrantType x) "") then x_PostFormGrantType x else jsonGrantType x.

Definition GrantType (allowed : list string) : Handler := fun x =>
  let gt := grantType x in
  if String.eqb gt "" then
    mret (ctx_Abort (responder_Response RNil
      (Some (NewOAuth2Error 400 OAuth2InvalidRequest "grant_type is required")) false x))
  else if negb (Nat.eqb (length allowed) 0) && negb (contains allowed gt) then
    mret (ctx_Abort (responder_Response RNil
      (Some (NewOAuth2Error 400 OAuth2UnsupportedGrantType "unsupported grant_type")) false x))
  else mret (ctx_Set GrantTypeKey (CtxStr gt) x).

Definition OAuth2Errors : Handler := fun x => mret (ctx_Set OAuth2ErrorFormatKey (CtxBool true) x).

Definition CookieSecure (enabled : bool) : Handler := fun x =>
  mret (ctx_Set CookieSecureKey (CtxBool enabled) x).

Definition SecurityHeaders : Handler := fun x =>
  mret (ctx_Header "Pragma" "no-cache" (ctx_Header "Cache-Control" "no-store"
    (ctx_Header "Referrer-Policy" "no-referrer" (ctx_Header "X-Content-Type-Options" "nosniff"
      (ctx_Header "Content-Security-Policy" "frame-ancestors 'none'"
        (ctx_Header "X-Frame-Options" "DENY" x)))))).

(** Whole seconds of [maxAge], as [int(maxAge.Seconds())] prints them. *)
Definition CachePublic (maxAge : Z) : Handler := fun x =>
  mret (ctx_DelHeader "Pragma"
    (ctx_Header "Cache-Control" ("public, max-age=" +:+ pretty (maxAge / Second)) x)).

(** ** middleware/request_id.go *)

Definition RequestIDKey : string := "request_id".
Definition RequestIDHeader : string := "X-Request-Id".
Definition maxInboundRequestID : Z := 128.

Definition RequestID : Handler := fun x =>
  let inbound := rq_RequestID (x_raw x) in
  id ← (if String.eqb inbound "" || (maxInboundRequestID <? len inbound) then in_sys uuid_New else mret inbound);
  mret (ctx_Header RequestIDHeader id (ctx_Set RequestIDKey (CtxStr id) x)).

(** ** middleware/logger.go *)

Definition loggerKey : string := "logger".

(** The record of one request: the fields of the request's logger, then those of
    the event. *)
Record LogEvent := mkLogEvent {
  le_RequestID : string; le_Method : string; le_Host : string; le_Path : string; le_Query : string;
  le_UserAgent : string; le_Referer : string;
  le_Status : Z; le_Latency : Z; le_Location : option string;
}.

Definition ctx_GetString (k : string) (x : Ctx) : string :=
  match x_keys x !! k with Some (CtxStr s) => s | _ => "" end.

(** [Writer.Status()]: before anything is written, gin has 404 there for a path
    without a route and 200 otherwise. *)
Definition writer_Status (x : Ctx) : Z :=
  if negb (x_status x =? 0) then x_status x else if String.eqb (x_FullPath x) "" then 404 else 200.

Definition Logger_logged (next : Handler) (x : Ctx) : ST World (Ctx * LogEvent) :=
  let logged := mkLogEvent (ctx_GetString RequestIDKey x) (x_Method x) (rq_Host (x_raw x)) (rq_Path (x_raw x))
    (rq_RawQuery (x_raw x)) (rq_UserAgent (x_raw x)) (rq_Referer (x_raw x)) in
  start ← in_sys time_Now;
  x' ← next (ctx_Set loggerKey CtxLogger x);
  end_ ← in_sys time_Now;
  let location := default "" (x_header x' !! "Location") in
  mret (x', logged (writer_Status x') (end_ - start) (if String.eqb location "" then None else Some location)).

Definition Logger (next : Handler) : Handler := fun x =>
  ' (x', _) ← Logger_logged next x;
  mret x'.

(** ** middleware/rate_limit.go *)

Definition isFailClosedPath (path : string) : bool :=
  contains ["/sign-in"; "/token"; "/protocol/openid-connect/token"] path.

Definition tooManyRequests (x : Ctx) : Ctx :=
  ctx_Abort (ctx_Write 429 (BodyMsg "too many requests" None) x).

Definition DistributedRateLimit (limit window : Z) : Handler := fun x =>
  if String.eqb (x_RemoteIP x) "" then mret (tooManyRequests x) else
  ' (count, err) ← in_cache (cache_IncrWindow (rateLimitCacheKey (x_RemoteIP x)) window);
  match err with
  | Some _ => if isFailClosedPath (x_FullPath x) then mret (tooManyRequests x) else mret x
  | None => if limit <? count then mret (tooManyRequests x) else mret x
  end.

(** ** core/usecase/dispatcher.go and modules/auth/module.go *)

Inductive Command :=
| CCreateUser (c : CreateUserCommand)
| CCreateAuthCode (c : CreateAuthCodeCommand)
| CRevokeToken (c : RevokeTokenCommand)
| CUpdateProfile (c : UpdateProfileCommand)
| CRefreshToken (c : RefreshTokenCommand)
| CExchangeCode (c : ExchangeCodeCommand)
| CLogout (c : LogoutCommand)
| CForgotPassword (c : ForgotPasswordCommand)
| CResetPassword (c : ResetPasswordCommand)
| QDiscovery
| QAuthorize (q : GetAuthorizeQuery)
| QSignIn (sessionID : string)
| QToken (q : GetTokenQuery)
| QProfile (userID : string)
| QJWKS
| QIntrospect (q : IntrospectTokenQuery).

(** The use case registered for the command's type ([registerUseCases]). *)
Definition registry_Execute (cmd : Command) : ST World Result :=
  match cmd with
  | CCreateUser c => CreateUser_Execute c
  | CCreateAuthCode c => CreateAuthCode_Execute c
  | CRevokeToken c => RevokeToken_Execute c
  | CUpdateProfile c => UpdateProfile_Execute c
  | CRefreshToken c => RefreshToken_Execute c
  | CExchangeCode c => ExchangeCode_Execute c
  | CLogout c => Logout_Execute c
  | CForgotPassword c => ForgotPassword_Execute c
  | CResetPassword c => ResetPassword_Execute c
  | QDiscovery => GetDiscovery_Execute
  | QAuthorize q => Authorize_Execute q
  | QSignIn id => GetSignIn_Execute id
  | QToken q => GetToken_Execute q
  | QProfile id => GetProfile_Execute id
  | QJWKS => GetJWKS_Execute
  | QIntrospect q => Introspect_Execute q
  end.

Definition validationErrCode : Z := 10001.

Section Dispatch.
  (** [validator.ValidateStruct] on a command. *)
  Context (validate : Command -> option goerr).

(** A panic of the use case is recovered and becomes an error; the result
    variable is still nil then. *)
Definition Registry_Dispatch (cmd : Command) : ST World Result := fun w =>
  match
    (match validate cmd with
     | Some err => fail (ErrorStruct validationErrCode 400 err)
     | None => registry_Execute cmd
     end) w
  with
  | (Ret r, w') => (Ret r, w')
  | (Panic msg, w') => (Ret (RNil, Some (ErrMsg ("panic in registry: " +:+ msg))), w')
  end.

Definition Module_observeMetrics (cmd : Command) (err : option goerr) : ST World unit :=
  match err with
  | Some e =>
    if bool_decide (err_Code e = Some InvalidEmailOrPassword)
    then counter_Add MetricFailedLogins 1 else mret tt
  | None =>
    match cmd with
    | CExchangeCode _ | CCreateAuthCode _ | QToken _ => counter_Add MetricTokensIssued 1
    | _ => mret tt
    end
  end.

Definition Module_Dispatch (cmd : Command) : ST World Result :=
  ' (result, err) ← Registry_Dispatch cmd;
  Module_observeMetrics cmd err;;
  mret (result, err).

(** [handle], after binding: dispatch, map the error, write the response. *)
Definition handle (cmd : Command) (isHTML : bool) : Handler := fun x =>
  ' (result, err) ← Module_Dispatch cmd;
  mret (responder_Response result (MapHTTPError err) isHTML x).

End Dispatch.

End Web.
