(* ===== verification/Registry.v ===== *)
(** * The use-case registry and the metrics recorder
      (core/usecase/dispatcher.go, modules/auth/module.go, infrastructure/metrics,
      core/metrics)

    Web.v dispatches a command straight to its use case.  Here is how the code
    gets there: use cases are registered under the type of a command, [Dispatch]
    looks the type up, and each use case converts its argument with an unchecked
    type assertion.  The theorem says that the two agree, so that no assertion
    ever fails. *)

From S2P Require Import Prelude GoStd Crypto Errors Env Scope User Token Client AuthFlow Jwt Cache Ports Services Responses CmdTokens CmdUsers Queries Web.

Local Open Scope Z_scope.

(** ** Types of commands *)

(** [reflect.TypeOf] of a command struct. *)
Inductive CmdType :=
| TCreateUser | TCreateAuthCode | TRevokeToken | TUpdateProfile | TRefreshToken | TExchangeCode | TLogout
| TForgotPassword | TResetPassword | TDiscovery | TAuthorize | TSignIn | TToken | TProfile | TJWKS | TIntrospect
| TOther (name : string).   (** any other type *)

#[export] Instance CmdType_eq_dec : EqDecision CmdType.
Proof. solve_decision. Defined.

Definition typeOf (cmd : Command) : CmdType :=
  match cmd with
  | CCreateUser _ => TCreateUser | CCreateAuthCode _ => TCreateAuthCode | CRevokeToken _ => TRevokeToken
  | CUpdateProfile _ => TUpdateProfile | CRefreshToken _ => TRefreshToken | CExchangeCode _ => TExchangeCode
  | CLogout _ => TLogout | CForgotPassword _ => TForgotPassword | CResetPassword _ => TResetPassword
  | QDiscovery => TDiscovery | QAuthorize _ => TAuthorize | QSignIn _ => TSignIn | QToken _ => TToken
  | QProfile _ => TProfile | QJWKS => TJWKS | QIntrospect _ => TIntrospect
  end.

(** A value of type [any]: a command or a pointer to one, or something else. *)
Inductive any :=
| APtr (cmd : Command)
| AVal (cmd : Command)
| AForeign (ptr : bool) (name : string).

(** [t.Elem()] when the kind is pointer. *)
Definition elemType (a : any) : CmdType :=
  match a with
  | APtr cmd | AVal cmd => typeOf cmd
  | AForeign _ name => TOther name
  end.

Section Registry.
  Context {E : Env} {TS : TokenServiceI} {D : Deps} {SV : StructValidator}.
  Context {CI : CacheI} {UI : UserRepoI} {GI : GrantRepoI} {RI : RefreshTokenRepoI}.

Definition UseCase : Type := any -> ST World Result.

Definition bad_assertion : ST World Result := panic "interface conversion".

(** The [Execute] methods: each begins with an unchecked assertion that its
    argument is a pointer to its command, which panics on anything else; the
    last two ignore their argument. *)
Definition CreateUserUseCase : UseCase := fun a =>
  match a with APtr (CCreateUser c) => CreateUser_Execute c | _ => bad_assertion end.
Definition CreateAuthCodeUseCase : UseCase := fun a =>
  match a with APtr (CCreateAuthCode c) => CreateAuthCode_Execute c | _ => bad_assertion end.
Definition RevokeTokenUseCase : UseCase := fun a =>
  match a with APtr (CRevokeToken c) => RevokeToken_Execute c | _ => bad_assertion end.
Definition UpdateProfileUseCase : UseCase := fun a =>
  match a with APtr (CUpdateProfile c) => UpdateProfile_Execute c | _ => bad_assertion end.
Definition RefreshTokenUseCase : UseCase := fun a =>
  match a with APtr (CRefreshToken c) => RefreshToken_Execute c | _ => bad_assertion end.
Definition ExchangeCodeUseCase : UseCase := fun a =>
  match a with APtr (CExchangeCode c) => ExchangeCode_Execute c | _ => bad_assertion end.
Definition LogoutUseCase : UseCase := fun a =>
  match a with APtr (CLogout c) => Logout_Execute c | _ => bad_assertion end.
Definition ForgotPasswordUseCase : UseCase := fun a =>
  match a with APtr (CForgotPassword c) => ForgotPassword_Execute c | _ => bad_assertion end.
Definition ResetPasswordUseCase : UseCase := fun a =>
  match a with APtr (CResetPassword c) => ResetPassword_Execute c | _ => bad_assertion end.
Definition GetAuthorizeUseCase : UseCase := fun a =>
  match a with APtr (QAuthorize q) => Authorize_Execute q | _ => bad_assertion end.
Definition GetSignInUseCase : UseCase := fun a =>
  match a with APtr (QSignIn id) => GetSignIn_Execute id | _ => bad_assertion end.
Definition GetTokenUseCase : UseCase := fun a =>
  match a with APtr (QToken q) => GetToken_Execute q | _ => bad_assertion end.
Definition GetProfileUseCase : UseCase := fun a =>
  match a with APtr (QProfile id) => GetProfile_Execute id | _ => bad_assertion end.
Definition IntrospectTokenUseCase : UseCase := fun a =>
  match a with APtr (QIntrospect q) => Introspect_Execute q | _ => bad_assertion end.
Definition GetDiscoveryUseCase : UseCase := fun _ => GetDiscovery_Execute.
Definition GetJWKSUseCase : UseCase := fun _ => GetJWKS_Execute.

(** ** The registry *)

Definition Registry : Type := CmdType -> option UseCase.

Definition NewRegistry : Registry := fun _ => None.

(** The first registration of a type stays. *)
Definition Registry_Register (t : CmdType) (uc : UseCase) (r : Registry) : Registry :=
  match r t with
  | Some _ => r
  | None => fun t' => if decide (t' = t) then Some uc else r t'
  end.

Definition useCaseNotFoundCode : Z := 11002.

Definition Registry_find (r : Registry) (a : any) : UseCase + goerr :=
  match r (elemType a) with
  | None => inr (NewErrorStruct useCaseNotFoundCode 404 (ErrMsg "use case not found"))
  | Some uc => inl uc
  end.

Definition registerUseCases (r : Registry) : Registry :=
  foldl (fun r '(t, uc) => Registry_Register t uc r) r
    [(TCreateUser, CreateUserUseCase); (TCreateAuthCode, CreateAuthCodeUseCase);
     (TRevokeToken, RevokeTokenUseCase); (TUpdateProfile, UpdateProfileUseCase);
     (TRefreshToken, RefreshTokenUseCase); (TExchangeCode, ExchangeCodeUseCase); (TLogout, LogoutUseCase);
     (TForgotPassword, ForgotPasswordUseCase); (TResetPassword, ResetPasswordUseCase);
     (TDiscovery, GetDiscoveryUseCase); (TAuthorize, GetAuthorizeUseCase); (TSignIn, GetSignInUseCase);
     (TToken, GetTokenUseCase); (TProfile, GetProfileUseCase); (TJWKS, GetJWKSUseCase);
     (TIntrospect, IntrospectTokenUseCase)].

Section Dispatch.
  (** [validator.ValidateStruct] *)
  Context (validate : any -> option goerr).

Definition Registry_DispatchAny (r : Registry) (a : any) : ST World Result := fun w =>
  match
    (match Registry_find r a with
     | inr err => mret (RNil, Some err)
     | inl uc =>
       match validate a with
       | Some err => fail (NewErrorStruct validationErrCode 400 err)
       | None => uc a
       end
     end) w
  with
  | (Ret res, w') => (Ret res, w')
  | (Panic msg, w') => (Ret (RNil, Some (ErrMsg ("panic in registry: " +:+ msg))), w')
  end.

End Dispatch.

(** ** Dispatch is well typed *)

Lemma register_keeps t uc (r : Registry) t' u : r t' = Some u -> Registry_Register t uc r t' = Some u.
Proof.
  intros H. unfold Registry_Register. destruct (r t) eqn:Ht; [done|]. case_decide; [congruence|done].
Qed.

Lemma find_registered cmd a : elemType a = typeOf cmd -> exists uc,
  Registry_find (registerUseCases NewRegistry) a = inl uc /\ uc (APtr cmd) = registry_Execute cmd /\
  (typeOf cmd <> TDiscovery -> typeOf cmd <> TJWKS -> forall c, a = AVal c -> uc a = bad_assertion).
Proof.
  intros Ht. unfold Registry_find. rewrite Ht.
  destruct cmd; eexists; (split; [reflexivity|]); (split; [reflexivity|]); intros Hd Hj x ->; first [by destruct (Hd eq_refl)|by destruct (Hj eq_refl)|by destruct x].
Qed.

(** C18: Every command finds, under the type it was registered for, a use case whose
    unchecked type assertion accepts it: dispatching a pointer to a command runs
    exactly the use case of that command, after validation.  Dispatching the
    command itself fails without effect, except for the two queries that ignore
    their argument; a type that was never registered is reported as not found;
    and a second registration of a type changes nothing. *)
Theorem registry_well_typed (validate : any -> option goerr) (cmd : Command) (w : World) :
  Registry_DispatchAny validate (registerUseCases NewRegistry) (APtr cmd) w =
    Registry_Dispatch (fun c => validate (APtr c)) cmd w /\
  (validate (AVal cmd) = None -> typeOf cmd <> TDiscovery -> typeOf cmd <> TJWKS ->
   Registry_DispatchAny validate (registerUseCases NewRegistry) (AVal cmd) w =
     (Ret (RNil, Some (ErrMsg "panic in registry: interface conversion")), w)) /\
  (forall p name, Registry_DispatchAny validate (registerUseCases NewRegistry) (AForeign p name) w =
     (Ret (RNil, Some (NewErrorStruct useCaseNotFoundCode 404 (ErrMsg "use case not found"))), w)) /\
  (forall t uc, (forall name, t <> TOther name) ->
     Registry_Register t uc (registerUseCases NewRegistry) = registerUseCases NewRegistry).
Proof.
  split_and!.
  - destruct (find_registered cmd (APtr cmd) eq_refl) as (uc & Hf & Hu & _).
    unfold Registry_DispatchAny, Registry_Dispatch. rewrite Hf, Hu. reflexivity.
  - intros Hv Hd Hj. destruct (find_registered cmd (AVal cmd) eq_refl) as (uc & Hf & _ & Hx).
    unfold Registry_DispatchAny. rewrite Hf, Hv, (Hx Hd Hj cmd eq_refl). reflexivity.
  - intros p name. reflexivity.
  - intros t uc Ht. unfold Registry_Register at 1.
    assert (exists u, registerUseCases NewRegistry t = Some u) as [u ->]; [|done].
    destruct t; try (eexists; reflexivity). by destruct (Ht name).
Qed.

End Registry.

(** ** Counters (infrastructure/metrics/metrics.go, core/metrics/metrics.go) *)

(** What expvar publishes: an integer, or a variable of another kind. *)
Inductive Expvar := EInt (n : Z) | EOtherVar.

(** The published variables of the process and the recorder's own map, which
    holds the names whose [*expvar.Int] it has handed out. *)
Record MetricsState := mkMetricsState {
  ev_vars : gmap string Expvar;
  er_counters : gset string;
}.

(** A counter is a pointer to a published integer, or [noopCounter]. *)
Inductive Counter := ExpvarInt (name : string) | noopCounter.

Definition NewExpvarRecorder (vars : gmap string Expvar) : MetricsState := mkMetricsState vars ∅.

Definition noopRecorder_Counter (_ : string) : Counter := noopCounter.

Definition ExpvarRecorder_Counter (name : string) : ST MetricsState Counter := fun st =>
  if decide (name ∈ er_counters st) then (Ret (ExpvarInt name), st) else
  match ev_vars st !! name with
  | Some (EInt _) => (Ret (ExpvarInt name), mkMetricsState (ev_vars st) ({[name]} ∪ er_counters st))
  | Some EOtherVar => (Ret (noopRecorder_Counter name), st)
  | None =>
    (Ret (ExpvarInt name),
     mkMetricsState (<[name := EInt 0]> (ev_vars st)) ({[name]} ∪ er_counters st))
  end.

Definition Counter_Add (c : Counter) (delta : Z) : ST MetricsState unit :=
  match c with
  | noopCounter => mret tt
  | ExpvarInt name => modify (fun st =>
      match ev_vars st !! name with
      | Some (EInt n) => mkMetricsState (<[name := EInt (wrap64 (n + delta))]> (ev_vars st)) (er_counters st)
      | _ => st
      end)
  end.

(** Names the recorder handed out are published integers. *)
Definition recorder_ok (st : MetricsState) : Prop :=
  forall name, name ∈ er_counters st -> exists n, ev_vars st !! name = Some (EInt n).

(** The value a scrape sees. *)
Definition scraped (st : MetricsState) (name : string) : Z :=
  match ev_vars st !! name with Some (EInt n) => n | _ => 0 end.

(** Counting through the recorder is counting on the published integer of that
    name, the same one at every call, whoever published it; a name taken by a
    variable of another kind is left alone, and so is every other name. *)
Theorem recorder_counts (name : string) (delta : Z) (st : MetricsState) :
  recorder_ok st ->
  exists c st1 st2, ExpvarRecorder_Counter name st = (Ret c, st1) /\ Counter_Add c delta st1 = (Ret tt, st2) /\
    recorder_ok st2 /\
    (ev_vars st !! name <> Some EOtherVar ->
       c = ExpvarInt name /\ scraped st2 name = wrap64 (scraped st name + delta) /\
       ExpvarRecorder_Counter name st2 = (Ret c, st2)) /\
    (ev_vars st !! name = Some EOtherVar -> st2 = st) /\
    forall name', name' <> name -> ev_vars st2 !! name' = ev_vars st !! name'.
Proof.
  intros Hok.
  assert (forall st1, ExpvarRecorder_Counter name st = (Ret (ExpvarInt name), st1) -> recorder_ok st1 ->
    name ∈ er_counters st1 -> ev_vars st !! name <> Some EOtherVar -> scraped st1 name = scraped st name ->
    (forall name', name' <> name -> ev_vars st1 !! name' = ev_vars st !! name') ->
    exists c st1 st2, ExpvarRecorder_Counter name st = (Ret c, st1) /\ Counter_Add c delta st1 = (Ret tt, st2) /\
      recorder_ok st2 /\
      (ev_vars st !! name <> Some EOtherVar ->
         c = ExpvarInt name /\ scraped st2 name = wrap64 (scraped st name + delta) /\
         ExpvarRecorder_Counter name st2 = (Ret c, st2)) /\
      (ev_vars st !! name = Some EOtherVar -> st2 = st) /\
      forall name', name' <> name -> ev_vars st2 !! name' = ev_vars st !! name') as Hgo.
  { intros st1 Hc Hok1 Hin Hno Hs Hother. destruct (Hok1 name Hin) as [n Hn].
    exists (ExpvarInt name), st1. eexists. split; [done|]. split; [simpl; unfold modify; rewrite Hn; reflexivity|].
    unfold scraped in Hs |- *. rewrite Hn in Hs. simpl. split; [|split_and!; [intros _|done|]].
    - intros name' Hin'. simpl. destruct (decide (name' = name)) as [->|?]; [rewrite lookup_insert_eq; eauto|].
      rewrite lookup_insert_ne by done. by apply Hok1.
    - rewrite lookup_insert_eq, <-Hs. split_and!; try done. unfold ExpvarRecorder_Counter. simpl.
      by rewrite decide_True.
    - intros name' Hne. rewrite lookup_insert_ne by done. auto. }
  unfold ExpvarRecorder_Counter in *. case_decide as Hin.
  { destruct (Hok name Hin) as [n Hn]. apply (Hgo st); try done. congruence. }
  destruct (ev_vars st !! name) as [[n|]|] eqn:Hv.
  - eapply Hgo; [reflexivity|..]; simpl; try done; [|set_solver].
    intros name' [->%elem_of_singleton|?]%elem_of_union; simpl; eauto.
  - exists noopCounter, st, st. split_and!; try done; by intros.
  - eapply Hgo; [reflexivity|..]; simpl; try done; [|set_solver|..].
    + intros name' [->%elem_of_singleton|Hin']%elem_of_union; simpl; [rewrite lookup_insert_eq; eauto|].
      rewrite lookup_insert_ne by congruence. auto.
    + unfold scraped. simpl. by rewrite lookup_insert_eq, Hv.
    + intros name' Hne. by rewrite lookup_insert_ne.
Qed.
