(* ===== verification/Binding.v ===== *)
(** * Request binding (handler/web/binding/binding.go)

    [Bind] fills a command struct: gin's own binders first (URI, query, headers,
    body), then the values only the server may supply - context keys, cookies,
    uploaded files - and URI normalisation.  The second half walks the struct by
    reflection; the model has the reflected value as a tree, with the field tags
    of the source.  gin's binders are a parameter ([GinBinding]). *)

From S2P Require Import Prelude GoStd Crypto Errors Env Scope User Token Client AuthFlow Jwt Cache Ports Services Responses CmdTokens CmdUsers Queries Web.

Local Open Scope Z_scope.

(** ** Reflected values *)

Inductive rkind := KString | KInt | KBool | KStructT.

Record rfield := mkField { f_Name : string; f_Tag : list (string * string); f_CanSet : bool }.

(** A nil slice or map is a zero value, an empty one is not.  A file field is a
    [*multipart.FileHeader], by handle.  [leaf] marks [time.Time]. *)
Inductive rval :=
| RStr (s : string)
| RInt (z : Z)
| RBool (b : bool)
| RFile (f : option nat)
| RPtr (elem : rkind) (v : option rval)
| RStruct (leaf : bool) (fields : list (rfield * rval))
| RSlice (isNil : bool) (vs : list rval)
| RMap (isNil : bool) (kvs : list (string * rval)).

(** [reflect.Value.IsZero]. *)
Fixpoint rval_IsZero (v : rval) : bool :=
  match v with
  | RStr s => String.eqb s ""
  | RInt z => z =? 0
  | RBool b => negb b
  | RFile f => bool_decide (f = None)
  | RPtr _ p => match p with None => true | Some _ => false end
  | RStruct _ fs => forallb (fun p => rval_IsZero p.2) fs
  | RSlice isNil _ | RMap isNil _ => isNil
  end.

Fixpoint tag_Get (tag : list (string * string)) (key : string) : string :=
  match tag with
  | [] => ""
  | (k, v) :: tag' => if String.eqb k key then v else tag_Get tag' key
  end.

Definition hasTag (f : rfield) (tag : string) : bool :=
  let v := tag_Get (f_Tag f) tag in negb (String.eqb v "") && negb (String.eqb v "-").

(** The values that are put into fields. *)
Inductive bval := BCtx (v : ctxVal) | BFile (f : nat).

(** Assignable or convertible: a string to a string type, a bool to a bool
    type.  (Strings also convert to byte slices, which no command has.) *)
Definition convert (v : ctxVal) (k : rkind) : option rval :=
  match v, k with
  | CtxStr s, KString => Some (RStr s)
  | CtxBool b, KBool => Some (RBool b)
  | _, _ => None
  end.

Definition setField (fv : rval) (val : bval) : rval :=
  match fv, val with
  | RPtr k p, BCtx v => match convert v k with Some e => RPtr k (Some e) | None => RPtr k p end
  | RStr s, BCtx v => default fv (convert v KString)
  | RBool b, BCtx v => default fv (convert v KBool)
  | RFile _, BFile f => RFile (Some f)
  | _, _ => fv
  end.

(** [traverseFields]: [fn] may change a field; where it says it did not handle
    the field, the walk goes on inside. *)
Fixpoint traverseFields (fn : rfield -> rval -> rval * bool) (v : rval) : rval :=
  match v with
  | RPtr k p => RPtr k (match p with Some e => Some (traverseFields fn e) | None => None end)
  | RStruct leaf fs =>
    if leaf then v else
    RStruct leaf (List.map (fun p => (p.1,
      if negb (f_CanSet p.1) then p.2
      else if (fn p.1 p.2).2 then (fn p.1 p.2).1 else traverseFields fn p.2)) fs)
  | RSlice isNil vs => RSlice isNil (List.map (traverseFields fn) vs)
  | RMap isNil kvs => RMap isNil (List.map (fun p => (p.1, traverseFields fn p.2)) kvs)
  | _ => v
  end.

Section Binding.
  Context {E : Env}.

Definition normalizeURI (raw : string) : string :=
  match url_Parse raw with inr _ => raw | inl u => url_String u end.

Definition bindField (x : Ctx) (f : rfield) (fv : rval) : rval * bool :=
  if hasTag f "ctx" then
    (match x_keys x !! tag_Get (f_Tag f) "ctx" with Some v => setField fv (BCtx v) | None => fv end, true)
  else if hasTag f "file" then
    (match rq_Files (x_raw x) !! tag_Get (f_Tag f) "file" with Some h => setField fv (BFile h) | None => fv end, true)
  else if hasTag f "cookie" then
    (if negb (rval_IsZero fv) then fv else
     match rq_Cookies (x_raw x) !! tag_Get (f_Tag f) "cookie" with
     | Some v => setField fv (BCtx (CtxStr v))
     | None => fv
     end, true)
  else if hasTag f "normalize" then
    (match fv with
     | RStr raw => if String.eqb (tag_Get (f_Tag f) "normalize") "uri" && negb (String.eqb raw "")
                   then RStr (normalizeURI raw) else fv
     | _ => fv
     end, true)
  else (fv, false).

Definition bind_nil_err : goerr := ErrMsg "binding.Bind: obj must be a non-nil pointer".

Definition bindFromContext (x : Ctx) (obj : rval) : rval * option goerr :=
  match obj with
  | RPtr _ (Some _) => (traverseFields (bindField x) obj, None)
  | _ => (obj, Some bind_nil_err)
  end.

End Binding.

(** gin's binders: each fills the object from one part of the request. *)
Class GinBinding := {
  gin_ShouldBindUri : Ctx -> rval -> rval * option goerr;
  gin_ShouldBindQuery : Ctx -> rval -> rval * option goerr;
  gin_ShouldBindHeader : Ctx -> rval -> rval * option goerr;
  gin_ShouldBind : Ctx -> rval -> rval * option goerr;
}.

(** The value of a non-nil pointer has the pointer's element type. *)
Definition pointee_ok (k : rkind) (e : rval) : bool :=
  match k, e with
  | KString, RStr _ | KInt, RInt _ | KBool, RBool _ | KStructT, RStruct _ _ => true
  | _, _ => false
  end.

(** They assign to fields; they do not change the type of what they fill. *)
Fixpoint shape (v : rval) : rval :=
  match v with
  | RStr _ => RStr ""
  | RInt _ => RInt 0
  | RBool _ => RBool false
  | RFile _ => RFile None
  | RPtr k p => RPtr k (match p with Some e => if pointee_ok k e then None else Some e | None => None end)
  | RStruct leaf fs => RStruct leaf (List.map (fun p => (p.1, shape p.2)) fs)
  | RSlice _ _ => RSlice true []
  | RMap _ _ => RMap true []
  end.

(** A non-nil pointer to a struct of the type of [v]. *)
Definition points_to_type (v : rval) (obj : rval) : Prop :=
  exists e, obj = RPtr KStructT (Some e) /\ shape e = shape v.

Definition keeps_type (b : Ctx -> rval -> rval * option goerr) : Prop :=
  forall x v obj, points_to_type v obj -> points_to_type v (b x obj).1.

Class GinTyped (G : GinBinding) := {
  uri_typed : keeps_type gin_ShouldBindUri;
  query_typed : keeps_type gin_ShouldBindQuery;
  header_typed : keeps_type gin_ShouldBindHeader;
  body_typed : keeps_type gin_ShouldBind;
}.

Section Bind.
  Context {E : Env} {G : GinBinding}.

(** An empty body ([io.EOF]) is not an error. *)
Definition Bind (x : Ctx) (obj : rval) : rval * option goerr :=
  match obj with
  | RPtr _ (Some _) =>
    match gin_ShouldBindUri x obj with
    | (obj, Some err) => (obj, Some err)
    | (obj, None) =>
      match gin_ShouldBindQuery x obj with
      | (obj, Some err) => (obj, Some err)
      | (obj, None) =>
        match gin_ShouldBindHeader x obj with
        | (obj, Some err) => (obj, Some err)
        | (obj, None) =>
          match gin_ShouldBind x obj with
          | (obj, Some err) => if errors_Is err io_EOF then bindFromContext x obj else (obj, Some err)
          | (obj, None) => bindFromContext x obj
          end
        end
      end
    end
  | _ => (obj, Some bind_nil_err)
  end.

End Bind.

#[global] Arguments Bind : simpl never.

(** ** The command structs, with the tags of the source *)

Inductive CmdKind :=
| KCreateUser | KCreateAuthCode | KRevokeToken | KUpdateProfile | KRefreshToken | KExchangeCode | KLogout
| KForgotPassword | KResetPassword | KDiscovery | KAuthorize | KSignIn | KToken | KProfile | KJWKS | KIntrospect.

Definition string_field (name : string) (tag : list (string * string)) : rfield * rval := (mkField name tag true, RStr "").
Definition ptr_string_field (name : string) (tag : list (string * string)) : rfield * rval :=
  (mkField name tag true, RPtr KString None).
Definition ptr_int_field (name : string) (tag : list (string * string)) : rfield * rval :=
  (mkField name tag true, RPtr KInt None).

Definition tag_form (n : string) : string * string := ("form", n).
Definition tag_json (n : string) : string * string := ("json", n).
Definition tag_ctx (n : string) : string * string := ("ctx", n).
Definition tag_cookie (n : string) : string * string := ("cookie", n).
Definition tag_normalize_uri : string * string := ("normalize", "uri").

(** The zero value of each struct ([new(T)] points at it). *)
Definition cmd_fields (k : CmdKind) : list (rfield * rval) :=
  match k with
  | KCreateUser => [string_field "Username" [tag_form "username"]; string_field "Nickname" [tag_form "nickname"];
      string_field "Email" [tag_form "email"]; string_field "Password" [tag_form "password"]]
  | KCreateAuthCode => [string_field "Email" [tag_form "email"]; string_field "Password" [tag_form "password"];
      string_field "CSRFToken" [tag_form "csrf_token"]; string_field "SessionID" [tag_cookie "auth_session"]]
  | KRevokeToken => [string_field "CallerID" [tag_ctx "user_id"]; string_field "ClientID" [tag_form "client_id"; tag_json "client_id"];
      string_field "ClientSecret" [tag_form "client_secret"; tag_json "client_secret"]; string_field "BasicClientID" [tag_ctx "basic_client_id"];
      string_field "BasicClientSecret" [tag_ctx "basic_client_secret"]; string_field "Token" [tag_form "token"; tag_json "token"];
      ptr_string_field "TokenTypeHint" [tag_form "token_type_hint"; tag_json "token_type_hint"]]
  | KUpdateProfile => [string_field "UserID" [tag_ctx "user_id"]; ptr_string_field "Username" [tag_form "username"];
      ptr_string_field "Nickname" [tag_form "nickname"]; ptr_string_field "Email" [tag_form "email"]]
  | KRefreshToken => [string_field "GrantType" [tag_form "grant_type"; tag_json "grant_type"];
      string_field "ClientID" [tag_form "client_id"; tag_json "client_id"]; string_field "ClientSecret" [tag_form "client_secret"; tag_json "client_secret"];
      string_field "BasicClientID" [tag_ctx "basic_client_id"]; string_field "BasicClientSecret" [tag_ctx "basic_client_secret"];
      string_field "RefreshToken" [tag_form "refresh_token"; tag_json "refresh_token"; tag_cookie "refresh_token"];
      ptr_int_field "ExpireSecs" [tag_form "expire_secs"; tag_json "expire_secs"]]
  | KExchangeCode => [string_field "Code" [tag_form "code"]; string_field "ClientID" [tag_form "client_id"];
      string_field "ClientSecret" [tag_form "client_secret"]; string_field "BasicClientID" [tag_ctx "basic_client_id"];
      string_field "BasicClientSecret" [tag_ctx "basic_client_secret"]; string_field "RedirectURI" [tag_form "redirect_uri"; tag_normalize_uri];
      ptr_int_field "ExpireSecs" [tag_form "expire_secs"]; string_field "CodeVerifier" [tag_form "code_verifier"]]
  | KLogout => [ptr_string_field "AccessToken" [tag_ctx "access_token"];
      ptr_string_field "PostLogoutRedirectURI" [tag_form "post_logout_redirect_uri"]]
  | KForgotPassword => [string_field "Email" [tag_form "email"; tag_json "email"]]
  | KResetPassword => [string_field "Token" [tag_form "token"; tag_json "token"]; string_field "Password" [tag_form "password"; tag_json "password"]]
  | KAuthorize => [string_field "ResponseType" [tag_form "response_type"]; string_field "ClientID" [tag_form "client_id"];
      string_field "RedirectURI" [tag_form "redirect_uri"; tag_normalize_uri]; string_field "Scope" [tag_form "scope"];
      ptr_string_field "State" [tag_form "state"]; ptr_string_field "Nonce" [tag_form "nonce"];
      ptr_string_field "CodeChallenge" [tag_form "code_challenge"]; ptr_string_field "CodeChallengeMethod" [tag_form "code_challenge_method"]]
  | KSignIn => [string_field "SessionID" [tag_cookie "auth_session"]]
  | KToken => [string_field "Email" [tag_form "email"; tag_json "email"]; string_field "Password" [tag_form "password"; tag_json "password"];
      ptr_string_field "Scope" [tag_form "scope"; tag_json "scope"]; ptr_int_field "ExpireSecs" [tag_form "expire_secs"; tag_json "expire_secs"]]
  | KProfile => [string_field "UserID" [tag_ctx "user_id"]]
  | KIntrospect => [string_field "ClientID" [tag_form "client_id"; tag_json "client_id"];
      string_field "ClientSecret" [tag_form "client_secret"; tag_json "client_secret"]; string_field "BasicClientID" [tag_ctx "basic_client_id"];
      string_field "BasicClientSecret" [tag_ctx "basic_client_secret"]; string_field "Token" [tag_form "token"; tag_json "token"];
      ptr_string_field "TokenTypeHint" [tag_form "token_type_hint"; tag_json "token_type_hint"]]
  | KDiscovery | KJWKS => []
  end.

Definition new_cmd (k : CmdKind) : rval := RPtr KStructT (Some (RStruct false (cmd_fields k))).

(** Reading a field of the bound struct. *)
Fixpoint field (n : string) (fs : list (rfield * rval)) : option rval :=
  match fs with
  | [] => None
  | (f, v) :: fs' => if String.eqb (f_Name f) n then Some v else field n fs'
  end.

Definition fields_of (obj : rval) : list (rfield * rval) :=
  match obj with RPtr _ (Some (RStruct _ fs)) => fs | _ => [] end.

Definition get_str (n : string) (obj : rval) : string :=
  match field n (fields_of obj) with Some (RStr s) => s | _ => "" end.
Definition get_ptr_str (n : string) (obj : rval) : option string :=
  match field n (fields_of obj) with Some (RPtr _ (Some (RStr s))) => Some s | _ => None end.
Definition get_ptr_int (n : string) (obj : rval) : option Z :=
  match field n (fields_of obj) with Some (RPtr _ (Some (RInt z))) => Some z | _ => None end.

(** The command a bound struct is. *)
Definition cmd_of (k : CmdKind) (v : rval) : Command :=
  match k with
  | KCreateUser => CCreateUser (mkCreateUserCommand (get_str "Username" v) (get_str "Nickname" v) (get_str "Email" v) (get_str "Password" v))
  | KCreateAuthCode => CCreateAuthCode (mkCreateAuthCodeCommand (get_str "Email" v) (get_str "Password" v) (get_str "CSRFToken" v) (get_str "SessionID" v))
  | KRevokeToken => CRevokeToken (mkRevokeTokenCommand (get_str "CallerID" v) (get_str "ClientID" v)
      (get_str "ClientSecret" v) (get_str "BasicClientID" v) (get_str "BasicClientSecret" v) (get_str "Token" v)
      (get_ptr_str "TokenTypeHint" v))
  | KUpdateProfile => CUpdateProfile (mkUpdateProfileCommand (get_str "UserID" v) (get_ptr_str "Username" v)
      (get_ptr_str "Nickname" v) (get_ptr_str "Email" v))
  | KRefreshToken => CRefreshToken (mkRefreshTokenCommand (get_str "GrantType" v) (get_str "ClientID" v)
      (get_str "ClientSecret" v) (get_str "BasicClientID" v) (get_str "BasicClientSecret" v) (get_str "RefreshToken" v)
      (get_ptr_int "ExpireSecs" v))
  | KExchangeCode => CExchangeCode (mkExchangeCodeCommand (get_str "Code" v) (get_str "ClientID" v)
      (get_str "ClientSecret" v) (get_str "BasicClientID" v) (get_str "BasicClientSecret" v) (get_str "RedirectURI" v)
      (get_ptr_int "ExpireSecs" v) (get_str "CodeVerifier" v))
  | KLogout => CLogout (mkLogoutCommand (get_ptr_str "AccessToken" v) (get_ptr_str "PostLogoutRedirectURI" v))
  | KForgotPassword => CForgotPassword (mkForgotPasswordCommand (get_str "Email" v))
  | KResetPassword => CResetPassword (mkResetPasswordCommand (get_str "Token" v) (get_str "Password" v))
  | KDiscovery => QDiscovery
  | KAuthorize => QAuthorize (mkGetAuthorizeQuery (get_str "ResponseType" v) (get_str "ClientID" v)
      (get_str "RedirectURI" v) (get_str "Scope" v) (get_ptr_str "State" v) (get_ptr_str "Nonce" v)
      (get_ptr_str "CodeChallenge" v) (get_ptr_str "CodeChallengeMethod" v))
  | KSignIn => QSignIn (get_str "SessionID" v)
  | KToken => QToken (mkGetTokenQuery (get_str "Email" v) (get_str "Password" v) (get_ptr_str "Scope" v) (get_ptr_int "ExpireSecs" v))
  | KProfile => QProfile (get_str "UserID" v)
  | KJWKS => QJWKS
  | KIntrospect => QIntrospect (mkIntrospectTokenQuery (get_str "ClientID" v) (get_str "ClientSecret" v)
      (get_str "BasicClientID" v) (get_str "BasicClientSecret" v) (get_str "Token" v) (get_ptr_str "TokenTypeHint" v))
  end.

(** ** What binding does to each field *)

Lemma field_map g n fs :
  field n (List.map (fun p => (p.1, g p.1 p.2)) fs) =
  match field n fs with
  | Some v => match List.find (fun p => String.eqb (f_Name p.1) n) fs with Some (f, _) => Some (g f v) | None => None end
  | None => None
  end.
Proof.
  induction fs as [|[f v] fs IH]; simpl; [done|]. destruct (String.eqb (f_Name f) n); [done|exact IH].
Qed.

(** The entry of a field in the declaration. *)
Definition declared (n : string) (fs : list (rfield * rval)) : option (rfield * rval) :=
  List.find (fun p => String.eqb (f_Name p.1) n) fs.

Lemma field_same_shape n fs fs' :
  List.map (fun p => (p.1, shape p.2)) fs' = List.map (fun p => (p.1, shape p.2)) fs ->
  forall f z, declared n fs = Some (f, z) ->
  exists v, field n fs' = Some v /\ declared n fs' = Some (f, v) /\ shape v = shape z.
Proof.
  revert fs'. induction fs as [|[f0 z0] fs IH]; intros [|[f1 v1] fs'] Heq f z Hd; try done.
  injection Heq as -> Hv Htl. unfold declared in *. simpl in *.
  destruct (String.eqb (f_Name f0) n); [injection Hd as -> ->; eauto|by eapply IH].
Qed.

(** Zero values of types with nothing to walk into: those of the commands'
    fields. *)
Definition flat (v : rval) : Prop :=
  match v with
  | RStr _ | RInt _ | RBool _ | RFile _ => True
  | RPtr k None => k <> KStructT
  | _ => False
  end.

Lemma flat_traverse fn v z : flat z -> shape z = z -> shape v = shape z -> traverseFields fn v = v.
Proof.
  intros Hz Hzz Hs. rewrite Hzz in Hs. destruct v as [| | | |k [e|]|leaf fs| |]; simpl in *; try done; try (by rewrite <- Hs in Hz).
  destruct z as [| | | |k' [p'|]| | |]; try done. injection Hs as -> He.
  by destruct k', e; simpl in *.
Qed.

Lemma cmd_fields_flat k : Forall (fun p => f_CanSet p.1 = true /\ flat p.2 /\ shape p.2 = p.2) (cmd_fields k).
Proof. destruct k; repeat constructor; done. Qed.

Section Fields.
  Context {E : Env} {G : GinBinding} {GT : GinTyped G}.

(** What gin's four binders, run one after the other without an error, make of a
    fresh command. *)
Definition gin_filled (x : Ctx) (k : CmdKind) (fs : list (rfield * rval)) : Prop :=
  exists o1 o2 o3 e, gin_ShouldBindUri x (new_cmd k) = (o1, None) /\ gin_ShouldBindQuery x o1 = (o2, None) /\
    gin_ShouldBindHeader x o2 = (o3, None) /\
    gin_ShouldBind x o3 = (RPtr KStructT (Some (RStruct false fs)), e) /\
    (forall err, e = Some err -> errors_Is err io_EOF = true).

Lemma gin_filled_typed x k fs :
  gin_filled x k fs ->
  List.map (fun p => (p.1, shape p.2)) fs = List.map (fun p => (p.1, shape p.2)) (cmd_fields k).
Proof.
  intros (o1 & o2 & o3 & e & H1 & H2 & H3 & H4 & _).
  assert (points_to_type (RStruct false (cmd_fields k)) (new_cmd k)) as T0 by by eexists.
  apply (uri_typed x) in T0. rewrite H1 in T0. apply (query_typed x) in T0. simpl in T0. rewrite H2 in T0.
  apply (header_typed x) in T0. simpl in T0. rewrite H3 in T0. apply (body_typed x) in T0. simpl in T0. rewrite H4 in T0.
  destruct T0 as (e' & [= <-] & [= Hs]). exact Hs.
Qed.

Lemma Bind_inv x k v :
  Bind x (new_cmd k) = (v, None) ->
  exists fs, gin_filled x k fs /\
    v = RPtr KStructT (Some (traverseFields (bindField x) (RStruct false fs))).
Proof.
  assert (points_to_type (RStruct false (cmd_fields k)) (new_cmd k)) as T0 by by eexists.
  unfold Bind. change (match new_cmd k with RPtr _ (Some _) => ?a | _ => ?b end) with a.
  pose proof (uri_typed x _ _ T0) as T1. destruct (gin_ShouldBindUri x (new_cmd k)) as [o1 [e1|]] eqn:H1; [done|].
  pose proof (query_typed x _ _ T1) as T2. simpl in T2. destruct (gin_ShouldBindQuery x o1) as [o2 [e2|]] eqn:H2; [done|].
  pose proof (header_typed x _ _ T2) as T3. simpl in T3. destruct (gin_ShouldBindHeader x o2) as [o3 [e3|]] eqn:H3; [done|].
  pose proof (body_typed x _ _ T3) as (e' & Ho & Hs).
  destruct (gin_ShouldBind x o3) as [o4 e4] eqn:H4. simpl in Ho. rewrite H4 in Ho. simpl in Ho. subst o4.
  destruct e' as [| | | | |leaf fs| |]; try done. injection Hs as -> Hs. intros Hb. exists fs.
  assert ((forall err, e4 = Some err -> errors_Is err io_EOF = true) /\
          v = RPtr KStructT (Some (traverseFields (bindField x) (RStruct false fs)))) as [HE ->].
  { destruct e4 as [e4|]; [destruct (errors_Is e4 io_EOF) eqn:He; [|done]|]; injection Hb as <-; (split; [|done]); by intros err [= <-]. }
  split; [|done]. by exists o1, o2, o3, e4.
Qed.

Lemma gin_filled_Bind x k fs :
  gin_filled x k fs ->
  Bind x (new_cmd k) = (RPtr KStructT (Some (traverseFields (bindField x) (RStruct false fs))), None).
Proof.
  intros (o1 & o2 & o3 & e & H1 & H2 & H3 & H4 & HE).
  assert (points_to_type (RStruct false (cmd_fields k)) (new_cmd k)) as T0 by by eexists.
  unfold Bind. change (match new_cmd k with RPtr _ (Some _) => ?a | _ => ?b end) with a.
  rewrite H1, H2, H3, H4. destruct e as [err|]; [by rewrite (HE err eq_refl)|done].
Qed.

Lemma gin_filled_unique x k fs fs' : gin_filled x k fs -> gin_filled x k fs' -> fs = fs'.
Proof.
  intros (o1 & o2 & o3 & e & H1 & H2 & H3 & H4 & _) (o1' & o2' & o3' & e' & H1' & H2' & H3' & H4' & _).
  congruence.
Qed.

(** Every field of a bound command is what gin's binders left there, passed
    through [bindField] for its tags. *)
Lemma Bind_fields x k v :
  Bind x (new_cmd k) = (v, None) ->
  exists fs, gin_filled x k fs /\ forall n f z, declared n (cmd_fields k) = Some (f, z) ->
    exists old, field n fs = Some old /\ shape old = shape z /\
      field n (fields_of v) = Some (bindField x f old).1.
Proof.
  intros (fs & Hg & ->)%Bind_inv. exists fs. split; [done|]. intros n f z Hd.
  destruct (field_same_shape n _ _ (gin_filled_typed _ _ _ Hg) f z Hd) as (old & Hold & Hdecl & Hs).
  exists old. split_and!; try done.
  assert (f_CanSet f = true /\ flat z /\ shape z = z) as (Hset & Hflat & Hz).
  { pose proof (cmd_fields_flat k) as HF. rewrite List.Forall_forall in HF.
    apply List.find_some in Hd as [Hin _]. apply (HF _ Hin). }
  cbn [fields_of traverseFields]. rewrite (field_map (fun f v => if negb (f_CanSet f) then v
    else if (bindField x f v).2 then (bindField x f v).1 else traverseFields (bindField x) v)), Hold.
  unfold declared in Hdecl. rewrite Hdecl, Hset. simpl. f_equal.
  destruct (bindField x f old) as [v' []] eqn:Hb; [done|]. simpl.
  rewrite (flat_traverse _ old z) by done. unfold bindField in Hb.
  by destruct (hasTag f "ctx"), (hasTag f "file"), (hasTag f "cookie"), (hasTag f "normalize"); injection Hb.
Qed.

End Fields.
