(* ===== verification/Router.v ===== *)
(** * Routes (modules/auth/adapter/in/router.go, handler/web/handler.go)

    The routes with their handler chains and the middlewares in front of all of
    them.  Third-party code is a parameter: gin's binders ([GinBinding]), gin's
    engine - which chain it hands a request to, the redirects and the 404 it
    answers itself, and what gin.Default() puts around every chain
    ([GinEngine]) - and gin-contrib's CORS handler ([CorsHandler]).  gin's route
    groups are prefixes with handlers in front; a route keeps the handlers its
    group had when it was registered. *)

From S2P Require Import Prelude GoStd Crypto Errors Env Scope User Token Client AuthFlow Jwt Cache Ports Services Responses CmdTokens CmdUsers Queries Web Binding.

Local Open Scope Z_scope.

(** What cors.New is given, and what it makes of a request. *)
Record CorsConfig := mkCorsConfig {
  cors_AllowOrigins : list string;
  cors_AllowMethods : list string;
  cors_AllowHeaders : list string;
  cors_ExposeHeaders : list string;
  cors_AllowCredentials : bool;
  cors_MaxAge : Z;
}.

Class CorsHandler := cors_New : CorsConfig -> Ctx -> Ctx.

(** What its documentation says: it ends preflight requests and requests of a
    foreign origin with a status of its own, lets all others on with nothing
    written, and of the headers it touches only its own and [Vary]. *)
Class CorsLaws (CH : CorsHandler) : Prop := {
  cors_ends cfg x : x_aborted x = false -> x_aborted (cors_New cfg x) = true -> x_status (cors_New cfg x) <> 0;
  cors_lets_on cfg x : x_aborted (cors_New cfg x) = false ->
    x_status (cors_New cfg x) = x_status x /\ x_body (cors_New cfg x) = x_body x;
  cors_headers cfg x k : String.prefix "Access-Control-" k = false -> k <> "Vary" ->
    x_header (cors_New cfg x) !! k = x_header x !! k;
}.

(** What gin does with a request: it runs the chain of the [i]-th registered
    route, answers with a redirect of its own (of a path with a slash too many or
    too few), or runs the handlers of the engine and answers 404. *)
Inductive GinAction := GinRoute (i : nat) | GinRedirect | GinNoRoute.

Class GinEngine := {
  gin_route : list (string * string) -> string -> string -> GinAction;
  gin_redirect : Ctx -> Ctx;
  gin_serveError : Ctx -> Ctx;
  gin_Default {W} : (Ctx -> ST W Ctx) -> Ctx -> ST W Ctx;     (** gin.Logger() and gin.Recovery() *)
}.

(** A redirect has a status and a location.  A chain is only chosen when its route is registered for the method.  The 404
    is written when nothing has been, and sets no header but the content type.
    Logger and Recovery leave alone what returns. *)
Class GinLaws (GE : GinEngine) : Prop := {
  gin_redirects x : x_status (gin_redirect x) <> 0 /\ is_Some (x_header (gin_redirect x) !! "Location");
  gin_registered rs m p i : gin_route rs m p = GinRoute i -> exists path, rs !! i = Some (m, path);
  gin_not_found x : x_status x = 0 -> x_status (gin_serveError x) = 404 /\ x_body (gin_serveError x) <> BodyNone;
  gin_written x : x_status x <> 0 -> gin_serveError x = x;
  gin_error_headers x k : k <> "Content-Type" -> x_header (gin_serveError x) !! k = x_header x !! k;
  gin_default_returns W (next : Ctx -> ST W Ctx) x w x' w' :
    next x w = (Ret x', w') -> gin_Default next x w = (Ret x', w');
}.

(** coreweb.Config, as far as the engine uses it. *)
Record ServerConfig := mkServerConfig {
  sv_Port : string;
  sv_CorsOrigins : list string;
  sv_CookieSecure : bool;
  sv_MetricsAddr : string;
  sv_RateLimitPerMin : Z;
  sv_RateLimitWindow : Z;
}.

Section Router.
  Context {E : Env} {TS : TokenServiceI} {D : Deps} {SV : StructValidator}.
  Context {CI : CacheI} {UI : UserRepoI} {GI : GrantRepoI} {RI : RefreshTokenRepoI}.
  Context {G : GinBinding} {CH : CorsHandler} {GE : GinEngine}.
  (** [validator.ValidateStruct] on a command. *)
  Context (validate : Command -> option goerr).

(** ** handler.go *)

(** [handle[T]]: bind, dispatch, answer. *)
Definition handle_bound (k : CmdKind) (isHTML : bool) : Handler := fun x =>
  match Bind x (new_cmd k) with
  | (_, Some err) => mret (responder_Response RNil (Some err) isHTML x)
  | (cmd, None) => handle validate (cmd_of k cmd) isHTML x
  end.

Definition Handle (k : CmdKind) : Handler := handle_bound k false.
Definition HandleHTML (k : CmdKind) : Handler := handle_bound k true.

Definition HandleIf (k : CmdKind) (when : Ctx -> bool) : Handler := fun x =>
  if negb (when x) then mret x else
  match Bind x (new_cmd k) with
  | (_, Some err) => mret (ctx_Abort (responder_Response RNil (MapHTTPError (Some err)) false x))
  | (cmd, None) =>
    ' (result, err) ← Module_Dispatch validate (cmd_of k cmd);
    mret (ctx_Abort (responder_Response result (MapHTTPError err) false x))
  end.

(** ** router.go *)

Definition grantTypeRefreshToken : string := "refresh_token".
Definition grantTypeAuthCode : string := "authorization_code".
Definition grantTypePassword : string := "password".
Definition discoveryCacheTTL : Z := 5 * Minute.

Record Route := mkRoute { ro_Method : string; ro_Path : string; ro_Handlers : list Handler }.

Definition signUp : Handler := fun x =>
  mret (ctx_Write 200 (BodyHTML ("sign_up" +:+ templateExt) {["title" := "Create Account"]}) x).

Definition grantTypeIs (gt : string) (x : Ctx) : bool :=
  match x_keys x !! GrantTypeKey with Some (CtxStr v) => String.eqb v gt | _ => false end.

Definition tokenHandlers : list Handler :=
  [OAuth2Errors;
   GrantType [grantTypeRefreshToken; grantTypeAuthCode; grantTypePassword];
   ExtractClientCredentials;
   HandleIf KRefreshToken (grantTypeIs grantTypeRefreshToken);
   HandleIf KExchangeCode (grantTypeIs grantTypeAuthCode);
   HandleIf KToken (grantTypeIs grantTypePassword)].

(** A group: path prefix and handlers in front. *)
Definition GET (g : string * list Handler) (path : string) (hs : list Handler) : Route :=
  mkRoute "GET" (g.1 +:+ path) (g.2 ++ hs).
Definition POST (g : string * list Handler) (path : string) (hs : list Handler) : Route :=
  mkRoute "POST" (g.1 +:+ path) (g.2 ++ hs).

Definition root : string * list Handler := ("", []).

Definition publicRoutes : list Route :=
  let kc := ("/protocol/openid-connect", []) in
  [GET root "/sign-in" [HandleHTML KSignIn];
   GET root "/sign-up" [signUp];
   GET root "/authorize" [Handle KAuthorize];
   GET kc "/auth" [Handle KAuthorize];
   GET kc "/certs" [CachePublic discoveryCacheTTL; Handle KJWKS];
   POST root "/token" tokenHandlers;
   POST kc "/token" tokenHandlers;
   POST root "/sign-up" [Handle KCreateUser];
   POST root "/sign-in" [Handle KCreateAuthCode];
   POST root "/forgot-password" [Handle KForgotPassword];
   POST root "/reset-password" [Handle KResetPassword];
   GET root "/.well-known/openid-configuration" [CachePublic discoveryCacheTTL; Handle KDiscovery];
   GET root "/.well-known/jwks.json" [CachePublic discoveryCacheTTL; Handle KJWKS]].

(** [oidc.Use(auth)] comes last: only the routes registered after it have it. *)
Definition oidcRoutes : list Route :=
  let oidc := ("/oidc", []) in
  let oidc_auth := ("/oidc", [Authenticate]) in
  [GET root "/userinfo" [Authenticate; Handle KProfile];
   GET root "/protocol/openid-connect/userinfo" [Authenticate; Handle KProfile];
   GET oidc "/logout" [ExtractAccessToken; Handle KLogout];
   POST oidc "/logout" [ExtractAccessToken; Handle KLogout];
   POST oidc "/revoke" [OAuth2Errors; AuthenticateOptional; ExtractClientCredentials; Handle KRevokeToken];
   POST oidc "/introspect" [OAuth2Errors; ExtractClientCredentials; Handle KIntrospect];
   GET oidc_auth "/me" [Handle KProfile]].

Definition v3Routes : list Route :=
  let apiV3 := ("/api/v3", [Authenticate]) in
  [POST apiV3 "/update-profile" [Handle KUpdateProfile]].

Definition routes : list Route := publicRoutes ++ oidcRoutes ++ v3Routes.

(** ** The engine *)

(** middleware/cors.go *)
Definition cors_config (allowedOrigins : list string) : CorsConfig :=
  mkCorsConfig allowedOrigins ["GET"; "POST"; "PUT"; "DELETE"; "OPTIONS"] ["Authorization"; "Content-Type"]
    ["Content-Length"] true (12 * Hour).

Definition Cors (allowedOrigins : list string) : Handler := fun x => mret (cors_New (cors_config allowedOrigins) x).

(** [setMiddlewares], after the request id and the logger. *)
Definition middlewares (cfg : ServerConfig) : list Handler :=
  [SecurityHeaders; Cors (sv_CorsOrigins cfg); CookieSecure (sv_CookieSecure cfg)] ++
  (if 0 <? sv_RateLimitPerMin cfg then [DistributedRateLimit (sv_RateLimitPerMin cfg) (sv_RateLimitWindow cfg)] else []).

Definition find_route (method path : string) : option Route :=
  List.find (fun r => String.eqb (ro_Method r) method && String.eqb (ro_Path r) path) routes.

(** [setMiddlewares] in full, in front of the handlers [hs] of a route. *)
Definition engine_chain (cfg : ServerConfig) (hs : list Handler) : Handler :=
  gin_Default (fun x => x1 ← RequestID x; Logger (run_chain (middlewares cfg ++ hs)) x1).

(** A request to the engine [start] has set up: the middlewares come before the
    routes, so every route has them, and so has the chain of no route. *)
Definition serve (cfg : ServerConfig) : Handler := fun x =>
  match gin_route ((fun r => (ro_Method r, ro_Path r)) <$> routes) (x_Method x) (rq_Path (x_raw x)) with
  | GinRoute i =>
    match routes !! i with
    | Some r => engine_chain cfg (ro_Handlers r) (ctx_Route (ro_Path r) x)
    | None => mret x
    end
  | GinRedirect => mret (gin_redirect x)
  | GinNoRoute =>
    x' ← engine_chain cfg [] (ctx_Route "" x);
    mret (gin_serveError x')
  end.

End Router.
