(* ===== verification/Frame.v ===== *)
(** * Framing: what a computation leaves alone

    [keeps f m]: running [m] does not change what [f] reads of the state.  Each
    port operation keeps the state of every other port; [solve_keeps] walks
    through a handler and discharges such goals.  Also the tactics that step
    through a handler one port call at a time. *)

From S2P Require Import Prelude GoStd Errors Env Cache Ports.

Definition keeps {S A X} (f : S -> X) (m : ST S A) : Prop := forall s, f (m s).2 = f s.

Lemma keeps_ret {S A X} (f : S -> X) (a : A) : keeps f (mret a).
Proof. done. Qed.

Lemma keeps_panic {S A X} (f : S -> X) msg : keeps f (panic (A := A) msg).
Proof. done. Qed.

Lemma keeps_bind {S A B X} (f : S -> X) (m : ST S A) (k : A -> ST S B) :
  keeps f m -> (forall a, keeps f (k a)) -> keeps f (bind m k).
Proof.
  intros Hm Hk s. unfold bind. specialize (Hm s). destruct (m s) as [[a|e] s']; [|done].
  rewrite Hk. exact Hm.
Qed.

Section ports.
  Context `{CI : CacheI} `{UI : UserRepoI} `{GI : GrantRepoI} `{RI : RefreshTokenRepoI}.

(** The five parts of the world a port operation is framed by. *)
Lemma keeps_in_sys {A X} (f : World -> X) (m : ST Sys A) :
  (forall s w, f (upd_sys s w) = f w) -> keeps f (in_sys m).
Proof. intros H w. unfold in_sys. destruct (m _). apply H. Qed.

Lemma keeps_in_cache {A X} (f : World -> X) (m : ST (Sys * CS) A) :
  (forall q w, f (upd_cache q w) = f w) -> keeps f (in_cache m).
Proof. intros H w. unfold in_cache. destruct (m _). apply H. Qed.

Lemma keeps_in_users {A X} (f : World -> X) (m : ST (Sys * @PS _ ur_store) A) :
  (forall q w, f (upd_users q w) = f w) -> keeps f (in_users m).
Proof. intros H w. unfold in_users. destruct (m _). apply H. Qed.

Lemma keeps_in_grants {A X} (f : World -> X) (m : ST (Sys * @PS _ gr_store) A) :
  (forall q w, f (upd_grants q w) = f w) -> keeps f (in_grants m).
Proof. intros H w. unfold in_grants. destruct (m _). apply H. Qed.

Lemma keeps_in_rts {A X} (f : World -> X) (m : ST (Sys * RS) A) :
  (forall q w, f (upd_rts q w) = f w) -> keeps f (in_rts m).
Proof. intros H w. unfold in_rts. destruct (m _). apply H. Qed.

Lemma keeps_counter {X} (f : World -> X) name d :
  (forall w m, f (mkWorld _ _ _ _ (w_sys w) (w_cache w) (w_users w) (w_grants w) (w_rts w) m (w_mail w)) = f w) ->
  keeps f (counter_Add name d).
Proof. intros H w. apply H. Qed.

(** Reading through a pointer changes nothing. *)
Lemma in_users_deref l x w : ps_ptr (w_users w) l = Some x -> in_users (ps_deref l) w = (Ret x, w).
Proof. intros H. unfold in_users, ps_deref. simpl. rewrite H. by destruct w. Qed.

Lemma in_grants_deref l x w : ps_ptr (w_grants w) l = Some x -> in_grants (ps_deref l) w = (Ret x, w).
Proof. intros H. unfold in_grants, ps_deref. simpl. rewrite H. by destruct w. Qed.

End ports.

Create HintDb frame discriminated.
#[export] Hint Resolve keeps_ret keeps_panic : frame.

Ltac solve_keeps :=
  repeat match goal with
  | |- keeps _ (bind _ _) => apply keeps_bind; [|intros]
  | |- keeps _ (match ?x with _ => _ end) => destruct x
  | |- keeps _ (let _ := _ in _) => cbv zeta
  | |- keeps _ (mret _) => apply keeps_ret
  | |- keeps _ (panic _) => apply keeps_panic
  | |- keeps _ (in_sys _) => apply keeps_in_sys; intros; reflexivity
  | |- keeps _ (in_cache _) => apply keeps_in_cache; intros; reflexivity
  | |- keeps _ (in_users _) => apply keeps_in_users; intros; reflexivity
  | |- keeps _ (in_grants _) => apply keeps_in_grants; intros; reflexivity
  | |- keeps _ (in_rts _) => apply keeps_in_rts; intros; reflexivity
  | |- keeps _ (counter_Add _ _) => apply keeps_counter; intros; reflexivity
  | |- keeps _ _ => solve [eauto with frame]
  end.

(** [wp_call L]: the next action of the handler is a port call described by the
    law [L]; introduce its outcome, its states and what the law says. *)
Ltac in_port :=
  first [ apply wp_in_users | apply wp_in_cache | apply wp_in_grants | apply wp_in_rts | apply wp_in_sys ].

Ltac wp_call L :=
  try apply wp_bind; in_port; eapply wp_mono; [eapply L; try eassumption|].
