(* ===== verification/TokenFlow.v ===== *)
(** * Theorems about the token commands

    Codes are single-use and bound to their client; a rotation replaces exactly
    one link of its chain; a replay, a revocation and a logout end the grant. *)

From S2P Require Import Prelude GoStd Crypto Errors Env Scope User Token Client AuthFlow Jwt Cache Ports Frame Services Responses CmdTokens.

Local Open Scope Z_scope.

Section TokenFlow.
  Context {E : Env} {CM : ClockMono E} {TS : TokenServiceI} {TL : TokenServiceLaws E TS}.
  Context {D : Deps} {SV : StructValidator}.
  Context {CI : CacheI} {CL : CacheLaws E CI} {UI : UserRepoI} {UL : UserRepoLaws E UI}.
  Context {GI : GrantRepoI} {GL : GrantRepoLaws E GI} {RI : RefreshTokenRepoI} {RL : RefreshTokenRepoLaws E RI}.

(** The client of a token request, when it authenticates and may use the grant. *)
Definition token_client (id secret basicID basicSecret grant : string) (client : Client) : Prop :=
  ClientAuthenticator_Authenticate (mkClientCredentials id secret basicID basicSecret) = inl client /\
  Client_AllowsGrant client grant = true.

Notation exchange_client c :=
  (token_client (xc_ClientID c) (xc_ClientSecret c) (xc_BasicClientID c) (xc_BasicClientSecret c)
     GrantAuthorizationCode).
Notation refresh_client c :=
  (token_client (rc_ClientID c) (rc_ClientSecret c) (rc_BasicClientID c) (rc_BasicClientSecret c)
     GrantRefreshToken).

Lemma token_client_cases id secret bid bsecret grant :
  (exists client, token_client id secret bid bsecret grant client) \/
  (forall client, ~ token_client id secret bid bsecret grant client).
Proof.
  unfold token_client. destruct (ClientAuthenticator_Authenticate _) as [client|]; [|right; naive_solver].
  destruct (Client_AllowsGrant client grant) eqn:H; [left; by exists client|right].
  intros ? [[= <-] ?]. congruence.
Qed.

Lemma exchange_refused c w :
  (forall client, ~ exchange_client c client) ->
  ExchangeCode_Execute c w = (Ret (RNil, Some NewErrInvalidClient), w).
Proof.
  intros H. unfold ExchangeCode_Execute, token_client in *.
  destruct (ClientAuthenticator_Authenticate _) as [client|]; [|done].
  specialize (H client). destruct (Client_AllowsGrant client GrantAuthorizationCode); [naive_solver|done].
Qed.

Lemma exchange_unfold c client :
  exchange_client c client ->
  ExchangeCode_Execute c = bind (ExchangeCode_consumeAuthCode (xc_Code c)) (fun r =>
    match r with
    | (_, Some _) | (None, _) => fail NewErrAuthCodeNotFound
    | (Some authCode, None) => ExchangeCode_redeem c client authCode
    end).
Proof. intros [HA HG]. unfold ExchangeCode_Execute. by rewrite HA, HG. Qed.

(** ** Exchange of codes *)

Lemma redeem_keeps_cache c client code : keeps w_cache (ExchangeCode_redeem c client code).
Proof.
  unfold ExchangeCode_redeem, fail, ok, user_deref, ExchangeCode_issueTokens,
    ExchangeCode_saveRefreshToken, saveNewGrant.
  solve_keeps.
Qed.

(** Taking a code out of the cache: it is gone, unless the cache failed and gave
    nothing; nothing else changes, and a code that is returned was live. *)
Lemma consumeAuthCode_spec code w :
  wp (ExchangeCode_consumeAuthCode code) (fun o w' => exists r s' c',
    o = Ret r /\ w' = upd_cache (s', c') w /\ sys_le (w_sys w) s' /\
    same_except (AuthCodeCacheKey code) (w_cache w) c' /\
    (CacheReliable CI \/ r.2 = None -> cache_entry c' (AuthCodeCacheKey code) = None) /\
    (cache_entry (w_cache w) (AuthCodeCacheKey code) = None -> cache_entry c' (AuthCodeCacheKey code) = None) /\
    (cache_entry (w_cache w) (AuthCodeCacheKey code) = None -> exists e, r = (None, Some e)) /\
    match r with
    | (Some ac, None) => AuthCode_Validate ac = None /\ exists v,
        cache_live (w_cache w) (now (w_sys w)) (AuthCodeCacheKey code) = Some v /\ destCode v = inl ac
    | (None, Some _) => True
    | _ => False
    end) w.
Proof.
  unfold ExchangeCode_consumeAuthCode. apply wp_bind. in_port.
  destruct (cache_GetAndDelete (AuthCodeCacheKey code) destCode (w_sys w, w_cache w)) as [o [s' c']] eqn:Hrun.
  destruct (wp_run _ _ _ _ _ Hrun (getAndDelete_law AuthCode _ _ (w_sys w) (w_cache w))) as (Hle & Hs & r & -> & Hgone & Hhit).
  eapply wp_eq; [exact Hrun|].
  assert (cache_entry (w_cache w) (AuthCodeCacheKey code) = None -> r = None) as Hnone.
  { intros Hn. destruct r as [ac|]; [|done]. destruct (Hhit ac eq_refl) as (v & Hv & _). unfold cache_live in Hv. by rewrite Hn in Hv. }
  assert (CacheReliable CI \/ is_Some r -> cache_entry c' (AuthCodeCacheKey code) = None) as Hdel.
  { intros [HR|[ac ->]]; [|by destruct Hgone as [?|[? _]]].
    by destruct (wp_run _ _ _ _ _ Hrun (getAndDelete_reliable AuthCode _ _ (w_sys w) (w_cache w))). }
  assert (cache_entry (w_cache w) (AuthCodeCacheKey code) = None -> cache_entry c' (AuthCodeCacheKey code) = None) as Hstay.
  { destruct Hgone as [?|[_ ->]]; auto. }
  destruct r as [ac|].
  - destruct (AuthCode_Validate ac) eqn:Hv; apply wp_ret; eexists _, s', c'; split_and!; eauto; naive_solver.
  - apply wp_ret. eexists _, s', c'. split_and!; eauto; naive_solver.
Qed.

Lemma exchange_consumes c client w :
  exchange_client c client ->
  wp (ExchangeCode_Execute c) (fun o w' =>
    (CacheReliable CI -> cache_entry (w_cache w') (AuthCodeCacheKey (xc_Code c)) = None) /\
    (cache_entry (w_cache w) (AuthCodeCacheKey (xc_Code c)) = None ->
       o = Ret (RNil, Some NewErrAuthCodeNotFound) /\ exists q, w' = upd_cache q w)) w.
Proof.
  intros Hc. rewrite (exchange_unfold c client Hc). apply wp_bind.
  eapply wp_mono; [apply consumeAuthCode_spec|].
  intros o w' (r & s' & c' & -> & -> & _ & _ & Hgone & _ & Hmiss & Hr).
  destruct r as [[ac|] [e|]]; try done.
  - unfold wp. rewrite redeem_keeps_cache. simpl. split; [intros _; apply Hgone; by right|]. intros H%Hmiss. naive_solver.
  - apply wp_ret. split; [intros HR; apply Hgone; by left|]. eauto.
Qed.

(** With a cache that does not fail, an authorization code is spent by the first exchange that gets past client
    authentication, whether that exchange succeeds or not: afterwards every
    exchange of the same code, by any client, is refused without touching the
    refresh tokens or grants. *)
Theorem code_single_use (c c2 : ExchangeCodeCommand) (client : Client) (w w2 : World) :
  CacheReliable CI -> exchange_client c client -> xc_Code c2 = xc_Code c ->
  let w' := (ExchangeCode_Execute c w).2 in
  cache_entry (w_cache w2) (AuthCodeCacheKey (xc_Code c)) =
    cache_entry (w_cache w') (AuthCodeCacheKey (xc_Code c)) ->
  exists e, (ExchangeCode_Execute c2 w2).1 = Ret (RNil, Some e) /\
    (e = NewErrInvalidClient \/ e = NewErrAuthCodeNotFound) /\
    w_rts (ExchangeCode_Execute c2 w2).2 = w_rts w2 /\ w_grants (ExchangeCode_Execute c2 w2).2 = w_grants w2.
Proof.
  intros HR Hc Hcode w' Hsame.
  destruct (exchange_consumes c client w Hc) as [Hgone _]. specialize (Hgone HR). fold w' in Hgone. rewrite Hgone, <- Hcode in Hsame.
  destruct (token_client_cases (xc_ClientID c2) (xc_ClientSecret c2) (xc_BasicClientID c2)
    (xc_BasicClientSecret c2) GrantAuthorizationCode) as [[client2 Hc2]|Hno].
  - destruct (exchange_consumes c2 client2 w2 Hc2) as [_ Hmiss]. destruct (Hmiss Hsame) as [Ho [q Hq]].
    rewrite Ho, Hq. eexists. split; [reflexivity|]. auto.
  - rewrite (exchange_refused c2 w2 Hno). eexists. split; [reflexivity|]. auto.
Qed.

(** Refresh tokens generated from now on do not hash to a stored hash. *)
Definition refresh_fresh (w : World) : Prop :=
  forall uid s tok s', sys_le (w_sys w) s -> ts_GenRefreshToken uid s = (Ret (tok, None), s') ->
    forall id x, rs_rows (w_rts w) !! id = Some x -> rt_TokenHash x <> Hash tok.

Lemma saveNewGrant_spec g w :
  world_inv w ->
  wp (saveNewGrant g) (fun o w' => exists s' r', w' = upd_grants (s', r') w /\ sys_le (w_sys w) s' /\
    ps_inv r' /\
    match o with
    | Ret None => ps_view r' = <[g_ID g := g]> (ps_view (w_grants w))
    | _ => ps_view r' = ps_view (w_grants w)
    end) w.
Proof.
  intros (_ & HG & _). unfold saveNewGrant. wp_call (new_law g).
  intros o [s1 r1] (-> & Hi1 & Hv1 & l & -> & Hl).
  in_port. eapply wp_mono; [eapply save_law; [exact Hi1|exact Hl|done]|].
  intros o [s2 r2] (Hle & Hi2 & _ & Ho). exists s2, r2. simpl in *. rewrite Hv1 in Ho.
  split_and!; done.
Qed.

(** The first link of a chain: one refresh-token row and the grant it belongs
    to, which outlives it by the margin. *)
Definition chain_started (w w' : World) (userID clientID : string) (tokens : IssuedTokens) (g : Grant) : Prop :=
  exists rt, rs_rows (w_rts w') = <[rt_ID rt := rt]> (rs_rows (w_rts w)) /\
    rt_UserID rt = userID /\ rt_ClientID rt = clientID /\ rt_GrantID rt = g_ID g /\
    rt_TokenHash rt = Hash (it_RefreshToken tokens) /\ rt_Scope rt = it_Scope tokens /\
    rt_RevokedAt rt = None /\
    now (w_sys w) + RefreshTokenTTL <= rt_ExpiresAt rt <= now (w_sys w') + RefreshTokenTTL /\
    ps_view (w_grants w') = <[g_ID g := Grant_ExtendToCover (rt_ExpiresAt rt) g]> (ps_view (w_grants w)).

Lemma saveRefreshToken_spec userID clientID tokens g w :
  world_inv w -> it_NewGrant tokens = Some g -> it_GrantID tokens = g_ID g -> g_ID g <> "" ->
  (forall id x, rs_rows (w_rts w) !! id = Some x -> rt_TokenHash x <> Hash (it_RefreshToken tokens)) ->
  wp (ExchangeCode_saveRefreshToken userID clientID tokens) (fun o w' =>
    o = Ret None -> sys_le (w_sys w) (w_sys w') /\ chain_started w w' userID clientID tokens g) w.
Proof.
  intros Hinv Hg Hgid Hne Hfresh. unfold ExchangeCode_saveRefreshToken. apply wp_bind, wp_in_sys.
  eapply wp_eq; [apply NewRefreshToken_run; congruence|]. rewrite Hg.
  set (rt := fresh_rt _ _ _ _ _ _). set (s1 := mk_Sys _ _ _ _ _).
  assert (sys_le (w_sys w) s1) as L1 by (subst s1; sys_lia).
  apply wp_bind. eapply wp_mono; [by apply saveNewGrant_spec|].
  intros o w' (s2 & r2 & -> & L2 & Hi2 & Ho). simpl in *. destruct o as [[e|]|]; [by intros| |by intros].
  in_port. eapply wp_mono; [apply rr_save_law; [apply Hinv|]|].
  { intros id x Hx Hh. by destruct (Hfresh id x Hx). }
  intros o [s3 r3] (L3 & Hi3 & e & -> & Hrows & _) [= ->]. simpl in *.
  assert (sys_le (w_sys w) s3) as L by (etrans; [exact L1|]; etrans; [exact L2|]; exact L3).
  split; [done|]. exists rt. pose proof (now_mono _ _ L). simpl. split_and!; first [done | lia].
Qed.

(** Access tokens of an issuance, as the verifier will read them: subject,
    scope and grant. *)
Definition token_reads (tok : string) (from : Sys) (userID scope grantID : string) : Prop :=
  forall s c, sys_le from s -> (ts_ParseJWT tok s).1 = Ret (Some c, None) ->
    cl_Subject c = userID /\ cl_Scope c = scope /\ cl_GrantID c = grantID.

Lemma issued_token_reads req s s' t :
  issued req s s' t -> 1 <= ita_ExpireSecs req <= 86400 ->
  token_reads (it_AccessToken t) s' (u_ID (ita_User req)) (Scope_String (ita_Scope req)) (it_GrantID t).
Proof.
  intros (_ & _ & (s1 & s2 & L1 & L2 & HA) & _) Hsecs s3 c L3 Hp.
  assert (sys_le s1 s3).
  { edestruct ts_genAccess_returns as (r & s2' & HA' & L12). rewrite HA in HA'. injection HA' as <- <-.
    etrans; [exact L12|]. by etrans. }
  destruct (ts_gen_parse _ _ _ _ _ _ _ _ _ HA ltac:(lia) (now_mono _ _ H) Hp) as (-> & -> & -> & _). done.
Qed.

(** What a successful exchange has checked and done. *)
Definition exchanged (c : ExchangeCodeCommand) (client : Client) (code : AuthCode) (w w' : World)
    (t : TokenResponse) : Prop :=
  (Client_IsPublic client = true -> is_Some (ac_CodeChallenge code)) /\
  ac_ClientID code = Some (c_ID client) /\ ac_RedirectURI code = xc_RedirectURI c /\
  now (w_sys w) <= ac_ExpiresAt code /\ pkce_ok code (xc_CodeVerifier c) /\
  exists u tokens g,
    ps_view (w_users w) !! u_ID u = Some u /\ u_ID u = ac_UserID code /\
    g_UserID g = u_ID u /\ g_ClientID g = c_ID client /\ g_RevokedAt g = None /\
    it_Scope tokens = ac_Scope code /\
    t = TokenResponse_FromEntity tokens (ResolveExpirySecs (xc_ExpireSecs c)) /\
    chain_started w w' (u_ID u) (c_ID client) tokens g /\
    token_reads (tr_AccessToken t) (w_sys w') (u_ID u) (tr_Scope t) (g_ID g).

Lemma ResolveExpirySecs_range r : 1 <= ResolveExpirySecs r <= 86400.
Proof.
  unfold ResolveExpirySecs, DefaultExpirySecs, MaxTokenExpirySecs.
  destruct r as [r|]; [destruct (Z.leb_spec r 0)|]; lia.
Qed.

Lemma redeem_spec `{!UuidFresh E} c client code w :
  world_inv w -> refresh_fresh w ->
  wp (ExchangeCode_redeem c client code) (fun o w' => forall t, o = Ret (RToken t, None) ->
    exchanged c client code w w' t) w.
Proof.
  intros Hinv Hfr. unfold ExchangeCode_redeem, exchanged.
  destruct (Client_IsPublic client && _) eqn:Hpub; [by intros|].
  apply wp_bind, wp_in_sys. destruct (AuthCode_IsValid code (c_ID client) (xc_RedirectURI c) (xc_CodeVerifier c)
    (w_sys w)) as [[b|] s1] eqn:Hvalid; (eapply wp_eq; [exact Hvalid|]); [|by intros]. destruct b; [|by intros].
  apply AuthCode_IsValid_true in Hvalid as (L1 & Hcid & Hexp & Huri & Hpk). simpl negb. cbv iota.
  wp_call findByID_law; [apply Hinv|].
  intros o [s2 r2] (L2 & Hi2 & Hv2 & [(l & u & id & -> & Hl & Hu & Hid)|[(-> & _)|(e & -> & _)]]); [|by intros..].
  simpl in *. apply wp_bind. eapply wp_eq; [by apply in_users_deref|]. cbn beta iota.
  unfold ExchangeCode_issueTokens. apply wp_bind, wp_in_sys.
  edestruct IssueTokens_run as (r & s3 & Hrun & L3 & Hpost). eapply wp_eq; [exact Hrun|]. clear Hrun.
  destruct r as [[tokens|] [e|]]; [done| |by intros|done]. cbn beta iota zeta. pose proof Hpost as Hiss.
  destruct Hpost as (Hsc & Hg & _ & (s4 & s5 & L4 & _ & HR) & _).
  destruct (it_NewGrant tokens) as [g|] eqn:Hng; [|naive_solver].
  destruct Hg as (_ & Hgid & Huuid & Hgu & Hgc & Hgr). simpl in *.
  apply wp_bind. eapply wp_mono; [eapply (saveRefreshToken_spec _ _ _ g)|].
  - split_and!; [done|apply Hinv|apply Hinv].
  - done.
  - done.
  - rewrite Huuid. apply uuid_nonempty.
  - eapply Hfr; [|exact HR]. etrans; [exact L1|]. by etrans; [exact L2|].
  - intros [[e|]|] w' Hw'; [by intros| |by intros]. intros t [= <-]. destruct (Hw' eq_refl) as (L5 & rt & Hrt).
    assert (u_ID u = id) as <- by (eapply view_id; [apply Hinv|]; exact Hu).
    split_and!; try done.
    { destruct (Client_IsPublic client); [|done]. intros _. simpl in Hpub.
      apply negb_false_iff, bool_decide_eq_true in Hpub. done. }
    exists u, tokens, g. split_and!; try done.
    + exists rt. simpl in *. destruct Hrt as (? & ? & ? & ? & ? & ? & ? & [? ?] & ?). split_and!; try done.
      assert (now (w_sys w) <= now s3); [|lia]. apply now_mono. sys_lia.
    + rewrite <- Hgid. unfold TokenResponse_FromEntity, tr_Scope, tr_AccessToken. rewrite Hsc.
      intros s6 cl L6. apply (issued_token_reads _ _ _ _ Hiss); [apply ResolveExpirySecs_range|]. by etrans.
Qed.

Lemma exchanged_from c client code w s' c' w' t :
  sys_le (w_sys w) s' -> exchanged c client code (upd_cache (s', c') w) w' t -> exchanged c client code w w' t.
Proof.
  intros L (H1 & H2 & H3 & H4 & H5 & u & tokens & g & Hu & Hid & Hgu & Hgc & Hgr & Hsc & Ht & Hch & Htok).
  pose proof (now_mono _ _ L). simpl in *. split_and!; try done; [lia|]. exists u, tokens, g. split_and!; try done.
  destruct Hch as (rt & ? & ? & ? & ? & ? & ? & ? & [? ?] & ?). exists rt. simpl in *. split_and!; try done. lia.
Qed.

(** C5: Tokens are issued only against a live code that was issued to this very,
    authenticated client for this redirect URI, is not expired, and whose PKCE
    challenge (mandatory for a public client) the verifier meets.  The exchange
    then stores exactly one refresh token, unrevoked and for the code's user,
    client and scope, under exactly one new grant that outlives it; and the
    access token names that user, scope and grant wherever it is read. *)
Theorem exchange_sound `{!UuidFresh E} (c : ExchangeCodeCommand) (w w' : World) (t : TokenResponse) :
  world_inv w -> refresh_fresh w ->
  ExchangeCode_Execute c w = (Ret (RToken t, None), w') ->
  exists client v code, exchange_client c client /\
    cache_live (w_cache w) (now (w_sys w)) (AuthCodeCacheKey (xc_Code c)) = Some v /\
    destCode v = inl code /\ exchanged c client code w w' t.
Proof.
  intros Hinv Hfr Hrun.
  destruct (token_client_cases (xc_ClientID c) (xc_ClientSecret c) (xc_BasicClientID c)
    (xc_BasicClientSecret c) GrantAuthorizationCode) as [[client Hc]|Hno];
    [|by rewrite (exchange_refused c w Hno) in Hrun].
  rewrite (exchange_unfold c client Hc) in Hrun. apply bind_Ret_inv in Hrun as (r & w1 & Hcon & Hred).
  destruct (wp_run _ _ _ _ _ Hcon (consumeAuthCode_spec (xc_Code c) w))
    as (r' & s' & c' & [= <-] & -> & L & _ & _ & _ & _ & Hr).
  destruct r as [[code|] [e|]]; try done. destruct Hr as (_ & v & Hlive & Hd).
  exists client, v, code. split_and!; try done. eapply exchanged_from; [exact L|].
  assert (refresh_fresh (upd_cache (s', c') w)) as Hfr'.
  { intros uid s tok s2 L2. apply Hfr. simpl in L2. by etrans. }
  exact (wp_run _ _ _ _ _ Hred (redeem_spec c client code (upd_cache (s', c') w) Hinv Hfr') t eq_refl).
Qed.

(** ** Rotation of refresh tokens *)

Lemma RefreshToken_IsValid_run rt s :
  rt_RevokedAt rt = None -> RefreshToken_IsValid rt s = (Ret (now s <? rt_ExpiresAt rt), tick s).
Proof. intros H. unfold RefreshToken_IsValid. by rewrite H. Qed.

Lemma Grant_IsValid_run g s :
  exists b s', Grant_IsValid g s = (Ret b, s') /\ sys_le s s' /\
    (b = true -> g_RevokedAt g = None /\ now s < g_ExpiresAt g).
Proof.
  unfold Grant_IsValid. destruct (g_RevokedAt g).
  - eexists _, _. split; [reflexivity|]. split; [done|]. done.
  - eexists _, _. split; [reflexivity|]. split; [unfold sys_le; simpl; lia|]. intros H%Z.ltb_lt. done.
Qed.

(** A presented token that is found active: stored, unrevoked, unexpired. *)
Definition active_row (raw : string) (w : World) (rt : RefreshToken) : Prop :=
  rs_rows (w_rts w) !! rt_ID rt = Some rt /\ rt_TokenHash rt = Hash raw /\
  rt_RevokedAt rt = None /\ now (w_sys w) < rt_ExpiresAt rt.

Lemma findActive_spec raw w :
  world_inv w ->
  wp (RefreshToken_findActiveRefreshToken raw) (fun o w' => forall rt, o = Ret (Some rt, None) ->
    active_row raw w rt /\ exists s' r', w' = upd_rts (s', r') w /\ sys_le (w_sys w) s' /\ rs_inv r' /\
      rs_rows r' = rs_rows (w_rts w)) w.
Proof.
  intros (_ & _ & HR). unfold RefreshToken_findActiveRefreshToken, active_row. wp_call rr_find_law.
  intros o [s1 r1] (L1 & Hi & Hrows & [(x & -> & Hx & Hh)|[(-> & _)|(e & -> & _)]]); [|by intros..].
  simpl in *. destruct (rt_RevokedAt x) eqn:Hrev.
  - apply wp_bind. unfold wp at 1. case_match; by intros.
  - apply wp_bind, wp_in_sys. eapply wp_eq; [by apply RefreshToken_IsValid_run|]. cbn beta iota.
    simpl. destruct (Z.ltb_spec (now s1) (rt_ExpiresAt x)); [|by intros].
    intros rt [= <-]. pose proof (now_mono _ _ L1). split; [split_and!; try done; lia|].
    exists (tick s1), r1. split_and!; try done. sys_lia.
Qed.

(** The grant of a rotation, before and after: absent, or valid and moved to
    cover the new token. *)
Definition grant_extended (gid : string) (exp : Z) (from : Sys) (m m' : gmap string Grant) : Prop :=
  ((gid = "" \/ m !! gid = None) /\ m' = m) \/
  exists g, m !! gid = Some g /\ g_RevokedAt g = None /\ now from < g_ExpiresAt g /\
    m' = <[gid := Grant_ExtendToCover exp g]> m.

Lemma checkAndExtendGrant_spec gid exp w :
  world_inv w ->
  wp (RefreshToken_checkAndExtendGrant gid exp) (fun o w' => exists s' r', w' = upd_grants (s', r') w /\
    sys_le (w_sys w) s' /\ ps_inv r' /\
    (ps_view r' = ps_view (w_grants w) \/ grant_extended gid exp (w_sys w) (ps_view (w_grants w)) (ps_view r')) /\
    (gid = "" -> ps_view r' = ps_view (w_grants w)) /\
    (o = Ret None -> grant_extended gid exp (w_sys w) (ps_view (w_grants w)) (ps_view r'))) w.
Proof.
  intros (_ & HG & _). unfold RefreshToken_checkAndExtendGrant, grant_extended.
  destruct (String.eqb_spec gid "") as [->|Hne].
  { apply wp_ret. exists (w_sys w), (w_grants w). split_and!; try done; [by destruct w|by left|auto]. }
  wp_call gr_findByID_law.
  intros o [s1 r1] (L1 & Hi1 & Hv1 & [(l & g & id & -> & Hl & Hg & Hid)|[(-> & Hno)|(e & -> & He)]]); simpl in *.
  - apply wp_bind. eapply wp_eq; [by apply in_grants_deref|]. cbn beta iota.
    assert (g_ID g = id) as <- by (eapply view_id; [exact HG|exact Hg]). subst gid.
    destruct (Grant_IsValid_run g s1) as (b & s2 & Hb & L2 & Htrue).
    apply wp_bind, wp_in_sys. eapply wp_eq; [exact Hb|]. cbn beta iota.
    destruct b; [|apply wp_ret; exists s2, r1; split_and!; try done; [sys_lia|by left]].
    destruct (Htrue eq_refl) as [Hrev Hexp]. simpl negb. cbv iota.
    wp_call assign_law; [done|]. intros o [s3 r3] (-> & -> & Hi3 & Hl3 & Hv3). simpl in *.
    wp_call save_law; [done|]. intros o [s4 r4] (L4 & Hi4 & _ & Ho). simpl in *.
    assert (sys_le (w_sys w) s4) by (sys_lia). pose proof (now_mono _ _ L1). rewrite Hv1 in Hv3.
    assert (ps_view r4 = ps_view (w_grants w) \/
      ps_view r4 = <[g_ID g := Grant_ExtendToCover exp g]> (ps_view (w_grants w))) as Hv4.
    { destruct o as [[e|]|]; rewrite Ho; [..|right|]; destruct Hv3 as [->|[_ ->]]; auto. by rewrite insert_insert_eq. }
    destruct o as [[e|]|]; [apply wp_ret| |]; exists s4, r4; split_and!; try done;
      try (destruct Hv4 as [->| ->]; [by left|right; right; exists g; split_and!; done || lia]).
    intros _. right. exists g. split_and!; try done; [lia|].
    rewrite Ho. by destruct Hv3 as [->|[_ ->]]; [|rewrite insert_insert_eq].
  - apply wp_ret. exists s1, r1. split_and!; try done; [by left|]. intros _. left. split; [right|done].
    destruct (ps_view (w_grants w) !! gid) as [g|] eqn:Hg; [|done].
    exfalso. eapply Hno; [exact Hg|]. eapply view_id; [exact HG|exact Hg].
  - rewrite He. apply wp_ret. exists s1, r1. split_and!; try done. by left.
Qed.

(** One link replaced by the next, and nothing else. *)
Definition link_replaced (old new : RefreshToken) (w w' : World) : Prop :=
  exists t, now (w_sys w) <= t <= now (w_sys w') /\
     rs_rows (w_rts w') =
       <[rt_ID new := new]> (<[rt_ID old := set_rt_RevokedAt (Some t) old]> (rs_rows (w_rts w))).

(** The grant of a chain, over a rotation: carried on and extended to cover the new
    token; or, for a chain that started before tokens had grants, made for it. *)
Definition grant_carried (clientID : string) (old new : RefreshToken) (from : Sys) (m m' : gmap string Grant) : Prop :=
  (rt_GrantID old <> "" /\ rt_GrantID new = rt_GrantID old /\
     grant_extended (rt_GrantID old) (rt_ExpiresAt new) from m m') \/
  (rt_GrantID old = "" /\ exists g, rt_GrantID new = g_ID g /\ g_ID g <> "" /\ g_UserID g = rt_UserID new /\
     g_ClientID g = clientID /\ g_RevokedAt g = None /\
     m' = <[g_ID g := Grant_ExtendToCover (rt_ExpiresAt new) g]> m).

Lemma updateRefreshToken_spec old new w :
  world_inv w -> rs_rows (w_rts w) !! rt_ID old = Some old ->
  (forall id x, rs_rows (w_rts w) !! id = Some x -> rt_TokenHash x <> rt_TokenHash new) ->
  wp (RefreshToken_updateRefreshToken old new) (fun o w' => o = Ret None ->
    sys_le (w_sys w) (w_sys w') /\ world_inv w' /\ link_replaced old new w w' /\
    (rt_GrantID old = "" -> ps_view (w_grants w') = ps_view (w_grants w)) /\
    grant_extended (rt_GrantID old) (rt_ExpiresAt new) (w_sys w) (ps_view (w_grants w)) (ps_view (w_grants w'))) w.
Proof.
  intros Hinv Hold Hfresh. pose proof Hinv as (HU & _ & HR).
  unfold RefreshToken_updateRefreshToken, uow_Do, RefreshToken_rotateTx. apply wp_bind, wp_bind.
  eapply wp_mono; [by apply checkAndExtendGrant_spec|].
  intros o w1 (s1 & r1 & -> & L1 & Hi1 & _ & Hemp & Hext). destruct o as [[e|]|].
  { apply wp_ret. destruct (is_ErrorStruct e); by intros. } 2:{ by intros. }
  specialize (Hext eq_refl). wp_call rr_revoke_law.
  intros o [s2 r2] (L2 & Hi2 & e & -> & Hrev). simpl in *. destruct e as [e|].
  { destruct (errors_Is e ErrNotFound); apply wp_ret; by intros. }
  destruct Hrev as (x & t & Hx & Hh & Hnone & Ht & Hexp & Hrows).
  assert (rt_ID x = rt_ID old) as Heq by (eapply (rr_hash_inj (w_rts w)); eauto). rewrite Heq in *. simplify_eq.
  wp_call rr_save_law.
  { intros id y. simpl. rewrite Hrows. rewrite lookup_insert_Some. intros [[<- <-]|[_ Hy]] Hhy; exfalso.
    - by eapply (Hfresh _ _ Hold).
    - by eapply (Hfresh _ _ Hy). }
  intros o [s3 r3] (L3 & Hi3 & e & -> & Hrows3 & _). destruct e as [e|]; [apply wp_ret; by intros|].
  apply wp_ret. intros _. simpl in *. split; [sys_lia|]. split; [by split_and!|].
  pose proof (now_mono _ _ L1). pose proof (now_mono _ _ L3). split; [|done].
  exists t. simpl. split; [lia|]. by rewrite Hrows3, Hrows.
Qed.

(** Identifiers drawn from now on name no stored row. *)
Definition ids_fresh (w : World) : Prop :=
  forall n, (n_uuid (w_sys w) <= n)%nat -> rs_rows (w_rts w) !! uuid_NewString n = None.

(** What a successful rotation has checked and done. *)
Definition rotated (c : RefreshTokenCommand) (client : Client) (old new : RefreshToken) (w w' : World)
    (t : TokenResponse) : Prop :=
  RefreshToken_IssuedTo old (c_ID client) = true /\
  (exists u, ps_view (w_users w) !! u_ID u = Some u /\ u_ID u = rt_UserID old /\
     sessionInvalidated u old = false /\ rt_UserID new = u_ID u /\
     token_reads (tr_AccessToken t) (w_sys w') (u_ID u) (tr_Scope t) (rt_GrantID new)) /\
  rt_ClientID new = rt_ClientID old /\ rt_DeviceID new = rt_DeviceID old /\
  rt_AuthenticatedAt new = rt_AuthenticatedAt old /\ rt_Scope new = rt_Scope old /\
  rt_TokenHash new = Hash (tr_RefreshToken t) /\
  rt_RevokedAt new = None /\ rs_rows (w_rts w) !! rt_ID new = None /\
  now (w_sys w) + RefreshTokenTTL <= rt_ExpiresAt new <= now (w_sys w') + RefreshTokenTTL /\
  tr_Scope t = Scope_String (rt_Scope old) /\ world_inv w' /\
  link_replaced old new w w' /\
  grant_carried (c_ID client) old new (w_sys w) (ps_view (w_grants w)) (ps_view (w_grants w')).

Lemma Rotate_run userID tokens rt s :
  it_GrantID tokens <> "" -> (rt_GrantID rt <> "" -> it_GrantID tokens = rt_GrantID rt) ->
  exists new, RefreshToken_Rotate userID tokens rt s =
    (Ret new, mk_Sys (S (n_clock s)) (n_rand s) (S (n_uuid s)) (n_salt s) (n_disk s)) /\
    rt_UserID new = userID /\ rt_ClientID new = rt_ClientID rt /\ rt_DeviceID new = rt_DeviceID rt /\
    rt_AuthenticatedAt new = rt_AuthenticatedAt rt /\ rt_Scope new = it_Scope tokens /\
    rt_GrantID new = it_GrantID tokens /\ rt_TokenHash new = Hash (it_RefreshToken tokens) /\
    rt_RevokedAt new = None /\ rt_ExpiresAt new = now s + RefreshTokenTTL /\
    rt_ID new = uuid_NewString (n_uuid s).
Proof.
  intros Hne Heq. unfold RefreshToken_Rotate.
  rewrite (bind_run _ _ _ _ _ (NewRefreshToken_run userID (rt_ClientID rt) tokens s Hne)).
  eexists. split; [reflexivity|]. simpl. split_and!; try done. destruct (String.eqb_spec (rt_GrantID rt) ""); [done|].
  symmetry. auto.
Qed.

Lemma grant_extended_from gid exp s s' m m' :
  sys_le s s' -> grant_extended gid exp s' m m' -> grant_extended gid exp s m m'.
Proof.
  intros L%now_mono [?|(g & ? & ? & ? & ?)]; [by left|right]. exists g. split_and!; try done. lia.
Qed.

Lemma grant_carried_from cid old new s s' m m' :
  sys_le s s' -> grant_carried cid old new s' m m' -> grant_carried cid old new s m m'.
Proof. intros L [(? & ? & ?)|?]; [left|by right]. split_and!; try done. by eapply grant_extended_from. Qed.

(** The new grant of a chain without one is saved before the rotation. *)
Lemma saveGrant_opt_spec og exp w :
  world_inv w ->
  wp (match og with None => mret None | Some g => saveNewGrant (Grant_ExtendToCover exp g) end)
    (fun o w' => exists s' r', w' = upd_grants (s', r') w /\ sys_le (w_sys w) s' /\ ps_inv r' /\
      (o = Ret None -> ps_view r' = match og with
         | None => ps_view (w_grants w)
         | Some g => <[g_ID g := Grant_ExtendToCover exp g]> (ps_view (w_grants w)) end)) w.
Proof.
  intros Hinv. destruct og as [g|].
  - eapply wp_mono; [by apply saveNewGrant_spec|]. intros o w' (s' & r' & -> & L & Hi & Ho). exists s', r'.
    split_and!; try done. by intros ->.
  - apply wp_ret. exists (w_sys w), (w_grants w). split_and!; try done; [by destruct w|apply Hinv].
Qed.

Lemma rotate_spec `{!UuidFresh E} c client old u w :
  world_inv w -> refresh_fresh w -> ids_fresh w ->
  rs_rows (w_rts w) !! rt_ID old = Some old ->
  ps_view (w_users w) !! u_ID u = Some u -> u_ID u = rt_UserID old -> sessionInvalidated u old = false ->
  RefreshToken_IssuedTo old (c_ID client) = true ->
  wp (RefreshToken_rotate c client old u) (fun o w' => forall t, o = Ret (RToken t, None) ->
    exists new, rotated c client old new w w' t) w.
Proof.
  intros Hinv Hfr Hids Hold Hu Huid Hses Hiss. unfold RefreshToken_rotate. apply wp_bind, wp_in_sys.
  edestruct IssueTokens_run as (r & s1 & Hrun & L1 & Hpost). eapply wp_eq; [exact Hrun|]. clear Hrun.
  destruct r as [[tokens|] [e|]]; [done| |by intros|done]. cbn beta iota zeta.
  pose proof Hpost as Hissued. destruct Hpost as (Hsc & Hg & _ & (s2 & s3 & L2 & _ & HR) & _). simpl in *.
  assert (it_GrantID tokens <> "") as Htg.
  { destruct (it_NewGrant tokens) as [g|]; [|destruct Hg; congruence]. destruct Hg as (_ & -> & -> & _). apply uuid_nonempty. }
  assert (rt_GrantID old <> "" -> it_GrantID tokens = rt_GrantID old) as Hgid.
  { intros Hne. destruct (it_NewGrant tokens); [destruct Hg as (? & _)|destruct Hg]; congruence. }
  destruct (Rotate_run (u_ID u) tokens old s1 Htg Hgid)
    as (new & Hnew & N1 & N2 & N3 & N4 & N5 & N6 & N7 & N8 & N9 & N10).
  apply wp_bind, wp_in_sys. eapply wp_eq; [exact Hnew|]. cbn beta iota.
  set (s4 := mk_Sys _ _ _ _ _). assert (sys_le s1 s4) as L4 by (subst s4; sys_lia).
  apply wp_bind. eapply wp_mono; [by apply (saveGrant_opt_spec (it_NewGrant tokens) (rt_ExpiresAt new) (upd_sys s4 w))|].
  intros o w5 (s5 & r5 & -> & L5 & Hi5 & Hsaved). destruct o as [[e|]|]; [by intros| |by intros]. specialize (Hsaved eq_refl).
  apply wp_bind. eapply wp_mono; [apply (updateRefreshToken_spec old new); [by split_and!; [apply Hinv| |apply Hinv]|done|]|].
  { intros id x Hx. rewrite N7. eapply Hfr; [exact L2|exact HR|exact Hx]. }
  intros [[e|]|] w' Hw'; [by intros| |by intros].
  destruct (Hw' eq_refl) as (L6 & Hinv' & Hlink & Hemp & Hext). apply wp_ret. intros t [= <-].
  simpl in L5, L6, Hlink, Hemp, Hext, Hsaved. assert (sys_le (w_sys w) s5) as L05 by (etrans; [exact L1|]; etrans; [exact L4|exact L5]).
  exists new. pose proof (now_mono _ _ L1). pose proof (now_mono _ _ L4). pose proof (now_mono _ _ L5). pose proof (now_mono _ _ L6).
  pose proof (now_mono _ _ L05).
  unfold rotated, TokenResponse_FromEntity, tr_AccessToken, tr_Scope, tr_RefreshToken.
  split_and!; try done; try congruence; try lia.
  - exists u. split_and!; try done. rewrite N6, Hsc. intros s6 cl L7.
    apply (issued_token_reads _ _ _ _ Hissued); [apply ResolveExpirySecs_range|].
    etrans; [exact L4|]. etrans; [exact L5|]. etrans; [exact L6|exact L7].
  - rewrite N10. apply Hids. sys_lia.
  - destruct Hlink as (tr & Htr & Hrows). exists tr. simpl in *. split; [lia|done].
  - destruct (it_NewGrant tokens) as [g|].
    + destruct Hg as (Hnone & Hg1 & Hg2 & Hg3 & Hg4 & Hg5). right. split; [done|]. exists g.
      split_and!; try congruence. by rewrite (Hemp Hnone).
    + left. destruct Hg as [Hsome Hg1]. split_and!; [done|congruence|]. rewrite <- Hsaved. eapply grant_extended_from; [exact L05|done].
Qed.

Lemma refresh_unfold c client :
  refresh_client c client ->
  RefreshToken_Execute c = bind (RefreshToken_findActiveRefreshToken (rc_RefreshToken c)) (fun r =>
    match r with
    | (_, Some e) => fail e
    | (None, None) => panic "nil pointer dereference"
    | (Some rt, None) => RefreshToken_redeem c client rt
    end).
Proof. intros [HA HG]. unfold RefreshToken_Execute. by rewrite HA, HG. Qed.

Lemma refresh_refused c w :
  (forall client, ~ refresh_client c client) ->
  RefreshToken_Execute c w = (Ret (RNil, Some NewErrInvalidClient), w).
Proof.
  intros H. unfold RefreshToken_Execute, token_client in *.
  destruct (ClientAuthenticator_Authenticate _) as [client|]; [|done].
  specialize (H client). destruct (Client_AllowsGrant client GrantRefreshToken); [naive_solver|done].
Qed.

Lemma refresh_redeem_spec `{!UuidFresh E} c client old w :
  world_inv w -> refresh_fresh w -> ids_fresh w ->
  rs_rows (w_rts w) !! rt_ID old = Some old ->
  wp (RefreshToken_redeem c client old) (fun o w' => forall t, o = Ret (RToken t, None) ->
    exists new s r, sys_le (w_sys w) s /\ ps_inv r /\ ps_view r = ps_view (w_users w) /\
      rotated c client old new (upd_users (s, r) w) w' t) w.
Proof.
  intros Hinv Hfr Hids Hold. unfold RefreshToken_redeem.
  destruct (RefreshToken_IssuedTo old (c_ID client)) eqn:Hiss; [|by intros]. simpl negb. cbv iota.
  wp_call findByID_law; [apply Hinv|].
  intros o [s1 r1] (L1 & Hi1 & Hv1 & [(l & u & id & -> & Hl & Hu & Hid)|[(-> & _)|(e & -> & _)]]); [|by intros..].
  apply wp_bind. eapply wp_eq; [by apply in_users_deref|]. cbn beta iota. simpl in *.
  assert (u_ID u = id) as <- by (eapply view_id; [apply Hinv|exact Hu]).
  destruct (sessionInvalidated u old) eqn:Hses; [by intros|].
  eapply wp_mono; [eapply (rotate_spec c client old u); try done|].
  - split_and!; [done|apply Hinv..].
  - intros uid s tok s2 L2. apply Hfr. simpl in L2. by etrans.
  - intros n Hn. apply Hids. simpl in Hn. sys_lia.
  - simpl. by rewrite Hv1.
  - intros o w' H t Ht. destruct (H t Ht) as [new Hnew]. by exists new, s1, r1.
Qed.

Lemma rotated_from c client old new w0 w w' t :
  sys_le (w_sys w0) (w_sys w) -> ps_view (w_users w) = ps_view (w_users w0) ->
  ps_view (w_grants w) = ps_view (w_grants w0) -> rs_rows (w_rts w) = rs_rows (w_rts w0) ->
  rotated c client old new w w' t -> rotated c client old new w0 w' t.
Proof.
  intros L HU HG HR. pose proof (now_mono _ _ L). unfold rotated, link_replaced. rewrite HU, HG, HR.
  intros (? & ? & ? & ? & ? & ? & ? & ? & ? & ? & ? & ? & (tr & ? & ?) & Hg). split_and!; try done; try lia.
  - exists tr. split; [lia|done].
  - by eapply grant_carried_from.
Qed.

Lemma refresh_spec `{!UuidFresh E} c w w' t :
  world_inv w -> refresh_fresh w -> ids_fresh w ->
  RefreshToken_Execute c w = (Ret (RToken t, None), w') ->
  exists client old new, refresh_client c client /\ active_row (rc_RefreshToken c) w old /\
    rotated c client old new w w' t.
Proof.
  intros Hinv Hfr Hids Hrun.
  destruct (token_client_cases (rc_ClientID c) (rc_ClientSecret c) (rc_BasicClientID c)
    (rc_BasicClientSecret c) GrantRefreshToken) as [[client Hc]|Hno];
    [|by rewrite (refresh_refused c w Hno) in Hrun].
  rewrite (refresh_unfold c client Hc) in Hrun. apply bind_Ret_inv in Hrun as (r & w1 & Hfind & Hred).
  destruct r as [[old|] [e|]]; try done.
  destruct (wp_run _ _ _ _ _ Hfind (findActive_spec (rc_RefreshToken c) w Hinv) old eq_refl)
    as (Hact & s1 & r1 & -> & L1 & Hi1 & Hrows).
  set (w1 := upd_rts (s1, r1) w) in *.
  assert (rs_rows (w_rts w1) = rs_rows (w_rts w)) as Hrows1 by done.
  assert (world_inv w1) as Hinv1 by (split_and!; [apply Hinv|apply Hinv|done]).
  assert (refresh_fresh w1) as Hfr1.
  { intros uid s tok s2 L2 Hg. rewrite Hrows1. eapply Hfr; [|exact Hg]. etrans; [exact L1|exact L2]. }
  assert (ids_fresh w1) as Hids1.
  { intros n Hn. rewrite Hrows1. apply Hids. subst w1. simpl in Hn. sys_lia. }
  assert (rs_rows (w_rts w1) !! rt_ID old = Some old) as Hold by (rewrite Hrows1; apply Hact).
  destruct (wp_run _ _ _ _ _ Hred (refresh_redeem_spec c client old w1 Hinv1 Hfr1 Hids1 Hold) t eq_refl)
    as (new & s2 & r2 & L2 & Hi2 & Hv2 & Hrot).
  exists client, old, new. split_and!; try done. eapply rotated_from; [..|exact Hrot]; try done. simpl. etrans; [exact L1|exact L2].
Qed.

(** C4: Rotation.  A refresh request succeeds only for an authenticated client that
    may refresh, with a stored, unrevoked, unexpired token that was issued to
    that client, of a user whose sessions were not invalidated since the token
    was authenticated.  It then revokes exactly that row and adds exactly one,
    which carries the user, client, device, authentication time and scope
    forward.  The grant is carried forward too: when there is a record of it, it
    was valid and now outlives the new token; a token from before there were
    grants (its grant is empty) starts a new grant of the same user and client,
    which covers the new token.  The new access token names user, scope and grant.
    (The stored data are well-formed, and identifiers and refresh tokens drawn from
    now on are not in use.) *)
Theorem rotation_sound `{!UuidFresh E} (c : RefreshTokenCommand) (w w' : World) (t : TokenResponse) :
  world_inv w -> refresh_fresh w -> ids_fresh w ->
  RefreshToken_Execute c w = (Ret (RToken t, None), w') ->
  exists client old new, refresh_client c client /\ active_row (rc_RefreshToken c) w old /\
    rotated c client old new w w' t.
Proof. apply refresh_spec. Qed.

(** ** Ending a grant *)

(** The grant's record, when there is one, is revoked; so is every refresh token
    of the grant; and the marker that turns its access tokens away is in the
    cache for as long as any of them can live. *)
Definition grant_ended (gid : string) (since : Sys) (w : World) : Prop :=
  (forall g, ps_view (w_grants w) !! gid = Some g -> is_Some (g_RevokedAt g)) /\
  (forall id x, rs_rows (w_rts w) !! id = Some x -> rt_GrantID x = gid -> is_Some (rt_RevokedAt x)) /\
  exists e, cache_entry (w_cache w) (RevokedGrantKey gid) = Some (VBool true, Some e) /\
    now since + RevokedGrantMarkerTTL <= e.

(** No error, or the one that says there was nothing to revoke. *)
Definition gone (e : option goerr) : Prop :=
  match e with None => True | Some err => errors_Is err ErrNotFound = true end.

Lemma revokeNow_spec gid w :
  world_inv w ->
  wp (grant_RevokeNow gid) (fun o w' => exists e s' r', o = Ret e /\ w' = upd_grants (s', r') w /\
    sys_le (w_sys w) s' /\ ps_inv r' /\
    (gone e -> forall g, ps_view r' !! gid = Some g -> is_Some (g_RevokedAt g)) /\
    (GrantRepoReliable GI -> gone e)) w.
Proof.
  intros (_ & HG & _). unfold grant_RevokeNow. apply wp_bind, wp_in_sys. eapply wp_eq; [reflexivity|].
  in_port. fold (now (w_sys w)). fold (tick (w_sys w)). simpl.
  destruct (gr_Revoke gid (now (w_sys w)) (tick (w_sys w), w_grants w)) as [o [s' r']] eqn:Hrun.
  destruct (wp_run _ _ _ _ _ Hrun (gr_revoke_law gid (now (w_sys w)) (tick (w_sys w)) (w_grants w) HG))
    as (L & Hi & e & -> & He).
  eapply wp_eq; [exact Hrun|]. exists e, s', r'. split_and!; try done; [sys_lia| |].
  - destruct e as [err|]; simpl.
    + destruct He as [-> Hnf]. auto.
    + intros _ g. destruct He as (g0 & _ & _ & ->). rewrite lookup_insert_eq. by intros [= <-].
  - intros HRel. destruct e as [err|]; [|done]. by eapply gr_revoke_reliable in Hrun.
Qed.

(** Rows stay, keep their hash and grant, and stay revoked. *)
Definition rows_evolve (m m' : gmap string RefreshToken) : Prop :=
  forall id x, m !! id = Some x -> exists x', m' !! id = Some x' /\ rt_TokenHash x' = rt_TokenHash x /\
    rt_GrantID x' = rt_GrantID x /\ (is_Some (rt_RevokedAt x) -> is_Some (rt_RevokedAt x')) /\ rt_UserID x' = rt_UserID x.

Lemma swept_evolve P lo hi (m m' : gmap string RefreshToken) :
  (forall id x, m !! id = Some x -> exists x', m' !! id = Some x' /\ swept P lo hi x x') -> rows_evolve m m'.
Proof.
  intros H id x Hx. destruct (H id x Hx) as (x' & Hx' & Hs). exists x'. split; [done|].
  destruct Hs as [(_ & _ & t & _ & ->)|[-> _]]; simpl; split_and!; done || eauto.
Qed.

Lemma rows_evolve_refl m : rows_evolve m m.
Proof. intros id x Hx. by exists x. Qed.

Lemma rows_evolve_trans m1 m2 m3 : rows_evolve m1 m2 -> rows_evolve m2 m3 -> rows_evolve m1 m3.
Proof.
  intros H12 H23 id x Hx. destruct (H12 id x Hx) as (y & Hy & E1 & E2 & E3 & E4).
  destruct (H23 id y Hy) as (z & Hz & F1 & F2 & F3 & F4). exists z. split_and!; try congruence. auto.
Qed.

Lemma sweep_effect (P : RefreshToken -> Prop) s r o q :
  (forall x t, P (set_rt_RevokedAt t x) -> P x) -> sweep_spec P s r o q ->
  sys_le s q.1 /\ rs_inv q.2 /\ exists e, o = Ret e /\ rows_evolve (rs_rows r) (rs_rows q.2) /\
    (e = None -> forall id x, rs_rows q.2 !! id = Some x -> P x -> is_Some (rt_RevokedAt x)).
Proof.
  intros HP (L & Hi & e & -> & He). split_and!; try done. exists e. split_and!; try done.
  - destruct e; [rewrite He; apply rows_evolve_refl|]. eapply swept_evolve, He.
  - intros -> id x' Hx' HPx. destruct He as [Hnone Hsome].
    destruct (rs_rows r !! id) as [x|] eqn:Hx; [|rewrite Hnone in Hx'; done].
    destruct (Hsome id x Hx) as (y & Hy & Hsw). simplify_eq.
    destruct Hsw as [(_ & _ & t & _ & ->)|[-> Hs]]; [done|auto].
Qed.

Lemma sweepGrant_spec gid w :
  world_inv w ->
  wp (in_rts (rr_RevokeAllForGrant gid)) (fun o w' => exists e s' r', o = Ret e /\ w' = upd_rts (s', r') w /\
    sys_le (w_sys w) s' /\ rs_inv r' /\ rows_evolve (rs_rows (w_rts w)) (rs_rows r') /\
    (e = None -> forall id x, rs_rows r' !! id = Some x -> rt_GrantID x = gid -> is_Some (rt_RevokedAt x)) /\
    (RefreshTokenRepoReliable RI -> e = None)) w.
Proof.
  intros (_ & _ & HR). in_port.
  destruct (rr_RevokeAllForGrant gid (w_sys w, w_rts w)) as [o [s' r']] eqn:Hrun.
  pose proof (wp_run _ _ _ _ _ Hrun (rr_sweepGrant_law gid (w_sys w) (w_rts w) HR)) as Hspec.
  apply sweep_effect in Hspec as (L & Hi & e & -> & Hev & Hd); [|done].
  eapply wp_eq; [exact Hrun|]. exists e, s', r'. split_and!; try done.
  intros HRel. by eapply rr_sweepGrant_reliable in Hrun.
Qed.

Lemma sweepUser_spec uid w :
  world_inv w ->
  wp (in_rts (rr_RevokeAllForUser uid)) (fun o w' => exists e s' r', o = Ret e /\ w' = upd_rts (s', r') w /\
    sys_le (w_sys w) s' /\ rs_inv r' /\ rows_evolve (rs_rows (w_rts w)) (rs_rows r') /\
    (e = None -> forall id x, rs_rows r' !! id = Some x -> rt_UserID x = uid -> is_Some (rt_RevokedAt x)) /\
    (RefreshTokenRepoReliable RI -> e = None)) w.
Proof.
  intros (_ & _ & HR). in_port.
  destruct (rr_RevokeAllForUser uid (w_sys w, w_rts w)) as [o [s' r']] eqn:Hrun.
  pose proof (wp_run _ _ _ _ _ Hrun (rr_sweepUser_law uid (w_sys w) (w_rts w) HR)) as Hspec.
  apply sweep_effect in Hspec as (L & Hi & e & -> & Hev & Hd); [|done].
  eapply wp_eq; [exact Hrun|]. exists e, s', r'. split_and!; try done.
  intros HRel. by eapply rr_sweepUser_reliable in Hrun.
Qed.

(** Writing a marker with a lifetime. *)
Lemma setMarker_spec k v d w :
  0 < d ->
  wp (in_cache (cache_Set k v (Some d))) (fun o w' => exists e s' c', o = Ret e /\ w' = upd_cache (s', c') w /\
    sys_le (w_sys w) s' /\ same_except k (w_cache w) c' /\
    (e = None -> exists x, cache_entry c' k = Some (v, Some x) /\ now (w_sys w) + d <= x) /\
    (CacheReliable CI -> e = None)) w.
Proof.
  intros Hd. in_port. destruct (cache_Set k v (Some d) (w_sys w, w_cache w)) as [o [s' c']] eqn:Hrun.
  destruct (wp_run _ _ _ _ _ Hrun (set_law _ _ _ (w_sys w) (w_cache w))) as (L & Hs & e & -> & He).
  eapply wp_eq; [exact Hrun|]. exists e, s', c'. split_and!; try done.
  - intros ->. destruct He as [(x & Hx & Hd')|[]]; [|done].
    destruct (Hd' d eq_refl Hd) as (t & Ht & ->). exists (t + d). split; [done|lia].
  - intros HRel. pose proof (set_reliable k v (Some d) (w_sys w, w_cache w)) as H. rewrite Hrun in H.
    by injection H.
Qed.

Lemma markGrant_spec gid w :
  wp (MarkGrantRevoked gid) (fun o w' => exists e s' c', o = Ret e /\ w' = upd_cache (s', c') w /\
    sys_le (w_sys w) s' /\ same_except (RevokedGrantKey gid) (w_cache w) c' /\
    (e = None -> exists x, cache_entry c' (RevokedGrantKey gid) = Some (VBool true, Some x) /\
       now (w_sys w) + RevokedGrantMarkerTTL <= x) /\
    (CacheReliable CI -> e = None)) w.
Proof. by apply setMarker_spec. Qed.

(** Storage and cache do not fail. *)
Definition reliable : Prop := GrantRepoReliable GI /\ RefreshTokenRepoReliable RI /\ CacheReliable CI.

(** The three steps in a row.  Every caller makes them in this order; they
    differ in what they do with the errors. *)
Lemma end_grant_best gid w (Q : World -> Prop) :
  world_inv w ->
  (forall w', world_inv w' -> sys_le (w_sys w) (w_sys w') -> w_users w' = w_users w ->
     rows_evolve (rs_rows (w_rts w)) (rs_rows (w_rts w')) ->
     same_except (RevokedGrantKey gid) (w_cache w) (w_cache w') -> (reliable -> grant_ended gid (w_sys w) w') -> Q w') ->
  wp (grant_RevokeNow gid) (fun o1 w1 => exists e1, o1 = Ret e1 /\
    wp (in_rts (rr_RevokeAllForGrant gid)) (fun o2 w2 => exists e2, o2 = Ret e2 /\
      wp (MarkGrantRevoked gid) (fun o3 w3 => exists e3, o3 = Ret e3 /\ Q w3) w2) w1) w.
Proof.
  intros Hinv HQ. eapply wp_mono; [by apply revokeNow_spec|].
  intros o1 w1 (e1 & s1 & r1 & -> & -> & L1 & Hi1 & Hd1 & He1). exists e1. split; [done|].
  destruct Hinv as (HU & HG & HR). eapply wp_mono; [apply sweepGrant_spec; by split_and!|].
  intros o2 w2 (e2 & s2 & r2 & -> & -> & L2 & Hi2 & Hev & Hd2 & He2). exists e2. split; [done|].
  eapply wp_mono; [apply markGrant_spec|].
  intros o3 w3 (e3 & s3 & c3 & -> & -> & L3 & Hs3 & Hm & He3). exists e3. split; [done|].
  simpl in *. assert (sys_le (w_sys w) s2) as L02 by (etrans; [exact L1|exact L2]). apply HQ; simpl; try done.
  - etrans; [exact L02|exact L3].
  - intros (RG & RR & RC).
    split; [exact (Hd1 (He1 RG))|]. split; [exact (Hd2 (He2 RR))|]. destruct (Hm (He3 RC)) as (x & Hx & Hle). exists x. split; [done|].
    pose proof (now_mono _ _ L02). lia.
Qed.

Lemma end_grant_wp gid w (Q : World -> Prop) :
  world_inv w -> reliable ->
  (forall w', world_inv w' -> sys_le (w_sys w) (w_sys w') -> w_users w' = w_users w ->
     rows_evolve (rs_rows (w_rts w)) (rs_rows (w_rts w')) ->
     same_except (RevokedGrantKey gid) (w_cache w) (w_cache w') -> grant_ended gid (w_sys w) w' -> Q w') ->
  wp (grant_RevokeNow gid) (fun o1 w1 => exists e1, o1 = Ret e1 /\
    wp (in_rts (rr_RevokeAllForGrant gid)) (fun o2 w2 => exists e2, o2 = Ret e2 /\
      wp (MarkGrantRevoked gid) (fun o3 w3 => exists e3, o3 = Ret e3 /\ Q w3) w2) w1) w.
Proof. intros Hinv Rel HQ. apply end_grant_best; [done|]. intros w' ? ? ? ? ? Hend. apply HQ; auto. Qed.

(** ** Revocation *)

Lemma cascade_spec gid w :
  world_inv w ->
  wp (RevokeToken_cascade gid) (fun o w' => o = Ret None ->
    rows_evolve (rs_rows (w_rts w)) (rs_rows (w_rts w')) /\ (gid <> "" -> grant_ended gid (w_sys w) w')) w.
Proof.
  intros Hinv. pose proof Hinv as (HU & _ & HR). unfold RevokeToken_cascade.
  destruct (String.eqb_spec gid "").
  { apply wp_ret. intros _. split; [apply rows_evolve_refl|done]. }
  apply wp_bind. eapply wp_mono; [by apply revokeNow_spec|].
  intros o1 w1 (e1 & s1 & r1 & -> & -> & L1 & Hi1 & Hd1 & _).
  destruct (match e1 with Some _ => _ | None => _ end) eqn:Hgone.
  { apply wp_ret. destruct e1; [by intros|done]. }
  assert (gone e1) as He1 by (destruct e1; [by apply negb_false_iff in Hgone|done]).
  apply wp_bind. eapply wp_mono; [apply sweepGrant_spec; by split_and!|].
  intros o2 w2 (e2 & s2 & r2 & -> & -> & L2 & Hi2 & Hev & Hd2 & _). destruct e2 as [e2|]; [apply wp_ret; by intros|].
  eapply wp_mono; [apply markGrant_spec|].
  intros o3 w3 (e3 & s3 & c3 & -> & -> & L3 & _ & Hm & _) [= ->]. simpl in *. split; [done|]. intros _.
  split; [exact (Hd1 He1)|]. split; [exact (Hd2 eq_refl)|]. destruct (Hm eq_refl) as (x & Hx & Hle).
  exists x. split; [done|]. apply now_mono in L1, L2. lia.
Qed.

(** What a completed revocation of a refresh token leaves behind: the token had
    expired on its own; or its row is revoked and its grant, if it has one, has
    ended. *)
Definition token_ended (rt : RefreshToken) (w w' : World) : Prop :=
  (rt_RevokedAt rt = None /\ rt_ExpiresAt rt <= now (w_sys w')) \/
  ((exists x, rs_rows (w_rts w') !! rt_ID rt = Some x /\ is_Some (rt_RevokedAt x)) /\
   (rt_GrantID rt <> "" -> exists s1, sys_le (w_sys w) s1 /\ grant_ended (rt_GrantID rt) s1 w')).

(** The cascade, once the row is revoked. *)
Lemma revoke_cascade_spec rt x w0 w :
  world_inv w -> sys_le (w_sys w0) (w_sys w) -> rs_rows (w_rts w) !! rt_ID rt = Some x -> is_Some (rt_RevokedAt x) ->
  wp (e0 ← RevokeToken_cascade (rt_GrantID rt);
      match e0 with Some err => mret (Some err) | None => counter_Add MetricTokenRevocations 1;; mret None end)
    (fun o w' => o = Ret None -> token_ended rt w0 w') w.
Proof.
  intros Hinv L Hx Hrev. apply wp_bind. eapply wp_mono; [by apply cascade_spec|].
  intros [[e0|]|] w' Hend; [apply wp_ret; by intros| |by intros].
  apply wp_bind. eapply wp_eq; [reflexivity|]. apply wp_ret. intros _. destruct (Hend eq_refl) as [Hev Hg].
  right. split; [|by intros; exists (w_sys w); auto].
  destruct (Hev _ _ Hx) as (y & Hy & _ & _ & Hr & _). exists y. auto.
Qed.

(** Revoking a refresh token that was found. *)
Lemma revokeConfirmed_spec rt w :
  world_inv w -> rs_rows (w_rts w) !! rt_ID rt = Some rt ->
  wp (RevokeToken_revokeConfirmedRefreshToken rt) (fun o w' => o = Ret None -> token_ended rt w w') w.
Proof.
  intros (HU & HG & HR) Hrt. unfold RevokeToken_revokeConfirmedRefreshToken.
  wp_call rr_revoke_law. intros o [s1 r1] (L1 & Hi1 & e & -> & Hrev). simpl in *.
  destruct e as [err|].
  2:{ destruct Hrev as (x & t & Hx & Hh & _ & _ & _ & Hrows).
      assert (rt_ID x = rt_ID rt) as Heq by (eapply (rr_hash_inj (w_rts w)); eauto).
      eapply revoke_cascade_spec; [by split_and!|done| |]; [simpl; rewrite Hrows, Heq; apply lookup_insert_eq|done]. }
  destruct Hrev as (Hrows & _ & Hnf).
  destruct (errors_Is err ErrNotFound); [|apply wp_ret; by intros]. simpl negb. cbv iota.
  destruct (rt_RevokedAt rt) eqn:Hr.
  { eapply revoke_cascade_spec; [by split_and!|done|simpl; by rewrite Hrows|by rewrite Hr]. }
  apply wp_bind, wp_in_sys. eapply wp_eq; [by apply RefreshToken_IsValid_run|]. cbn beta iota. simpl.
  destruct (Z.ltb_spec (now s1) (rt_ExpiresAt rt)); simpl.
  - destruct (Hnf eq_refl _ _ Hrt eq_refl) as [[? ?]|?]; [congruence|lia].
  - apply wp_ret. intros _. left. split; [done|]. simpl.
    assert (now s1 <= now (tick s1)) by (apply now_mono, sys_le_tick). lia.
Qed.

Lemma blacklist_spec jti exp w :
  wp (BlacklistJTI jti exp) (fun o w' => exists e s' c', o = Ret e /\ w' = upd_cache (s', c') w /\
    sys_le (w_sys w) s' /\ same_except (BlacklistKey jti) (w_cache w) c' /\
    (e = None -> exp <= now s' \/
       exists d, cache_entry c' (BlacklistKey jti) = Some (VBool true, Some d) /\ exp <= d) /\
    (CacheReliable CI -> e = None)) w.
Proof.
  unfold BlacklistJTI. apply wp_bind, wp_in_sys. eapply wp_eq; [reflexivity|]. cbn beta iota.
  fold (now (w_sys w)). fold (tick (w_sys w)). in_port. simpl.
  destruct (cache_Set (BlacklistKey jti) (VBool true) (Some (exp - now (w_sys w))) (tick (w_sys w), w_cache w))
    as [o [s' c']] eqn:Hrun.
  destruct (wp_run _ _ _ _ _ Hrun (set_law _ _ _ (tick (w_sys w)) (w_cache w))) as (L & Hs & e & -> & He).
  assert (now (w_sys w) <= now (tick (w_sys w))) by (apply now_mono, sys_le_tick). apply now_mono in L as T.
  eapply wp_eq; [exact Hrun|]. exists e, s', c'. split_and!; try done; [sys_lia| |].
  - intros ->. destruct (Z.le_gt_cases exp (now (w_sys w))) as [|Hlt]; [left; lia|right].
    destruct He as [(y & Hentry & Hd)|[]]; [|done].
    destruct (Hd _ eq_refl ltac:(lia)) as (t & Ht & ->). eexists. split; [exact Hentry|lia].
  - intros HRel. pose proof (set_reliable (BlacklistKey jti) (VBool true) (Some (exp - now (w_sys w)))
      (tick (w_sys w), w_cache w)) as H'. rewrite Hrun in H'. by injection H'.
Qed.

(** The identifier is on the blacklist until the token's own expiry. *)
Definition blacklisted (jti : string) (exp : Z) (w : World) : Prop :=
  exp <= now (w_sys w) \/
  exists d, cache_entry (w_cache w) (BlacklistKey jti) = Some (VBool true, Some d) /\ exp <= d.

(** The string reads as an access token, which the caller owns, and its identifier
    is on the blacklist. *)
Definition access_token_ended (tok callerID : string) (w w' : World) : Prop :=
  exists s claims exp, sys_le (w_sys w) s /\ (ts_ParseJWT tok s).1 = Ret (Some claims, None) /\ cl_ID claims <> "" /\
    (callerID = "" \/ callerID = cl_Subject claims) /\ cl_ExpiresAt claims = Some exp /\ blacklisted (cl_ID claims) exp w'.

Lemma revokeAccess_spec tok callerID w :
  wp (RevokeToken_blacklistAccessToken tok callerID) (fun o w' => forall b err, o = Ret (b, err) ->
    sys_le (w_sys w) (w_sys w') /\ w_users w' = w_users w /\ w_grants w' = w_grants w /\ w_rts w' = w_rts w /\
    (b = true -> access_token_ended tok callerID w w')) w.
Proof.
  unfold RevokeToken_blacklistAccessToken. apply wp_bind, wp_in_sys.
  destruct (ts_parse_returns tok (w_sys w)) as (r & s1 & Hp & L1). eapply wp_eq; [exact Hp|]. cbn beta iota.
  assert (forall s2, sys_le s1 s2 -> forall b (err : option goerr), Ret (false, None) = Ret (b, err) -> sys_le (w_sys w) (w_sys (upd_sys s2 w)) /\
    w_users (upd_sys s2 w) = w_users w /\ w_grants (upd_sys s2 w) = w_grants w /\ w_rts (upd_sys s2 w) = w_rts w /\
    (b = true -> access_token_ended tok callerID w (upd_sys s2 w))) as Hno.
  { intros s2 L b err [= <- <-]. split_and!; try done. simpl. by etrans. }
  destruct r as [[claims|] [e|]]; try (apply wp_ret; by apply Hno).
  destruct (String.eqb_spec (cl_ID claims) ""); [apply wp_ret; by apply Hno|].
  destruct (_ && _) eqn:Hown; [apply wp_ret; by apply Hno|].
  unfold Claims_IsExpired. destruct (cl_ExpiresAt claims) as [exp|] eqn:Hexp.
  2:{ apply wp_bind. eapply wp_eq; [reflexivity|]. apply wp_ret. by apply (Hno s1). }
  apply wp_bind, wp_in_sys. eapply wp_eq; [reflexivity|]. cbn beta iota. fold (tick s1). simpl.
  destruct (exp <? _); [apply wp_ret, (Hno (tick s1)), sys_le_tick|].
  apply wp_bind. eapply wp_mono; [apply blacklist_spec|]. intros o w' (e & s2 & c2 & -> & -> & L2 & _ & Hb & _).
  simpl in L2. assert (sys_le (w_sys w) s2) as L by (etrans; [exact L1|]; etrans; [apply sys_le_tick|exact L2]).
  destruct e as [e|]; [apply wp_ret; intros b err [= <- <-]; by split_and!|].
  apply wp_bind. eapply wp_eq; [reflexivity|]. apply wp_ret. intros b err [= <- <-]. split_and!; try done. intros _.
  exists (w_sys w), claims, exp. rewrite Hp. split_and!; try done; [|exact (Hb eq_refl)].
  destruct (String.eqb_spec callerID "") as [->|]; [by left|right]. simpl in Hown.
  apply negb_false_iff, String.eqb_eq in Hown. done.
Qed.

Lemma revokeOwned_spec callerID rt w w' :
  world_inv w -> rs_rows (w_rts w) !! rt_ID rt = Some rt -> (callerID = "" \/ callerID = rt_UserID rt) ->
  RevokeToken_revokeOwned callerID rt w = (Ret (RNil, None), w') -> token_ended rt w w'.
Proof.
  intros Hinv Hrt Howner Hrun. unfold RevokeToken_revokeOwned in Hrun.
  assert (negb (String.eqb callerID "") && negb (String.eqb (rt_UserID rt) callerID) = false) as Hown.
  { destruct Howner as [->| ->]; [done|]. rewrite String.eqb_refl. apply andb_false_r. }
  rewrite Hown in Hrun. apply bind_Ret_inv in Hrun as (e & w2 & Hconf & Hret). injection Hret as -> ->.
  by apply (wp_run _ _ _ _ _ Hconf (revokeConfirmed_spec rt w Hinv Hrt)).
Qed.

(** The lookup by hash, for a token that is stored. *)
Lemma find_stored_spec rt tok w :
  world_inv w -> rs_rows (w_rts w) !! rt_ID rt = Some rt -> rt_TokenHash rt = Hash tok ->
  wp (in_rts (rr_FindByTokenHash (Hash tok))) (fun o w' => exists s r, w' = upd_rts (s, r) w /\ sys_le (w_sys w) s /\
    rs_inv r /\ rs_rows r = rs_rows (w_rts w) /\
    (o = Ret (Some rt, None) \/ exists e, o = Ret (None, Some e) /\ errors_Is e ErrNotFound = false)) w.
Proof.
  intros (_ & _ & HR) Hrt Hh. in_port. eapply wp_mono; [by apply rr_find_law|].
  intros o [s1 r1] (L1 & Hi1 & Hrows & [(x & -> & Hx & Hxh)|[(-> & Hno)|(e & -> & He)]]); exists s1, r1; split_and!; try done.
  - left. assert (rt_ID x = rt_ID rt) as Heq by (eapply (rr_hash_inj (w_rts w)); eauto; congruence).
    rewrite Heq in Hx. by simplify_eq.
  - by destruct (Hno _ _ Hrt).
  - right. by exists e.
Qed.

Lemma token_ended_from rt w w1 w' : sys_le (w_sys w) (w_sys w1) -> token_ended rt w1 w' -> token_ended rt w w'.
Proof.
  intros L [?|[Hx Hg]]; [by left|right]. split; [done|]. intros Hne. destruct (Hg Hne) as (s1 & L1 & He).
  exists s1. split; [by etrans|done].
Qed.

(** C14: Revocation of a refresh token.  When the endpoint answers without an error,
    whatever the type hint says, to a caller that is allowed to revoke a stored refresh
    token, then the token had expired on its own; or its row is revoked and its
    grant - if it has one; tokens from before there were grants do not - has ended.
    The one exception is a string that also reads as an access token the caller may
    revoke: that access token is then on the blacklist, and the refresh token may
    not have been looked at (with the hint access_token) or not be reachable (when
    the lookup failed).  Storage and cache may fail. *)
Theorem revocation_ends_grant (c : RevokeTokenCommand) (rt : RefreshToken) (w w' : World) :
  world_inv w ->
  rs_rows (w_rts w) !! rt_ID rt = Some rt -> rt_TokenHash rt = Hash (vc_Token c) ->
  (vc_CallerID c = "" \/ vc_CallerID c = rt_UserID rt) ->
  RevokeToken_Execute c w = (Ret (RNil, None), w') ->
  token_ended rt w w' \/ access_token_ended (vc_Token c) (vc_CallerID c) w w'.
Proof.
  intros Hinv Hrt Hh Howner Hrun. unfold RevokeToken_Execute in Hrun. destruct (negb _) in Hrun; [done|].
  destruct (match vc_TokenTypeHint c with Some h => _ | None => _ end) in Hrun.
  - apply bind_Ret_inv in Hrun as ([b err] & w1 & Hb & Hrun).
    destruct (wp_run _ _ _ _ _ Hb (revokeAccess_spec _ _ w) b err eq_refl) as (L1 & HU & HG & HR & Hend).
    destruct err as [err|]; [done|]. destruct b; [injection Hrun as <-; right; auto|]. left. simpl in Hrun.
    apply bind_Ret_inv in Hrun as (r & w2 & Hf & Hrun).
    assert (world_inv w1) as Hinv1 by (unfold world_inv; rewrite HU, HG, HR; done). rewrite <- HR in Hrt.
    destruct (wp_run _ _ _ _ _ Hf (find_stored_spec rt (vc_Token c) w1 Hinv1 Hrt Hh))
      as (s2 & r2 & -> & L2 & Hi2 & Hrows & [[= ->]|(e & [= ->] & He)]); [|by rewrite He in Hrun].
    eapply token_ended_from, revokeOwned_spec; [|..|exact Hrun]; [by etrans| | |done].
    + by split_and!; [apply Hinv1..|].
    + simpl. by rewrite Hrows.
  - apply bind_Ret_inv in Hrun as (r & w1 & Hf & Hrun).
    destruct (wp_run _ _ _ _ _ Hf (find_stored_spec rt (vc_Token c) w Hinv Hrt Hh))
      as (s1 & r1 & -> & L1 & Hi1 & Hrows & [[= ->]|(e & [= ->] & He)]).
    + left. eapply token_ended_from, revokeOwned_spec; [|..|exact Hrun]; [exact L1| | |done].
      * by split_and!; [apply Hinv..|].
      * simpl. by rewrite Hrows.
    + apply bind_Ret_inv in Hrun as ([b err] & w2 & Hb & Hrun).
      destruct (wp_run _ _ _ _ _ Hb (revokeAccess_spec _ _ _) b err eq_refl) as (_ & _ & _ & _ & Hend).
      rewrite He in Hrun. destruct err as [err|]; [done|]. destruct b; [|done]. injection Hrun as <-. right.
      destruct (Hend eq_refl) as (s & claims & exp & L & Hrest). exists s, claims, exp. split; [by etrans|done].
Qed.

(** ** Replay *)

(** A family of refresh tokens has ended: that of a grant; or, for a token from
    before there were grants, all tokens of its user. *)
Definition family_ended (rt : RefreshToken) (since : Sys) (w : World) : Prop :=
  (rt_GrantID rt <> "" -> grant_ended (rt_GrantID rt) since w) /\
  (rt_GrantID rt = "" -> forall id x, rs_rows (w_rts w) !! id = Some x -> rt_UserID x = rt_UserID rt -> is_Some (rt_RevokedAt x)).

(** The consequences of a replay. *)
Lemma replay_family_wp rt w :
  world_inv w ->
  wp (if negb (String.eqb (rt_GrantID rt) "") then
        RefreshToken_revokeGrant (rt_GrantID rt);;
        in_rts (rr_RevokeAllForGrant (rt_GrantID rt));;
        RefreshToken_writeRevokedGrantMarker (rt_GrantID rt)
      else in_rts (rr_RevokeAllForUser (rt_UserID rt));; mret tt)
    (fun o w' => o = Ret tt /\ world_inv w' /\ sys_le (w_sys w) (w_sys w') /\
      rows_evolve (rs_rows (w_rts w)) (rs_rows (w_rts w')) /\ (reliable -> family_ended rt (w_sys w) w')) w.
Proof.
  intros Hinv. unfold family_ended. destruct (String.eqb_spec (rt_GrantID rt) "") as [Hg|Hg]; simpl negb; cbv iota.
  - apply wp_bind. eapply wp_mono; [by apply sweepUser_spec|]. intros o w' (e & s & r & -> & -> & L & Hi & Hev & Hd & He).
    apply wp_ret. split_and!; try done; [by split_and!; [apply Hinv..|]|]. intros (_ & RR & _). split; [done|]. intros _. exact (Hd (He RR)).
  - unfold RefreshToken_revokeGrant, RefreshToken_writeRevokedGrantMarker. do 2 apply wp_bind.
    eapply wp_mono; [apply (end_grant_best (rt_GrantID rt) w (fun w' => world_inv w' /\ sys_le (w_sys w) (w_sys w') /\
      rows_evolve (rs_rows (w_rts w)) (rs_rows (w_rts w')) /\ (reliable -> grant_ended (rt_GrantID rt) (w_sys w) w')))|]; try done.
    intros o1 w2 (e1 & -> & H). apply wp_ret. apply wp_bind. eapply wp_mono; [exact H|].
    intros o2 w3 (e2 & -> & H2). apply wp_bind. eapply wp_mono; [exact H2|].
    intros o3 w4 (e3 & -> & ? & ? & ? & Hend). apply wp_ret. split_and!; try done. by intros HR%Hend.
Qed.

Lemma findActive_replay raw rt w :
  world_inv w -> rs_rows (w_rts w) !! rt_ID rt = Some rt -> rt_TokenHash rt = Hash raw ->
  is_Some (rt_RevokedAt rt) ->
  wp (RefreshToken_findActiveRefreshToken raw) (fun o w' => o = Ret (None, Some NewErrInvalidRefreshToken) /\
    world_inv w' /\ sys_le (w_sys w) (w_sys w') /\
    rows_evolve (rs_rows (w_rts w)) (rs_rows (w_rts w')) /\ (reliable -> family_ended rt (w_sys w) w')) w.
Proof.
  intros Hinv Hrt Hh [t Hrev]. pose proof Hinv as (HU & HG & HR). unfold RefreshToken_findActiveRefreshToken. apply wp_bind. in_port.
  destruct (rr_FindByTokenHash (Hash raw) (w_sys w, w_rts w)) as [o [s1 r1]] eqn:Hrun.
  destruct (wp_run _ _ _ _ _ Hrun (rr_find_law (Hash raw) (w_sys w) (w_rts w) HR))
    as (L1 & Hi1 & Hrows & [(x & -> & Hx & Hxh)|[(-> & Hno)|(e & -> & He)]]).
  2:{ by destruct (Hno _ _ Hrt). }
  2:{ eapply wp_eq; [exact Hrun|]. apply wp_ret. simpl in *. split_and!; try done.
      - rewrite Hrows. apply rows_evolve_refl.
      - intros (_ & RR & _). eapply rr_find_reliable in Hrun; [|done]. by subst e. }
  assert (rt_ID x = rt_ID rt) as Heq by (eapply (rr_hash_inj (w_rts w)); eauto; congruence).
  rewrite Heq in Hx. simplify_eq. eapply wp_eq; [exact Hrun|]. cbn beta iota. rewrite Hrev.
  set (w1 := upd_rts (s1, r1) w). simpl in Hrows. apply wp_bind.
  eapply wp_mono; [apply (replay_family_wp rt w1); by split_and!|].
  intros o w' (-> & Hinv' & L' & Hev & Hend). apply wp_ret. split_and!; try done.
  - etrans; [exact L1|exact L'].
  - intros id x Hx'. apply Hev. subst w1. simpl. by rewrite Hrows.
  - intros Rel. destruct (Hend Rel) as [Hg Hl]. split; [|done]. intros Hne. destruct (Hg Hne) as (H1 & H2 & e & H3 & H4).
    split_and!; [done|done|]. exists e. split; [done|]. pose proof (now_mono _ _ L1). subst w1. simpl in H4. lia.
Qed.

Lemma replay_spec c client rt w :
  refresh_client c client -> world_inv w ->
  rs_rows (w_rts w) !! rt_ID rt = Some rt -> rt_TokenHash rt = Hash (rc_RefreshToken c) ->
  is_Some (rt_RevokedAt rt) ->
  exists w', RefreshToken_Execute c w = (Ret (RNil, Some NewErrInvalidRefreshToken), w') /\
    world_inv w' /\ rows_evolve (rs_rows (w_rts w)) (rs_rows (w_rts w')) /\
    (reliable -> family_ended rt (w_sys w) w').
Proof.
  intros Hc Hinv Hrt Hh Hrev.
  pose proof (findActive_replay (rc_RefreshToken c) rt w Hinv Hrt Hh Hrev) as H. unfold wp in H.
  rewrite (refresh_unfold c client Hc). unfold bind.
  destruct (RefreshToken_findActiveRefreshToken (rc_RefreshToken c) w) as [o w'].
  destruct H as (Ho & Hinv' & _ & Hev & Hend). simpl in *. subst o. exists w'. by split_and!.
Qed.

(** A token in no active row is not rotated. *)
Lemma refresh_needs_active c w :
  world_inv w -> (forall rt, ~ active_row (rc_RefreshToken c) w rt) ->
  forall t, (RefreshToken_Execute c w).1 <> Ret (RToken t, None).
Proof.
  intros Hinv Hno t Hrun. destruct (token_client_cases (rc_ClientID c) (rc_ClientSecret c) (rc_BasicClientID c)
    (rc_BasicClientSecret c) GrantRefreshToken) as [[client Hc]|Hnc];
    [|by rewrite (refresh_refused c w Hnc) in Hrun].
  rewrite (refresh_unfold c client Hc) in Hrun. unfold bind in Hrun.
  pose proof (findActive_spec (rc_RefreshToken c) w Hinv) as Hf. unfold wp in Hf.
  destruct (RefreshToken_findActiveRefreshToken (rc_RefreshToken c) w) as [[[[rt|] [e|]]|] w1]; try done.
  destruct (Hf rt eq_refl) as [Hact _]. by apply (Hno rt).
Qed.

(** C2: Theft detection.  When a refresh token that was already rotated is presented
    again, by any client allowed to refresh, the request is refused, even if storage
    or cache fail.  If they do not fail, the family of the token has ended: its grant
    - record, all its refresh tokens and, through the marker, its access tokens,
    among them the one the rotation handed out - or, for a token from before there
    were grants, every refresh token of its user; and in particular the token the
    rotation had handed out can no longer be rotated by anyone.  (The stored data are
    well-formed, and identifiers and refresh tokens drawn from now on are not in
    use.) *)
Theorem replay_kills_family `{!UuidFresh E} (c1 c2 c3 : RefreshTokenCommand) (client2 : Client) (w w1 : World)
    (t : TokenResponse) :
  world_inv w -> refresh_fresh w -> ids_fresh w ->
  RefreshToken_Execute c1 w = (Ret (RToken t, None), w1) ->
  rc_RefreshToken c2 = rc_RefreshToken c1 -> refresh_client c2 client2 ->
  rc_RefreshToken c3 = tr_RefreshToken t ->
  exists old w2, active_row (rc_RefreshToken c1) w old /\
    RefreshToken_Execute c2 w1 = (Ret (RNil, Some NewErrInvalidRefreshToken), w2) /\
    (rt_GrantID old <> "" -> token_reads (tr_AccessToken t) (w_sys w1) (rt_UserID old) (tr_Scope t) (rt_GrantID old)) /\
    (GrantRepoReliable GI /\ RefreshTokenRepoReliable RI /\ CacheReliable CI ->
       family_ended old (w_sys w1) w2 /\
       forall t3, (RefreshToken_Execute c3 w2).1 <> Ret (RToken t3, None)).
Proof.
  intros Hinv Hfr Hids Hrun Hraw Hc2 Hnew3.
  destruct (refresh_spec c1 w w1 t Hinv Hfr Hids Hrun) as (client & old & new & _ & Hact & Hrot).
  pose proof Hact as (Hold & Hh & _).
  destruct Hrot as (_ & (u & _ & Huid & _ & Hnu & Htok) & _ & _ & _ & _ & Hhash & _ & Hfree & _ & _ & Hinv1 & (tr & _ & Hrows) & Hg).
  assert (rt_ID new <> rt_ID old) as Hne by (intros Heq; congruence).
  set (old' := set_rt_RevokedAt (Some tr) old).
  assert (rs_rows (w_rts w1) !! rt_ID old' = Some old') as Hold'.
  { rewrite Hrows, lookup_insert_ne by done. apply lookup_insert_eq. }
  destruct (replay_spec c2 client2 old' w1 Hc2 Hinv1 Hold') as (w2 & Hrun2 & Hinv2 & Hev & Hend); [simpl; congruence|done|].
  exists old, w2. split_and!; [done|done| |].
  { intros Hgne. destruct Hg as [(_ & <- & _)|[? _]]; [|done]. by rewrite <- Huid. }
  intros Rel. destruct (Hend Rel) as [Hdead Hleg]. split; [done|].
  apply refresh_needs_active; [done|]. intros rt (Hrt & Hrh & Hnone & _).
  destruct (Hev (rt_ID new) new) as (x & Hx & Hxh & Hxg & _ & Hxu); [rewrite Hrows; apply lookup_insert_eq|].
  assert (rt_ID rt = rt_ID new) as Heq by (eapply (rr_hash_inj (w_rts w2)); [apply Hinv2|done..|congruence]).
  rewrite Heq in Hrt. simplify_eq. destruct Hg as [(Hgne & Hgid & _)|[Hge _]].
  - destruct (Hdead Hgne) as (_ & Hall & _). destruct (Hall (rt_ID new) rt) as [? ?]; [done|simpl; congruence|congruence].
  - destruct (Hleg Hge (rt_ID new) rt) as [? ?]; [done|simpl; congruence|congruence].
Qed.

End TokenFlow.
