(* ===== verification/MongoTxn.v ===== *)
(** * Transactions of the MongoDB backend
      (infrastructure/repository/mongo/client.go, unit_of_work.go)

    The unit of work runs its function in a transaction of the driver.  The
    rotation of a refresh token is such a function; the theorem below says what
    the transaction makes of it when other requests commit at the same time. *)

From S2P Require Import Prelude GoStd Crypto Errors Env Cipher Scope User Token Client AuthFlow Jwt Cache FileRepo Ports Adapters Contract Mongo MongoAdapters MongoRows MongoCodecs MongoContract.
From S2P Require Import Frame Services Responses CmdTokens TokenFlow.

Local Open Scope Z_scope.

(** ** The grant's part of a rotation, under the contract *)

Section ContractRotation.
  Context {E : Env} {CM : ClockMono E} {CI : CacheI} {UI : UserRepoI} {RI : RefreshTokenRepoI}.
  Context {GI : GrantRepoI} {nt : Z -> Z} {GC : GrantContract E nt GI}.

(** The grant of a rotation: absent, or valid and moved to cover the new token. *)
Definition extended_nt (nt : Z -> Z) (gid : string) (exp : Z) (m m' : gmap string Grant) : Prop :=
  ((gid = "" \/ m !! gid = None) /\ m' = m) \/
  exists g, m !! gid = Some g /\ g_RevokedAt g = None /\
    m' = <[gid := grant_norm nt (Grant_ExtendToCover exp g)]> m.

Lemma checkAndExtend_contract gid exp w :
  world_inv w ->
  wp (RefreshToken_checkAndExtendGrant gid exp) (fun o w' => exists s' r', w' = upd_grants (s', r') w /\
    sys_le (w_sys w) s' /\ ps_inv r' /\
    (o = Ret None -> extended_nt nt gid exp (ps_view (w_grants w)) (ps_view r'))) w.
Proof.
  intros (_ & HG & _). unfold RefreshToken_checkAndExtendGrant, extended_nt.
  destruct (String.eqb_spec gid "") as [->|Hne].
  { apply wp_ret. exists (w_sys w), (w_grants w). split_and!; try done; [by destruct w|]. auto. }
  wp_call gc_findByID.
  intros o [s1 r1] (L1 & Hi1 & Hv1 & [(l & g & id & -> & Hl & Hg & Hid)|[(-> & Hno)|(e & -> & He)]]); simpl in *.
  - apply wp_bind. eapply wp_eq; [by apply in_grants_deref|]. cbn beta iota.
    assert (g_ID g = id) as <- by (eapply pc_view_id; [exact HG|exact Hg]). subst gid.
    destruct (Grant_IsValid_run g s1) as (b & s2 & Hb & L2 & Htrue).
    apply wp_bind, wp_in_sys. eapply wp_eq; [exact Hb|]. cbn beta iota.
    destruct b; [|apply wp_ret; exists s2, r1; split_and!; try done; sys_lia].
    destruct (Htrue eq_refl) as [Hrev Hexp]. simpl negb. cbv iota.
    wp_call pc_assign; [done|]. intros o [s3 r3] (-> & -> & Hi3 & Hl3 & Hv3). simpl in *.
    wp_call pc_save; [done|]. intros o [s4 r4] (L4 & Hi4 & _ & Ho). simpl in *.
    rewrite Hv1 in Hv3.
    destruct o as [[e|]|]; [apply wp_ret| |]; exists s4, r4; split_and!; try done; try sys_lia.
    intros _. right. exists g. split_and!; try done. simpl in Ho. rewrite Ho.
    by destruct Hv3 as [->|[_ ->]]; [|rewrite insert_insert_eq].
  - apply wp_ret. exists s1, r1. split_and!; try done. intros _. left. split; [right|done].
    destruct (ps_view (w_grants w) !! gid) as [g|] eqn:Hg; [|done].
    exfalso. eapply Hno; [exact Hg|]. eapply pc_view_id; [exact HG|exact Hg].
  - rewrite He. apply wp_ret. exists s1, r1. split_and!; done.
Qed.

Lemma in_rts_inv {X} (m : ST (Sys * RS) X) w w' a : in_rts m w = (Ret a, w') ->
  exists q, m (w_sys w, w_rts w) = (Ret a, q) /\ w' = upd_rts q w.
Proof. unfold in_rts. destruct (m (w_sys w, w_rts w)) as [o q]. intros [= -> <-]. eauto. Qed.

End ContractRotation.

(** ** Transactions (client.go, unit_of_work.go) *)

(** The server on MongoDB. *)
Notation MongoWorld C := (@World C mongoUserRepo mongoGrantRepo mongoRTRepo).

(** Sessions of the driver: [StartSession] and [Session.WithTransaction]. *)
Class MongoSession {E : Env} {A : Aead} {EC : EmailCipher} {M : MongoDriver} (CI : CacheI) := {
  client_StartSession : ST (MongoWorld CI) (option goerr);
  session_WithTransaction : ST (MongoWorld CI) (option goerr) -> ST (MongoWorld CI) (option goerr);
}.

Section Transactions.
  Context {E : Env} {A : Aead} {EC : EmailCipher} {M : MongoDriver} {CI : CacheI} {SE : MongoSession CI}.
  Notation W := (MongoWorld CI).

Definition MongoClient_WithTransaction (fn : ST W (option goerr)) : ST W (option goerr) :=
  err ← client_StartSession;
  match err with
  | Some e => mret (Some (ErrWrapped "failed to start session: " e))
  | None => session_WithTransaction fn
  end.

Definition UnitOfWork_Do (fn : ST W (option goerr)) : ST W (option goerr) :=
  MongoClient_WithTransaction (fun w => fn w).

(** [env w w']: time passed and other requests committed. *)
Context (env : W -> W -> Prop).

(** [m2] is [mx] with the documents the transaction changed ([m0] to [m1]); none
    of those had been changed by anybody else. *)
Definition merged (m0 m1 mx m2 : gmap string document) : Prop := forall id,
  (m1 !! id = m0 !! id /\ m2 !! id = mx !! id) \/ (mx !! id = m0 !! id /\ m2 !! id = m1 !! id).

Definition committed (w0 w1 wx w2 : W) : Prop :=
  merged (coll_docs (mr_col (w_users w0))) (coll_docs (mr_col (w_users w1)))
    (coll_docs (mr_col (w_users wx))) (coll_docs (mr_col (w_users w2))) /\
  merged (coll_docs (mr_col (w_grants w0))) (coll_docs (mr_col (w_grants w1)))
    (coll_docs (mr_col (w_grants wx))) (coll_docs (mr_col (w_grants w2))) /\
  merged (coll_docs (mr_col (w_rts w0))) (coll_docs (mr_col (w_rts w1)))
    (coll_docs (mr_col (w_rts wx))) (coll_docs (mr_col (w_rts w2))).

(** The documentation of [Session.WithTransaction]: the callback runs on a
    snapshot [w0] of the committed state; its writes become visible together, at
    a moment [wx], unless another request committed a write to one of the same
    documents since the snapshot, in which case it runs again; a callback that
    returns an error leaves nothing behind; a commit whose outcome cannot be
    learned ends in an error of the driver. *)
Inductive transaction (fn : ST W (option goerr)) : W -> outcome (option goerr) -> W -> Prop :=
| txn_commit w w0 w1 wx w' :
    env w w0 -> fn w0 = (Ret None, w1) -> env w0 wx -> committed w0 w1 wx w' ->
    transaction fn w (Ret None) w'
| txn_abort w w0 w1 o wx :
    env w w0 -> fn w0 = (o, w1) -> o <> Ret None -> env w0 wx -> sys_le (w_sys w1) (w_sys wx) ->
    transaction fn w o wx
| txn_retry w wx o w' :
    env w wx -> transaction fn wx o w' -> transaction fn w o w'
| txn_unknown w w0 w1 wx w' e :
    env w w0 -> fn w0 = (Ret None, w1) -> env w0 wx ->
    (w' = wx \/ committed w0 w1 wx w') -> driver_error e ->
    transaction fn w (Ret (Some e)) w'.

Class MongoSessionSpec := {
  startSession_law : forall w o w', client_StartSession w = (o, w') ->
    exists e, o = Ret e /\ env w w' /\ (forall err, e = Some err -> driver_error err);
  withTransaction_law : forall fn w o w', session_WithTransaction fn w = (o, w') -> transaction fn w o w';
}.

(** ** Rotation on a snapshot *)

Context {CM : ClockMono E} {AS : AeadSpec A} {MS : MongoSpec M}.

Definition grants_of (w : W) : gmap string Grant := coll_view Grant (mr_col (w_grants w)).
Definition tokens_of (w : W) : gmap string RefreshToken := coll_view RefreshToken (mr_col (w_rts w)).

(** The presented token revoked and the new one stored. *)
Definition link_moved (old new : RefreshToken) (m m' : gmap string RefreshToken) : Prop :=
  exists x t, m !! rt_ID x = Some x /\ rt_TokenHash x = rt_TokenHash old /\ rt_RevokedAt x = None /\
    m' = <[rt_ID new := rt_norm ms_trunc new]> (<[rt_ID x := set_rt_RevokedAt (Some (ms_trunc t)) x]> m).

Lemma rotateTx_snapshot old new (w0 w1 : W) :
  world_inv w0 -> scope_ok (rt_Scope new) ->
  RefreshToken_rotateTx old new w0 = (Ret None, w1) ->
  extended_nt ms_trunc (rt_GrantID old) (rt_ExpiresAt new) (grants_of w0) (grants_of w1) /\
  link_moved old new (tokens_of w0) (tokens_of w1).
Proof.
  intros Hinv Hsc Hrun. pose proof Hinv as (_ & _ & HR).
  revert Hrun. unfold RefreshToken_rotateTx. intros Hrun.
  apply bind_Ret_inv in Hrun as (e1 & w2 & Hchk & Hrun).
  destruct (wp_run _ _ _ _ _ Hchk (checkAndExtend_contract _ _ w0 Hinv)) as (s1 & r1 & -> & _ & _ & Hext).
  destruct e1 as [e1|]; [by apply ret_inv in Hrun as [? _]|]. specialize (Hext eq_refl).
  apply bind_Ret_inv in Hrun as (e2 & w3 & Hrev & Hrun). apply in_rts_inv in Hrev as ([s2 r2] & Hrev & ->).
  destruct (wp_run _ _ _ _ _ Hrev (mongo_rt_revoke _ s1 (w_rts w0) HR)) as (_ & Hi2 & e & [= <-] & Hx).
  destruct e2 as [e2|]; [destruct (errors_Is e2 ErrNotFound); by apply ret_inv in Hrun as [? _]|].
  destruct Hx as (x & t & Hx & Hh & Hn & _ & _ & Hv2).
  apply bind_Ret_inv in Hrun as (e3 & w4 & Hsave & Hrun). apply in_rts_inv in Hsave as ([s3 r3] & Hsave & ->).
  destruct e3 as [e3|]; [by apply ret_inv in Hrun as [? _]|]. apply ret_inv in Hrun as [_ <-].
  destruct (wp_run _ _ _ _ _ Hsave (mongo_rt_save new s2 r2 Hi2 Hsc)) as (_ & _ & Hv3).
  split; [exact Hext|]. exists x, t. do 3 (split; [done|]). etrans; [exact Hv3|]. by rewrite Hv2.
Qed.

(** ** What a transaction makes of it *)

(** Views of merged collections, document by document. *)
Lemma merged_view {T D} {MC : MongoCodec T D} (c0 c1 cx c2 : Coll) id :
  merged (coll_docs c0) (coll_docs c1) (coll_docs cx) (coll_docs c2) ->
  (coll_view T c1 !! id = coll_view T c0 !! id /\ coll_view T c2 !! id = coll_view T cx !! id) \/
  (coll_view T cx !! id = coll_view T c0 !! id /\ coll_view T c2 !! id = coll_view T c1 !! id).
Proof.
  intros Hm. unfold coll_view. rewrite !lookup_omap. destruct (Hm id) as [[-> ->]|[-> ->]]; auto.
Qed.

(** A rotation that took effect: at the moment [wx] of its commit the presented
    token was stored and unrevoked; afterwards it is revoked and the new one is
    stored.  A grant that was there at the snapshot [w0] and whose expiry moved
    was unrevoked at the moment of the commit and covers the new token
    afterwards; a revocation committed before that moment stays. *)
Definition rotation_effect (old new : RefreshToken) (w0 wx w' : W) : Prop :=
  (exists x t, tokens_of wx !! rt_ID x = Some x /\ rt_TokenHash x = rt_TokenHash old /\
     rt_RevokedAt x = None /\
     (rt_ID x <> rt_ID new -> tokens_of w' !! rt_ID x = Some (set_rt_RevokedAt (Some (ms_trunc t)) x))) /\
  (tokens_of w0 !! rt_ID new = None -> tokens_of w' !! rt_ID new = Some (rt_norm ms_trunc new)) /\
  (forall g, rt_GrantID old <> "" -> grants_of w0 !! rt_GrantID old = Some g ->
     g_ExpiresAt g <> ms_trunc (rt_ExpiresAt new + grantExpiryMargin) ->
     grants_of wx !! rt_GrantID old = Some g /\ g_RevokedAt g = None /\
     grants_of w' !! rt_GrantID old = Some (grant_norm ms_trunc (Grant_ExtendToCover (rt_ExpiresAt new) g))) /\
  (forall gid g, grants_of wx !! gid = Some g -> is_Some (g_RevokedAt g) -> grants_of w' !! gid = Some g).

Lemma commit_effect old new (w0 w1 wx w' : W) :
  world_inv w0 -> scope_ok (rt_Scope new) -> rt_TokenHash new <> rt_TokenHash old ->
  RefreshToken_rotateTx old new w0 = (Ret None, w1) -> committed w0 w1 wx w' ->
  rotation_effect old new w0 wx w'.
Proof.
  intros Hinv Hsc Hhash Hrun (_ & Hmg & Hmt).
  destruct (rotateTx_snapshot old new w0 w1 Hinv Hsc Hrun) as [Hext (x & t & Hx & Hh & Hn & Hv)].
  pose proof (fun id => merged_view (T := Grant) _ _ _ _ id Hmg) as Hg.
  pose proof (fun id => merged_view (T := RefreshToken) _ _ _ _ id Hmt) as Ht. clear Hmg Hmt.
  fold (grants_of w0) (grants_of w1) (grants_of wx) (grants_of w') in Hg.
  fold (tokens_of w0) (tokens_of w1) (tokens_of wx) (tokens_of w') in Ht.
  split_and!.
  - exists x, t. destruct (decide (rt_ID x = rt_ID new)) as [Hid|Hne].
    + destruct (Ht (rt_ID x)) as [[Hsame _]|[-> _]]; [|done]. exfalso.
      rewrite Hv, Hx, Hid, lookup_insert_eq in Hsame. injection Hsame as Heq. subst x. by destruct Hhash.
    + assert (tokens_of w1 !! rt_ID x = Some (set_rt_RevokedAt (Some (ms_trunc t)) x)) as H1.
      { rewrite Hv, lookup_insert_ne by done. by rewrite lookup_insert_eq. }
      destruct (Ht (rt_ID x)) as [[Hsame _]|[-> ->]]; [|by rewrite H1]. exfalso.
      rewrite H1, Hx in Hsame. injection Hsame as Heq. rewrite <-Heq in Hn. done.
  - intros Hnew. assert (tokens_of w1 !! rt_ID new = Some (rt_norm ms_trunc new)) as H1
      by (by rewrite Hv, lookup_insert_eq).
    destruct (Ht (rt_ID new)) as [[Hsame _]|[_ ->]]; [|done]. congruence.
  - intros g Hne Hg0 Hexp. destruct Hext as [[[?|?] _]|(g0 & Hg0' & Hrev & Hv1)]; [done|congruence|].
    assert (g0 = g) as -> by congruence.
    assert (grants_of w1 !! rt_GrantID old = Some (grant_norm ms_trunc (Grant_ExtendToCover (rt_ExpiresAt new) g))) as H1
      by (by rewrite Hv1, lookup_insert_eq).
    destruct (Hg (rt_GrantID old)) as [[Hsame _]|[-> ->]]; [|done]. exfalso.
    rewrite H1, Hg0 in Hsame. injection Hsame as Heq. rewrite <-Heq in Hexp. done.
  - intros gid g Hgx Hrev. destruct (Hg gid) as [[_ ->]|[Hsame ->]]; [done|]. rewrite Hsame in Hgx.
    destruct Hext as [[_ ->]|(g0 & Hg0 & Hn0 & ->)]; [done|].
    destruct (decide (gid = rt_GrantID old)) as [->|Hne']; [|by rewrite lookup_insert_ne].
    assert (g0 = g) as -> by congruence. rewrite Hn0 in Hrev. by destruct Hrev.
Qed.

Lemma transaction_effect old new w o w' :
  PreOrder env -> (forall w w', env w w' -> world_inv w -> world_inv w') ->
  scope_ok (rt_Scope new) -> rt_TokenHash new <> rt_TokenHash old ->
  transaction (RefreshToken_rotateTx old new) w o w' -> world_inv w ->
  (o <> Ret None /\ env w w') \/
  exists w0 wx, env w w0 /\ env w0 wx /\ rotation_effect old new w0 wx w' /\
    (o = Ret None \/ exists e, o = Ret (Some e) /\ driver_error e).
Proof.
  intros HP Henv Hsc Hh Ht. induction Ht as [w w0 w1 wx w' H0 Hrun Hx Hc|w w0 w1 o wx H0 _ Ho Hx _|
    w wx o w' Hx _ IH|w w0 w1 wx w' e H0 Hrun Hx Hc He]; intros Hinv.
  - right. exists w0, wx. do 2 (split; [done|]). split; [|by left]. eapply commit_effect; eauto.
  - left. split; [done|]. by etrans.
  - destruct (IH (Henv _ _ Hx Hinv)) as [[? ?]|(w0 & wx' & ? & ?)]; [left; split; [done|by etrans]|].
    right. exists w0, wx'. split; [by etrans|done].
  - destruct Hc as [->|Hc]; [left; split; [done|by etrans]|]. right. exists w0, wx. do 2 (split; [done|]).
    split; [eapply commit_effect; eauto|]. right. eauto.
Qed.

(** C27: The unit of work of the MongoDB backend makes the rotation of a refresh
    token atomic and serialises it with everything other requests do: it either
    leaves nothing behind, or takes effect as a whole at one moment, at which the
    presented token was unrevoked and its grant, if the rotation moved its
    expiry, was not revoked either; success is reported only for the latter. *)
Theorem rotation_serialised (SS : MongoSessionSpec) (old new : RefreshToken) (w w' : W)
    (o : outcome (option goerr)) :
  PreOrder env -> (forall w w', env w w' -> world_inv w -> world_inv w') ->
  world_inv w -> scope_ok (rt_Scope new) -> rt_TokenHash new <> rt_TokenHash old ->
  UnitOfWork_Do (RefreshToken_rotateTx old new) w = (o, w') ->
  (o <> Ret None /\ env w w') \/
  exists w0 wx, env w w0 /\ env w0 wx /\ rotation_effect old new w0 wx w' /\
    (o = Ret None \/ exists e, o = Ret (Some e) /\ driver_error e).
Proof.
  intros HP Henv Hinv Hsc Hh. unfold UnitOfWork_Do, MongoClient_WithTransaction, bind.
  destruct (client_StartSession w) as [o1 w1] eqn:Hst.
  destruct (startSession_law _ _ _ Hst) as (e & -> & H1 & _). destruct e as [e|].
  - intros [= <- <-]. left. done.
  - intros Ht%withTransaction_law. apply (transaction_effect old new) in Ht; eauto.
    destruct Ht as [[? ?]|(w0 & wx & ? & ?)]; [left; split; [done|by etrans]|].
    right. exists w0, wx. split; [by etrans|done].
Qed.

(** Of all the rotations of one token, whenever they started, at most one takes
    effect, as long as nobody removes a revocation. *)
Theorem rotations_exclusive (old new1 new2 : RefreshToken) (w1 x1 w1' w2 x2 w2' : W) :
  (forall w w' id x, env w w' -> tokens_of w !! id = Some x -> is_Some (rt_RevokedAt x) ->
     forall y, tokens_of w' !! id = Some y -> is_Some (rt_RevokedAt y)) ->
  world_inv x1 -> world_inv x2 -> rt_ID new1 <> rt_ID old -> tokens_of x1 !! rt_ID old = Some old ->
  (forall y, tokens_of x2 !! rt_ID y = Some y -> rt_TokenHash y = rt_TokenHash old -> rt_ID y = rt_ID old) ->
  rotation_effect old new1 w1 x1 w1' -> env w1' x2 -> ~ rotation_effect old new2 w2 x2 w2'.
Proof.
  intros Hkeep (_ & _ & H1) _ Hne Hold Hid ((x & t & Hx & Hxh & _ & Hrev) & _) Henv ((y & t' & Hy & Hyh & Hyn & _) & _).
  assert (rt_ID x = rt_ID old) as Hxid by exact (mongo_rt_hash_inj (w_rts x1) _ _ _ _ H1 Hx Hold Hxh).
  specialize (Hrev ltac:(congruence)). rewrite Hxid in Hrev.
  assert (rt_ID y = rt_ID old) as Hyid by auto. rewrite Hyid in Hy.
  destruct (Hkeep _ _ _ _ Henv Hrev ltac:(by eexists) y Hy) as [? Hr]. congruence.
Qed.

End Transactions.

(** ** A driver that keeps the promise *)

Section RefSession.
  Context {E : Env} {A : Aead} {EC : EmailCipher} {M : MongoDriver} {CI : CacheI}.
  Notation W := (MongoWorld CI).

(** Nobody else is writing. *)
Definition same_db (w w' : W) : Prop :=
  mr_col (w_users w') = mr_col (w_users w) /\ mr_col (w_grants w') = mr_col (w_grants w) /\
  mr_col (w_rts w') = mr_col (w_rts w).

#[export] Instance same_db_preorder : PreOrder same_db.
Proof. split; [by intros w|]. intros w1 w2 w3 (? & ? & ?) (? & ? & ?). split_and!; congruence. Qed.

Lemma same_db_inv w w' : same_db w w' -> world_inv w -> world_inv w'.
Proof.
  intros (Hu & Hg & Hr) (HU & HG & HR). unfold world_inv, mongo_inv in *. simpl in *. unfold mongo_inv in *.
  rewrite Hu, Hg, Hr. done.
Qed.

Definition RefSession : MongoSession CI := {|
  client_StartSession := mret None;
  session_WithTransaction fn w :=
    match fn w with
    | (Ret None, w1) => (Ret None, w1)
    | (o, w1) => (o, upd_sys (w_sys w1) w)
    end;
|}.

Lemma merged_own m0 m1 : merged m0 m1 m0 m1.
Proof. intros id. by right. Qed.

Lemma RefSession_spec : @MongoSessionSpec E A EC M CI RefSession same_db.
Proof.
  split.
  - intros w o w' [= <- <-]. exists None. split; [done|]. split; [reflexivity|done].
  - intros fn w o w'. simpl. destruct (fn w) as [o1 w1] eqn:Hrun.
    assert (same_db w (upd_sys (w_sys w1) w)) as Hs by done.
    destruct o1 as [[e|]|e]; intros [= <- <-].
    + eapply txn_abort; [reflexivity|exact Hrun|done|exact Hs|reflexivity].
    + eapply txn_commit; [reflexivity|exact Hrun|reflexivity|]. split_and!; apply merged_own.
    + eapply txn_abort; [reflexivity|exact Hrun|done|exact Hs|reflexivity].
Qed.

End RefSession.
