(* ===== verification/WebFlow.v ===== *)
(** * Theorems about the delivery layer

    Introspection and the bearer middleware reach the same verdict; markers left
    by revocation, logout and password reset turn tokens away until the tokens
    have expired on their own. *)

From S2P Require Import Prelude GoStd Crypto Errors Env Scope User Token Client AuthFlow Jwt Cache Ports Frame Services Responses CmdTokens CmdUsers Queries TokenFlow Web.

Local Open Scope Z_scope.

Section Verdicts.
  Context {E : Env} {TS : TokenServiceI} {D : Deps} {SV : StructValidator}.
  Context {CI : CacheI} {UI : UserRepoI} {GI : GrantRepoI} {RI : RefreshTokenRepoI}.

(** The two revocation checks read the same markers in the same order; a
    lookup that fails counts as revoked in both. *)
Lemma revocation_checks_agree claims w :
  cl_ID claims <> "" ->
  Introspect_revoked claims w =
  match revocationChecker_IsRevoked claims w with
  | (Ret (b, err), w') => (Ret (bool_decide (is_Some err) || b), w')
  | (Panic e, w') => (Panic e, w')
  end.
Proof.
  intros Hid. unfold Introspect_revoked, revocationChecker_IsRevoked.
  destruct (String.eqb_spec (cl_ID claims) ""); [done|]. simpl negb. cbv iota. unfold bind, mret, ST_ret.
  destruct (in_cache (cache_GetErr (BlacklistKey (cl_ID claims)) destNil) w) as [[[b err]|] w1]; [|done].
  unfold marker_hit. destruct b as [[]|], err as [?|]; simpl; try done.
  destruct (String.eqb_spec (cl_GrantID claims) ""); simpl.
  - destruct (cl_IssuedAt claims); [|done].
    destruct (in_cache _ w1) as [[[[?|] [?|]]|] ?]; done.
  - destruct (in_cache (cache_GetErr (RevokedGrantKey (cl_GrantID claims)) destNil) w1) as [[[b err]|] w2]; [|done].
    destruct b as [[]|], err as [?|]; simpl; try done. destruct (cl_IssuedAt claims); [|done].
    destruct (in_cache _ w2) as [[[[?|] [?|]]|] ?]; done.
Qed.

(** C15: Introspection answers "active" for exactly the tokens the bearer middleware
    admits, when they carry an identifier. *)
Theorem introspection_agrees (q : IntrospectTokenQuery) (x : Ctx) (w : World) :
  Introspect_authorizeCaller q = None ->
  extractBearerToken (x_Authorization x) = (iq_Token q, true) ->
  (forall claims, (ts_ParseJWT (iq_Token q) (w_sys w)).1 = Ret (Some claims, None) -> cl_ID claims <> "") ->
  (exists r, (Introspect_Execute q w).1 = Ret (RIntrospect r, None) /\ ir_Active r = true) <->
  (exists claims, (verifyBearer x w).1 = Ret (Some (claims, iq_Token q))).
Proof.
  intros Hauth Hx Hid. unfold Introspect_Execute, verifyBearer. rewrite Hauth, Hx. unfold bind, in_sys.
  destruct (ts_ParseJWT (iq_Token q) (w_sys w)) as [[[[claims|] [e|]]|] s1] eqn:Hp;
    try (simpl; split; [intros (r & [= <-] & ?); done|intros (? & [=])]); try (simpl; split; by intros (? & ?); naive_solver).
  specialize (Hid claims eq_refl). destruct (String.eqb_spec (cl_ID claims) ""); [done|].
  rewrite revocation_checks_agree by done.
  destruct (revocationChecker_IsRevoked claims (upd_sys s1 w)) as [[[b err]|] w1];
    [|simpl; split; by intros (? & ?); naive_solver].
  destruct (bool_decide (is_Some err) || b); simpl.
  - split; [intros (r & [= <-] & ?); done|intros (? & [=])].
  - split; intros _; [by eexists|]. eexists. split; [reflexivity|done].
Qed.

End Verdicts.

(** ** Markers turn tokens away *)

Section Denial.
  Context {E : Env} {CM : ClockMono E} {TS : TokenServiceI} {TL : TokenServiceLaws E TS}.
  Context {D : Deps} {SV : StructValidator}.
  Context {CI : CacheI} {CL : CacheLaws E CI} {UI : UserRepoI} {UL : UserRepoLaws E UI}.
  Context {GI : GrantRepoI} {GL : GrantRepoLaws E GI} {RI : RefreshTokenRepoI} {RL : RefreshTokenRepoLaws E RI}.

(** Some marker that concerns these claims is in the cache at instant [t]. *)
Definition marked (claims : Claims) (c : CS) (t : Z) : Prop :=
  is_Some (cache_live c t (BlacklistKey (cl_ID claims))) \/
  (cl_GrantID claims <> "" /\ is_Some (cache_live c t (RevokedGrantKey (cl_GrantID claims)))) \/
  (exists iat n, cl_IssuedAt claims = Some iat /\ time_Unix iat <= n /\
     cache_live c t (SessionsInvalidatedKey (cl_Subject claims)) = Some (VInt64 n)).

Lemma marked_same claims c c' t t' :
  same_but_expired t c c' -> t <= t' -> marked claims c t' -> marked claims c' t'.
Proof. intros Hs Ht. unfold marked. by rewrite !(live_same_but_expired c c' t t' _ Hs Ht). Qed.

Lemma marked_antitone claims c t t' : t <= t' -> marked claims c t' -> marked claims c t.
Proof.
  intros Ht. unfold marked. intros [[v H]|[[Hg [v H]]|(iat & n & Hi & Hn & H)]].
  - left. exists v. by eapply live_antitone.
  - right. left. split; [done|]. exists v. by eapply live_antitone.
  - right. right. exists iat, n. split_and!; try done. by eapply live_antitone.
Qed.

(** The key is present with a value [Q] accepts, and will be until [T]. *)
Definition until (Q : cacheVal -> Prop) (T : Z) (k : string) (c : CS) : Prop :=
  exists v x, cache_entry c k = Some (v, x) /\ Q v /\ forall e, x = Some e -> T <= e.

Definition any_value (v : cacheVal) : Prop := True.

(** The recorded instant is not before [n]. *)
Definition not_before (n : Z) (v : cacheVal) : Prop := exists m, v = VInt64 m /\ n <= m.

Lemma until_live Q T k c t : until Q T k c -> t <= T -> exists v, cache_live c t k = Some v /\ Q v.
Proof.
  intros (v & [e|] & He & HQ & Hx) Ht; unfold cache_live; rewrite He; [|eauto].
  specialize (Hx e eq_refl). destruct (Z.leb_spec t e); [eauto|lia].
Qed.

(** One marker lookup. *)
Lemma lookup_marker {A} k (d : dest A) w :
  wp (in_cache (cache_GetErr k d)) (fun o w' => exists r s' c', o = Ret r /\ w' = upd_cache (s', c') w /\
    sys_le (w_sys w) s' /\ same_but_expired (now s') (w_cache w) c' /\
    (forall v, r.2 = None -> cache_live (w_cache w) (now s') k = Some v -> exists a, d v = inl a /\ r = (Some a, None)) /\
    (forall a err, r = (Some a, err) -> err = None)) w.
Proof.
  in_port. eapply wp_mono; [apply getErr_law|]. intros o [s' c'] (L & Hs & r & -> & Hhit & Hone).
  exists r, s', c'. split_and!; try done.
  - intros v Hr Hv. destruct (Hhit Hr v Hv) as (a & Ha & Hr1). exists a. destruct r. by simplify_eq/=.
  - intros a err ->. by destruct (Hone a eq_refl).
Qed.

(** The grant marker, looked up only for a token that names a grant. *)
Lemma lookup_grant_marker claims w :
  wp (if negb (String.eqb (cl_GrantID claims) "")
      then in_cache (cache_GetErr (RevokedGrantKey (cl_GrantID claims)) destNil) else mret (None, None))
    (fun o w' => exists r s' c', o = Ret r /\ w' = upd_cache (s', c') w /\ sys_le (w_sys w) s' /\
      same_but_expired (now s') (w_cache w) c' /\ (forall a err, r = (Some a, err) -> err = None) /\
      (r = (None, None) -> cl_GrantID claims <> "" ->
         cache_live (w_cache w) (now s') (RevokedGrantKey (cl_GrantID claims)) = None)) w.
Proof.
  destruct (String.eqb_spec (cl_GrantID claims) ""); simpl.
  - apply wp_ret. exists (None, None), (w_sys w), (w_cache w). split_and!; try done; [by destruct w|by left].
  - eapply wp_mono; [apply lookup_marker|]. intros o w2 (r & s2 & c2 & -> & -> & L2 & Hs2 & Hhit & Hone).
    exists r, s2, c2. split_and!; try done. intros -> _.
    destruct (cache_live (w_cache w) (now s2) (RevokedGrantKey (cl_GrantID claims))) as [v|] eqn:Hv; [|done].
    by destruct (Hhit v eq_refl eq_refl) as (? & _ & ?).
Qed.

(** A check that ends while a marker is live does not clear the token. *)
Lemma IsRevoked_marked claims w :
  wp (revocationChecker_IsRevoked claims) (fun o w' => sys_le (w_sys w) (w_sys w') /\ exists b err, o = Ret (b, err) /\
    (marked claims (w_cache w) (now (w_sys w')) -> b = true \/ is_Some err)) w.
Proof.
  unfold revocationChecker_IsRevoked. apply wp_bind. eapply wp_mono; [apply lookup_marker|].
  intros o w1 (r1 & s1 & c1 & -> & -> & L1 & Hs1 & Hhit1 & Hone1). unfold marker_hit at 1.
  destruct r1 as [[[]|] [e1|]]; simpl.
  1: by specialize (Hone1 _ _ eq_refl).
  1: apply wp_ret; split; [done|]; eexists _, _; split; [done|]; by left.
  1: apply wp_ret; split; [done|]; eexists _, _; split; [done|]; right; eauto.
  assert (forall t, now s1 <= t -> cache_live (w_cache w) t (BlacklistKey (cl_ID claims)) = None) as Hno1.
  { intros t Ht. destruct (cache_live (w_cache w) t (BlacklistKey (cl_ID claims))) as [v|] eqn:Hv; [|done].
    by destruct (Hhit1 v eq_refl (live_antitone _ _ _ _ _ Ht Hv)) as (? & _ & ?). }
  apply wp_bind.
  eapply wp_mono; [apply lookup_grant_marker|].
  intros o w2 (r2 & s2 & c2 & -> & -> & L2 & Hs2 & Hone2 & Hno2). simpl in L2, Hs2, Hno2. unfold marker_hit.
  assert (sys_le (w_sys w) s2) as L02 by (etrans; [exact L1|exact L2]).
  destruct r2 as [[[]|] [e2|]]; simpl.
  1: by specialize (Hone2 _ _ eq_refl).
  1: apply wp_ret; split; [done|]; eexists _, _; split; [done|]; by left.
  1: apply wp_ret; split; [done|]; eexists _, _; split; [done|]; right; eauto.
  specialize (Hno2 eq_refl). apply now_mono in L1 as T1. apply now_mono in L2 as T2.
  (** what is left of [marked] once the first two lookups missed *)
  assert (forall t, now s2 <= t -> marked claims (w_cache w) t -> exists iat n, cl_IssuedAt claims = Some iat /\
    time_Unix iat <= n /\ cache_live c2 t (SessionsInvalidatedKey (cl_Subject claims)) = Some (VInt64 n)) as Hleft.
  { intros t Ht Hm. pose proof (Hno1 t ltac:(lia)) as Hb.
    rewrite (live_same_but_expired c1 c2 _ t _ Hs2 Ht), (live_same_but_expired (w_cache w) c1 _ t _ Hs1 ltac:(lia)).
    destruct Hm as [[v Hv]|[[Hg [v Hv]]|Hm]]; [congruence| |exact Hm].
    rewrite <- (live_same_but_expired (w_cache w) c1 _ t _ Hs1 ltac:(lia)) in Hv.
    apply (live_antitone _ _ _ _ _ Ht) in Hv. rewrite Hno2 in Hv; done. }
  destruct (cl_IssuedAt claims) as [iat|].
  2:{ apply wp_ret. split; [done|]. eexists _, _. split; [done|]. simpl. intros Hm.
      destruct (Hleft (now s2) (Z.le_refl _) Hm) as (? & ? & ? & _). done. }
  apply wp_bind. eapply wp_mono; [apply lookup_marker|].
  intros o w3 (r3 & s3 & c3 & -> & -> & L3 & Hs3 & Hhit3 & Hone3). simpl in *.
  assert (sys_le (w_sys w) s3) as L03 by (etrans; [exact L02|exact L3]). apply now_mono in L3 as T3.
  assert (marked claims (w_cache w) (now s3) -> r3.2 = None -> exists n, r3 = (Some n, None) /\ time_Unix iat <= n) as Hlast.
  { intros Hm Hr. destruct (Hleft (now s3) T3 Hm) as (? & n & [= <-] & Hn & Hlive).
    exists n. split; [|done]. by destruct (Hhit3 _ Hr Hlive) as (? & [= <-] & ->). }
  destruct r3 as [[n|] [e3|]]; apply wp_ret; (split; [done|]); eexists _, _; (split; [done|]); simpl; eauto.
  - intros Hm. destruct (Hlast Hm eq_refl) as (? & [= <-] & Hn). left. lia.
  - intros Hm. destruct (Hlast Hm eq_refl) as (? & [=] & Hn).
Qed.

(** The middleware admits no token whose claims are marked when it is done. *)
Lemma verifyBearer_marked x tok claims w :
  extractBearerToken (x_Authorization x) = (tok, true) ->
  (forall c, (ts_ParseJWT tok (w_sys w)).1 = Ret (Some c, None) -> c = claims) ->
  wp (verifyBearer x) (fun o w' => sys_le (w_sys w) (w_sys w') /\ exists r, o = Ret r /\
    (marked claims (w_cache w) (now (w_sys w')) -> r = None)) w.
Proof.
  intros Hx Hcl. unfold verifyBearer. rewrite Hx. apply wp_bind, wp_in_sys.
  destruct (ts_parse_returns tok (w_sys w)) as (r & s1 & Hp & L1). rewrite Hp in Hcl.
  eapply wp_eq; [exact Hp|]. destruct r as [[c|] [e|]]; try (apply wp_ret; split; [done|]; by eexists).
  rewrite (Hcl c eq_refl). cbn beta iota. destruct (String.eqb (cl_ID claims) ""); [apply wp_ret; split; [done|]; by eexists|].
  apply wp_bind. eapply wp_mono; [apply IsRevoked_marked|]. intros o w2 (L2 & b & err & -> & Hm). simpl in *.
  assert (sys_le (w_sys w) (w_sys w2)) by (etrans; [exact L1|exact L2]).
  destruct (bool_decide (is_Some err) || b) eqn:Hb; apply wp_ret; (split; [done|]); eexists; (split; [done|]); [done|].
  intros [->|[? ->]]%Hm; [by rewrite orb_true_r in Hb|done].
Qed.

(** A marker that is not there when the check starts is not found by it. *)
Lemma lookup_unmarked {A} k (d : dest A) w :
  CacheReliable CI ->
  (forall v, cache_live (w_cache w) (now (w_sys w)) k = Some v -> exists a, d v = inl a) ->
  wp (in_cache (cache_GetErr k d)) (fun o w' => exists r s' c', o = Ret (r, None) /\ w' = upd_cache (s', c') w /\
    sys_le (w_sys w) s' /\ same_but_expired (now s') (w_cache w) c' /\
    forall a, r = Some a -> exists v, cache_live (w_cache w) (now (w_sys w)) k = Some v /\ d v = inl a) w.
Proof.
  intros HR Hd. in_port. destruct (cache_GetErr k d (w_sys w, w_cache w)) as [o [s' c']] eqn:Hrun.
  destruct (wp_run _ _ _ _ _ Hrun (getErr_law _ _ _ (w_sys w) (w_cache w))) as (L & Hs & _).
  destruct (wp_run _ _ _ _ _ Hrun (getErr_reliable _ _ _ (w_sys w) (w_cache w))) as [Ho _].
  eapply wp_eq; [exact Hrun|]. destruct Ho as [->|(v & Hv & ->)].
  - by exists None, s', c'.
  - destruct (Hd v Hv) as [a Ha]. exists (Some a), s', c'. unfold decoded_err. rewrite Ha. split_and!; try done.
    intros a' [= <-]. eauto.
Qed.

(** A user's session marker holds an instant. *)
Definition session_marker_ok (userID : string) (c : CS) (t : Z) : Prop :=
  forall v, cache_live c t (SessionsInvalidatedKey userID) = Some v -> exists n, v = VInt64 n.

Lemma live_later c c' t t' t0 k v :
  same_but_expired t c c' -> t <= t' -> t0 <= t' -> cache_live c' t' k = Some v -> cache_live c t0 k = Some v.
Proof. intros Hs Ht H0 Hv. rewrite (live_same_but_expired c c' t t' k Hs Ht) in Hv. by eapply live_antitone. Qed.

Lemma IsRevoked_unmarked claims w :
  CacheReliable CI -> session_marker_ok (cl_Subject claims) (w_cache w) (now (w_sys w)) ->
  ~ marked claims (w_cache w) (now (w_sys w)) ->
  (revocationChecker_IsRevoked claims w).1 = Ret (false, None).
Proof.
  intros HR Hok Hno. change (wp (revocationChecker_IsRevoked claims) (fun o _ => o = Ret (false, None)) w).
  unfold revocationChecker_IsRevoked, marker_hit. apply wp_bind.
  eapply wp_mono; [apply (lookup_unmarked (BlacklistKey (cl_ID claims)) destNil); [done|by exists tt]|].
  intros o w1 (r & s1 & c1 & -> & -> & L1 & Hs1 & Hr). destruct r as [a|].
  { destruct Hno. left. destruct (Hr a eq_refl) as (v & Hv & _). by exists v. }
  simpl. apply now_mono in L1 as T1. apply wp_bind.
  assert (wp (if negb (String.eqb (cl_GrantID claims) "")
      then in_cache (cache_GetErr (RevokedGrantKey (cl_GrantID claims)) destNil) else mret (None, None))
    (fun o w' => exists s' c', o = Ret (None, None) /\ w' = upd_cache (s', c') w /\ sys_le (w_sys w) s' /\
      (forall t v k, now s' <= t -> cache_live c' t k = Some v -> cache_live (w_cache w) (now (w_sys w)) k = Some v))
    (upd_cache (s1, c1) w)) as Hgrant.
  { destruct (String.eqb_spec (cl_GrantID claims) ""); simpl.
    - apply wp_ret. exists s1, c1. split_and!; try done. intros t v k Ht. apply (live_later _ _ (now s1)); [done|lia|lia].
    - eapply wp_mono; [apply (lookup_unmarked (RevokedGrantKey (cl_GrantID claims)) destNil); [done|by exists tt]|].
      intros o w2 (r & s2 & c2 & -> & -> & L2 & Hs2 & Hr2). simpl in *. apply now_mono in L2 as T2. destruct r as [a|].
      { destruct Hno. right. left. split; [done|]. destruct (Hr2 a eq_refl) as (v & Hv & _). exists v.
        eapply live_later; [exact Hs1| | |exact Hv]; lia. }
      exists s2, c2. split_and!; try done; [by etrans|]. intros t v k Ht Hv.
      eapply (live_later _ c1 (now s1) t); [done|lia|lia|]. by eapply (live_later c1 c2 (now s2) t). }
  eapply wp_mono; [exact Hgrant|]. intros o w2 (s2 & c2 & -> & -> & L2 & Hlive). simpl.
  destruct (cl_IssuedAt claims) as [iat|] eqn:Hiat; [|by apply wp_ret]. apply wp_bind.
  eapply wp_mono; [apply (lookup_unmarked (SessionsInvalidatedKey (cl_Subject claims)) destInt64); [done|]|].
  { intros v Hv. simpl in Hv. destruct (Hok v) as [n ->]; [by eapply Hlive|]. by exists n. }
  intros o w3 (r & s3 & c3 & -> & -> & L3 & _ & Hr3). simpl in *. destruct r as [n|]; [|by apply wp_ret].
  apply wp_ret. f_equal. f_equal. apply Z.leb_gt. destruct (Z.lt_ge_cases n (time_Unix iat)) as [|Hge]; [done|]. destruct Hno.
  destruct (Hr3 n eq_refl) as (v & Hv & Hn). right. right. exists iat, n. split_and!; try done.
  apply (Hlive (now s2)) in Hv; [|lia]. rewrite Hv. f_equal. destruct (Hok v Hv) as [n' ->]. by injection Hn as ->.
Qed.

(** C16: Bearer tokens.  The middleware lets a request on exactly for a token that
    counts.  Soundness, even with a failing cache: a request that gets past it carries
    a well-formed bearer header whose token verifies and has an identifier; when the
    check is done neither the token is on the blacklist, nor has its grant been marked
    as revoked, nor were the sessions of its user invalidated in or after the second
    it was issued; and later handlers see its subject and grant.  Completeness, with
    a cache that does not fail: a token that verifies, has an identifier and is not
    marked when the check starts gets past it (the user's marker, if there is one,
    holding an instant).  *)
Theorem bearer_check_exact (x : Ctx) (w : World) :
  x_aborted x = false ->
  exists x' w', Authenticate x w = (Ret x', w') /\
    (x_aborted x' = false -> exists tok claims,
       extractBearerToken (x_Authorization x) = (tok, true) /\
       (ts_ParseJWT tok (w_sys w)).1 = Ret (Some claims, None) /\ cl_ID claims <> "" /\
       ~ marked claims (w_cache w) (now (w_sys w')) /\
       x_keys x' !! UserIdKey = Some (CtxStr (cl_Subject claims)) /\
       x_keys x' !! GrantIdKey = Some (CtxStr (cl_GrantID claims))) /\
    (CacheReliable CI -> forall tok claims,
       extractBearerToken (x_Authorization x) = (tok, true) ->
       (ts_ParseJWT tok (w_sys w)).1 = Ret (Some claims, None) -> cl_ID claims <> "" ->
       session_marker_ok (cl_Subject claims) (w_cache w) (now (w_sys w)) ->
       ~ marked claims (w_cache w) (now (w_sys w)) -> x_aborted x' = false).
Proof.
  intros Hab.
  unfold Authenticate, bind at 1, verifyBearer. destruct (extractBearerToken (x_Authorization x)) as [tok [|]] eqn:Hx.
  2:{ eexists _, w. split; [reflexivity|]. split; [done|]. intros _ ? ? [=]. }
  unfold bind at 1, in_sys. destruct (ts_parse_returns tok (w_sys w)) as (r & s1 & Hp & L1). rewrite Hp. simpl.
  destruct r as [[claims|] [e|]];
    try (eexists _, _; split; [reflexivity|]; split; [done|]; intros _ ? ? [= <-]; rewrite Hp; by intros [=]).
  destruct (String.eqb_spec (cl_ID claims) "").
  { eexists _, _. split; [reflexivity|]. split; [done|]. intros _ ? ? [= <-]. rewrite Hp. by intros [= <-]. }
  pose proof (IsRevoked_marked claims (upd_sys s1 w)) as Hm.
  pose proof (IsRevoked_unmarked claims (upd_sys s1 w)) as Hu. unfold wp in Hm. unfold bind at 1.
  destruct (revocationChecker_IsRevoked claims (upd_sys s1 w)) as [o w2]. cbn [fst snd] in *. destruct Hm as (L2 & b & err & -> & Hm). simpl in *.
  apply now_mono in L1 as T1.
  assert (CacheReliable CI -> forall claims', (ts_ParseJWT tok (w_sys w)).1 = Ret (Some claims', None) ->
    session_marker_ok (cl_Subject claims') (w_cache w) (now (w_sys w)) -> ~ marked claims' (w_cache w) (now (w_sys w)) ->
    bool_decide (is_Some err) || b = false) as Hpass.
  { intros HR claims'. rewrite Hp. intros [= <-] Hok Hno. assert (Ret (b, err) = Ret (false, None)) as [= -> ->]; [|done].
    apply Hu; [done| |].
    - intros v Hv. apply Hok. by eapply live_antitone.
    - intros Hmk. apply Hno. by eapply marked_antitone. }
  destruct (bool_decide (is_Some err) || b) eqn:Hb.
  - eexists _, _. split; [reflexivity|]. split; [done|]. intros HR tok' claims' [= <-] Hp' _ Hok Hno. by specialize (Hpass HR _ Hp' Hok Hno).
  - eexists _, _. split; [reflexivity|]. split; [|by intros; simpl]. intros _. exists tok, claims. rewrite Hp. split_and!; try done.
    + intros [->|[? ->]]%Hm; [by rewrite orb_true_r in Hb|done].
    + simpl. by simplify_map_eq.
    + simpl. by simplify_map_eq.
Qed.

(** ** Logout *)

Lemma logout_blacklist_spec claims exp w :
  CacheReliable CI -> cl_ID claims <> "" -> cl_ExpiresAt claims = Some exp ->
  wp (Logout_blacklistAccessToken claims) (fun o w' => o = Ret tt /\ exists s' c', w' = upd_cache (s', c') w /\
    sys_le (w_sys w) s' /\ blacklisted (cl_ID claims) exp w') w.
Proof.
  intros Rel Hid Hexp. unfold Logout_blacklistAccessToken, Claims_IsExpired.
  destruct (String.eqb_spec (cl_ID claims) ""); [done|]. rewrite Hexp.
  apply wp_bind, wp_in_sys. eapply wp_eq; [reflexivity|]. cbn beta iota.
  change (clock (n_clock (w_sys w))) with (now (w_sys w)). fold (tick (w_sys w)).
  assert (now (w_sys w) <= now (tick (w_sys w))) by (apply now_mono, sys_le_tick).
  destruct (Z.ltb_spec exp (now (w_sys w))).
  - apply wp_ret. split; [done|]. exists (tick (w_sys w)), (w_cache w). split; [done|].
    split; [apply sys_le_tick|]. left. simpl. lia.
  - apply wp_bind. eapply wp_mono; [apply blacklist_spec|].
    intros o w' (e & s' & c' & -> & -> & L & Hs & Hb & He). apply wp_ret. split; [done|].
    exists s', c'. split; [done|]. simpl in *. split; [sys_lia|]. exact (Hb (He Rel)).
Qed.

(** Ending a grant leaves the blacklist alone. *)
Lemma logout_grant_spec claims w :
  (GrantRepoReliable GI /\ RefreshTokenRepoReliable RI /\ CacheReliable CI) ->
  world_inv w -> cl_GrantID claims <> "" ->
  wp (Logout_revokeGrantTokens claims) (fun o w' => o = Ret tt /\ sys_le (w_sys w) (w_sys w') /\
    cache_entry (w_cache w') (BlacklistKey (cl_ID claims)) = cache_entry (w_cache w) (BlacklistKey (cl_ID claims)) /\
    grant_ended (cl_GrantID claims) (w_sys w) w') w.
Proof.
  intros Rel Hinv Hg. unfold Logout_revokeGrantTokens, Logout_revokeGrant.
  destruct (String.eqb_spec (cl_GrantID claims) ""); [done|]. simpl negb. cbv iota.
  do 2 apply wp_bind. eapply wp_mono; [apply (end_grant_wp _ w (fun w' => sys_le (w_sys w) (w_sys w') /\
    cache_entry (w_cache w') (BlacklistKey (cl_ID claims)) = cache_entry (w_cache w) (BlacklistKey (cl_ID claims)) /\
    grant_ended (cl_GrantID claims) (w_sys w) w') Hinv Rel)|].
  - intros w' _ L _ _ Hs Hend. split_and!; try done. apply Hs. key_ne.
  - intros o1 w1 (e1 & -> & H1). apply wp_ret, wp_bind. eapply wp_mono; [exact H1|].
    intros o2 w2 (e2 & -> & H2). apply wp_bind. eapply wp_mono; [exact H2|].
    intros o3 w3 (e3 & -> & H3). by apply wp_ret.
Qed.

(** A token whose identifier is on the blacklist until its expiry is refused. *)
Lemma blacklisted_denies x tok claims exp w s0 :
  (ts_ParseJWT tok s0).1 = Ret (Some claims, None) ->
  extractBearerToken (x_Authorization x) = (tok, true) ->
  until any_value exp (BlacklistKey (cl_ID claims)) (w_cache w) ->
  (verifyBearer x w).1 = Ret None \/ exp < now (w_sys (verifyBearer x w).2).
Proof.
  intros Hp Hx Hu.
  assert (forall c, (ts_ParseJWT tok (w_sys w)).1 = Ret (Some c, None) -> c = claims) as Hcl.
  { intros c Hc. by eapply ts_parse_stable. }
  destruct (verifyBearer_marked x tok claims w Hx Hcl) as (L & r & Hr & Hm). rewrite Hr.
  destruct (Z.le_gt_cases (now (w_sys (verifyBearer x w).2)) exp) as [Hle|]; [left|by right; lia].
  f_equal. apply Hm. left. destruct (until_live _ _ _ _ _ Hu Hle) as (v & -> & _). eauto.
Qed.

(** So is a token whose expiry has passed. *)
Lemma expired_denies x tok claims exp w s0 :
  (ts_ParseJWT tok s0).1 = Ret (Some claims, None) -> cl_ExpiresAt claims = Some exp ->
  extractBearerToken (x_Authorization x) = (tok, true) -> exp <= now (w_sys w) ->
  (verifyBearer x w).1 = Ret None.
Proof.
  intros Hp Hexp Hx Hpast. unfold verifyBearer. rewrite Hx. unfold bind, in_sys.
  destruct (ts_parse_returns tok (w_sys w)) as (r & s1 & Hr & _). rewrite Hr.
  destruct r as [[c|] [e|]]; try done. exfalso.
  assert (c = claims) as -> by (eapply ts_parse_stable; [by rewrite Hr|exact Hp]).
  assert (now (w_sys w) < exp) by (eapply ts_parse_unexpired; [by rewrite Hr|done]). lia.
Qed.

(** What a logout with a valid access token does. *)
Lemma logout_spec (c : LogoutCommand) (tok : string) (claims : Claims) (exp : Z) (w : World) :
  (GrantRepoReliable GI /\ RefreshTokenRepoReliable RI /\ CacheReliable CI) ->
  world_inv w -> lc_AccessToken c = Some tok ->
  (ts_ParseJWT tok (w_sys w)).1 = Ret (Some claims, None) -> cl_ID claims <> "" -> cl_GrantID claims <> "" ->
  cl_ExpiresAt claims = Some exp ->
  exists u w', Logout_Execute c w = (Ret (RLogout u, None), w') /\
    (u = "" \/ u ∈ d_PostLogoutRedirectAllowlist) /\
    (exists s1, sys_le (w_sys w) s1 /\ grant_ended (cl_GrantID claims) s1 w') /\
    blacklisted (cl_ID claims) exp w'.
Proof.
  intros Rel Hinv Htok Hp Hid Hg Hexp. unfold Logout_Execute, Logout_revokeIfAuthenticated. rewrite Htok.
  destruct (ts_parse_returns tok (w_sys w)) as (r & s1 & Hrun & L1). rewrite Hrun in Hp. injection Hp as ->.
  set (w1 := upd_sys s1 w).
  destruct (logout_blacklist_spec claims exp w1 (proj2 (proj2 Rel)) Hid Hexp) as (Ho2 & s2 & c2 & Hw2 & L2 & Hbl).
  set (w2 := upd_cache (s2, c2) w1) in *. rewrite Hw2 in Hbl.
  destruct (logout_grant_spec claims w2 Rel Hinv Hg) as (Ho3 & L3 & Hkept & Hend).
  set (w3 := (Logout_revokeGrantTokens claims w2).2) in *.
  eexists _, w3. split.
  { rewrite (bind_run _ _ _ tt w3); [reflexivity|]. unfold bind, in_sys. rewrite Hrun. fold w1.
    rewrite (surjective_pairing (Logout_blacklistAccessToken claims w1)), Ho2, Hw2.
    rewrite (surjective_pairing (Logout_revokeGrantTokens claims w2)), Ho3. done. }
  split.
  { destruct (lc_PostLogoutRedirectURI c) as [u|]; [|by left].
    destruct (contains d_PostLogoutRedirectAllowlist u) eqn:Hc; [right; by apply contains_spec|by left]. }
  split; [exists s2; split; [etrans; [exact L1|exact L2]|done]|].
  destruct Hbl as [Hpast|(d & Hd & Hle)]; [left|right; exists d; split; [congruence|done]].
  etrans; [exact Hpast|]. by apply now_mono.
Qed.

(** Access tokens of a grant whose marker is in the cache are refused. *)
Lemma grant_marker_denies (gid userID scope tok : string) (secs : Z) (s0 s1 : Sys) (x : Ctx) (w : World) :
  ts_GenAccessToken userID scope gid secs s0 = (Ret (tok, None), s1) -> 0 <= secs <= 86400 -> gid <> "" ->
  sys_le s0 (w_sys w) -> extractBearerToken (x_Authorization x) = (tok, true) ->
  until any_value (now s0 + secs * Second) (RevokedGrantKey gid) (w_cache w) ->
  (verifyBearer x w).1 = Ret None \/ now s0 + secs * Second < now (w_sys (verifyBearer x w).2).
Proof.
  intros Hgen Hsecs Hg L0 Hx Hu.
  destruct (ts_parse_returns tok (w_sys w)) as ([oc oe] & s3 & Hp & L3).
  destruct oc as [claims|], oe as [err|].
  2:{ assert (cl_GrantID claims = gid) as Hgid.
      { assert ((ts_ParseJWT tok (w_sys w)).1 = Ret (Some claims, None)) as Hc by (by rewrite Hp).
        by destruct (ts_gen_parse _ _ _ _ _ _ _ _ _ Hgen Hsecs (now_mono _ _ L0) Hc) as (_ & _ & ? & _). }
      destruct (verifyBearer_marked x tok claims w Hx) as (L4 & r & Hr & Hm).
      { intros c. rewrite Hp. by intros [= <-]. }
      rewrite Hr. destruct (Z.le_gt_cases (now (w_sys (verifyBearer x w).2)) (now s0 + secs * Second)); [left|by right; lia].
      f_equal. apply Hm. right. left. rewrite Hgid. split; [done|].
      destruct (until_live _ _ _ _ (now (w_sys (verifyBearer x w).2)) Hu ltac:(done)) as (v & -> & _). eauto. }
  all: left; unfold verifyBearer; rewrite Hx; unfold bind, in_sys; by rewrite Hp.
Qed.

(** Access tokens of a user whose sessions were ended after they were issued are
    refused. *)
Lemma session_marker_denies (gid userID scope tok : string) (secs : Z) (s0 s1 : Sys) (x : Ctx) (w : World) :
  ts_GenAccessToken userID scope gid secs s0 = (Ret (tok, None), s1) -> 0 <= secs <= 86400 ->
  sys_le s0 (w_sys w) -> extractBearerToken (x_Authorization x) = (tok, true) ->
  until (not_before (time_Unix (now s0))) (now s0 + secs * Second) (SessionsInvalidatedKey userID) (w_cache w) ->
  (verifyBearer x w).1 = Ret None \/ now s0 + secs * Second < now (w_sys (verifyBearer x w).2).
Proof.
  intros Hgen Hsecs L0 Hx Hu.
  destruct (ts_parse_returns tok (w_sys w)) as ([oc oe] & s3 & Hp & L3).
  destruct oc as [claims|], oe as [err|].
  2:{ assert ((ts_ParseJWT tok (w_sys w)).1 = Ret (Some claims, None)) as Hc by (by rewrite Hp).
      destruct (ts_gen_parse _ _ _ _ _ _ _ _ _ Hgen Hsecs (now_mono _ _ L0) Hc)
        as (Hsub & _ & _ & (iat & Hiat & Hunix) & _).
      destruct (verifyBearer_marked x tok claims w Hx) as (L4 & r & Hr & Hm).
      { intros c. rewrite Hp. by intros [= <-]. }
      rewrite Hr. destruct (Z.le_gt_cases (now (w_sys (verifyBearer x w).2)) (now s0 + secs * Second)); [left|by right; lia].
      f_equal. apply Hm. right. right.
      destruct (until_live _ _ _ _ (now (w_sys (verifyBearer x w).2)) Hu ltac:(done)) as (v & Hv & m & -> & Hle).
      exists iat, m. rewrite Hsub. split_and!; try done. lia. }
  all: left; unfold verifyBearer; rewrite Hx; unfold bind, in_sys; by rewrite Hp.
Qed.

End Denial.
