(* ===== verification/AccountFlow.v ===== *)
(** * Theorems about the account commands and queries

    Registration adds exactly one fresh account or none; a password reset needs
    the live reset token and invalidates what came before it. *)

From S2P Require Import Prelude GoStd Crypto Errors Env Scope User Token Client AuthFlow Jwt Cache Ports Frame Services Responses CmdTokens CmdUsers Queries TokenFlow.

Local Open Scope Z_scope.

Section Reset.
  Context {E : Env} {CM : ClockMono E} {BS : BcryptSpec E} {TS : TokenServiceI}.
  Context {D : Deps} {SV : StructValidator}.
  Context {CI : CacheI} {CL : CacheLaws E CI} {UI : UserRepoI} {UL : UserRepoLaws E UI}.
  Context {GI : GrantRepoI} {RI : RefreshTokenRepoI} {RL : RefreshTokenRepoLaws E RI}.

(** ** Password reset *)

(** The changed user, and the variables the callback leaves behind. *)
Definition password_reset (pw : string) (u u' : User) (at_ : Z) : Prop :=
  u_ID u' = u_ID u /\ u_Email u' = u_Email u /\ u_TenantID u' = u_TenantID u /\
  User_ValidatePassword u' pw = true /\ u_PasswordResetTokenHash u' = None /\
  u_PasswordResetExpiresAt u' = None /\ u_SessionsInvalidatedAt u' = Some at_.

Lemma validatePassword_msg p e : validatePassword p = Some e -> exists m, e = ErrMsg m.
Proof. unfold validatePassword. intros H. repeat (case_match; [simplify_eq; eauto|]). done. Qed.

Definition salted (s : Sys) : Sys :=
  mk_Sys (n_clock s) (n_rand s) (n_uuid s) (S (n_salt s)) (n_disk s).

Lemma SetPassword_run pw u s :
  User_SetPassword pw u s =
  match validatePassword pw with
  | Some err => (Ret (u, Some err), s)
  | None =>
    match bcrypt_Generate (n_salt s) pw passwordHashCost with
    | inl h => (Ret (set_UpdatedAt (now s) (set_Password h u), None), tick (salted s))
    | inr err => (Panic (err_Error err), salted s)
    end
  end.
Proof.
  unfold User_SetPassword. destruct (validatePassword pw); [done|].
  unfold hashPassword, bcrypt_GenerateFromPassword, bind. by destruct (bcrypt_Generate _ _ _).
Qed.

Lemma callback_run pw vars u s :
  sys_le s (ResetPassword_callback pw vars u s).2 /\
  forall r, (ResetPassword_callback pw vars u s).1 = Ret r ->
    match r with
    | (_, _, Some e) => is_ErrorStruct e = true /\ errors_Is e ErrNotFound = false
    | (c, u', None) => exists at_, c = (u_ID u, at_) /\ password_reset pw u u' at_ /\
        now s <= at_ <= now (ResetPassword_callback pw vars u s).2 /\
        (exists exp, u_PasswordResetExpiresAt u = Some exp /\ now s <= exp) /\ validatePassword pw = None
    end.
Proof.
  assert (forall s0, now s0 <= now (tick s0)) as T by (intros; apply now_mono, sys_le_tick).
  unfold ResetPassword_callback, User_IsResetTokenExpired.
  destruct (u_PasswordResetExpiresAt u) as [exp|] eqn:Hexp; [|by split; [done|]; intros r [= <-]].
  rewrite (bind_run _ _ s (exp <? now s) (tick s)) by done.
  destruct (Z.ltb_spec exp (now s)); [by split; [apply sys_le_tick|]; intros r [= <-]|].
  pose proof (SetPassword_run pw u (tick s)) as HP.
  destruct (validatePassword pw) as [e|] eqn:Hv.
  { rewrite (bind_run _ _ _ _ _ HP). split; [apply sys_le_tick|].
    destruct (validatePassword_msg pw e Hv) as [m ->]. by intros r [= <-]. }
  destruct (bcrypt_Generate (n_salt (tick s)) pw passwordHashCost) as [h|err] eqn:Hh;
    [rewrite (bind_run _ _ _ _ _ HP)|rewrite (bind_panic _ _ _ _ _ HP); split; [|done]].
  2:{ unfold salted. sys_lia. }
  set (s2 := tick (salted (tick s))). change (now s <= exp) in H.
  assert (now s <= now s2) as T2 by (apply now_mono; subst s2; unfold salted; sys_lia).
  cbn -[now tick s2]. split; [subst s2; unfold salted; sys_lia|]. intros r [= <-].
  exists (now s2). pose proof (T s2). pose proof (T (tick s2)).
  split_and!; try done.
  - split_and!; try done. by eapply bcrypt_accepts.
  - etrans; [exact (T s2)|exact (T (tick s2))].
  - by exists exp.
Qed.

(** Every session of the user before [at_] is over: its refresh tokens are
    revoked and the marker that turns its access tokens away is in the cache for
    as long as any of them can live. *)
Definition sessions_ended (uid : string) (at_ : Z) (w : World) : Prop :=
  (forall id x, rs_rows (w_rts w) !! id = Some x -> rt_UserID x = uid -> is_Some (rt_RevokedAt x)) /\
  exists e, cache_entry (w_cache w) (SessionsInvalidatedKey uid) = Some (VInt64 (time_Unix at_), Some e) /\
    at_ + SessionsInvalidationTTL <= e.

Lemma markSessions_spec uid at_ w :
  CacheReliable CI -> at_ <= now (w_sys w) ->
  wp (MarkSessionsInvalidated uid at_) (fun o w' => exists e s' c', o = Ret e /\ w' = upd_cache (s', c') w /\
    sys_le (w_sys w) s' /\ exists x,
      cache_entry c' (SessionsInvalidatedKey uid) = Some (VInt64 (time_Unix at_), Some x) /\
      at_ + SessionsInvalidationTTL <= x) w.
Proof.
  intros HRel Hat. eapply wp_mono; [by apply setMarker_spec|].
  intros o w' (e & s' & c' & -> & -> & L & _ & Hm & He). exists e, s', c'. split_and!; try done.
  destruct (Hm (He HRel)) as (x & Hx & Hle). exists x. split; [done|lia].
Qed.

(** What a successful reset has checked and done. *)
Definition reset_done (c : ResetPasswordCommand) (w w' : World) (u u' : User) (at_ : Z) : Prop :=
  ps_view (w_users w) !! u_ID u = Some u /\ u_PasswordResetTokenHash u = Some (Hash (sc_Token c)) /\
  (exists exp, u_PasswordResetExpiresAt u = Some exp /\ now (w_sys w) <= exp) /\
  validatePassword (sc_Password c) = None /\ password_reset (sc_Password c) u u' at_ /\
  ps_view (w_users w') = <[u_ID u := u']> (ps_view (w_users w)) /\
  now (w_sys w) <= at_ <= now (w_sys w') /\ sessions_ended (u_ID u) at_ w'.

(** C9: Password reset.  It succeeds only with the unexpired reset token of a stored
    user and a password that meets the policy; then the new password is the
    user's, the token is used up, every refresh token of the user is revoked and
    the instant from which on sessions count is recorded with the user and in
    the cache.  (Backends are assumed to answer.) *)
Theorem reset_password_sound (c : ResetPasswordCommand) (w w' : World) :
  RefreshTokenRepoReliable RI -> CacheReliable CI -> world_inv w ->
  ResetPassword_Execute c w = (Ret (RNil, None), w') ->
  exists u u' at_, reset_done c w w' u u' at_.
Proof.
  intros RR RC (HU & HG & HR) Hrun. unfold ResetPassword_Execute, uow_Do in Hrun.
  apply bind_Ret_inv in Hrun as ([vars err] & w1 & Hup & Hrest). unfold in_users in Hup.
  destruct (ur_UpdateByPasswordResetTokenHash _ _ _ _) as [o [s1 r1]] eqn:Hu1 in Hup. injection Hup as -> <-.
  eapply wp_run in Hu1; [|apply updateByReset_law; [exact HU|]].
  2:{ intros id u s0 _ _. destruct (callback_run (sc_Password c) ("", time_zero) u s0) as [L Hcb]. split; [done|].
      intros c0 u' H. apply Hcb in H as (at_ & _ & (? & ? & ? & ? & ? & _) & _). done. }
  destruct Hu1 as (L1 & Hi1 & [([= -> ->] & _)|[(e & [= -> ->] & He & Hs & _)|(u & s0 & Hu & Hh & L0 & L01 & Hm)]]).
  { done. } { rewrite He, Hs in Hrest. done. }
  pose proof (callback_run (sc_Password c) ("", time_zero) u s0) as [L00 Hcb].
  set (run := ResetPassword_callback (sc_Password c) ("", time_zero) u s0) in *.
  destruct run.1 as [[[c0 u'] [e|]]|] eqn:Hrun1; [|clear Hrun1|by destruct Hm].
  { destruct Hm as [[= -> ->] _]. destruct (Hcb _ eq_refl) as [Hs Hn]. by rewrite Hs, Hn in Hrest. }
  destruct (Hcb _ eq_refl) as (at_ & -> & Hpr & Hat & Hexp & Hv).
  destruct err as [e|].
  { destruct Hm as (-> & Hs & _). rewrite Hs in Hrest. by destruct (errors_Is e ErrNotFound). }
  destruct Hm as [-> Hview]. simpl in Hrest. apply bind_Ret_inv in Hrest as (e2 & w2 & Hsw & Hrest).
  destruct (wp_run _ _ _ _ _ Hsw (sweepUser_spec (u_ID u) (upd_users (s1, r1) w) ltac:(by split_and!)))
    as (e2' & s2 & r2 & [= <-] & -> & L2 & Hi2 & _ & Hdead & Hrel).
  apply bind_Ret_inv in Hrest as (e3 & w3 & Hmk & [= <-]).
  apply now_mono in L0 as T0, L01 as T01, L2 as T2. simpl in T2.
  assert (at_ <= now s2) as Hat2 by (etrans; [apply Hat|]; etrans; [exact T01|exact T2]).
  destruct (wp_run _ _ _ _ _ Hmk (markSessions_spec (u_ID u) at_ (upd_rts (s2, r2) (upd_users (s1, r1) w)) RC Hat2))
    as (e3' & s3 & c3 & _ & -> & L3 & Hmark).
  apply now_mono in L3 as T3. simpl in *. exists u, u', at_. destruct Hexp as (exp & He & Hle).
  assert (u_ID u' = u_ID u) as Hid by apply Hpr. unfold reset_done. simpl.
  split_and!; try done; [exists exp; split; [done|lia]|by rewrite <- Hid|lia|lia|].
  split; [exact (Hdead (Hrel RR))|done].
Qed.

End Reset.

Section Accounts.
  Context {E : Env} {CM : ClockMono E} {BS : BcryptSpec E} {TS : TokenServiceI}.
  Context {D : Deps} {SV : StructValidator}.
  Context {CI : CacheI} {CL : CacheLaws E CI} {UI : UserRepoI} {UL : UserRepoLaws E UI}.
  Context {GI : GrantRepoI} {RI : RefreshTokenRepoI}.

(** ** Registration *)

(** Generated user ids are not in use. *)
Definition user_ids_fresh (w : World) : Prop :=
  forall n, (n_uuid (w_sys w) <= n)%nat -> ps_view (w_users w) !! uuid_NewString n = None.

Definition registered (c : CreateUserCommand) (u : User) : Prop :=
  u_Username u = uc_Username c /\ u_Nickname u = uc_Nickname c /\ u_Email u = uc_Email c /\
  u_TenantID u = DefaultTenantID /\ u_EmailVerified u = false /\ u_PasswordResetTokenHash u = None /\
  u_FailedLoginAttempts u = 0 /\ u_LockedUntil u = None /\ User_ValidatePassword u (uc_Password c) = true.

Lemma NewUser_run c s :
  sys_le s (NewUser (mkUserArgs "" (uc_Username c) (uc_Nickname c) (uc_Password c) (uc_Email c) false) s).2 /\
  forall r, (NewUser (mkUserArgs "" (uc_Username c) (uc_Nickname c) (uc_Password c) (uc_Email c) false) s).1 = Ret r ->
    r <> (None, None) /\
    forall u, r = (Some u, None) -> registered c u /\ validatePassword (uc_Password c) = None /\
      u_ID u = uuid_NewString (n_uuid s).
Proof.
  unfold NewUser. simpl. destruct (validatePassword (uc_Password c)); [by split; [|intros r [= <-]]|].
  unfold bind, hashPassword, bcrypt_GenerateFromPassword. simpl.
  unfold bind. destruct (bcrypt_Generate _ _ _) as [h|e] eqn:Hh; simpl; (split; [unfold sys_le; simpl; lia|]); [|done].
  intros r [= <-]. split; [done|]. intros u [= <-]. unfold registered. simpl. split_and!; try done. by eapply bcrypt_accepts.
Qed.

(** One user was added, or the stored users are what they were. *)
Definition registration (c : CreateUserCommand) (w : World) (o : outcome Result) (w' : World) : Prop :=
  match o with
  | Ret (r, None) => exists u, r = RCreateUser (CreateUserResponse_FromEntity u) /\ registered c u /\
      validatePassword (uc_Password c) = None /\ ps_view (w_users w) !! u_ID u = None /\
      (forall id u', ps_view (w_users w) !! id = Some u' -> u_TenantID u' = DefaultTenantID ->
         u_Email u' <> uc_Email c) /\
      ps_view (w_users w') = <[u_ID u := u]> (ps_view (w_users w))
  | _ => ps_view (w_users w') = ps_view (w_users w)
  end.

(** C21: Registration.  It succeeds only with a password that meets the policy and an
    address no user of the tenant has; then exactly one user is added, under an
    unused id, unverified, unlocked, with a hash of that password.  In every
    other case, panics included, the stored users are what they were. *)
Theorem create_user_sound (c : CreateUserCommand) (w : World) :
  ps_inv (w_users w) -> user_ids_fresh w -> wp (CreateUser_Execute c) (registration c w) w.
Proof.
  intros Hi Hids.
  unfold CreateUser_Execute. apply wp_bind, wp_in_sys. unfold wp at 1.
  destruct (NewUser_run c (w_sys w)) as [L1 Hnew].
  destruct (NewUser _ (w_sys w)) as [[r|] s1]; [|done]. destruct (Hnew r eq_refl) as [Hnn Hu]. simpl in *.
  destruct r as [[u|] [e|]]; try done. destruct (Hu u eq_refl) as (Hreg & Hpol & Hid).
  wp_call (new_law u). intros o [s2 r2] (-> & Hi2 & Hv2 & p & -> & Hp). simpl in *.
  assert (forall id u', ps_view r2 !! id = Some u' -> id = u_ID u \/
    (is_Some (u_PasswordResetTokenHash u) /\ u_PasswordResetTokenHash u' = u_PasswordResetTokenHash u) -> False) as Hfr.
  { intros id u' Hu'. rewrite Hv2 in Hu'. intros [->|[[h Hh] _]].
    - rewrite Hid, Hids in Hu' by done. done.
    - destruct Hreg as (_ & _ & _ & _ & _ & Hr & _). congruence. }
  apply wp_bind. in_port. eapply wp_mono; [apply (createUser_law p u); [done|done|exact Hfr]|]. intros o [s3 r3] (L3 & Hi3 & Hp3 & Hv3). simpl in *.
  rewrite Hv2 in Hv3. destruct o as [[e|]|]; [by destruct (errors_Is e ErrConflict)| |done].
  apply wp_bind. eapply wp_eq; [by apply in_users_deref|]. cbn beta iota. apply wp_ret.
  destruct Hv3 as [Hv3 Hno]. assert (u_Email u = uc_Email c /\ u_TenantID u = DefaultTenantID) as [He Ht].
  { destruct Hreg as (_ & _ & ? & ? & _). done. }
  exists u. split_and!; try done.
  - rewrite Hid. by apply Hids.
  - rewrite <- He, <- Ht. exact Hno.
Qed.

End Accounts.
