(* ===== verification/LoginFlow.v ===== *)
(** * Theorems about logging in

    The sign-in page and the password grant: what a successful login has
    checked, and how often a sign-in session can be tried. *)

From S2P Require Import Prelude GoStd Crypto Errors Env Scope User Token Client AuthFlow Jwt Cache Ports Frame Services Responses CmdTokens CmdUsers Queries TokenFlow.

Local Open Scope Z_scope.

Section Login.
  Context {E : Env} {CM : ClockMono E} {TS : TokenServiceI} {TL : TokenServiceLaws E TS}.
  Context {D : Deps} {SV : StructValidator}.
  Context {CI : CacheI} {CL : CacheLaws E CI} {UI : UserRepoI} {UL : UserRepoLaws E UI}.
  Context {GI : GrantRepoI} {GL : GrantRepoLaws E GI} {RI : RefreshTokenRepoI} {RL : RefreshTokenRepoLaws E RI}.

(** ** Users through pointers *)

(** The pointer reads a user that is stored, up to fields no lookup uses. *)
Definition points_to (p : nat) (u : User) (r : @PS User ur_store) : Prop :=
  ps_inv r /\ ps_ptr r p = Some u /\ exists u0, ps_view r !! u_ID u = Some u0 /\ user_same u0 u.

Lemma points_fresh p u r : points_to p u r -> user_fresh u (ps_view r).
Proof.
  intros (Hi & _ & u0 & Hu0 & Hid & Ht & He & Hr) id u' Hu' Heq. rewrite Hid.
  apply (users_unique r _ u0 Hi Hu0 id u' Hu'). by rewrite <- He, <- Hr.
Qed.

#[export] Instance user_same_preorder : PreOrder user_same.
Proof. split; [by intros u|]. intros u1 u2 u3. unfold user_same. intuition congruence. Qed.

(** The same users, each changed at most in fields no lookup uses. *)
Definition users_evolve (m m' : gmap string User) : Prop :=
  forall id, option_Forall2 user_same (m !! id) (m' !! id).

#[export] Instance users_evolve_preorder : PreOrder users_evolve.
Proof. split; [intros m id; reflexivity|]. intros m1 m2 m3 H12 H23 id. by trans (m2 !! id). Qed.

Lemma users_evolve_insert m u0 u :
  m !! u_ID u = Some u0 -> user_same u0 u -> users_evolve m (<[u_ID u := u]> m).
Proof.
  intros H0 Hs id. destruct (decide (u_ID u = id)) as [<-|Hne].
  - rewrite H0, lookup_insert_eq. by constructor.
  - by rewrite lookup_insert_ne.
Qed.

(** Only the user store and the counters changed. *)
Definition users_only (w w' : World) : Prop :=
  exists s' r', w' = upd_users (s', r') w /\ sys_le (w_sys w) s' /\ ps_inv r' /\
    users_evolve (ps_view (w_users w)) (ps_view r').

Lemma users_only_trans w1 w2 w3 : users_only w1 w2 -> users_only w2 w3 -> users_only w1 w3.
Proof.
  intros (s & r & -> & L & _ & Hv) (s' & r' & -> & L' & Hi & Hv'). exists s', r'. split_and!; try done.
  - etrans; [exact L|exact L'].
  - etrans; [exact Hv|exact Hv'].
Qed.

Lemma users_only_cache w w' : users_only w w' -> w_cache w' = w_cache w.
Proof. by intros (s & r & -> & _). Qed.

(** A method of [User] that leaves the looked-up fields alone. *)
Definition gentle {A} (m : User -> ST Sys (User * A)) : Prop :=
  forall u s, sys_le s (m u s).2 /\ forall u' a, (m u s).1 = Ret (u', a) -> user_same u u'.

Lemma gentle_record : gentle (void User_RecordFailedLogin).
Proof.
  intros u s. unfold void, User_RecordFailedLogin, bind, time_Now, mret, ST_ret.
  destruct (MaxFailedLoginAttempts <=? _); simpl; (split; [unfold sys_le; simpl; lia|]); by intros ? ? [= <- _].
Qed.

Lemma gentle_reset : gentle (void User_ResetFailedLogins).
Proof. intros u s. split; [unfold sys_le; simpl; lia|]. by intros ? ? [= <- _]. Qed.

Lemma gentle_rehash pw : gentle (User_RehashPasswordIfNeeded pw).
Proof.
  intros u s. unfold User_RehashPasswordIfNeeded, hashPassword, bcrypt_GenerateFromPassword, bind.
  destruct (bcrypt_Cost (u_Password u)) as [cost|]; [|split; [done|by intros ? ? [= <- _]]].
  destruct (passwordHashCost <=? cost); [split; [done|by intros ? ? [= <- _]]|].
  destruct (bcrypt_Generate _ _ _); simpl; (split; [unfold sys_le; simpl; lia|]); [|done]. by intros ? ? [= <- _].
Qed.

Lemma user_update_spec {A} p u (m : User -> ST Sys (User * A)) w :
  points_to p u (w_users w) -> gentle m ->
  wp (user_update p m) (fun o w' => users_only w w' /\ forall a, o = Ret a ->
    exists u', points_to p u' (w_users w') /\ u_ID u' = u_ID u) w.
Proof.
  intros (Hi & Hp & u0 & Hu0 & Hsame) Hm. unfold user_update. apply wp_bind.
  eapply wp_eq; [by apply in_users_deref|]. cbn beta iota. apply wp_bind, wp_in_sys. unfold wp.
  destruct (Hm u (w_sys w)) as [L Hu']. destruct (m u (w_sys w)) as [[[u' a]|e] s1]; simpl in *.
  2:{ split; [|done]. exists s1, (w_users w). by split_and!. }
  specialize (Hu' u' a eq_refl). apply wp_bind. in_port.
  eapply wp_mono; [by apply (assign_law p u u' s1 (w_users w))|].
  intros o [s2 r2] (-> & -> & Hi2 & Hp2 & Hv). cbn beta iota. apply wp_ret.
  split.
  { exists s1, r2. split_and!; try done. destruct Hv as [->|[Hu ->]]; [done|].
    pose proof Hu' as (Hid & _). rewrite <- Hid in *. by apply (users_evolve_insert _ u). }
  intros ? _. destruct Hu' as (Hid & Ht & He & Hr). exists u'. split; [|done]. split_and!; try done.
  rewrite Hid. simpl. destruct Hsame as (Sid & St & Se & Sr).
  destruct Hv as [->|[_ ->]]; [exists u0|exists u'; rewrite lookup_insert_eq]; (split; [done|]); unfold user_same; split_and!; congruence.
Qed.

Lemma user_save_spec p u w :
  points_to p u (w_users w) ->
  wp (in_users (ps_Save p)) (fun o w' => users_only w w' /\ points_to p u (w_users w')) w.
Proof.
  intros HP. pose proof (points_fresh p u _ HP) as Hf. destruct HP as (Hi & Hp & u0 & Hu0 & Hsame).
  in_port. eapply wp_mono; [by apply (save_law p u)|].
  intros o [s' r'] (L & Hi' & Hp' & Hv).
  assert (ps_view r' = <[u_ID u := u]> (ps_view (w_users w)) \/ ps_view r' = ps_view (w_users w)) as Hview.
  { destruct o as [[e|]|]; [by right|by left|by right]. }
  split.
  - exists s', r'. split_and!; try done. destruct Hview as [->| ->]; [by eapply users_evolve_insert|done].
  - split_and!; try done. simpl. destruct Hview as [->| ->]; [exists u; by rewrite lookup_insert_eq|by exists u0].
Qed.

(** ** Credentials *)

Lemma users_only_refl w : ps_inv (w_users w) -> users_only w w.
Proof. intros Hi. exists (w_sys w), (w_users w). split_and!; try done. by destruct w. Qed.

Lemma users_only_sys w s : ps_inv (w_users w) -> sys_le (w_sys w) s -> users_only w (upd_sys s w).
Proof. intros Hi L. exists s, (w_users w). by split_and!. Qed.

Lemma recordAccountFailure_spec user w :
  ps_inv (w_users w) -> (forall p, user = Some p -> exists u, points_to p u (w_users w)) ->
  wp (CreateAuthCode_recordAccountFailure user) (fun _ w' => users_only w w') w.
Proof.
  intros Hi Hu. destruct user as [p|]; [|by apply wp_ret, users_only_refl].
  destruct (Hu p eq_refl) as [u HP]. unfold CreateAuthCode_recordAccountFailure. apply wp_bind.
  eapply wp_mono; [by apply (user_update_spec p u), gentle_record|]. intros [a|] w1 [HO1 H1]; [|done].
  destruct (H1 a eq_refl) as (u1 & HP1 & _). apply wp_bind.
  eapply wp_mono; [by apply user_save_spec|]. intros [e|] w2 [HO2 _]; by eapply users_only_trans.
Qed.

Lemma resetAccountFailures_spec p u dirty w :
  points_to p u (w_users w) ->
  wp (CreateAuthCode_resetAccountFailures p dirty) (fun o w' => users_only w w' /\
    (o = Ret tt -> exists u', points_to p u' (w_users w') /\ u_ID u' = u_ID u)) w.
Proof.
  intros HP. unfold CreateAuthCode_resetAccountFailures. apply wp_bind.
  eapply wp_eq; [apply in_users_deref, HP|]. cbn beta iota zeta.
  destruct (negb _ && negb dirty); [apply wp_ret; split; [apply users_only_refl, HP|eauto]|].
  apply wp_bind. eapply wp_mono with (P := fun o w1 => users_only w w1 /\ (forall a, o = Ret a ->
    exists u1, points_to p u1 (w_users w1) /\ u_ID u1 = u_ID u)).
  { destruct (_ || _); [by apply user_update_spec, gentle_reset|]. apply wp_ret.
    split; [apply users_only_refl, HP|eauto]. }
  intros [a|] w1 [HO1 H1]; [|done]. destruct (H1 a eq_refl) as (u1 & HP1 & Hid1).
  apply wp_bind. eapply wp_mono; [by apply (user_save_spec p u1)|].
  intros [e|] w2 [HO2 HP2]; (split; [by eapply users_only_trans|]); [|done]. intros _. by exists u1.
Qed.

(** The session is put back with one more failure, unless it has used up its
    attempts. *)
Definition restored (session : AuthorizeRequest) (w w' : World) : Prop :=
  let key := AuthorizeRequestCacheKey (ar_ID session) in
  exists w1 s c, users_only w w1 /\ w' = upd_cache (s, c) w1 /\ sys_le (w_sys w1) s /\
    same_except key (w_cache w) c /\ AuthorizeRequest_IsLockedOut (AuthorizeRequest_RequestFail session) = false /\
    (cache_entry c key = cache_entry (w_cache w) key \/
     exists x, cache_entry c key = Some (VSession (AuthorizeRequest_RequestFail session), x)).

Lemma rejectCredentials_spec session user w :
  ps_inv (w_users w) -> (forall p, user = Some p -> exists u, points_to p u (w_users w)) ->
  wp (CreateAuthCode_rejectCredentials session user) (fun o w' =>
    (users_only w w' \/ restored session w w') /\ forall uid, o <> Ret (uid, None)) w.
Proof.
  intros Hi Hu. unfold CreateAuthCode_rejectCredentials. apply wp_bind.
  eapply wp_mono; [by apply recordAccountFailure_spec|]. intros [a|] w1 HO; [|by split; [left|]].
  cbv zeta. destruct (AuthorizeRequest_IsLockedOut _) eqn:Hlk; [apply wp_ret; by split; [left|]|].
  apply wp_bind. in_port. eapply wp_mono; [apply set_law|].
  intros o [s c] (L & Hs & err & -> & Hw). apply wp_ret. split; [right|done].
  exists w1, s, c. rewrite <- (users_only_cache w w1 HO). split_and!; try done. simpl in *.
  destruct Hw as [(x & Hx & _)|[_ Hsame]]; [right; by exists x|by left].
Qed.

(** What a correct login has checked, at some instant between [lo] and [hi]. *)
Definition credentials_ok (uid email pw : string) (view : gmap string User) (lo hi : Z) : Prop :=
  exists u, view !! uid = Some u /\ u_ID u = uid /\ u_Email u = email /\ u_TenantID u = DefaultTenantID /\
    User_ValidatePassword u pw = true /\
    forall until, u_LockedUntil u = Some until -> exists t, lo <= t <= hi /\ until <= t.

Lemma IsLockedOut_run u s :
  exists b s', User_IsLockedOut u s = (Ret b, s') /\ sys_le s s' /\
    (b = false -> forall until, u_LockedUntil u = Some until -> until <= now s).
Proof.
  unfold User_IsLockedOut. destruct (u_LockedUntil u) as [t|]; [|by exists false, s].
  exists (now s <? t), (tick s). split; [done|]. split; [apply sys_le_tick|]. intros Hb ? [= <-]. lia.
Qed.

(** The bookkeeping after a correct password. *)
Lemma accept_spec p u pw w :
  points_to p u (w_users w) ->
  wp (rehashed ← user_update p (User_RehashPasswordIfNeeded pw);
      CreateAuthCode_resetAccountFailures p rehashed;;
      u' ← in_users (ps_deref p);
      mret (u_ID u', None : option goerr))
    (fun o w' => users_only w w' /\ forall uid e, o = Ret (uid, e) -> uid = u_ID u) w.
Proof.
  intros HP. apply wp_bind. eapply wp_mono; [by apply (user_update_spec p u), gentle_rehash|].
  intros [rehashed|] w3 [HO3 H3]; [|done]. destruct (H3 rehashed eq_refl) as (u3 & HP3 & Hid3).
  apply wp_bind. eapply wp_mono; [by apply (resetAccountFailures_spec p u3)|].
  intros [[]|] w4 [HO4 H4]; [|split; [by eapply users_only_trans|done]].
  destruct (H4 eq_refl) as (u4 & (_ & Hp4 & _) & Hid4).
  apply wp_bind. eapply wp_eq; [by apply in_users_deref|]. cbn beta iota. apply wp_ret.
  split; [by eapply users_only_trans|]. intros uid e [= <- _]. congruence.
Qed.

Lemma reject_after session user w w1 :
  users_only w w1 -> (forall p, user = Some p -> exists u, points_to p u (w_users w1)) ->
  wp (CreateAuthCode_rejectCredentials session user) (fun o w' =>
    (users_only w w' \/ ((forall uid, o <> Ret (uid, None)) /\ restored session w w')) /\
    forall uid, o <> Ret (uid, None)) w1.
Proof.
  intros HO Hu. eapply wp_mono; [apply rejectCredentials_spec; [|exact Hu]|].
  { destruct HO as (s & r & -> & _ & Hi & _). done. }
  intros o w' [[H|H] Hno]; (split; [|done]); [left; by eapply users_only_trans|right].
  split; [done|]. destruct H as (w2 & s & c & HO2 & H). exists w2, s, c. split; [by eapply users_only_trans|].
  by rewrite (users_only_cache w w1 HO) in H.
Qed.

Lemma users_only_le w w' : users_only w w' -> sys_le (w_sys w) (w_sys w').
Proof. by intros (s & r & -> & L & _). Qed.

Lemma verifyCredentials_spec session email pw w :
  ps_inv (w_users w) ->
  wp (CreateAuthCode_verifyCredentials session email pw) (fun o w' =>
    (users_only w w' \/ ((forall uid, o <> Ret (uid, None)) /\ restored session w w')) /\
    forall uid, o = Ret (uid, None) ->
      credentials_ok uid email pw (ps_view (w_users w)) (now (w_sys w)) (now (w_sys w'))) w.
Proof.
  intros Hi. unfold CreateAuthCode_verifyCredentials. wp_call (findByEmail_law DefaultTenantID email).
  intros o [s1 r1] (L1 & Hi1 & Hv1 & Ho). simpl in *.
  assert (users_only w (upd_users (s1, r1) w)) as HO1 by (exists s1, r1; by rewrite Hv1).
  destruct Ho as [(p & u & id & -> & Hp & Hu & He & Ht)|[(-> & _)|(e & -> & Hne)]]; cbn beta iota.
  2:{ eapply wp_mono; [by apply (reject_after session None w)|]. intros o w3 [H Hno]. split; [done|].
      intros uid ->. by destruct (Hno uid). }
  2:{ simpl. rewrite Hne. apply wp_ret. split; [by left|done]. }
  apply wp_bind. eapply wp_eq; [by apply in_users_deref|]. cbn beta iota.
  destruct (IsLockedOut_run u s1) as (b & s2 & Hb & L2 & Hun).
  apply wp_bind, wp_in_sys. eapply wp_eq; [exact Hb|]. cbn beta iota.
  set (w2 := upd_sys s2 (upd_users (s1, r1) w)).
  assert (users_only w w2) as HO2 by (eapply users_only_trans; [exact HO1|by apply users_only_sys]).
  destruct b; [apply wp_ret; split; [by left|done]|].
  assert (u_ID u = id) as <- by (by apply (view_id (w_users w))).
  assert (points_to p u (w_users w2)) as HP.
  { split_and!; try done. exists u. by rewrite <- Hv1 in Hu. }
  destruct (User_ValidatePassword u pw) eqn:Hpw; simpl negb; cbv iota.
  - eapply wp_mono; [by apply accept_spec|]. intros o w3 [HO3 Hid]. split; [left; by eapply users_only_trans|].
    intros uid Huid. rewrite (Hid uid None Huid). exists u. split_and!; try done.
    intros t0 Ht0. exists (now s1). split; [|by apply Hun].
    split; [by apply now_mono|]. apply now_mono. etrans; [exact L2|]. by apply (users_only_le w2).
  - eapply wp_mono; [apply (reject_after session (Some p) w); [done|]; intros ? [= <-]; eauto|].
    intros o w3 [H Hno]. split; [done|]. intros uid ->. by destruct (Hno uid).
Qed.

(** ** The sign-in form *)

(** The code says what the session and the login say. *)
Definition code_for (session : AuthorizeRequest) (uid : string) (code : AuthCode) : Prop :=
  ac_UserID code = uid /\ ac_ClientID code = Some (ar_ClientID session) /\
  ac_RedirectURI code = ar_RedirectURI session /\ ac_Scope code = ar_Scope session /\
  ac_Nonce code = ar_Nonce session /\ ac_CodeChallenge code = ar_CodeChallenge session /\
  ac_CodeChallengeMethod code = ar_CodeChallengeMethod session.

Lemma NewAuthCode_run session uid s :
  exists r s', NewAuthCode (mkAuthCodeArgs uid (ar_ClientID session) (ar_RedirectURI session)
      (ar_Scope session) (ar_Nonce session) (ar_CodeChallenge session) (ar_CodeChallengeMethod session)) s
    = (Ret r, s') /\ sys_le s s' /\ r <> (None, None) /\
    forall code, r = (Some code, None) -> code_for session uid code /\
      now s + AuthCodeTTL <= ac_ExpiresAt code <= now s' + AuthCodeTTL.
Proof.
  unfold NewAuthCode, generateCode, random_Token, bind. destruct (rand_Read (n_rand s)); simpl.
  2:{ eexists _, _. split; [reflexivity|]. split; [unfold sys_le; simpl; lia|done]. }
  set (s1 := mk_Sys _ _ _ _ _). eexists _, _. split; [reflexivity|]. split; [unfold sys_le; simpl; lia|].
  split; [done|]. intros code [= <- _]. split; [done|]. simpl.
  assert (now s <= now s1) by (apply now_mono; unfold sys_le; simpl; lia).
  assert (now s1 <= now (tick s1)) by (apply now_mono, sys_le_tick). unfold now in *. simpl in *. lia.
Qed.

(** The code is in the cache for its lifetime, and on its way to the client. *)
Definition code_delivered (session : AuthorizeRequest) (uid url : string) (code : AuthCode) (w w' : World) : Prop :=
  code_for session uid code /\
  now (w_sys w) + AuthCodeTTL <= ac_ExpiresAt code <= now (w_sys w') + AuthCodeTTL /\
  (exists d, cache_entry (w_cache w') (AuthCodeCacheKey (ac_Code code)) = Some (VAuthCode code, Some d) /\
     now (w_sys w) + AuthCodeTTL <= d <= now (w_sys w') + AuthCodeTTL) /\
  (exists u, url_Parse (ar_RedirectURI session) = inl u /\ url = url_String (url_SetQuery
     (("code", ac_Code code) :: match ar_State session with Some st => [("state", st)] | None => [] end) u)).

(** What a successful sign-in has checked and done. *)
Definition signed_in (c : CreateAuthCodeCommand) (session : AuthorizeRequest) (uid : string) (code : AuthCode)
    (url : string) (w w' : World) : Prop :=
  AuthorizeRequest_Validate session = None /\ kc_CSRFToken c = ar_CSRFToken session /\
  credentials_ok uid (kc_Email c) (kc_Password c) (ps_view (w_users w)) (now (w_sys w)) (now (w_sys w')) /\
  code_delivered session uid url code w w'.

(** What is left of a session after an attempt: nothing, or the session with
    one more failure, while it has attempts left. *)
Definition session_spent (sid : string) (w w' : World) : Prop :=
  let key := AuthorizeRequestCacheKey sid in
  cache_entry (w_cache w') key = None \/
  exists v session x, cache_live (w_cache w) (now (w_sys w)) key = Some v /\ destSession v = inl session /\
    AuthorizeRequest_IsLockedOut (AuthorizeRequest_RequestFail session) = false /\
    cache_entry (w_cache w') key = Some (VSession (AuthorizeRequest_RequestFail session), x).

(** The end of a sign-in, once the credentials are accepted. *)
Lemma finish_sign_in session uid w :
  wp (a ← in_sys (NewAuthCode (mkAuthCodeArgs uid (ar_ClientID session) (ar_RedirectURI session)
            (ar_Scope session) (ar_Nonce session) (ar_CodeChallenge session) (ar_CodeChallengeMethod session)));
      match a with
      | (_, Some e) => fail (NewErrAuthCodeCreateFailed e)
      | (None, None) => panic "nil pointer dereference"
      | (Some authCode, None) =>
        e ← in_cache (cache_Set (AuthCodeCacheKey (ac_Code authCode)) (VAuthCode authCode) (Some AuthCodeTTL));
        match e with
        | Some err => fail err
        | None =>
          redirect ← AuthorizeRequest_BuildRedirectURI (ac_Code authCode) session;
          ok (RCreateAuthCode redirect)
        end
      end)
    (fun o w' => (forall sid, cache_entry (w_cache w') (AuthorizeRequestCacheKey sid) =
                              cache_entry (w_cache w) (AuthorizeRequestCacheKey sid)) /\
      sys_le (w_sys w) (w_sys w') /\ w_users w' = w_users w /\
      forall url, o = Ret (RCreateAuthCode url, None) -> exists code, code_delivered session uid url code w w') w.
Proof.
  destruct (NewAuthCode_run session uid (w_sys w)) as (r & s1 & Hr & L1 & Hnn & Hcode).
  apply wp_bind, wp_in_sys. eapply wp_eq; [exact Hr|]. cbn beta iota.
  destruct r as [[code|] [e|]]; try done; try (apply wp_ret; by split_and!).
  destruct (Hcode code eq_refl) as [Hfor Hexp]. apply wp_bind. in_port. eapply wp_mono; [apply set_law|].
  intros o [s2 c2] (L2 & Hs & err & -> & Hw). simpl in *.
  assert (forall sid, cache_entry c2 (AuthorizeRequestCacheKey sid) =
                      cache_entry (w_cache w) (AuthorizeRequestCacheKey sid)) as Hsess by (intros; apply Hs; key_ne).
  assert (sys_le (w_sys w) s2) as L by (etrans; [exact L1|exact L2]).
  destruct err as [e|]; [apply wp_ret; by split_and!|].
  unfold AuthorizeRequest_BuildRedirectURI. destruct (url_Parse (ar_RedirectURI session)) as [u|e] eqn:Hu; [|by split_and!].
  apply wp_bind, wp_ret, wp_ret. split_and!; try done. intros url [= <-]. exists code.
  apply now_mono in L1, L2. unfold code_delivered. split_and!; try done; [simpl; lia|simpl; lia| |by exists u].
  destruct Hw as [(x & Hx & Hd)|[]]; [|done]. destruct (Hd _ eq_refl eq_refl) as (t & Ht & ->).
  eexists. split; [exact Hx|]. simpl. lia.
Qed.

Lemma code_delivered_from session uid url code w0 w w' :
  sys_le (w_sys w0) (w_sys w) -> code_delivered session uid url code w w' -> code_delivered session uid url code w0 w'.
Proof.
  intros L%now_mono (Hfor & Hexp & (d & Hd & Hb) & Hurl). unfold code_delivered. split_and!; try done; try lia.
  exists d. split; [done|lia].
Qed.

(** The session a sign-in works on has been taken out of the cache. *)
Lemma createAuthCode_spec c w :
  ps_inv (w_users w) ->
  wp (CreateAuthCode_Execute c) (fun o w' => (CacheReliable CI -> session_spent (kc_SessionID c) w w') /\ ps_inv (w_users w') /\
    forall url, o = Ret (RCreateAuthCode url, None) -> exists v session uid code,
      cache_live (w_cache w) (now (w_sys w)) (AuthorizeRequestCacheKey (kc_SessionID c)) = Some v /\
      destSession v = inl session /\ signed_in c session uid code url w w' /\
      cache_entry (w_cache w') (AuthorizeRequestCacheKey (kc_SessionID c)) = None) w.
Proof.
  intros Hi. unfold CreateAuthCode_Execute. apply wp_bind. in_port.
  destruct (cache_GetAndDelete (AuthorizeRequestCacheKey (kc_SessionID c)) destSession (w_sys w, w_cache w)) as [o [s1 c1]] eqn:Hrun.
  destruct (wp_run _ _ _ _ _ Hrun (getAndDelete_law _ _ _ (w_sys w) (w_cache w))) as (L1 & Hs1 & r & -> & Hgone & Hlive).
  eapply wp_eq; [exact Hrun|]. cbn beta iota.
  assert ((CacheReliable CI -> session_spent (kc_SessionID c) w (upd_cache (s1, c1) w)) /\ ps_inv (w_users w)) as Hsp.
  { split; [|done]. intros HR. left. by destruct (wp_run _ _ _ _ _ Hrun (getAndDelete_reliable _ _ _ (w_sys w) (w_cache w))). }
  destruct r as [session|]; [|apply wp_ret; destruct Hsp; by split_and!]. destruct Hgone as [Hgone|[? _]]; [|done].
  destruct (Hlive session eq_refl) as (v & Hv & Hd).
  destruct (AuthorizeRequest_Validate session) eqn:Hval; [apply wp_ret; destruct Hsp; by split_and!|]. cbn [bool_decide].
  destruct (CreateAuthCodeCommand_ValidateCSRF c (ar_CSRFToken session)) eqn:Hcsrf; [|apply wp_ret; destruct Hsp; by split_and!].
  apply String.eqb_eq in Hcsrf. simpl negb. cbv iota.
  apply wp_bind. eapply wp_mono; [by apply verifyCredentials_spec|]. intros o w2 [Hcache Hok].
  assert (session_spent (kc_SessionID c) w w2 /\ ps_inv (w_users w2)) as Hsp2.
  { split; [|destruct Hcache as [(? & ? & -> & _ & ? & _)|[_ (w1 & s & c2 & (? & ? & -> & _ & ? & _) & -> & _)]]; done].
    destruct Hcache as [HO|[_ (w1 & s & c2 & _ & -> & _ & Hs & Hlk & Hent)]].
    - left. by rewrite (users_only_cache _ _ HO).
    - destruct (decide (AuthorizeRequestCacheKey (ar_ID session) = AuthorizeRequestCacheKey (kc_SessionID c))) as [Heq|Hne].
      + rewrite Heq in Hent. destruct Hent as [Hent|[x Hx]]; [left; simpl in *; congruence|].
        right. exists v, session, x. done.
      + left. simpl. rewrite Hs; [done|]. congruence. }
  destruct o as [[uid [e|]]|e]; [apply wp_ret; destruct Hsp2; by split_and!| |destruct Hsp2; by split_and!].
  destruct Hcache as [HO|[Hno _]]; [|by destruct (Hno uid)].
  assert (cache_entry (w_cache w2) (AuthorizeRequestCacheKey (kc_SessionID c)) = None) as Hgone2.
  { by rewrite (users_only_cache _ _ HO). }
  specialize (Hok uid eq_refl). apply users_only_le in HO as L2. simpl in L2.
  eapply wp_mono; [apply finish_sign_in|]. intros o w3 (Hsess & L3 & Hus & Hfin).
  rewrite Hus. split_and!; [intros _; left; by rewrite Hsess|apply Hsp2|]. intros url Hurl. destruct (Hfin url Hurl) as [code Hcode].
  exists v, session, uid, code. split_and!; try done; [|by rewrite Hsess].
  destruct Hok as (u & Hu & Hid & He & Ht & Hpw & Hlk). apply now_mono in L1 as T1, L3 as T3.
  split_and!; try done; [|eapply code_delivered_from; [|exact Hcode]; etrans; [exact L1|exact L2]].
  exists u. split_and!; try done. intros t0 Ht0. destruct (Hlk t0 Ht0) as (t & Ht1 & Ht2). exists t. simpl in *. lia.
Qed.

(** C10: Sign-in.  A code is handed out only for a live session whose CSRF token the
    form repeats, to a stored user with this e-mail address and password who is
    not locked out.  The session is then gone, and the code - for this user and
    for the client, redirect URI, scope, nonce and PKCE challenge of the
    authorization request - is in the cache for its lifetime. *)
Theorem sign_in_sound (c : CreateAuthCodeCommand) (w w' : World) (url : string) :
  ps_inv (w_users w) ->
  CreateAuthCode_Execute c w = (Ret (RCreateAuthCode url, None), w') ->
  exists v session uid code,
    cache_live (w_cache w) (now (w_sys w)) (AuthorizeRequestCacheKey (kc_SessionID c)) = Some v /\
    destSession v = inl session /\ signed_in c session uid code url w w' /\
    cache_entry (w_cache w') (AuthorizeRequestCacheKey (kc_SessionID c)) = None.
Proof.
  intros Hi Hrun. destruct (wp_run _ _ _ _ _ Hrun (createAuthCode_spec c w Hi)) as (_ & _ & H). by apply H.
Qed.

(** ** How often a session can be tried *)

(** Attempts on one session, interleaved with anything that leaves the
    session's cache entry alone. *)
Inductive session_trace (sid : string) (w0 : World) : nat -> World -> Prop :=
| trace_start : session_trace sid w0 0 w0
| trace_attempt n w c :
    session_trace sid w0 n w -> kc_SessionID c = sid -> ps_inv (w_users w) ->
    session_trace sid w0 (S n) (CreateAuthCode_Execute c w).2
| trace_other n w w' :
    session_trace sid w0 n w ->
    cache_entry (w_cache w') (AuthorizeRequestCacheKey sid) = cache_entry (w_cache w) (AuthorizeRequestCacheKey sid) ->
    session_trace sid w0 n w'.

(** The session, if it is still there, has at least [n] failures and fewer than
    the maximum. *)
Definition failures_between (n : Z) (sid : string) (w : World) : Prop :=
  forall v x s, cache_entry (w_cache w) (AuthorizeRequestCacheKey sid) = Some (v, x) -> destSession v = inl s ->
    n <= ar_FailedAttempts s < maxFailedAttempts.

Lemma destSession_failures s s' : destSession (VSession s) = inl s' -> ar_FailedAttempts s' = ar_FailedAttempts s.
Proof. simpl. destruct (json_Scope (ar_Scope s)); [|done]. by intros [= <-]. Qed.

Lemma attempt_counts n sid c w :
  CacheReliable CI -> 0 <= n -> ps_inv (w_users w) -> kc_SessionID c = sid -> failures_between n sid w ->
  failures_between (n + 1) sid (CreateAuthCode_Execute c w).2.
Proof.
  intros HR Hn Hi <- Hf v x s Hent Hdest.
  destruct (createAuthCode_spec c w Hi) as (Hsp & _). destruct (Hsp HR) as [Hnone|(v0 & s0 & x0 & Hlive & Hd0 & Hlk & Hent0)]; [congruence|].
  rewrite Hent0 in Hent. injection Hent as <- <-. rewrite (destSession_failures _ _ Hdest).
  unfold cache_live in Hlive. destruct (cache_entry (w_cache w) _) as [[v1 x1]|] eqn:Hw; [|done].
  assert (v1 = v0) as -> by (destruct x1; [destruct (_ <=? _)|]; congruence).
  specialize (Hf v0 x1 s0 Hw Hd0). unfold AuthorizeRequest_IsLockedOut, AuthorizeRequest_RequestFail, maxFailedAttempts in *.
  simpl in *. rewrite wrap64_id in * by (unfold two63; lia). lia.
Qed.

Lemma trace_counts sid w0 n w :
  CacheReliable CI -> session_trace sid w0 n w -> failures_between 0 sid w0 -> failures_between (Z.of_nat n) sid w.
Proof.
  intros HR Ht H0. induction Ht as [|n w c _ IH Hc Hi|n w w' _ IH Hsame]; [done| |].
  - replace (Z.of_nat (S n)) with (Z.of_nat n + 1) by lia. by apply attempt_counts; [|lia|..].
  - intros v x s. rewrite Hsame. apply IH.
Qed.

(** Password guessing.  With a cache that does not fail, a sign-in session stands three attempts: after three
    forms were posted to it, whatever they contained and whatever else happened
    in between, every further form is refused, right password or not. *)
Theorem sign_in_attempts (c : CreateAuthCodeCommand) (n : nat) (w0 w : World) :
  CacheReliable CI -> session_trace (kc_SessionID c) w0 n w -> failures_between 0 (kc_SessionID c) w0 -> (3 <= n)%nat ->
  (CreateAuthCode_Execute c w).1 = Ret (RNil, Some NewErrInvalidSession).
Proof.
  intros HR Ht H0 Hn. pose proof (trace_counts _ _ _ _ HR Ht H0) as Hf.
  unfold CreateAuthCode_Execute, bind at 1, in_cache.
  destruct (cache_GetAndDelete (AuthorizeRequestCacheKey (kc_SessionID c)) destSession _) as [o [s1 c1]] eqn:Hrun.
  destruct (wp_run _ _ _ _ _ Hrun (getAndDelete_law _ _ _ (w_sys w) (w_cache w))) as
    (_ & _ & r & -> & _ & Hlive). destruct r as [s|]; [|done].
  exfalso. destruct (Hlive s eq_refl) as (v & Hv & Hd). unfold cache_live in Hv.
  destruct (cache_entry _ _) as [[v' x]|] eqn:He; [|done].
  assert (v' = v) as -> by (destruct x; [destruct (_ <=? _)|]; congruence).
  specialize (Hf v x s He Hd). unfold maxFailedAttempts in Hf. lia.
Qed.

(** ** The authorization endpoint *)

(** The session records the request, and the request met the protocol's
    demands. *)
Definition session_for (q : GetAuthorizeQuery) (client : Client) (session : AuthorizeRequest) : Prop :=
  ar_ClientID session = aq_ClientID q /\ ar_RedirectURI session = aq_RedirectURI q /\
  NewScope (strings_Fields (aq_Scope q)) = (ar_Scope session, None) /\
  ar_State session = aq_State q /\ ar_Nonce session = aq_Nonce q /\
  ar_CodeChallenge session = aq_CodeChallenge q /\ ar_CodeChallengeMethod session = aq_CodeChallengeMethod q /\
  ar_FailedAttempts session = 0 /\ AuthorizeRequest_Validate session = None /\
  aq_ResponseType q = responseTypeCode /\ Scope_Contains (ar_Scope session) ScopeOpenID = true /\
  (Client_IsPublic client = true -> is_Some (aq_CodeChallenge q)) /\
  (forall ch, aq_CodeChallenge q = Some ch ->
     len ch = codeChallengeLength /\ aq_CodeChallengeMethod q = Some CodeChallengeMethodS256).

Lemma protocol_ok q client :
  Authorize_protocolError q client = "" ->
  aq_ResponseType q = responseTypeCode /\
  (exists scope, NewScope (strings_Fields (aq_Scope q)) = (scope, None) /\ Scope_Contains scope ScopeOpenID = true) /\
  (Client_IsPublic client = true -> is_Some (aq_CodeChallenge q)) /\
  (forall ch, aq_CodeChallenge q = Some ch ->
     len ch = codeChallengeLength /\ aq_CodeChallengeMethod q = Some CodeChallengeMethodS256).
Proof.
  unfold Authorize_protocolError. destruct (String.eqb _ ""); [done|].
  destruct (String.eqb_spec (aq_ResponseType q) responseTypeCode) as [Hrt|]; [|done]. simpl negb. cbv iota.
  destruct (NewScope _) as [scope [e|]]; [done|]. simpl. destruct (Scope_Contains scope ScopeOpenID) eqn:Hsc; [|done].
  simpl. destruct (validPKCE q) eqn:Hp; [|done]. simpl.
  destruct (Client_IsPublic client && _) eqn:Hpub; [done|]. intros _. split_and!; try done; [by exists scope| |].
  - intros H. rewrite H in Hpub. destruct (aq_CodeChallenge q); [eauto|done].
  - intros ch Hch. unfold validPKCE in Hp. rewrite Hch in Hp. destruct (Z.eqb_spec (len ch) codeChallengeLength); [|done].
    simpl in Hp. destruct (aq_CodeChallengeMethod q); [|done]. by apply String.eqb_eq in Hp as ->.
Qed.

Lemma NewAuthorizeRequest_run q client s :
  Authorize_protocolError q client = "" ->
  exists r s', NewAuthorizeRequest (mkAuthorizeRequestArgs (aq_ClientID q) (aq_RedirectURI q) (aq_Scope q)
      (aq_State q) (aq_Nonce q) (aq_CodeChallenge q) (aq_CodeChallengeMethod q)) s = (Ret r, s') /\
    sys_le s s' /\ r <> (None, None) /\ forall session, r = (Some session, None) -> session_for q client session.
Proof.
  intros Hok. destruct (protocol_ok q client Hok) as (Hrt & (scope & Hsc & Hop) & Hpub & Hpk).
  unfold NewAuthorizeRequest. simpl. unfold NewClientID. destruct (String.eqb_spec (aq_ClientID q) "").
  { eexists _, _. split; [reflexivity|]. done. }
  rewrite Hsc. unfold generateCSRFToken, random_Token, bind. destruct (rand_Read (n_rand s)); simpl.
  2:{ eexists _, _. split; [reflexivity|]. split; [unfold sys_le; simpl; lia|done]. }
  eexists _, _. split; [reflexivity|]. split; [unfold sys_le; simpl; lia|]. split; [done|].
  intros session [= <- Hval]. unfold session_for. simpl. by split_and!.
Qed.

(** C12: No open redirects, no downgrade.  The authorization endpoint answers without
    an error only to a registered client that names one of its own redirect
    URIs.  It sends protocol errors to that URI and leaves no session behind; or
    it stores a session that records exactly this request, for an OpenID scope,
    with an S256 challenge whenever the client is public, and with no failed
    attempt yet. *)
Theorem authorize_sound (q : GetAuthorizeQuery) (w w' : World) (r : Response) :
  Authorize_Execute q w = (Ret (r, None), w') ->
  exists client, Registry_FindByID d_ClientRegistry DefaultTenantID (aq_ClientID q) = Some client /\
    Client_AllowsRedirectURI client (aq_RedirectURI q) = true /\
    match r with
    | RAuthorizeError uri _ state => uri = aq_RedirectURI q /\ state = aq_State q /\ w_cache w' = w_cache w
    | RAuthorize sid => exists session d, ar_ID session = sid /\ session_for q client session /\
        cache_entry (w_cache w') (AuthorizeRequestCacheKey sid) = Some (VSession session, Some d) /\
        now (w_sys w) + AuthorizeRequestTTL <= d <= now (w_sys w') + AuthorizeRequestTTL
    | _ => False
    end.
Proof.
  unfold Authorize_Execute. cbv zeta. destruct (Registry_FindByID _ _ _) as [client|]; [|done].
  destruct (Client_AllowsRedirectURI client (aq_RedirectURI q)) eqn:Hal; [|done]. simpl negb. cbv iota.
  intros Hrun. exists client. split_and!; try done. revert Hrun.
  destruct (String.eqb_spec (Authorize_protocolError q client) "") as [Hok|]; simpl negb; cbv iota.
  2:{ by intros [= <- <-]. }
  destruct (NewAuthorizeRequest_run q client (w_sys w) Hok) as (res & s1 & Hnew & L1 & Hnn & Hfor).
  unfold bind, in_sys. intros Hrun. cbn [negb] in Hrun. rewrite Hnew in Hrun. revert Hrun.
  destruct res as [[session|] [e|]]; try done; try (by intros [= <- <-]).
  unfold in_cache. simpl.
  destruct (cache_Set _ _ _ (s1, w_cache w)) as [o [s2 c2]] eqn:Hset.
  destruct (wp_run _ _ _ _ _ Hset (set_law _ _ _ s1 (w_cache w))) as (L2 & _ & err & -> & Hw).
  destruct err as [e|]; [done|]. intros [= <- <-]. destruct Hw as [(x & Hx & Hd)|[]]; [|done].
  destruct (Hd _ eq_refl eq_refl) as (t & Ht & ->). exists session, (t + AuthorizeRequestTTL).
  split_and!; try done; [by apply Hfor|..]; apply now_mono in L1, L2; simpl; lia.
Qed.

(** ** The password grant *)

Lemma loginSucceeded_spec p u pw w :
  points_to p u (w_users w) ->
  wp (GetToken_loginSucceeded p pw) (fun o w' => users_only w w' /\
    (o = Ret tt -> exists u', points_to p u' (w_users w') /\ u_ID u' = u_ID u)) w.
Proof.
  intros HP. unfold GetToken_loginSucceeded. apply wp_bind.
  eapply wp_mono; [by apply (user_update_spec p u), gentle_rehash|].
  intros [rehashed|] w1 [HO1 H1]; [|done]. destruct (H1 rehashed eq_refl) as (u1 & HP1 & Hid1).
  apply wp_bind. eapply wp_eq; [apply in_users_deref, HP1|]. cbn beta iota zeta.
  apply wp_bind. eapply wp_mono with (P := fun o w2 => users_only w w2 /\ (forall a, o = Ret a ->
    exists u2, points_to p u2 (w_users w2) /\ u_ID u2 = u_ID u)).
  { destruct (_ || _).
    - eapply wp_mono; [by apply (user_update_spec p u1), gentle_reset|]. intros o w2 [HO2 H2].
      split; [by eapply users_only_trans|]. intros a Ha. destruct (H2 a Ha) as (u2 & HP2 & Hid2).
      exists u2. split; [done|congruence].
    - apply wp_ret. split; [done|]. eauto. }
  intros [a|] w2 [HO2 H2]; [|done]. destruct (H2 a eq_refl) as (u2 & HP2 & Hid2).
  destruct (_ || rehashed); [|apply wp_ret; split; [done|]; intros _; by exists u2].
  apply wp_bind. eapply wp_mono; [by apply (user_save_spec p u2)|].
  intros [e|] w3 [HO3 HP3]; (split; [by eapply users_only_trans|]); [|done]. intros _. by exists u2.
Qed.

Lemma first_not_allowed_none allow vs : first_not_allowed allow vs = None -> forall v, v ∈ vs -> v ∈ allow.
Proof.
  induction vs as [|x vs IH]; [by intros _ v ?%elem_of_nil|]. simpl.
  destruct (contains allow x) eqn:Hx; [|done]. intros H v [->|Hv]%elem_of_cons; [by apply contains_spec|by apply IH].
Qed.

Lemma NewScope_values vs scope : NewScope vs = (scope, None) -> scope_values scope = vs.
Proof. unfold NewScope. destruct vs; [done|]. destruct (first_unsupported _); [done|]. by intros [= <-]. Qed.

(** The granted scope stays within the server's allowlist. *)
Lemma resolveScope_allowed requested scope :
  GetToken_resolveScope requested = (scope, None) -> forall v, v ∈ scope_values scope -> v ∈ d_ScopeAllowlist.
Proof.
  assert (forall v, v ∈ scope_values (NewScope d_ScopeAllowlist).1 -> v ∈ d_ScopeAllowlist) as Hdef.
  { intros v. destruct (NewScope d_ScopeAllowlist) as [sc [e|]] eqn:Hn; simpl; [|by rewrite (NewScope_values _ _ Hn)].
    unfold NewScope in Hn. destruct d_ScopeAllowlist; [injection Hn as <- _|]; [by intros ?%elem_of_nil|].
    destruct (first_unsupported _); [injection Hn as <- _; by intros ?%elem_of_nil|done]. }
  unfold GetToken_resolveScope. destruct requested as [raw|]; [|intros [= <-]; exact Hdef].
  destruct (String.eqb raw ""); [intros [= <-]; exact Hdef|].
  destruct (first_not_allowed _ _) eqn:Hf; [done|]. intros Hn v. rewrite (NewScope_values _ _ Hn).
  by apply first_not_allowed_none.
Qed.

(** The last step of the password grant, read as the last step of an exchange
    for a client without an id. *)
Lemma GetToken_issue_eq p scope secs w :
  GetToken_issue p scope secs w =
  (user ← in_users (ps_deref p);
   t ← in_sys (IssueTokens (mkIssueTokensArgs user "" "" scope secs ""));
   match t with
   | (_, Some e) => fail e
   | (None, None) => panic "nil pointer dereference"
   | (Some tokens, None) =>
     e ← ExchangeCode_saveRefreshToken (u_ID user) "" tokens;
     match e with
     | Some err => fail (NewErr GenTokenFailed err)
     | None => ok (RToken (TokenResponse_FromEntity tokens secs))
     end
   end) w.
Proof.
  unfold GetToken_issue, ExchangeCode_saveRefreshToken, bind, fail, ok, mret, ST_ret.
  repeat (case_match; simplify_eq/=; try done).
Qed.

(** Tokens issued to a user and stored as the first link of a new chain. *)
Definition tokens_issued (uid : string) (scope : Scope) (secs : Z) (t : TokenResponse) (w w' : World) : Prop :=
  exists tokens g, it_Scope tokens = scope /\ g_UserID g = uid /\ g_ClientID g = "" /\ g_RevokedAt g = None /\
    t = TokenResponse_FromEntity tokens secs /\ chain_started w w' uid "" tokens g /\
    token_reads (tr_AccessToken t) (w_sys w') uid (tr_Scope t) (g_ID g).

Lemma issue_spec `{!UuidFresh E} p u scope secs w :
  world_inv w -> refresh_fresh w -> ps_ptr (w_users w) p = Some u -> 1 <= secs <= 86400 ->
  wp (GetToken_issue p scope secs) (fun o w' => forall t, o = Ret (RToken t, None) ->
    tokens_issued (u_ID u) scope secs t w w' /\ sys_le (w_sys w) (w_sys w')) w.
Proof.
  intros Hinv Hfr Hp Hsecs. unfold wp. rewrite GetToken_issue_eq. apply wp_bind.
  eapply wp_eq; [by apply in_users_deref|]. cbn beta iota. apply wp_bind, wp_in_sys.
  edestruct IssueTokens_run as (r & s1 & Hrun & L1 & Hiss). eapply wp_eq; [exact Hrun|]. clear Hrun.
  destruct r as [[tokens|] [e|]]; [done| |by intros|done]. cbn beta iota. simpl in Hiss. pose proof Hiss as HI.
  destruct Hiss as (Hsc & Hg & _ & (s4 & s5 & L4 & _ & HR) & _).
  destruct (it_NewGrant tokens) as [g|] eqn:Hng; [|naive_solver].
  destruct Hg as (_ & Hgid & Huuid & Hgu & Hgc & Hgr). simpl in *.
  apply wp_bind. eapply wp_mono; [eapply (saveRefreshToken_spec _ _ _ g); try done|].
  - rewrite Huuid. apply uuid_nonempty.
  - eapply Hfr; [|exact HR]. done.
  - intros [[e|]|] w' Hw'; [by intros| |by intros]. intros t [= <-]. destruct (Hw' eq_refl) as (L5 & rt & Hrt).
    split; [|etrans; [exact L1|exact L5]]. exists tokens, g. split_and!; try done.
    + exists rt. simpl in *. destruct Hrt as (? & ? & ? & ? & ? & ? & ? & [? ?] & ?). split_and!; try done.
      apply now_mono in L1. lia.
    + rewrite <- Hgid. unfold TokenResponse_FromEntity, tr_Scope, tr_AccessToken. rewrite Hsc.
      intros s6 cl L6. apply (issued_token_reads _ _ _ _ HI); [done|]. by etrans.
Qed.

Lemma refresh_fresh_later w w' :
  refresh_fresh w -> sys_le (w_sys w) (w_sys w') -> w_rts w' = w_rts w -> refresh_fresh w'.
Proof. intros Hfr L Hr uid s tok s' L'. rewrite Hr. apply Hfr. etrans; [exact L|exact L']. Qed.

(** C13: The password grant.  It hands out tokens only to a stored user with this
    e-mail address and password who is not locked out; the scope stays within
    the server's allowlist; and what it stores is the first link of a new chain:
    one refresh token under one new grant, for this user and no client. *)
Theorem password_grant_sound `{!UuidFresh E} (q : GetTokenQuery) (w w' : World) (t : TokenResponse) :
  world_inv w -> refresh_fresh w ->
  GetToken_Execute q w = (Ret (RToken t, None), w') ->
  exists uid scope,
    credentials_ok uid (tq_Email q) (tq_Password q) (ps_view (w_users w)) (now (w_sys w)) (now (w_sys w')) /\
    (forall v, v ∈ scope_values scope -> v ∈ d_ScopeAllowlist) /\
    tokens_issued uid scope (ResolveExpirySecs (tq_ExpireSecs q)) t w w'.
Proof.
  intros (HU & HG & HR) Hfr Hrun. refine (wp_run _ (fun o w' => o = Ret (RToken t, None) -> _) _ _ _ Hrun _ eq_refl).
  clear Hrun w'. unfold GetToken_Execute. wp_call (findByEmail_law DefaultTenantID (tq_Email q)).
  intros o [s1 r1] (L1 & Hi1 & Hv1 & [(p & u & id & -> & Hp & Hu & He & Ht)|[(-> & _)|(e & -> & _)]]); [|done..].
  simpl in *. apply wp_bind. eapply wp_eq; [by apply in_users_deref|]. cbn beta iota.
  destruct (IsLockedOut_run u s1) as (b & s2 & Hb & L2 & Hun).
  apply wp_bind, wp_in_sys. eapply wp_eq; [exact Hb|]. cbn beta iota.
  assert (u_ID u = id) as <- by (by apply (view_id (w_users w))).
  set (w2 := upd_sys s2 (upd_users (s1, r1) w)). destruct b; [by intros|].
  assert (points_to p u (w_users w2)) as HP by (split_and!; try done; exists u; by rewrite <- Hv1 in Hu).
  destruct (User_ValidatePassword u (tq_Password q)) eqn:Hpw; simpl negb; cbv iota.
  2:{ unfold wp, bind. by do 2 (case_match; case_match; try done). }
  apply wp_bind. eapply wp_mono; [by apply (loginSucceeded_spec p u)|].
  intros [[]|] w3 [HO3 H3]; [|done]. destruct (H3 eq_refl) as (u3 & (_ & Hp3 & _) & Hid3).
  destruct (GetToken_resolveScope (tq_Scope q)) as [scope [e|]] eqn:Hsc; [by intros|].
  destruct HO3 as (s3 & r3 & -> & L3 & Hi3 & _). simpl in L3, Hp3.
  assert (sys_le (w_sys w) s3) as L03 by (etrans; [exact L1|]; etrans; [exact L2|exact L3]).
  eapply wp_mono; [eapply (issue_spec p u3); [by split_and!| |exact Hp3|apply ResolveExpirySecs_range]|].
  { by eapply refresh_fresh_later. }
  intros o w4 H4 Ho. destruct (H4 t Ho) as [Htok L4]. simpl in L4. exists (u_ID u), scope. apply now_mono in L1 as T1.
  split_and!; [|by eapply resolveScope_allowed|].
  - exists u. split_and!; try done. intros t0 Ht0. exists (now s1). split; [|by apply Hun].
    split; [done|]. apply now_mono. etrans; [exact L2|]. etrans; [exact L3|exact L4].
  - rewrite Hid3 in Htok. destruct Htok as (tokens & g & H1 & H2 & H5 & H6 & H7 & (rt & H8) & H9).
    exists tokens, g. split_and!; try done. exists rt. simpl in *.
    destruct H8 as (? & ? & ? & ? & ? & ? & ? & [? ?] & ?). split_and!; try done. apply now_mono in L03. lia.
Qed.

End Login.
