(* ===== verification/System.v ===== *)
(** * The whole server: any sequence of requests

    Every handler of the server only moves the counters forward, and none of
    them takes back a revocation: [serves] closes the handlers under sequences
    of requests, and the theorems hold after any such sequence. *)

From S2P Require Import Prelude GoStd Crypto Errors Env Scope User Token Client AuthFlow Jwt Cache Ports Frame Services Responses CmdTokens CmdUsers Queries TokenFlow Web WebFlow LoginFlow AccountFlow.

Local Open Scope Z_scope.

Lemma time_Unix_mono t t' : t <= t' -> time_Unix t <= time_Unix t'.
Proof. intros H. unfold time_Unix. apply Z.div_le_mono; [done|lia]. Qed.

(** ** Computations on the counters alone *)

Section SysForward.
  Context {E : Env} {TS : TokenServiceI} {TL : TokenServiceLaws E TS} {SV : StructValidator}.

Notation fwd := (forward (fun s : Sys => s)).

Lemma genAccess_forward u sc g secs : fwd (ts_GenAccessToken u sc g secs).
Proof. intros s. destruct (ts_genAccess_returns u sc g secs s) as (r & s' & -> & L). exact L. Qed.
Lemma genRefresh_forward u : fwd (ts_GenRefreshToken u).
Proof. intros s. destruct (ts_genRefresh_returns u s) as (r & s' & -> & L). exact L. Qed.
Lemma genID_forward a : fwd (ts_GenIDToken a).
Proof. intros s. destruct (ts_genID_returns a s) as (r & s' & -> & L). exact L. Qed.
Lemma parse_forward tok : fwd (ts_ParseJWT tok).
Proof. intros s. destruct (ts_parse_returns tok s) as (r & s' & -> & L). exact L. Qed.

#[local] Hint Resolve genAccess_forward genRefresh_forward genID_forward parse_forward : respects.

Lemma hashPassword_forward pw : fwd (hashPassword pw).
Proof. unfold hashPassword. solve_respects. Qed.

#[local] Hint Resolve hashPassword_forward : respects.

Lemma NewUser_forward args : fwd (NewUser args).
Proof. unfold NewUser, NewUserID. solve_respects. Qed.
Lemma IsLockedOut_forward u : fwd (User_IsLockedOut u).
Proof. unfold User_IsLockedOut. solve_respects. Qed.
Lemma UpdateProfile_forward args u : fwd (User_UpdateProfile args u).
Proof. unfold User_UpdateProfile. solve_respects. Qed.
Lemma SetPasswordResetToken_forward raw ttl u : fwd (User_SetPasswordResetToken raw ttl u).
Proof. unfold User_SetPasswordResetToken. solve_respects. Qed.
Lemma ResetPassword_callback_forward pw vars u : fwd (ResetPassword_callback pw vars u).
Proof.
  unfold ResetPassword_callback, User_IsResetTokenExpired, User_SetPassword, User_InvalidateSessions,
    User_ClearPasswordResetToken. solve_respects.
Qed.
Lemma Record_forward u : fwd (void User_RecordFailedLogin u).
Proof. unfold void, User_RecordFailedLogin. solve_respects. Qed.
Lemma Reset_forward u : fwd (void User_ResetFailedLogins u).
Proof. unfold void, User_ResetFailedLogins. solve_respects. Qed.
Lemma Rehash_forward pw u : fwd (User_RehashPasswordIfNeeded pw u).
Proof. unfold User_RehashPasswordIfNeeded. solve_respects. Qed.
Lemma IssueTokens_forward req : fwd (IssueTokens req).
Proof. unfold IssueTokens, issueUnder, NewGrant, NewGrantID. solve_respects. Qed.
Lemma NewRefreshToken_forward u c t : fwd (NewRefreshToken u c t).
Proof. unfold NewRefreshToken. solve_respects. Qed.
Lemma Rotate_forward u t rt : fwd (RefreshToken_Rotate u t rt).
Proof. unfold RefreshToken_Rotate. solve_respects. all: unfold NewRefreshToken; solve_respects. Qed.
Lemma RT_IsValid_forward rt : fwd (RefreshToken_IsValid rt).
Proof. unfold RefreshToken_IsValid. solve_respects. Qed.
Lemma Grant_IsValid_forward g : fwd (Grant_IsValid g).
Proof. unfold Grant_IsValid. solve_respects. Qed.
Lemma AuthCode_IsValid_forward a c r v : fwd (AuthCode_IsValid a c r v).
Proof. unfold AuthCode_IsValid, AuthCode_IsExpired, AuthCode_matchesClient. solve_respects. Qed.
Lemma NewAuthCode_forward args : fwd (NewAuthCode args).
Proof. unfold NewAuthCode, generateCode. solve_respects. Qed.
Lemma NewAuthorizeRequest_forward args : fwd (NewAuthorizeRequest args).
Proof. unfold NewAuthorizeRequest, generateCSRFToken, NewSessionID. solve_respects. Qed.
Lemma Claims_IsExpired_forward c : fwd (Claims_IsExpired c).
Proof. unfold Claims_IsExpired. solve_respects. Qed.
Lemma GenerateReset_forward : fwd GeneratePasswordResetToken.
Proof. unfold GeneratePasswordResetToken. solve_respects. Qed.

End SysForward.

#[export] Hint Resolve genAccess_forward genRefresh_forward genID_forward parse_forward NewUser_forward
  IsLockedOut_forward UpdateProfile_forward SetPasswordResetToken_forward ResetPassword_callback_forward
  Record_forward Reset_forward Rehash_forward IssueTokens_forward NewRefreshToken_forward Rotate_forward
  RT_IsValid_forward Grant_IsValid_forward AuthCode_IsValid_forward NewAuthCode_forward
  NewAuthorizeRequest_forward Claims_IsExpired_forward GenerateReset_forward : respects.
#[export] Hint Extern 0 (TokenServiceLaws _ _) => exact _ : respects.

(** ** Relations every request respects

    A preorder that every use case respects, and the few operations the
    middlewares make themselves. *)

Class Served `{E : Env} `{TS : TokenServiceI} `{D : Deps} `{SV : StructValidator} `{CI : CacheI} `{UI : UserRepoI}
    `{GI : GrantRepoI} `{RI : RefreshTokenRepoI} (R : relation World) := {
  served_pre :: PreOrder R;
  served_registry : forall cmd, respects R (registry_Execute cmd);
  served_sys : forall A (m : ST Sys A), forward (fun s => s) m -> respects R (in_sys m);
  served_counter : forall name d, respects R (counter_Add name d);
  served_getErr : forall A k (d : dest A), respects R (in_cache (cache_GetErr k d));
  served_incr : forall ip window, respects R (in_cache (cache_IncrWindow (rateLimitCacheKey ip) window));
}.

Section Handlers.
  Context {E : Env} {CM : ClockMono E} {TS : TokenServiceI} {TL : TokenServiceLaws E TS} {D : Deps} {SV : StructValidator}.
  Context {CI : CacheI} {UI : UserRepoI} {GI : GrantRepoI} {RI : RefreshTokenRepoI}.
  Context {PF : PortsForward UI GI RI}.

(** A key that is no revocation marker. *)
Definition plain_key (k : string) : Prop :=
  (exists id, k = AuthorizeRequestCacheKey id) \/ (exists code, k = AuthCodeCacheKey code) \/
  (exists h, k = ForgotPasswordRateKey h) \/ (exists ip, k = rateLimitCacheKey ip).

(** A preorder on worlds that holds when only the counters, the repositories,
    the metrics and the mails change, and that the cache operations the
    handlers use respect.  A token is blacklisted only after it was parsed, and
    a user's sessions are ended as of an instant after the request began. *)
Class Safe (R : relation World) := {
  safe_pre :: PreOrder R;
  safe_frame : forall w w', sys_le (w_sys w) (w_sys w') -> w_cache w' = w_cache w -> R w w';
  safe_getErr : forall A k (d : dest A), respects R (in_cache (cache_GetErr k d));
  safe_set : forall k v ttl, plain_key k -> respects R (in_cache (cache_Set k v ttl));
  safe_take : forall A k (d : dest A), plain_key k -> respects R (in_cache (cache_GetAndDelete k d));
  safe_incr : forall k window, plain_key k -> respects R (in_cache (cache_IncrWindow k window));
  safe_grant : forall gid, respects R (MarkGrantRevoked gid);
  safe_sessions : forall uid t w0 w, R w0 w -> now (w_sys w0) <= t -> R w0 (MarkSessionsInvalidated uid t w).2;
  safe_blacklist : forall tok s claims exp, (ts_ParseJWT tok s).1 = Ret (Some claims, None) ->
    cl_ExpiresAt claims = Some exp -> respects R (BlacklistJTI (cl_ID claims) exp);
}.

  Context (R : relation World) {SR : Safe R}.

Lemma safe_in_sys {A} (m : ST Sys A) : forward (fun s => s) m -> respects R (in_sys m).
Proof.
  intros H w. specialize (H (w_sys w)). unfold in_sys. destruct (m (w_sys w)). by apply safe_frame.
Qed.

Lemma safe_in_users {A} (m : ST (Sys * @PS _ ur_store) A) : forward fst m -> respects R (in_users m).
Proof.
  intros H w. specialize (H (w_sys w, w_users w)). unfold in_users. destruct (m _) as [o q].
  by apply safe_frame.
Qed.

Lemma safe_in_grants {A} (m : ST (Sys * @PS _ gr_store) A) : forward fst m -> respects R (in_grants m).
Proof.
  intros H w. specialize (H (w_sys w, w_grants w)). unfold in_grants. destruct (m _) as [o q].
  by apply safe_frame.
Qed.

Lemma safe_in_rts {A} (m : ST (Sys * RS) A) : forward fst m -> respects R (in_rts m).
Proof.
  intros H w. specialize (H (w_sys w, w_rts w)). unfold in_rts. destruct (m _) as [o q].
  by apply safe_frame.
Qed.

Lemma safe_counter name d : respects R (counter_Add name d).
Proof. intros w. by apply safe_frame. Qed.

Lemma safe_mail a t : respects R (SendPasswordResetEmail a t).
Proof. intros w. by apply safe_frame. Qed.

Lemma deref_forward {T} `{P : !PtrStore T} l : forward fst (ps_deref l).
Proof. intros p. unfold ps_deref. destruct (ps_ptr p.2 l); reflexivity. Qed.

#[local] Hint Resolve safe_getErr safe_set safe_take safe_incr safe_grant safe_counter safe_mail
  safe_in_sys safe_in_users safe_in_grants safe_in_rts deref_forward : respects.
#[local] Hint Extern 0 (Safe _) => exact _ : respects.
#[local] Hint Extern 1 (plain_key _) => unfold plain_key; eauto 6 : respects.

Lemma user_update_safe {A} p (m : User -> ST Sys (User * A)) :
  (forall u, forward (fun s => s) (m u)) -> respects R (user_update p m).
Proof. intros H. unfold user_update. solve_respects. Qed.

Lemma saveNewGrant_safe g : respects R (saveNewGrant g).
Proof. unfold saveNewGrant. solve_respects. Qed.

#[local] Hint Resolve user_update_safe saveNewGrant_safe : respects.

(** ** The use cases *)

Lemma CreateUser_safe c : respects R (CreateUser_Execute c).
Proof. unfold CreateUser_Execute, fail, ok. solve_respects. Qed.

Lemma CreateAuthCode_safe c : respects R (CreateAuthCode_Execute c).
Proof.
  unfold CreateAuthCode_Execute, CreateAuthCode_verifyCredentials, CreateAuthCode_rejectCredentials,
    CreateAuthCode_recordAccountFailure, CreateAuthCode_resetAccountFailures, AuthorizeRequest_BuildRedirectURI,
    fail, ok.
  solve_respects.
Qed.

Lemma UpdateProfile_safe c : respects R (UpdateProfile_Execute c).
Proof. unfold UpdateProfile_Execute, UpdateProfile_checkEmailAvailable, ok. cbv zeta. solve_respects. Qed.

Lemma ForgotPassword_safe c : respects R (ForgotPassword_Execute c).
Proof. unfold ForgotPassword_Execute, ForgotPassword_rateLimited, forgotPasswordRateKey. solve_respects. Qed.

Lemma callback_instant pw vars u s c u' s' :
  ResetPassword_callback pw vars u s = (Ret (c, u', None), s') -> now s <= c.2.
Proof.
  intros H. unfold ResetPassword_callback in H. apply bind_Ret_inv in H as (b & s1 & H1 & H).
  assert (sys_le s s1) as L1.
  { assert (forward (fun s => s) (User_IsResetTokenExpired u)) as Hf by (unfold User_IsResetTokenExpired; solve_respects).
    specialize (Hf s). by rewrite H1 in Hf. }
  destruct b; [done|]. apply bind_Ret_inv in H as ([u1 e] & s2 & H2 & H).
  assert (sys_le s1 s2) as L2.
  { pose proof hashPassword_forward.
    assert (forward (fun s => s) (User_SetPassword pw u)) as Hf by (unfold User_SetPassword; solve_respects).
    specialize (Hf s1). by rewrite H2 in Hf. }
  destruct e as [e|]; [done|]. injection H as <- _ _. simpl. apply (now_mono s s2). etrans; [exact L1|exact L2].
Qed.

Lemma ResetPassword_safe c : respects R (ResetPassword_Execute c).
Proof.
  intros w. unfold ResetPassword_Execute, uow_Do. cbv zeta. unfold bind at 1.
  set (m := ur_UpdateByPasswordResetTokenHash _ _ _).
  assert (respects R (in_users m)) as Hm.
  { apply safe_in_users, updateByReset_forward. auto with respects. }
  specialize (Hm w). destruct (in_users m w) as [[[vars err]|e] w1] eqn:Hrun; [|done].
  destruct err as [e|].
  { destruct (errors_Is e ErrNotFound); [done|]. by destruct (is_ErrorStruct e). }
  assert (now (w_sys w) <= vars.2) as Ht.
  { unfold in_users in Hrun. destruct (m (w_sys w, w_users w)) as [o q] eqn:Hq. injection Hrun as -> _.
    eapply updateByReset_called in Hq as (u & u' & s & s' & L & Hcb & _); [|auto with respects].
    apply callback_instant in Hcb. apply now_mono in L. simpl in *. lia. }
  destruct vars as [userID at_]. simpl in Hm, Ht. unfold bind at 1.
  pose proof (safe_in_rts (rr_RevokeAllForUser userID) (rr_sweepUser_forward userID) w1) as H2.
  destruct (in_rts (rr_RevokeAllForUser userID) w1) as [[e2|e2] w2]; [|by etrans; [exact Hm|exact H2]].
  assert (R w w2) as H02 by (by etrans; [exact Hm|exact H2]).
  pose proof (safe_sessions userID at_ w w2 H02 Ht) as H3. unfold bind.
  by destruct (MarkSessionsInvalidated userID at_ w2) as [[e3|e3] w3].
Qed.

Lemma ExchangeCode_safe c : respects R (ExchangeCode_Execute c).
Proof.
  unfold ExchangeCode_Execute, ExchangeCode_consumeAuthCode, ExchangeCode_redeem, ExchangeCode_issueTokens,
    ExchangeCode_saveRefreshToken, user_deref, fail, ok.
  solve_respects.
Qed.

Lemma RefreshToken_safe c : respects R (RefreshToken_Execute c).
Proof.
  unfold RefreshToken_Execute, RefreshToken_findActiveRefreshToken, RefreshToken_redeem, RefreshToken_rotate,
    RefreshToken_updateRefreshToken, uow_Do, RefreshToken_rotateTx, RefreshToken_checkAndExtendGrant,
    RefreshToken_revokeGrant, RefreshToken_writeRevokedGrantMarker, grant_RevokeNow, user_deref, fail, ok.
  cbv zeta. solve_respects.
Qed.

(** The claims a blacklisting works on come out of the parser. *)
Lemma parse_bind_safe {A} tok (k : option Claims * option goerr -> ST World A) :
  (forall s claims, (ts_ParseJWT tok s).1 = Ret (Some claims, None) -> respects R (k (Some claims, None))) ->
  (forall oc oe, (oc, oe) = (None, None) \/ is_Some oe -> respects R (k (oc, oe))) ->
  respects R (bind (in_sys (ts_ParseJWT tok)) k).
Proof.
  intros Hok Hno w. unfold bind, in_sys. destruct (ts_parse_returns tok (w_sys w)) as (r & s' & Hr & L). rewrite Hr.
  transitivity (upd_sys s' w); [by apply safe_frame|]. destruct r as [[claims|] [e|]].
  - apply Hno. right. eauto.
  - apply (Hok (w_sys w)). by rewrite Hr.
  - apply Hno. right. eauto.
  - apply Hno. by left.
Qed.

Lemma RevokeToken_blacklist_safe tok caller : respects R (RevokeToken_blacklistAccessToken tok caller).
Proof.
  unfold RevokeToken_blacklistAccessToken. apply parse_bind_safe.
  - intros s claims Hp. destruct (cl_ExpiresAt claims) as [exp|] eqn:He.
    + pose proof (safe_blacklist tok s claims exp Hp He). solve_respects.
    + solve_respects.
  - intros [claims|] [e|] [?|[? ?]]; try done; solve_respects.
Qed.

Lemma Logout_revoke_safe tok : respects R (Logout_revokeIfAuthenticated tok).
Proof.
  unfold Logout_revokeIfAuthenticated. destruct tok as [tok|]; [|solve_respects]. apply parse_bind_safe.
  - intros s claims Hp. unfold Logout_blacklistAccessToken, Logout_revokeGrantTokens, Logout_revokeGrant, grant_RevokeNow.
    destruct (cl_ExpiresAt claims) as [exp|] eqn:He.
    + pose proof (safe_blacklist tok s claims exp Hp He). solve_respects.
    + solve_respects.
  - intros [claims|] [e|] [?|[? ?]]; try done; solve_respects.
Qed.

#[local] Hint Resolve RevokeToken_blacklist_safe Logout_revoke_safe : respects.

Lemma revokeConfirmed_safe rt : respects R (RevokeToken_revokeConfirmedRefreshToken rt).
Proof. unfold RevokeToken_revokeConfirmedRefreshToken, RevokeToken_cascade, grant_RevokeNow. cbv zeta. solve_respects. Qed.

#[local] Hint Resolve revokeConfirmed_safe : respects.

Lemma RevokeToken_safe c : respects R (RevokeToken_Execute c).
Proof.
  unfold RevokeToken_Execute, RevokeToken_accessFirst, RevokeToken_refreshFirst, RevokeToken_revokeOwned, fail.
  cbv zeta. solve_respects.
Qed.

Lemma Logout_safe c : respects R (Logout_Execute c).
Proof. unfold Logout_Execute, ok. cbv zeta. solve_respects. Qed.

Lemma GetToken_safe q : respects R (GetToken_Execute q).
Proof. unfold GetToken_Execute, GetToken_loginSucceeded, GetToken_issue, fail, ok. cbv zeta. solve_respects. Qed.

Lemma Authorize_safe q : respects R (Authorize_Execute q).
Proof. unfold Authorize_Execute, fail, ok. cbv zeta. solve_respects. Qed.

Lemma GetSignIn_safe id : respects R (GetSignIn_Execute id).
Proof. unfold GetSignIn_Execute, fail, ok. solve_respects. Qed.

Lemma GetProfile_safe id : respects R (GetProfile_Execute id).
Proof. unfold GetProfile_Execute, fail, ok. solve_respects. Qed.

Lemma Introspect_safe q : respects R (Introspect_Execute q).
Proof. unfold Introspect_Execute, Introspect_revoked, fail, ok. solve_respects. Qed.

#[local] Hint Resolve CreateUser_safe CreateAuthCode_safe UpdateProfile_safe ForgotPassword_safe ResetPassword_safe
  ExchangeCode_safe RefreshToken_safe RevokeToken_safe Logout_safe GetToken_safe Authorize_safe GetSignIn_safe
  GetProfile_safe Introspect_safe : respects.

Lemma registry_safe cmd : respects R (registry_Execute cmd).
Proof. destruct cmd; simpl; unfold GetDiscovery_Execute, GetJWKS_Execute, ok; cbv zeta; solve_respects. Qed.

#[export] Instance safe_served : Served R.
Proof.
  split; [exact _|..].
  - apply registry_safe.
  - intros A m. apply safe_in_sys.
  - apply safe_counter.
  - intros A k d. apply safe_getErr.
  - intros ip window. apply safe_incr. right. right. right. by exists ip.
Qed.

End Handlers.

(** ** Middleware and requests *)

Section Requests.
  Context {E : Env} {TS : TokenServiceI} {TL : TokenServiceLaws E TS} {D : Deps} {SV : StructValidator}.
  Context {CI : CacheI} {UI : UserRepoI} {GI : GrantRepoI} {RI : RefreshTokenRepoI}.
  Context (R : relation World) {SR : Served R}.

#[local] Hint Resolve served_registry served_sys served_counter served_getErr served_incr : respects.
#[local] Hint Extern 0 (Served _) => exact _ : respects.

Lemma dispatch_safe validate cmd : respects R (Module_Dispatch validate cmd).
Proof.
  assert (respects R (Registry_Dispatch validate cmd)).
  { intros w. unfold Registry_Dispatch. destruct (validate cmd) as [e|]; [reflexivity|].
    pose proof (served_registry cmd w). by destruct (registry_Execute cmd w) as [[r|msg] w']. }
  unfold Module_Dispatch, Module_observeMetrics. solve_respects.
Qed.

Lemma verifyBearer_safe x : respects R (verifyBearer x).
Proof. unfold verifyBearer, revocationChecker_IsRevoked. solve_respects. Qed.

#[local] Hint Resolve dispatch_safe verifyBearer_safe : respects.

(** The handlers a route of the server is made of: the middlewares, the dispatch
    of a command with whatever is made of its result, changes to the request
    context alone, and a choice among these by the context. *)
Inductive server_handler : Handler -> Prop :=
| sh_secure : server_handler SecurityHeaders
| sh_cookie b : server_handler (CookieSecure b)
| sh_limit limit window : server_handler (DistributedRateLimit limit window)
| sh_errors : server_handler OAuth2Errors
| sh_grant allowed : server_handler (GrantType allowed)
| sh_client : server_handler ExtractClientCredentials
| sh_token : server_handler ExtractAccessToken
| sh_auth : server_handler Authenticate
| sh_optional : server_handler AuthenticateOptional
| sh_handle validate cmd html : server_handler (handle validate cmd html)
| sh_dispatch validate cmd (respond : Response -> option goerr -> Ctx -> Ctx) :
    server_handler (fun x => ' (result, err) ← Module_Dispatch validate cmd; mret (respond result err x))
| sh_request_id : server_handler RequestID
| sh_pure (f : Ctx -> Ctx) : server_handler (fun x => mret (f x))
| sh_choice (h : Handler) (choose : Ctx -> Handler) :
    (forall x, server_handler (choose x)) -> (forall x w, h x w = choose x x w) -> server_handler h.

Lemma handler_safe h x : server_handler h -> respects R (h x).
Proof.
  intros Hh. revert x. induction Hh as [| | | | | | | | | | | | |h choose Hc IH Heq]; intros x;
    [..|intros w; rewrite Heq; apply IH]; unfold RequestID, SecurityHeaders, CookieSecure, DistributedRateLimit, OAuth2Errors, GrantType,
    ExtractClientCredentials, ExtractAccessToken, Authenticate, AuthenticateOptional, handle; cbv zeta;
    solve_respects.
Qed.

Lemma chain_safe hs x : Forall server_handler hs -> respects R (run_chain hs x).
Proof.
  intros Hs. revert x. induction Hs as [|h hs Hh _ IH]; intros x; simpl; [solve_respects|].
  pose proof (handler_safe h x Hh). solve_respects.
Qed.

(** What the server does to its state: requests, one after the other, each a
    chain of handlers; between them time passes, and the cache may drop what has
    expired. *)
Inductive serves (w : World) : World -> Prop :=
| serves_nothing : serves w w
| serves_request hs x w1 :
    serves w w1 -> Forall server_handler hs -> serves w (run_chain hs x w1).2
| serves_pause w1 s c :
    serves w w1 -> sys_le (w_sys w1) s -> same_but_expired (now s) (w_cache w1) c ->
    serves w (upd_cache (s, c) w1).

Lemma serves_safe w w' :
  (forall w1 s c, sys_le (w_sys w1) s -> same_but_expired (now s) (w_cache w1) c -> R w1 (upd_cache (s, c) w1)) ->
  serves w w' -> R w w'.
Proof.
  intros Hp. induction 1 as [|hs x w1 _ IH Hs|w1 s c _ IH L Hs]; [reflexivity| |].
  - etrans; [exact IH|]. by apply chain_safe.
  - etrans; [exact IH|]. by apply Hp.
Qed.

End Requests.

(** ** Revocations last *)

Section Lasting.
  Context {E : Env} {CM : ClockMono E} {TS : TokenServiceI} {TL : TokenServiceLaws E TS}.
  Context {D : Deps} {SV : StructValidator}.
  Context {CI : CacheI} {CL : CacheLaws E CI} {UI : UserRepoI} {GI : GrantRepoI} {RI : RefreshTokenRepoI}.
  Context {PF : PortsForward UI GI RI}.

(** Time moves on; and while it has not reached [T], a key present until [T]
    stays so.  [P] is what is known of the instants in between. *)
Definition lasts (P : Z -> Prop) (Q : cacheVal -> Prop) (T : Z) (k : string) (w w' : World) : Prop :=
  sys_le (w_sys w) (w_sys w') /\
  (P (now (w_sys w)) -> now (w_sys w') < T -> until Q T k (w_cache w) -> until Q T k (w_cache w')).

  Context (P : Z -> Prop) (HP : forall t t', t <= t' -> P t -> P t').
  Context (Q : cacheVal -> Prop) (T : Z) (k : string).

#[export] Instance lasts_preorder : PreOrder (lasts P Q T k).
Proof.
  split; [by intros w; split|]. intros w1 w2 w3 [L1 H1] [L2 H2]. split; [etrans; [exact L1|exact L2]|].
  intros HP1 HT Hu. pose proof (now_mono _ _ L1). pose proof (now_mono _ _ L2).
  apply H2; [by eapply HP|done|]. apply H1; [done|lia|done].
Qed.

Lemma lasts_same w w' :
  sys_le (w_sys w) (w_sys w') -> cache_entry (w_cache w') k = cache_entry (w_cache w) k -> lasts P Q T k w w'.
Proof. intros L He. split; [done|]. intros _ _. unfold until. by rewrite He. Qed.

Lemma lasts_expired w s c :
  sys_le (w_sys w) s -> same_but_expired (now s) (w_cache w) c -> lasts P Q T k w (upd_cache (s, c) w).
Proof.
  intros L Hs. split; [done|]. intros _ HT (v & x & He & HQ & Hx). simpl in *.
  destruct (Hs k) as [Hk|(_ & v' & e & Hk & Hlt)]; [exists v, x; by rewrite Hk|].
  rewrite He in Hk. injection Hk as <- ->. specialize (Hx e eq_refl). lia.
Qed.

Lemma lasts_getErr A k' (d : dest A) : respects (lasts P Q T k) (in_cache (cache_GetErr k' d)).
Proof.
  intros w. unfold in_cache. destruct (cache_GetErr k' d (w_sys w, w_cache w)) as [o [s c]] eqn:Hrun.
  destruct (wp_run _ _ _ _ _ Hrun (getErr_law _ _ _ (w_sys w) (w_cache w))) as (L & Hs & _). by apply lasts_expired.
Qed.

Lemma lasts_set_other k' v ttl : k <> k' -> respects (lasts P Q T k) (in_cache (cache_Set k' v ttl)).
Proof.
  intros Hk w. unfold in_cache. destruct (cache_Set k' v ttl (w_sys w, w_cache w)) as [o [s c]] eqn:Hrun.
  destruct (wp_run _ _ _ _ _ Hrun (set_law _ _ _ (w_sys w) (w_cache w))) as (L & Hs & _). by apply lasts_same, Hs.
Qed.

Lemma lasts_take_other A k' (d : dest A) : k <> k' -> respects (lasts P Q T k) (in_cache (cache_GetAndDelete k' d)).
Proof.
  intros Hk w. unfold in_cache. destruct (cache_GetAndDelete k' d (w_sys w, w_cache w)) as [o [s c]] eqn:Hrun.
  destruct (wp_run _ _ _ _ _ Hrun (getAndDelete_law _ _ _ (w_sys w) (w_cache w))) as (L & Hs & _). by apply lasts_same, Hs.
Qed.

Lemma lasts_incr_other k' window : k <> k' -> respects (lasts P Q T k) (in_cache (cache_IncrWindow k' window)).
Proof.
  intros Hk w. unfold in_cache. destruct (cache_IncrWindow k' window (w_sys w, w_cache w)) as [o [s c]] eqn:Hrun.
  destruct (wp_run _ _ _ _ _ Hrun (incrWindow_law _ _ (w_sys w) (w_cache w))) as (L & Hs & _). by apply lasts_same, Hs.
Qed.

(** Writing the key itself, with a lifetime that reaches [T]. *)
Lemma lasts_set_self v d w :
  (P (now (w_sys w)) -> now (w_sys (in_cache (cache_Set k v (Some d)) w).2) < T ->
     Q v /\ 0 < d /\ T <= now (w_sys w) + d) ->
  lasts P Q T k w (in_cache (cache_Set k v (Some d)) w).2.
Proof.
  unfold in_cache. destruct (cache_Set k v (Some d) (w_sys w, w_cache w)) as [o [s c]] eqn:Hrun. simpl.
  destruct (wp_run _ _ _ _ _ Hrun (set_law _ _ _ (w_sys w) (w_cache w))) as (L & Hs & err & _ & Hw).
  intros Hd. split; [done|]. intros HP1 HT Hu. simpl in *.
  destruct Hw as [(x & Hx & Hexp)|[_ He]]; [|unfold until in *; by rewrite He].
  destruct (Hd HP1 HT) as (HQ & Hpos & Hle). destruct (Hexp d eq_refl Hpos) as (t & Ht & ->).
  exists v, (Some (t + d)). split_and!; [done..|]. intros e [= <-]. lia.
Qed.

End Lasting.

Ltac plain_ne := let H := fresh in intros [[? ->]|[[? ->]|[[? ->]|[? ->]]]] H; revert H; key_ne.

Section Final.
  Context {E : Env} {CM : ClockMono E} {TS : TokenServiceI} {TL : TokenServiceLaws E TS}.
  Context {D : Deps} {SV : StructValidator}.
  Context {CI : CacheI} {CL : CacheLaws E CI} {UI : UserRepoI} {UL : UserRepoLaws E UI}.
  Context {GI : GrantRepoI} {GL : GrantRepoLaws E GI} {RI : RefreshTokenRepoI} {RL : RefreshTokenRepoLaws E RI}.
  Context {PF : PortsForward UI GI RI}.

(** No request makes a grant marker end before the tokens it is for. *)
Lemma grant_marker_safe gid T :
  Safe (lasts (fun t => T <= t + RevokedGrantMarkerTTL) any_value T (RevokedGrantKey gid)).
Proof.
  split.
  - apply lasts_preorder. lia.
  - intros w w' L Hc. apply lasts_same; [done|]. by rewrite Hc.
  - intros. apply lasts_getErr.
  - intros k v ttl Hk. apply lasts_set_other. revert Hk. plain_ne.
  - intros A k d Hk. apply lasts_take_other. revert Hk. plain_ne.
  - intros k window Hk. apply lasts_incr_other. revert Hk. plain_ne.
  - intros gid'. destruct (decide (RevokedGrantKey gid = RevokedGrantKey gid')) as [Heq|Hne]; [|by apply lasts_set_other].
    intros w. unfold MarkGrantRevoked. rewrite <- Heq. by apply lasts_set_self.
  - intros uid t w0 w H0 _. eapply lasts_preorder; [lia|exact H0|]. apply lasts_set_other. key_ne.
  - intros tok s claims exp _ _. unfold BlacklistJTI. apply respects_bind; [apply lasts_preorder; lia| |].
    + intros w. apply lasts_same; [apply sys_le_tick|done].
    + intros t. apply lasts_set_other. key_ne.
Qed.

(** In particular no request sets the clock back. *)
#[export] Instance time_safe : Safe (fun w w' : World => sys_le (w_sys w) (w_sys w')).
Proof.
  destruct (grant_marker_safe "" 0) as [_ _ H1 H2 H3 H4 H5 _ H7].
  split; [apply forward_preorder|done|..].
  - intros A k d w. apply H1.
  - intros k v ttl Hk w. by apply H2.
  - intros A k d Hk w. by apply H3.
  - intros k window Hk w. by apply H4.
  - intros gid w. apply H5.
  - intros uid t w0 w L _. etrans; [exact L|].
    apply (lasts_set_other (fun _ => True) any_value 0 (RevokedGrantKey "")). key_ne.
  - intros tok s claims exp Hp He w. by eapply H7.
Qed.

(** Nor does any request take a token off the blacklist, when tokens with the
    same identifier expire together. *)
Lemma blacklist_safe jti exp :
  (forall tok s claims, (ts_ParseJWT tok s).1 = Ret (Some claims, None) -> cl_ID claims = jti ->
     cl_ExpiresAt claims = Some exp) ->
  Safe (lasts (fun _ => True) any_value exp (BlacklistKey jti)).
Proof.
  intros Huniq.
  assert (PreOrder (lasts (fun _ => True) any_value exp (BlacklistKey jti))) as HPre by (by apply lasts_preorder).
  split; [exact HPre|..].
  - intros w w' L Hc. apply lasts_same; [done|]. by rewrite Hc.
  - intros. apply lasts_getErr.
  - intros k v ttl Hk. apply lasts_set_other. revert Hk. plain_ne.
  - intros A k d Hk. apply lasts_take_other. revert Hk. plain_ne.
  - intros k window Hk. apply lasts_incr_other. revert Hk. plain_ne.
  - intros gid. apply lasts_set_other. key_ne.
  - intros uid t w0 w H0 _. etrans; [exact H0|]. apply lasts_set_other. key_ne.
  - intros tok s claims exp' Hp He w. unfold BlacklistJTI.
    rewrite (bind_run _ _ w (now (w_sys w)) (upd_sys (tick (w_sys w)) w)) by done.
    etrans; [apply (lasts_same _ _ _ _ w (upd_sys (tick (w_sys w)) w)); [apply sys_le_tick|done]|].
    destruct (decide (BlacklistKey jti = BlacklistKey (cl_ID claims))) as [Heq|Hne]; [|by apply lasts_set_other].
    rewrite <- Heq. apply (inj (String.append "blacklist:")) in Heq.
    rewrite (Huniq tok s claims Hp (eq_sym Heq)) in He. injection He as <-. apply lasts_set_self.
    intros _ HT. set (w1 := upd_sys _ w) in *.
    assert (now (w_sys w) <= now (tick (w_sys w))) by (apply now_mono, sys_le_tick).
    assert (now (w_sys w1) <= now (w_sys (in_cache (cache_Set (BlacklistKey jti) (VBool true)
      (Some (exp - now (w_sys w)))) w1).2)).
    { apply now_mono. unfold in_cache. destruct (cache_Set _ _ _ (w_sys w1, w_cache w1)) as [o [s2 c2]] eqn:Hrun.
      by destruct (wp_run _ _ _ _ _ Hrun (set_law _ _ _ (w_sys w1) (w_cache w1))). }
    split; [done|]. simpl in *. lia.
Qed.

Lemma session_bound_mono n T t t' :
  t <= t' -> n <= time_Unix t /\ T <= t + SessionsInvalidationTTL ->
  n <= time_Unix t' /\ T <= t' + SessionsInvalidationTTL.
Proof. intros Ht [H1 H2]. split; [|lia]. etrans; [exact H1|by apply time_Unix_mono]. Qed.

(** Nor does any request bring a user's sessions back: a later reset records a
    later instant. *)
Lemma session_marker_safe uid n T :
  Safe (lasts (fun t => n <= time_Unix t /\ T <= t + SessionsInvalidationTTL) (not_before n) T
          (SessionsInvalidatedKey uid)).
Proof.
  pose proof (session_bound_mono n T) as HP. set (P := fun t => _) in *.
  assert (PreOrder (lasts P (not_before n) T (SessionsInvalidatedKey uid))) as HPre by (by apply lasts_preorder).
  split; [exact HPre|..].
  - intros w w' L Hc. apply lasts_same; [done|]. by rewrite Hc.
  - intros. apply lasts_getErr.
  - intros k v ttl Hk. apply lasts_set_other. revert Hk. plain_ne.
  - intros A k d Hk. apply lasts_take_other. revert Hk. plain_ne.
  - intros k window Hk. apply lasts_incr_other. revert Hk. plain_ne.
  - intros gid. apply lasts_set_other. key_ne.
  - intros uid' t w0 w H0 Ht.
    destruct (decide (SessionsInvalidatedKey uid = SessionsInvalidatedKey uid')) as [Heq|Hne];
      [|etrans; [exact H0|by apply lasts_set_other]].
    unfold MarkSessionsInvalidated. rewrite <- Heq. destruct H0 as [L0 H0].
    pose proof (lasts_set_self (fun t0 => P t0 /\ n <= time_Unix t) (not_before n) T (SessionsInvalidatedKey uid)
      (VInt64 (time_Unix t)) SessionsInvalidationTTL w) as [L1 H1].
    { intros [[_ H2] H3] _. split; [by eexists|]. done. }
    split; [etrans; [exact L0|exact L1]|]. intros HP0 HT Hu. pose proof (now_mono _ _ L0). pose proof (now_mono _ _ L1).
    apply H1; [|done|apply H0; [done|lia|done]]. split; [by eapply HP|].
    etrans; [apply HP0|by apply time_Unix_mono].
  - intros tok s claims exp _ _. unfold BlacklistJTI. apply respects_bind; [done| |].
    + intros w. apply lasts_same; [apply sys_le_tick|done].
    + intros t. apply lasts_set_other. key_ne.
Qed.

Lemma serves_lasts P Q T k w w' :
  (forall t t', t <= t' -> P t -> P t') -> Safe (lasts P Q T k) -> serves w w' -> lasts P Q T k w w'.
Proof. intros HP HS. apply (serves_safe _ (SR := safe_served _)). intros w1 s c L Hs. by apply lasts_expired. Qed.

(** C1: Once a grant has ended, no access token issued under it before is accepted
    again, whatever requests the server serves in between: every request that
    presents one is refused until the token's lifetime is over. *)
Theorem ended_grant_stays_ended (gid userID scope tok : string) (secs : Z) (s0 s1 since : Sys)
    (x : Ctx) (w w2 : World) :
  ts_GenAccessToken userID scope gid secs s0 = (Ret (tok, None), s1) -> 0 <= secs <= 86400 -> gid <> "" ->
  sys_le s0 since -> grant_ended gid since w -> sys_le since (w_sys w) -> serves w w2 ->
  extractBearerToken (x_Authorization x) = (tok, true) ->
  (verifyBearer x w2).1 = Ret None \/ now s0 + secs * Second <= now (w_sys (verifyBearer x w2).2).
Proof.
  intros Hgen Hsecs Hg L0 (_ & _ & e & He & Hlong) L1 Hserve Hx.
  set (T := now s0 + secs * Second) in *.
  destruct (serves_lasts (fun t => T <= t + RevokedGrantMarkerTTL) any_value T _ w w2 ltac:(cbv beta; lia) (grant_marker_safe gid T) Hserve)
    as [L2 Hlast].
  pose proof (now_mono _ _ L0). pose proof (now_mono _ _ L1).
  assert (T <= now since + RevokedGrantMarkerTTL).
  { assert (RevokedGrantMarkerTTL = 86400 * Second) as -> by done. unfold T, Second. lia. }
  destruct (Z.lt_ge_cases (now (w_sys w2)) T) as [Hlt|Hge].
  - destruct (grant_marker_denies gid userID scope tok secs s0 s1 x w2 Hgen Hsecs Hg) as [Hno|Hno]; try done.
    + etrans; [exact L0|]. etrans; [exact L1|exact L2].
    + apply Hlast; [lia|done|]. eexists _, _. split; [exact He|]. split; [done|]. intros ? [= <-]. lia.
    + by left.
    + right. lia.
  - right. etrans; [exact Hge|]. apply now_mono. exact (proj1 (verifyBearer_safe _ (SR := safe_served _ (SR := grant_marker_safe gid T)) x w2)).
Qed.

(** C7: Logout.  A caller that presents a valid access token is logged out for good:
    the answer never fails and never redirects outside the allowlist, the grant
    has ended, and whatever requests the server serves afterwards, the token
    itself is refused until it expires.  (The backends are assumed to answer,
    and tokens with the same identifier to expire together.) *)
Theorem logout_ends_session (c : LogoutCommand) (tok : string) (claims : Claims) (exp : Z) (w : World) :
  (GrantRepoReliable GI /\ RefreshTokenRepoReliable RI /\ CacheReliable CI) ->
  (forall tok' s c', (ts_ParseJWT tok' s).1 = Ret (Some c', None) -> cl_ID c' = cl_ID claims ->
     cl_ExpiresAt c' = Some exp) ->
  world_inv w -> lc_AccessToken c = Some tok ->
  (ts_ParseJWT tok (w_sys w)).1 = Ret (Some claims, None) -> cl_ID claims <> "" -> cl_GrantID claims <> "" ->
  exists u w', Logout_Execute c w = (Ret (RLogout u, None), w') /\
    (u = "" \/ u ∈ d_PostLogoutRedirectAllowlist) /\
    (exists s1, sys_le (w_sys w) s1 /\ grant_ended (cl_GrantID claims) s1 w') /\
    forall x w2, serves w' w2 -> extractBearerToken (x_Authorization x) = (tok, true) ->
      (verifyBearer x w2).1 = Ret None \/ exp < now (w_sys (verifyBearer x w2).2).
Proof.
  intros Rel Huniq Hinv Htok Hp Hid Hg. pose proof (Huniq _ _ _ Hp eq_refl) as Hexp.
  destruct (logout_spec c tok claims exp w Rel Hinv Htok Hp Hid Hg Hexp) as (u & w' & Hrun & Hu & Hend & Hbl).
  exists u, w'. split_and!; try done. intros x w2 Hserve Hx.
  destruct (serves_lasts (fun _ => True) any_value exp _ w' w2 ltac:(done) (blacklist_safe (cl_ID claims) exp Huniq) Hserve)
    as [L Hlast].
  destruct (Z.lt_ge_cases (now (w_sys w2)) exp) as [Hlt|Hge]; [|left; by eapply expired_denies].
  eapply blacklisted_denies; [exact Hp|exact Hx|]. apply Hlast; [done..|].
  destruct Hbl as [Hpast|(d & Hd & Hle)]; [apply now_mono in L; lia|].
  eexists _, _. split; [exact Hd|]. split; [done|]. by intros ? [= <-].
Qed.

(** C8: Password reset, seen from the outside: once a user's sessions were ended at
    some instant, no access token the user was issued before is accepted again,
    whatever requests the server serves in between, until it expires. *)
Theorem ended_sessions_stay_ended (gid userID scope tok : string) (secs at_ : Z) (s0 s1 : Sys)
    (x : Ctx) (w w2 : World) :
  ts_GenAccessToken userID scope gid secs s0 = (Ret (tok, None), s1) -> 0 <= secs <= 86400 ->
  sys_le s0 (w_sys w) -> now s0 <= at_ <= now (w_sys w) -> sessions_ended userID at_ w -> serves w w2 ->
  extractBearerToken (x_Authorization x) = (tok, true) ->
  (verifyBearer x w2).1 = Ret None \/ now s0 + secs * Second <= now (w_sys (verifyBearer x w2).2).
Proof.
  intros Hgen Hsecs L0 Hat (_ & e & He & Hlong) Hserve Hx. set (T := now s0 + secs * Second) in *.
  pose proof (session_marker_safe userID (time_Unix (now s0)) T) as HS.
  destruct (serves_lasts _ (not_before (time_Unix (now s0))) T _ w w2 (session_bound_mono _ T) HS Hserve) as [L2 Hlast].
  assert (T <= at_ + SessionsInvalidationTTL).
  { assert (SessionsInvalidationTTL = 86400 * Second) as -> by done. unfold T, Second. lia. }
  destruct (Z.lt_ge_cases (now (w_sys w2)) T) as [Hlt|Hge].
  - destruct (session_marker_denies gid userID scope tok secs s0 s1 x w2 Hgen Hsecs) as [Hno|Hno]; try done.
    + etrans; [exact L0|exact L2].
    + apply Hlast; [split; [apply time_Unix_mono; lia|lia]|done|].
      eexists _, _. split; [exact He|]. split; [|intros ? [= <-]; lia]. eexists. split; [reflexivity|].
      apply time_Unix_mono. lia.
    + by left.
    + right. lia.
  - right. etrans; [exact Hge|]. apply now_mono. exact (proj1 (verifyBearer_safe _ (SR := safe_served _ (SR := HS)) x w2)).
Qed.

End Final.
