(* ===== verification/Invariant.v ===== *)
(** * The invariant of the stored data

    Users, grants and refresh tokens refer to each other.  [consistent] says that
    the references are good - a refresh token belongs to a stored grant of the
    same user and client that outlives it, a grant to a stored user - and that
    nothing the environment hands out from now on is in use already.  Every
    request keeps it, whatever its outcome, so it holds in every state the server
    reaches; the hypotheses of the theorems about single requests follow. *)

From S2P Require Import Prelude GoStd Crypto Errors Env Scope User Token Client AuthFlow Jwt Cache Ports Frame Services Responses CmdTokens CmdUsers Queries TokenFlow Web WebFlow LoginFlow AccountFlow System.

Local Open Scope Z_scope.

(** Secrets generated one after the other have different hashes. *)
Class SecretsDistinct (E : Env) (TS : TokenServiceI) := {
  refresh_distinct : forall uid1 uid2 s1 s1' s2 s2' tok1 tok2,
    ts_GenRefreshToken uid1 s1 = (Ret (tok1, None), s1') -> sys_le s1' s2 ->
    ts_GenRefreshToken uid2 s2 = (Ret (tok2, None), s2') -> Hash tok1 <> Hash tok2;
  reset_distinct : forall s1 s1' s2 s2' tok1 tok2,
    GeneratePasswordResetToken s1 = (Ret (tok1, None), s1') -> sys_le s1' s2 ->
    GeneratePasswordResetToken s2 = (Ret (tok2, None), s2') -> Hash tok1 <> Hash tok2;
}.

(** ** Consistent data *)

Section Consistent.
  Context {E : Env} {CM : ClockMono E} {UF : UuidFresh E} {TS : TokenServiceI} {SD : SecretsDistinct E TS}.

(** Not handed out from [s] on: as an identifier, as a refresh token, as a reset
    token. *)
Definition unused_id (s : Sys) (id : string) : Prop :=
  forall n, (n_uuid s <= n)%nat -> id <> uuid_NewString n.
Definition unused_refresh (s : Sys) (h : string) : Prop :=
  forall uid s1 tok s2, sys_le s s1 -> ts_GenRefreshToken uid s1 = (Ret (tok, None), s2) -> h <> Hash tok.
Definition unused_reset (s : Sys) (h : string) : Prop :=
  forall s1 tok s2, sys_le s s1 -> GeneratePasswordResetToken s1 = (Ret (tok, None), s2) -> h <> Hash tok.

Definition user_ok (s : Sys) (u : User) : Prop :=
  u_TenantID u = DefaultTenantID /\ unused_id s (u_ID u) /\
  forall h, u_PasswordResetTokenHash u = Some h -> unused_reset s h.

Definition grant_ok (s : Sys) (U : gmap string User) (g : Grant) : Prop :=
  unused_id s (g_ID g) /\ is_Some (U !! g_UserID g).

(** The grant of a refresh token. *)
Definition covers (g : Grant) (x : RefreshToken) : Prop :=
  g_UserID g = rt_UserID x /\ g_ClientID g = rt_ClientID x /\ rt_ExpiresAt x <= g_ExpiresAt g.

Definition row_ok (s : Sys) (G : gmap string Grant) (x : RefreshToken) : Prop :=
  unused_id s (rt_ID x) /\ unused_refresh s (rt_TokenHash x) /\ rt_GrantID x <> "" /\
  rt_ExpiresAt x <= now s + RefreshTokenTTL /\ exists g, G !! rt_GrantID x = Some g /\ covers g x.

Record consistent (s : Sys) (U : gmap string User) (G : gmap string Grant) (R : gmap string RefreshToken) : Prop := {
  co_users : forall id u, U !! id = Some u -> user_ok s u;
  co_grants : forall id g, G !! id = Some g -> grant_ok s U g;
  co_rows : forall id x, R !! id = Some x -> row_ok s G x;
}.

Lemma unused_id_later s s' id : sys_le s s' -> unused_id s id -> unused_id s' id.
Proof. intros L H n Hn. apply H. sys_lia. Qed.
Lemma unused_refresh_later s s' h : sys_le s s' -> unused_refresh s h -> unused_refresh s' h.
Proof. intros L H uid s1 tok s2 L1. apply H. by etrans. Qed.
Lemma unused_reset_later s s' h : sys_le s s' -> unused_reset s h -> unused_reset s' h.
Proof. intros L H s1 tok s2 L1. apply H. by etrans. Qed.

#[local] Hint Resolve unused_id_later unused_refresh_later unused_reset_later : core.

Lemma drawn_id n s : (n < n_uuid s)%nat -> unused_id s (uuid_NewString n).
Proof. intros Hn m Hm Heq. apply uuid_inj in Heq. lia. Qed.

Lemma user_ok_later s s' u : sys_le s s' -> user_ok s u -> user_ok s' u.
Proof. intros L (Ht & Hid & Hr). split_and!; eauto. Qed.

Lemma row_ok_later s s' G x : sys_le s s' -> row_ok s G x -> row_ok s' G x.
Proof.
  intros L (Hid & Hh & Hg & Hexp & Hc). split_and!; eauto. pose proof (now_mono _ _ L). lia.
Qed.

Lemma consistent_later s s' U G R : sys_le s s' -> consistent s U G R -> consistent s' U G R.
Proof.
  intros L [HU HG HR]. split.
  - intros id u Hu. eauto using user_ok_later.
  - intros id g Hg. destruct (HG id g Hg) as [Hid Hu]. split; eauto.
  - intros id x Hx. eauto using row_ok_later.
Qed.

Lemma same_user_ok s u u' : user_same u u' -> user_ok s u -> user_ok s u'.
Proof. intros (Hid & Ht & _ & Hr) (H1 & H2 & H3). unfold user_ok. by rewrite Hid, Ht, Hr. Qed.

Lemma consistent_users s U U' G R : users_evolve U U' -> consistent s U G R -> consistent s U' G R.
Proof.
  intros Hev [HU HG HR]. split; [|intros id g Hg|done].
  - intros id u' Hu'. specialize (Hev id). rewrite Hu' in Hev. inversion Hev as [u ? Hs Hu|]; subst.
    eapply same_user_ok; [exact Hs|]. by eapply HU.
  - destruct (HG id g Hg) as [Hid [u Hu]]. split; [done|]. specialize (Hev (g_UserID g)). rewrite Hu in Hev.
    by inversion Hev.
Qed.

(** A user stored under its id, replacing the one that was there, if any. *)
Lemma consistent_put_user s U G R u : user_ok s u -> consistent s U G R -> consistent s (<[u_ID u := u]> U) G R.
Proof.
  intros Hok [HU HG HR]. split; [|intros id g Hg|done].
  - intros id u' [[_ <-]|[_ Hu']]%lookup_insert_Some; [done|by eapply HU].
  - destruct (HG id g Hg) as [Hid Hu]. split; [done|]. rewrite lookup_insert_is_Some'. by right.
Qed.

(** Grants of the same user and client that cover what was covered. *)
Lemma consistent_put_grant s U G R g :
  grant_ok s U g -> (forall id x, R !! id = Some x -> rt_GrantID x = g_ID g -> covers g x) ->
  consistent s U G R -> consistent s U (<[g_ID g := g]> G) R.
Proof.
  intros Hok Hcov [HU HG HR]. split; [done| |].
  - intros id g' [[_ <-]|[_ Hg']]%lookup_insert_Some; [done|by eapply HG].
  - intros id x Hx. destruct (HR id x Hx) as (H1 & H2 & H3 & H4 & g' & Hg' & Hc). split_and!; try done.
    destruct (decide (g_ID g = rt_GrantID x)) as [Heq|Hne].
    + exists g. rewrite Heq, lookup_insert_eq. split; [done|]. by eapply Hcov.
    + exists g'. by rewrite lookup_insert_ne.
Qed.

(** An identifier just drawn names no grant. *)
Lemma new_grant_id s U G R n : consistent s U G R -> (n_uuid s <= n)%nat ->
  (forall id g, G !! id = Some g -> g_ID g = id) -> G !! uuid_NewString n = None.
Proof.
  intros [_ HG _] Hn Hid. destruct (G !! uuid_NewString n) as [g|] eqn:Hg; [|done].
  destruct (HG _ _ Hg) as [Hun _]. destruct (Hun n Hn). by apply Hid.
Qed.

(** Rows that changed at most by a revocation. *)
Definition row_same (x x' : RefreshToken) : Prop := x' = set_rt_RevokedAt (rt_RevokedAt x') x.
Definition rows_revoked (m m' : gmap string RefreshToken) : Prop :=
  forall id, option_Forall2 row_same (m !! id) (m' !! id).

#[export] Instance row_same_refl : Reflexive row_same.
Proof. by intros []. Qed.

Lemma consistent_revoked s U G R R' : rows_revoked R R' -> consistent s U G R -> consistent s U G R'.
Proof.
  intros Hev [HU HG HR]. split; [done..|]. intros id x' Hx'. specialize (Hev id). rewrite Hx' in Hev.
  inversion Hev as [x ? Hs Hx|]; subst. rewrite Hs. exact (HR id x (eq_sym Hx)).
Qed.

Lemma consistent_put_row s U G R x : row_ok s G x -> consistent s U G R -> consistent s U G (<[rt_ID x := x]> R).
Proof.
  intros Hok [HU HG HR]. split; [done..|].
  intros id x' [[_ <-]|[_ Hx']]%lookup_insert_Some; [done|by eapply HR].
Qed.

Lemma revoke_revoked h lo hi R R' e : revoke_rows h lo hi R R' e -> rows_revoked R R'.
Proof.
  destruct e as [err|]; simpl.
  - intros (-> & _) id. reflexivity.
  - intros (x & t & Hx & _ & _ & _ & _ & ->) id. destruct (decide (rt_ID x = id)) as [<-|Hne].
    + rewrite Hx, lookup_insert_eq. by constructor.
    + by rewrite lookup_insert_ne.
Qed.

End Consistent.

(** ** Keeping it *)

Section Keep.
  Context {E : Env} {CM : ClockMono E} {UF : UuidFresh E} {BS : BcryptSpec E}.
  Context {TS : TokenServiceI} {TL : TokenServiceLaws E TS} {SD : SecretsDistinct E TS}.
  Context {D : Deps} {SV : StructValidator}.
  Context {CI : CacheI} {CL : CacheLaws E CI} {UI : UserRepoI} {UL : UserRepoLaws E UI}.
  Context {GI : GrantRepoI} {GL : GrantRepoLaws E GI} {RI : RefreshTokenRepoI} {RL : RefreshTokenRepoLaws E RI}.

Definition Inv (w : World) : Prop :=
  world_inv w /\
  consistent (w_sys w) (ps_view (w_users w)) (ps_view (w_grants w)) (rs_rows (w_rts w)).

Definition keep (w w' : World) : Prop := Inv w -> Inv w'.

#[export] Instance keep_preorder : PreOrder keep.
Proof. split; [intros w H; exact H|]. intros w1 w2 w3 H12 H23 H. exact (H23 (H12 H)). Qed.

Lemma Inv_sys w s : sys_le (w_sys w) s -> Inv w -> Inv (upd_sys s w).
Proof. intros L [Hi Hc]. split; [done|]. by eapply consistent_later. Qed.

Lemma Inv_cache w s c : sys_le (w_sys w) s -> Inv w -> Inv (upd_cache (s, c) w).
Proof. intros L [Hi Hc]. split; [done|]. by eapply consistent_later. Qed.

Lemma Inv_users w s r :
  sys_le (w_sys w) s -> ps_inv r -> users_evolve (ps_view (w_users w)) (ps_view r) -> Inv w -> Inv (upd_users (s, r) w).
Proof.
  intros L Hr Hev [(HU & HG & HR) Hc]. split; [by split_and!|]. eapply consistent_users; [exact Hev|].
  by eapply consistent_later.
Qed.

Lemma Inv_users_same w s r :
  sys_le (w_sys w) s -> ps_inv r -> ps_view r = ps_view (w_users w) -> Inv w -> Inv (upd_users (s, r) w).
Proof. intros L Hr Hv. apply Inv_users; [done..|]. by rewrite Hv. Qed.

Lemma Inv_put_user w s r u :
  sys_le (w_sys w) s -> ps_inv r -> ps_view r = <[u_ID u := u]> (ps_view (w_users w)) -> user_ok s u ->
  Inv w -> Inv (upd_users (s, r) w).
Proof.
  intros L Hr Hv Hok [(HU & HG & HR) Hc]. split; [by split_and!|]. simpl. rewrite Hv.
  apply consistent_put_user; [done|]. by eapply consistent_later.
Qed.

Lemma Inv_grants w s r :
  sys_le (w_sys w) s -> ps_inv r ->
  (consistent s (ps_view (w_users w)) (ps_view (w_grants w)) (rs_rows (w_rts w)) ->
   consistent s (ps_view (w_users w)) (ps_view r) (rs_rows (w_rts w))) -> Inv w -> Inv (upd_grants (s, r) w).
Proof.
  intros L Hr Hk [(HU & HG & HR) Hc]. split; [by split_and!|]. apply Hk. by eapply consistent_later.
Qed.

Lemma Inv_revoked w s r :
  sys_le (w_sys w) s -> rs_inv r -> rows_revoked (rs_rows (w_rts w)) (rs_rows r) -> Inv w -> Inv (upd_rts (s, r) w).
Proof.
  intros L Hr Hev [(HU & HG & HR) Hc]. split; [by split_and!|]. eapply consistent_revoked; [exact Hev|].
  by eapply consistent_later.
Qed.

Lemma Inv_users_only w w' : users_only w w' -> Inv w -> Inv w'.
Proof. intros (s & r & -> & L & Hi & Hev). by apply Inv_users. Qed.

(** ** Operations that keep it wherever they are used *)

Lemma keep_sys {A} (m : ST Sys A) : forward (fun s => s) m -> respects keep (in_sys m).
Proof.
  intros H w Hw. specialize (H (w_sys w)). unfold in_sys. destruct (m (w_sys w)). exact (Inv_sys _ _ H Hw).
Qed.

Lemma keep_cache {A} (m : ST (Sys * CS) A) : forward fst m -> respects keep (in_cache m).
Proof.
  intros H w Hw. specialize (H (w_sys w, w_cache w)). unfold in_cache. destruct (m _) as [o [s c]].
  exact (Inv_cache _ _ _ H Hw).
Qed.

Lemma cache_Set_forward k v ttl : forward fst (cache_Set k v ttl).
Proof.
  intros [s c]. destruct (cache_Set k v ttl (s, c)) as [o [s' c']] eqn:Hrun.
  by destruct (wp_run _ _ _ _ _ Hrun (set_law k v ttl s c)).
Qed.
Lemma cache_GetErr_forward {A} k (d : dest A) : forward fst (cache_GetErr k d).
Proof.
  intros [s c]. destruct (cache_GetErr k d (s, c)) as [o [s' c']] eqn:Hrun.
  by destruct (wp_run _ _ _ _ _ Hrun (getErr_law A k d s c)).
Qed.
Lemma cache_Take_forward {A} k (d : dest A) : forward fst (cache_GetAndDelete k d).
Proof.
  intros [s c]. destruct (cache_GetAndDelete k d (s, c)) as [o [s' c']] eqn:Hrun.
  by destruct (wp_run _ _ _ _ _ Hrun (getAndDelete_law A k d s c)).
Qed.
Lemma cache_Incr_forward k window : forward fst (cache_IncrWindow k window).
Proof.
  intros [s c]. destruct (cache_IncrWindow k window (s, c)) as [o [s' c']] eqn:Hrun.
  by destruct (wp_run _ _ _ _ _ Hrun (incrWindow_law k window s c)).
Qed.

Lemma keep_find_user (P : User -> Prop) (m : ST (Sys * @PS User ur_store) (option nat * option goerr)) :
  (forall s r, ps_inv r -> wp m (find_spec P s r) (s, r)) -> respects keep (in_users m).
Proof.
  intros Hm w Hw. unfold in_users. destruct (m (w_sys w, w_users w)) as [o [s r]] eqn:Hrun.
  destruct (wp_run _ _ _ _ _ Hrun (Hm _ _ (proj1 (proj1 Hw)))) as (L & Hi & Hv & _). by apply Inv_users_same.
Qed.

Lemma keep_deref_user l : respects keep (in_users (ps_deref l)).
Proof. intros w. unfold in_users, ps_deref. simpl. by destruct (ps_ptr (w_users w) l), w. Qed.

Lemma keep_find_row h : respects keep (in_rts (rr_FindByTokenHash h)).
Proof.
  intros w Hw. unfold in_rts. destruct (rr_FindByTokenHash h (w_sys w, w_rts w)) as [o [s r]] eqn:Hrun.
  destruct (wp_run _ _ _ _ _ Hrun (rr_find_law h _ _ (proj2 (proj2 (proj1 Hw))))) as (L & Hi & Hv & _).
  apply Inv_revoked; try done. simpl in Hv. rewrite Hv. by intros id.
Qed.

Lemma keep_revoke_row h : respects keep (in_rts (rr_RevokeByTokenHash h)).
Proof.
  intros w Hw. unfold in_rts. destruct (rr_RevokeByTokenHash h (w_sys w, w_rts w)) as [o [s r]] eqn:Hrun.
  destruct (wp_run _ _ _ _ _ Hrun (rr_revoke_law h _ _ (proj2 (proj2 (proj1 Hw))))) as (L & Hi & e & _ & He).
  apply Inv_revoked; try done. by eapply revoke_revoked.
Qed.

Lemma sweep_revoked P s r o q : sweep_spec P s r o q -> rows_revoked (rs_rows r) (rs_rows q.2).
Proof.
  intros (_ & _ & [err|] & _ & He) id; [rewrite He; reflexivity|]. destruct He as [Hnone Hsome].
  destruct (rs_rows r !! id) as [x|] eqn:Hx; [|by rewrite Hnone].
  destruct (Hsome id x Hx) as (x' & -> & [(_ & _ & t & _ & ->)|[-> _]]); by constructor.
Qed.

Lemma keep_sweep (m : ST (Sys * RS) (option goerr)) P :
  (forall s r, rs_inv r -> wp m (sweep_spec P s r) (s, r)) -> respects keep (in_rts m).
Proof.
  intros Hm w Hw. unfold in_rts. destruct (m (w_sys w, w_rts w)) as [o [s r]] eqn:Hrun.
  pose proof (wp_run _ _ _ _ _ Hrun (Hm _ _ (proj2 (proj2 (proj1 Hw))))) as Hs.
  apply sweep_revoked in Hs as Hrev. destruct Hs as (L & Hi & _). by apply Inv_revoked.
Qed.

Lemma keep_revoke_grant gid t : respects keep (in_grants (gr_Revoke gid t)).
Proof.
  intros w Hw. pose proof Hw as [(_ & HG & _) _]. unfold in_grants.
  destruct (gr_Revoke gid t (w_sys w, w_grants w)) as [o [s r]] eqn:Hrun.
  destruct (wp_run _ _ _ _ _ Hrun (gr_revoke_law gid t _ _ HG)) as (L & Hi & e & _ & He). simpl in *.
  apply Inv_grants; try done. intros Hc. destruct e as [err|]; [by destruct He as [-> _]|].
  destruct He as (g & Hg & _ & ->). assert (g_ID g = gid) as <- by (eapply view_id; [exact HG|exact Hg]).
  apply (consistent_put_grant _ _ _ _ (set_g_RevokedAt (Some t) g)); [exact (co_grants _ _ _ _ Hc _ _ Hg)| |done].
  intros id x Hx Heq. destruct (co_rows _ _ _ _ Hc _ _ Hx) as (_ & _ & _ & _ & g' & Hg' & Hcov).
  rewrite Heq in Hg'. simpl in Hg'. rewrite Hg in Hg'. injection Hg' as <-. exact Hcov.
Qed.

Lemma keep_counter name d : respects keep (counter_Add name d).
Proof. intros w Hw. exact Hw. Qed.
Lemma keep_mail a t : respects keep (SendPasswordResetEmail a t).
Proof. intros w Hw. exact Hw. Qed.

End Keep.

#[export] Hint Resolve keep_sys keep_cache cache_Set_forward cache_GetErr_forward cache_Take_forward
  cache_Incr_forward keep_deref_user keep_find_row keep_revoke_row keep_revoke_grant keep_counter keep_mail : respects.
#[export] Hint Extern 1 (respects keep (in_users (ur_FindByEmail _ _))) =>
  eapply keep_find_user; intros; apply findByEmail_law : respects.
#[export] Hint Extern 1 (respects keep (in_users (ur_FindByID _))) =>
  eapply keep_find_user; intros; apply findByID_law : respects.
#[export] Hint Extern 1 (respects keep (in_rts (rr_RevokeAllForUser _))) =>
  eapply keep_sweep; intros; apply rr_sweepUser_law : respects.
#[export] Hint Extern 1 (respects keep (in_rts (rr_RevokeAllForGrant _))) =>
  eapply keep_sweep; intros; apply rr_sweepGrant_law : respects.
#[export] Hint Extern 0 (ClockMono _) => exact _ : respects.
#[export] Hint Extern 0 (CacheLaws _ _) => exact _ : respects.
#[export] Hint Extern 0 (UserRepoLaws _ _) => exact _ : respects.
#[export] Hint Extern 0 (GrantRepoLaws _ _) => exact _ : respects.
#[export] Hint Extern 0 (RefreshTokenRepoLaws _ _) => exact _ : respects.

(** Stepping through a handler, from the invariant to the invariant. *)
Ltac keep_wp := match goal with |- Inv (?m ?w).2 => change (wp m (fun _ w' => Inv w') w) end.

(** ** The requests *)

Section KeepRequests.
  Context {E : Env} {CM : ClockMono E} {UF : UuidFresh E} {BS : BcryptSpec E}.
  Context {TS : TokenServiceI} {TL : TokenServiceLaws E TS} {SD : SecretsDistinct E TS}.
  Context {D : Deps} {SV : StructValidator}.
  Context {CI : CacheI} {CL : CacheLaws E CI} {UI : UserRepoI} {UL : UserRepoLaws E UI}.
  Context {GI : GrantRepoI} {GL : GrantRepoLaws E GI} {RI : RefreshTokenRepoI} {RL : RefreshTokenRepoLaws E RI}.

(** *** Requests that add no data *)

Lemma MarkGrant_keep gid : respects keep (MarkGrantRevoked gid).
Proof. unfold MarkGrantRevoked. solve_respects. Qed.
Lemma MarkSessions_keep uid t : respects keep (MarkSessionsInvalidated uid t).
Proof. unfold MarkSessionsInvalidated. solve_respects. Qed.
Lemma Blacklist_keep jti exp : respects keep (BlacklistJTI jti exp).
Proof. unfold BlacklistJTI. solve_respects. Qed.
Lemma RevokeNow_keep gid : respects keep (grant_RevokeNow gid).
Proof. unfold grant_RevokeNow. solve_respects. Qed.

#[local] Hint Resolve MarkGrant_keep MarkSessions_keep Blacklist_keep RevokeNow_keep : respects.

Lemma Logout_keep c : respects keep (Logout_Execute c).
Proof.
  unfold Logout_Execute, Logout_revokeIfAuthenticated, Logout_blacklistAccessToken, Logout_revokeGrantTokens,
    Logout_revokeGrant, ok. solve_respects.
Qed.

Lemma revokeConfirmed_keep rt : respects keep (RevokeToken_revokeConfirmedRefreshToken rt).
Proof. unfold RevokeToken_revokeConfirmedRefreshToken, RevokeToken_cascade. cbv zeta. solve_respects. Qed.

Lemma blacklistAccess_keep tok caller : respects keep (RevokeToken_blacklistAccessToken tok caller).
Proof. unfold RevokeToken_blacklistAccessToken. solve_respects. Qed.

#[local] Hint Resolve revokeConfirmed_keep blacklistAccess_keep : respects.

Lemma RevokeToken_keep c : respects keep (RevokeToken_Execute c).
Proof.
  unfold RevokeToken_Execute, RevokeToken_accessFirst, RevokeToken_refreshFirst, RevokeToken_revokeOwned, fail.
  cbv zeta. solve_respects.
Qed.

Lemma Authorize_keep q : respects keep (Authorize_Execute q).
Proof. unfold Authorize_Execute, fail, ok. cbv zeta. solve_respects. Qed.
Lemma GetSignIn_keep id : respects keep (GetSignIn_Execute id).
Proof. unfold GetSignIn_Execute, fail, ok. solve_respects. Qed.
Lemma GetProfile_keep id : respects keep (GetProfile_Execute id).
Proof. unfold GetProfile_Execute, fail, ok. solve_respects. Qed.
Lemma Introspect_keep q : respects keep (Introspect_Execute q).
Proof. unfold Introspect_Execute, Introspect_revoked, fail, ok. solve_respects. Qed.

Lemma verifyCredentials_keep session email pw : respects keep (CreateAuthCode_verifyCredentials session email pw).
Proof.
  intros w Hw. destruct (verifyCredentials_spec session email pw w (proj1 (proj1 Hw))) as [[HO|[_ Hr]] _].
  - by eapply Inv_users_only.
  - destruct Hr as (w1 & s & c & HO & -> & L & _). apply Inv_cache; [done|]. by eapply Inv_users_only.
Qed.

#[local] Hint Resolve verifyCredentials_keep : respects.

Lemma CreateAuthCode_keep c : respects keep (CreateAuthCode_Execute c).
Proof. unfold CreateAuthCode_Execute, AuthorizeRequest_BuildRedirectURI, fail, ok. solve_respects. Qed.

(** *** Accounts *)

Lemma CreateUser_keep c : respects keep (CreateUser_Execute c).
Proof.
  intros w Hw. keep_wp. pose proof Hw as [(HU & _) Hc].
  unfold CreateUser_Execute. apply wp_bind, wp_in_sys. unfold wp at 1.
  destruct (NewUser_run c (w_sys w)) as [L1 Hnew].
  destruct (NewUser _ (w_sys w)) as [[r|] s1] eqn:Hrun; [|by apply Inv_sys].
  destruct (Hnew r eq_refl) as [Hnn Hu]. simpl in *.
  assert (Inv (upd_sys s1 w)) as H1 by (by apply Inv_sys).
  destruct r as [[u|] [e|]]; try done. destruct (Hu u eq_refl) as ((_ & _ & _ & Ht & _ & Hr & _) & _ & Hid).
  assert (n_uuid (w_sys w) < n_uuid s1)%nat as Hn.
  { revert Hrun. unfold NewUser. simpl. destruct (validatePassword _); [done|]. unfold bind, hashPassword, bcrypt_GenerateFromPassword.
    simpl. unfold bind. destruct (bcrypt_Generate _ _ _); [|done]. simpl. intros [= _ <-]. simpl. lia. }
  wp_call (new_law u). intros o [s2 r2] (-> & Hi2 & Hv2 & p & -> & Hp). simpl in *.
  apply wp_bind. in_port. eapply wp_mono; [apply (createUser_law p u); [done|done|]|].
  { intros id u' Hu'. simpl in Hu'. rewrite Hv2 in Hu'. intros [->|[[h Hh] _]]; [|congruence].
    destruct (co_users _ _ _ _ Hc _ _ Hu') as (_ & Hun & _). apply (Hun (n_uuid (w_sys w)) ltac:(done)).
    rewrite <- Hid. eapply view_id; [exact HU|exact Hu']. }
  intros o [s3 r3] (L3 & Hi3 & Hp3 & Hv3). simpl in *. rewrite Hv2 in Hv3.
  assert (Inv (upd_users (s3, r3) w)) as H3.
  { assert (sys_le (w_sys w) s3) as L by (by etrans). destruct o as [[e|]|]; [by apply Inv_users_same| |by apply Inv_users_same].
    eapply Inv_put_user; [done|done|exact (proj1 Hv3)| |done]. split_and!; [done| |by rewrite Hr].
    rewrite Hid. apply drawn_id. sys_lia. }
  destruct o as [[e|]|]; [by destruct (errors_Is e ErrConflict)| |done].
  apply wp_bind. eapply wp_eq; [by apply in_users_deref|]. cbn beta iota. by apply wp_ret.
Qed.

(** A user saved through a pointer to a fresh copy. *)
Lemma save_copy_inv u w :
  Inv w -> user_ok (w_sys w) u -> user_fresh u (ps_view (w_users w)) ->
  wp (in_users (ps_new u)) (fun o w1 => exists q, o = Ret q /\
    wp (in_users (ps_Save q)) (fun _ w2 => Inv w2) w1) w.
Proof.
  intros Hw Hok Hf. in_port. eapply wp_mono; [apply (new_law u), Hw|].
  intros o [s1 r1] (-> & Hi1 & Hv1 & q & -> & Hq). exists q. split; [done|].
  in_port. eapply wp_mono; [apply (save_law q u); [exact Hi1|exact Hq|simpl; by rewrite Hv1]|].
  intros o [s2 r2] (L2 & Hi2 & _ & Hv2). simpl in *. rewrite Hv1 in Hv2.
  change (Inv (upd_users (s2, r2) w)).
  destruct o as [[e|]|]; [by apply Inv_users_same| |by apply Inv_users_same].
  eapply Inv_put_user; [done|done|exact Hv2|by eapply user_ok_later|done].
Qed.

(** The address is free: whoever has it is the user who asks for it. *)
Lemma checkEmail_spec email id w :
  Inv w -> wp (UpdateProfile_checkEmailAvailable DefaultTenantID email id) (fun o w' =>
    (exists s r, w' = upd_users (s, r) w /\ sys_le (w_sys w) s /\ ps_inv r /\ ps_view r = ps_view (w_users w) /\
       forall l u, ps_ptr (w_users w) l = Some u -> ps_ptr r l = Some u) /\
    (o = Ret None -> forall id' u', ps_view (w_users w) !! id' = Some u' -> u_Email u' = email -> id' = id)) w.
Proof.
  intros [(HU & _) Hc]. unfold UpdateProfile_checkEmailAvailable. apply wp_bind. in_port.
  destruct (ur_FindByEmail DefaultTenantID email (w_sys w, w_users w)) as [o [s r]] eqn:Hrun.
  assert (forall l u, ps_ptr (w_users w) l = Some u -> ps_ptr r l = Some u) as Hptr.
  { intros l u Hl. pose proof (findByEmail_ptrs DefaultTenantID email (w_sys w) _ l u HU Hl) as H. by rewrite Hrun in H. }
  destruct (wp_run _ _ _ _ _ Hrun (findByEmail_law DefaultTenantID email (w_sys w) (w_users w) HU))
    as (L & Hi & Hv & Hfind). simpl in *.
  assert (exists s0 r0, upd_users (s, r) w = upd_users (s0, r0) w /\ sys_le (w_sys w) s0 /\ ps_inv r0 /\
    ps_view r0 = ps_view (w_users w) /\ forall l u, ps_ptr (w_users w) l = Some u -> ps_ptr r0 l = Some u) as Hst by (by exists s, r).
  eapply wp_eq; [exact Hrun|].
  destruct Hfind as [(p & u & id0 & -> & Hp & Hu & He & Ht)|[(-> & Hno)|(e & -> & Hne)]]; cbn beta iota.
  - apply wp_bind. eapply wp_eq; [by apply in_users_deref|]. cbn beta iota.
    destruct (String.eqb_spec (u_ID u) id) as [<-|Hneq]; apply wp_ret; (split; [done|]); [|done].
    intros _ id' u' Hu' He'. apply (users_unique (w_users w) id0 u HU Hu id' u' Hu'). left. congruence.
  - apply wp_ret. split; [done|]. intros _ id' u' Hu' He'. destruct (Hno id' u' Hu'). split; [done|].
    apply (co_users _ _ _ _ Hc _ _ Hu').
  - simpl. rewrite Hne. simpl. apply wp_ret. split; [done|]. by intros [= ->].
Qed.

(** What the profile command may change of a user. *)
Lemma UpdateProfile_run args u s :
  exists u', User_UpdateProfile args u s = (Ret u', tick s) /\ u_ID u' = u_ID u /\ u_TenantID u' = u_TenantID u /\
    u_PasswordResetTokenHash u' = u_PasswordResetTokenHash u /\
    u_Email u' = match upa_Email args with Some e => e | None => u_Email u end.
Proof.
  unfold User_UpdateProfile. destruct args as [[un|] [nn|] [em|]]; (eexists; split; [reflexivity|]); simpl;
    unfold User_SetEmail; simpl;
    try match goal with |- context [String.eqb ?a ?b] => destruct (String.eqb_spec a b) end; split_and!; done.
Qed.

Lemma UpdateProfile_keep c : respects keep (UpdateProfile_Execute c).
Proof.
  intros w Hw. keep_wp. pose proof Hw as [(HU & _) Hc].
  unfold UpdateProfile_Execute. cbv zeta. wp_call (findByID_law (pc_UserID c)).
  intros o [s1 r1] (L1 & Hi1 & Hv1 & Ho). simpl in *.
  assert (Inv (upd_users (s1, r1) w)) as H1 by (by apply Inv_users_same).
  destruct Ho as [(l & u & id & -> & Hl & Hu & Hid)|[(-> & _)|(e & -> & Hne)]]; cbn beta iota;
    [|by apply wp_ret|by destruct (errors_Is e ErrNotFound); apply wp_ret].
  assert (user_ok (w_sys w) u) as Hok by (by apply (co_users _ _ _ _ Hc id u)).
  assert (u_ID u = id) as <- by (eapply view_id; [exact HU|exact Hu]).
  apply wp_bind. eapply wp_eq; [by apply in_users_deref|]. cbn beta iota.
  assert (u_TenantID u = DefaultTenantID) as -> by apply Hok.
  apply wp_bind. eapply (wp_mono _ (fun o w' =>
    (exists s r, w' = upd_users (s, r) w /\ sys_le (w_sys w) s /\ ps_inv r /\ ps_view r = ps_view (w_users w) /\ ps_ptr r l = Some u) /\
    (o = Ret None -> forall e, pc_Email c = Some e ->
       forall id' u', ps_view (w_users w) !! id' = Some u' -> u_Email u' = e -> id' = u_ID u))).
  { destruct (pc_Email c) as [email|]; [|apply wp_ret; split; [by exists s1, r1|by intros]].
    eapply wp_mono; [by apply checkEmail_spec|]. simpl. rewrite Hv1. intros o w' [(s & r & -> & L & Hi & Hv & Hp) Hfree].
    split; [exists s, r; split_and!; try done; [etrans; [exact L1|exact L]|by apply Hp]|].
    intros -> e [= <-] id' u' Hu' He. rewrite Hid. by eapply Hfree. }
  intros o w' [(s2 & r2 & -> & L2 & Hi2 & Hv2 & Hl2) Hfree].
  assert (Inv (upd_users (s2, r2) w)) as H2 by (by apply Inv_users_same).
  destruct o as [[e|]|]; [by apply wp_ret| |done]. specialize (Hfree eq_refl).
  apply wp_bind. eapply wp_eq; [by apply in_users_deref|]. cbn beta iota.
  destruct (UpdateProfile_run (mkUpdateProfileArgs (pc_Username c) (pc_Nickname c) (pc_Email c)) u s2)
    as (u' & Hrun & Uid & Ut & Ur & Ue).
  apply wp_bind, wp_in_sys. eapply wp_eq; [exact Hrun|]. cbn beta iota.
  apply wp_bind. eapply wp_mono; [apply (save_copy_inv u')|].
  - apply Inv_sys; [apply sys_le_tick|done].
  - apply (user_ok_later (w_sys w)); [etrans; [exact L2|apply sys_le_tick]|]. destruct Hok as (? & ? & ?).
    unfold user_ok. by rewrite Uid, Ut, Ur.
  - simpl. rewrite Hv2. intros id0 u0 Hu0. rewrite Uid, Ur, Ue. simpl. destruct (pc_Email c) as [em|].
    + intros [He|Hr]; [by eapply Hfree|]. apply (users_unique (w_users w) _ u HU Hu id0 u0 Hu0). by right.
    + intros H. by apply (users_unique (w_users w) _ u HU Hu id0 u0 Hu0).
  - intros o w3 (q & -> & Hsave). apply wp_bind. eapply wp_mono; [exact Hsave|].
    intros [[e|]|] w4 H4; [by apply wp_ret..|done].
Qed.

(** The recovery command stores the hash of a token nobody has. *)
Lemma ForgotPassword_keep c : respects keep (ForgotPassword_Execute c).
Proof.
  unfold ForgotPassword_Execute. apply respects_bind; [exact _|unfold ForgotPassword_rateLimited; solve_respects|].
  intros [|]; [solve_respects|]. intros w Hw. pose proof Hw as [(HU & _) Hc].
  keep_wp.
  wp_call (findByEmail_law DefaultTenantID (fc_Email c)).
  intros o [s1 r1] (L1 & Hi1 & Hv1 & Ho). simpl in *.
  assert (Inv (upd_users (s1, r1) w)) as H1 by (by apply Inv_users_same).
  destruct Ho as [(l & u & id & -> & Hl & Hu & _)|[(-> & _)|(e & -> & _)]]; cbn beta iota; [|by apply wp_ret..].
  assert (user_ok s1 u) as Hok by (eapply user_ok_later; [exact L1|by apply (co_users _ _ _ _ Hc id u)]).
  assert (u_ID u = id) as <- by (eapply view_id; [exact HU|exact Hu]).
  apply wp_bind, wp_in_sys. destruct (GeneratePasswordResetToken s1) as [o s2] eqn:Hgen.
  assert (sys_le s1 s2) as L2 by (pose proof (GenerateReset_forward s1) as H; by rewrite Hgen in H).
  eapply wp_eq; [exact Hgen|]. assert (Inv (upd_sys s2 (upd_users (s1, r1) w))) as H2 by (by apply Inv_sys).
  destruct o as [[token [e|]]|]; [by apply wp_ret| |done].
  apply wp_bind. eapply wp_eq; [by apply in_users_deref|]. cbn beta iota.
  apply wp_bind, wp_in_sys.
  set (u' := set_UpdatedAt (now (tick s2)) (set_PasswordResetExpiresAt (Some (now s2 + PasswordResetTokenTTL))
    (set_PasswordResetTokenHash (Some (Hash token)) u))).
  eapply (wp_eq _ _ _ (Ret u') (tick (tick s2))); [reflexivity|]. cbn beta iota.
  set (s3 := tick (tick s2)). assert (sys_le s2 s3) as L3 by (subst s3; sys_lia).
  apply wp_bind. eapply wp_mono; [apply (save_copy_inv u')|].
  - apply Inv_sys; [exact L3|done].
  - destruct Hok as (Ht & Hid & _). split_and!; [exact Ht| |].
    + eapply unused_id_later; [|exact Hid]. simpl. etrans; [exact L2|exact L3].
    + intros h [= <-] s4 tok s5 L4. apply (reset_distinct s1 s2); [exact Hgen|]. simpl in L4. by etrans.
  - intros id0 u0 Hu0. simpl in *. rewrite Hv1 in Hu0. intros [He|[_ Hr]].
    + apply (users_unique (w_users w) _ u HU Hu id0 u0 Hu0). by left.
    + destruct (co_users _ _ _ _ Hc _ _ Hu0) as (_ & _ & Hun). by destruct (Hun _ Hr s1 token s2 L1 Hgen).
  - intros o w3 (q & -> & Hsave). apply wp_bind. eapply wp_mono; [exact Hsave|].
    intros [[e|]|] w4 H4; [by apply wp_ret| |done]. apply wp_bind. by eapply wp_eq; [reflexivity|].
Qed.

Lemma ResetPassword_keep c : respects keep (ResetPassword_Execute c).
Proof.
  unfold ResetPassword_Execute, uow_Do, fail. cbv zeta. apply respects_bind; [exact _| |intros [[uid at_] err]; solve_respects].
  intros w Hw. pose proof Hw as [(HU & _) Hc]. unfold in_users.
  destruct (ur_UpdateByPasswordResetTokenHash _ _ _ _) as [o [s1 r1]] eqn:Hrun. simpl.
  pose proof (callback_run (sc_Password c) ("", time_zero)) as Hcb.
  eapply wp_run in Hrun; [|apply updateByReset_law; [exact HU|]].
  2:{ intros id u s0 _ _. destruct (Hcb u s0) as [L H]. split; [done|]. intros c0 u' Hu'.
      apply H in Hu' as (? & _ & (? & ? & _ & _ & ? & _) & _). done. }
  destruct Hrun as (L1 & Hi1 & [(_ & Hv & _)|[(e & _ & _ & _ & Hv)|(u & s0 & Hu & _ & L0 & L01 & Hm)]]);
    [by apply Inv_users_same..|].
  destruct (Hcb u s0) as [L00 Hok]. set (run := ResetPassword_callback _ _ u s0) in *.
  destruct run.1 as [[[c0 u'] [e|]]|]; [by destruct Hm; apply Inv_users_same| |by destruct Hm; apply Inv_users_same].
  destruct (Hok _ eq_refl) as (at_ & _ & (Hid & _ & Ht & _ & Hr & _) & _).
  destruct o as [[c1 [e|]]|]; [by apply Inv_users_same; try done; apply Hm| |by apply Inv_users_same].
  eapply Inv_put_user; [done|done|exact (proj2 Hm)| |done].
  destruct (user_ok_later _ s1 u L1 (co_users _ _ _ _ Hc _ _ Hu)) as (H1 & H2 & _).
  unfold user_ok. rewrite Hid, Ht, Hr. done.
Qed.

(** *** Tokens *)

(** The start of a chain draws an identifier for the grant. *)
Lemma IssueTokens_draws req s r s' :
  ita_ExistingGrantID req = "" -> IssueTokens req s = (Ret r, s') -> (n_uuid s < n_uuid s')%nat.
Proof.
  intros He Hrun. unfold IssueTokens in Hrun. rewrite He in Hrun. simpl in Hrun.
  apply bind_Ret_inv in Hrun as ([g gid] & s1 & Hg & Hrun).
  apply bind_Ret_inv in Hg as (g' & s2 & Hnew & [_ <-]%ret_inv). rewrite NewGrant_run in Hnew.
  injection Hnew as _ <-.
  assert (forward (fun s => s) (issueUnder req g gid)) as Hf by (unfold issueUnder; solve_respects).
  specialize (Hf (mk_Sys (S (n_clock s)) (n_rand s) (S (n_uuid s)) (n_salt s) (n_disk s))). rewrite Hrun in Hf. sys_lia.
Qed.

(** What the issue of tokens leaves to be stored: a token generated before now
    that no row has, and for a new chain a new grant of the user. *)
Definition to_store (tokens : IssuedTokens) (w : World) : Prop :=
  (exists uid s1 s2, ts_GenRefreshToken uid s1 = (Ret (it_RefreshToken tokens, None), s2) /\ sys_le s2 (w_sys w)) /\
  forall id x, rs_rows (w_rts w) !! id = Some x -> rt_TokenHash x <> Hash (it_RefreshToken tokens).

Lemma to_store_unused tokens w : to_store tokens w -> unused_refresh (w_sys w) (Hash (it_RefreshToken tokens)).
Proof.
  intros [(uid & s1 & s2 & Hgen & L) _] uid' s3 tok s4 L3. eapply refresh_distinct; [exact Hgen|by etrans].
Qed.

(** A new row, once its grant is there. *)
Lemma save_row_inv rt w :
  Inv w -> row_ok (w_sys w) (ps_view (w_grants w)) rt ->
  (forall id x, rs_rows (w_rts w) !! id = Some x -> rt_TokenHash x <> rt_TokenHash rt) ->
  wp (in_rts (rr_Save rt)) (fun _ w' => Inv w') w.
Proof.
  intros [(HU & HG & HR) Hc] Hok Hfresh. in_port. eapply wp_mono; [apply rr_save_law; [exact HR|]|].
  { intros id x Hx Hh. by destruct (Hfresh id x Hx). }
  intros o [s r] (L & Hi & e & _ & Hrows & _). simpl in *. split; [by split_and!|]. simpl. rewrite Hrows.
  apply (consistent_later _ s) in Hc; [|done]. destruct e; [done|]. apply consistent_put_row; [|done].
  by eapply row_ok_later.
Qed.

Lemma saveRefreshToken_inv uid cid tokens g n w :
  Inv w -> it_NewGrant tokens = Some g -> it_GrantID tokens = g_ID g -> g_ID g = uuid_NewString n ->
  (n < n_uuid (w_sys w))%nat -> ps_view (w_grants w) !! g_ID g = None ->
  g_UserID g = uid -> g_ClientID g = cid -> is_Some (ps_view (w_users w) !! uid) -> to_store tokens w ->
  wp (ExchangeCode_saveRefreshToken uid cid tokens) (fun _ w' => Inv w') w.
Proof.
  intros Hw Hg Hgid Hn Hlt Hnone Hgu Hgc Hu Hst. pose proof Hw as [Hinv Hc]. unfold ExchangeCode_saveRefreshToken.
  assert (it_GrantID tokens <> "") as Hne by (rewrite Hgid, Hn; apply uuid_nonempty).
  apply wp_bind, wp_in_sys. eapply wp_eq; [by apply NewRefreshToken_run|]. rewrite Hg.
  set (rt := fresh_rt _ _ _ _ _ _). set (s1 := mk_Sys _ _ _ _ _).
  assert (sys_le (w_sys w) s1) as L1 by (subst s1; sys_lia).
  apply wp_bind. eapply wp_mono; [by apply saveNewGrant_spec|].
  intros o w' (s2 & r2 & -> & L2 & Hi2 & Ho). simpl in *. set (g' := Grant_ExtendToCover (rt_ExpiresAt rt) g) in *.
  assert (Inv (upd_grants (s2, r2) (upd_sys s1 w))) as H2.
  { apply Inv_grants; [done..| |by apply Inv_sys]. simpl. intros Hc2. destruct o as [[e|]|]; rewrite Ho; [done| |done].
    apply (consistent_put_grant _ _ _ _ g'); [|intros id x Hx Heq|done].
    - split; [|by subst uid]. simpl. rewrite Hn. apply drawn_id. subst s1. sys_lia.
    - destruct (co_rows _ _ _ _ Hc _ _ Hx) as (_ & _ & _ & _ & g0 & Hg0 & _). rewrite Heq in Hg0. simpl in Hg0. congruence. }
  destruct o as [[e|]|]; [by apply wp_ret| |done].
  apply save_row_inv; [done| |exact (proj2 Hst)]. simpl. rewrite Ho.
  assert (sys_le (w_sys w) s2) as L02 by (etrans; [exact L1|exact L2]). pose proof (now_mono _ _ L02).
  split_and!; [|eapply unused_refresh_later; [exact L02|by apply to_store_unused]|done|simpl; lia|].
  - apply drawn_id. subst s1. sys_lia.
  - exists g'. simpl. rewrite Hgid, lookup_insert_eq. split; [done|]. split_and!; simpl; try congruence.
    unfold grantExpiryMargin, Minute, Second. lia.
Qed.

Lemma issued_to_store req s s' t w :
  Inv w -> s = w_sys w -> issued req s s' t -> to_store t (upd_sys s' w).
Proof.
  intros [_ Hc] -> (_ & _ & _ & (s1 & s2 & L1 & L2 & HR) & _). split; [by exists (u_ID (ita_User req)), s1, s2|].
  intros id x Hx. destruct (co_rows _ _ _ _ Hc _ _ Hx) as (_ & Hun & _). eapply Hun; [|exact HR]. done.
Qed.

(** A new chain: tokens issued to a stored user and saved. *)
Lemma issue_new_inv user cid nonce scope secs w :
  Inv w -> is_Some (ps_view (w_users w) !! u_ID user) ->
  wp (in_sys (IssueTokens (mkIssueTokensArgs user cid nonce scope secs ""))) (fun o w' => Inv w' /\
    forall tokens, o = Ret (Some tokens, None) ->
      wp (ExchangeCode_saveRefreshToken (u_ID user) cid tokens) (fun _ w2 => Inv w2) w') w.
Proof.
  intros Hw Hu. pose proof Hw as [(HU & HG & HR) Hc]. in_port. set (req := mkIssueTokensArgs _ _ _ _ _ _).
  destruct (IssueTokens_run req (w_sys w)) as (r & s' & Hrun & L & Hpost). eapply wp_eq; [exact Hrun|].
  split; [by apply Inv_sys|]. intros tokens [= ->]. pose proof (issued_to_store _ _ _ _ w Hw eq_refl Hpost) as Hst.
  destruct Hpost as (_ & Hg & _). destruct (it_NewGrant tokens) as [g|] eqn:Hng; [|naive_solver].
  destruct Hg as (_ & Hgid & Huuid & Hgu & Hgc & _).
  apply (saveRefreshToken_inv _ _ tokens g (n_uuid (w_sys w))); try done.
  - by apply Inv_sys.
  - simpl. exact (IssueTokens_draws req _ _ _ eq_refl Hrun).
  - simpl. rewrite Huuid. eapply new_grant_id; [exact Hc|done|]. intros id g0 Hg0. eapply view_id; [exact HG|exact Hg0].
Qed.

Lemma ExchangeCode_keep c : respects keep (ExchangeCode_Execute c).
Proof.
  unfold ExchangeCode_Execute. destruct (ClientAuthenticator_Authenticate _) as [client|]; [|unfold fail; solve_respects].
  destruct (negb _); [unfold fail; solve_respects|].
  apply respects_bind; [exact _|unfold ExchangeCode_consumeAuthCode; solve_respects|].
  intros [[code|] [e|]]; [unfold fail; solve_respects| |unfold fail; solve_respects..]. unfold ExchangeCode_redeem.
  destruct (_ && _); [unfold fail; solve_respects|]. apply respects_bind; [exact _|solve_respects|].
  intros [|]; cbn [negb]; [|unfold fail; solve_respects]. intros w Hw. pose proof Hw as [(HU & _) _].
  keep_wp.
  wp_call findByID_law. intros o [s1 r1] (L1 & Hi1 & Hv1 & Ho). simpl in *.
  assert (Inv (upd_users (s1, r1) w)) as H1 by (by apply Inv_users_same).
  destruct Ho as [(l & u & id & -> & Hl & Hu & _)|[(-> & _)|(e & -> & _)]]; cbn beta iota; [|by apply wp_ret..].
  assert (u_ID u = id) as <- by (eapply view_id; [exact HU|exact Hu]).
  apply wp_bind. eapply wp_eq; [by apply in_users_deref|]. cbn beta iota zeta. unfold ExchangeCode_issueTokens.
  apply wp_bind. eapply wp_mono; [apply issue_new_inv; [exact H1|simpl; rewrite Hv1; eauto]|].
  intros [[[tokens|] [e|]]|] w2 [H2 Hsave]; try done; try by apply wp_ret.
  apply wp_bind. eapply wp_mono; [by apply Hsave|]. intros [[e|]|] w3 H3; [by apply wp_ret..|done].
Qed.

Lemma GetToken_keep q : respects keep (GetToken_Execute q).
Proof.
  intros w Hw. keep_wp. pose proof Hw as [(HU & _) _].
  unfold GetToken_Execute. wp_call (findByEmail_law DefaultTenantID (tq_Email q)).
  intros o [s1 r1] (L1 & Hi1 & Hv1 & Ho). simpl in *.
  assert (Inv (upd_users (s1, r1) w)) as H1 by (by apply Inv_users_same).
  destruct Ho as [(p & u & id & -> & Hp & Hu & _)|[(-> & _)|(e & -> & _)]]; cbn beta iota; [|by apply wp_ret..].
  assert (u_ID u = id) as <- by (eapply view_id; [exact HU|exact Hu]).
  apply wp_bind. eapply wp_eq; [by apply in_users_deref|]. cbn beta iota.
  destruct (IsLockedOut_run u s1) as (b & s2 & Hb & L2 & _). apply wp_bind, wp_in_sys. eapply wp_eq; [exact Hb|].
  assert (Inv (upd_sys s2 (upd_users (s1, r1) w))) as H2 by (by apply Inv_sys). set (w2 := upd_sys _ _) in *.
  cbn beta iota. destruct b; [by apply wp_ret|].
  assert (points_to p u (w_users w2)) as HP by (split_and!; try done; exists u; by rewrite <- Hv1 in Hu).
  destruct (User_ValidatePassword u (tq_Password q)); simpl negb; cbv iota.
  - apply wp_bind. eapply wp_mono; [by apply (loginSucceeded_spec p u)|].
    intros o w3 [HO3 H3]. assert (Inv w3) as Hw3 by (by eapply Inv_users_only).
    destruct o as [[]|]; [|done]. destruct (H3 eq_refl) as (u3 & HP3 & Hid3).
    destruct (GetToken_resolveScope (tq_Scope q)) as [scope [e|]]; [by apply wp_ret|].
    unfold wp. rewrite GetToken_issue_eq. keep_wp. apply wp_bind. eapply wp_eq; [apply in_users_deref, HP3|]. cbn beta iota.
    destruct HP3 as (_ & _ & u0 & Hu0 & _).
    apply wp_bind. eapply wp_mono; [apply issue_new_inv; [exact Hw3|by exists u0]|].
    intros [[[tokens|] [e|]]|] w4 [H4 Hsave]; try done; try by apply wp_ret.
    apply wp_bind. eapply wp_mono; [by apply Hsave|]. intros [[e|]|] w5 H5; [by apply wp_ret..|done].
  - apply wp_bind. eapply wp_mono; [by apply (user_update_spec p u), gentle_record|].
    intros o w3 [HO3 H3]. assert (Inv w3) as Hw3 by (by eapply Inv_users_only).
    destruct o as [a|]; [|done]. destruct (H3 a eq_refl) as (u3 & HP3 & _).
    apply wp_bind. eapply wp_mono; [by apply (user_save_spec p u3)|].
    intros o w4 [HO4 _]. assert (Inv w4) by (by eapply Inv_users_only). by destruct o; [apply wp_ret|].
Qed.

Lemma findActive_keep raw : respects keep (RefreshToken_findActiveRefreshToken raw).
Proof.
  unfold RefreshToken_findActiveRefreshToken, RefreshToken_revokeGrant, RefreshToken_writeRevokedGrantMarker.
  cbv zeta. solve_respects.
Qed.

(** The grant of a stored row is found, and moved past every row it has. *)
Lemma checkAndExtend_inv gid exp w :
  Inv w -> (forall id x, rs_rows (w_rts w) !! id = Some x -> rt_ExpiresAt x <= exp) -> gid <> "" ->
  wp (RefreshToken_checkAndExtendGrant gid exp) (fun o w' => Inv w' /\ sys_le (w_sys w) (w_sys w') /\
    w_rts w' = w_rts w /\
    (o = Ret None -> forall g, ps_view (w_grants w) !! gid = Some g ->
       ps_view (w_grants w') !! gid = Some (Grant_ExtendToCover exp g))) w.
Proof.
  intros Hw Hexp Hne. pose proof Hw as [Hinv Hc]. eapply wp_mono; [by apply checkAndExtendGrant_spec|].
  intros o w' (s & r & -> & L & Hi & Hv & _ & Ho). split_and!; try done.
  - apply Inv_grants; try done. intros Hc'. simpl in Hv.
    destruct Hv as [->|[[_ ->]|(g & Hg & _ & _ & ->)]]; [done..|].
    assert (g_ID g = gid) as <- by (eapply view_id; [apply Hinv|exact Hg]).
    apply (consistent_put_grant _ _ _ _ (Grant_ExtendToCover exp g)); [exact (co_grants _ _ _ _ Hc' _ _ Hg)| |done].
    intros id x Hx Heq. destruct (co_rows _ _ _ _ Hc _ _ Hx) as (_ & _ & _ & _ & g' & Hg' & Hcov).
    rewrite Heq in Hg'. simpl in Hg'. rewrite Hg in Hg'. injection Hg' as <-. destruct Hcov as (? & ? & _).
    split_and!; try done. simpl. specialize (Hexp id x Hx). unfold grantExpiryMargin, Minute, Second. lia.
  - intros H g Hg. simpl. destruct (Ho H) as [[[?|?] _]|(g' & Hg' & _ & _ & ->)]; [done|congruence|].
    rewrite Hg in Hg'. injection Hg' as <-. apply lookup_insert_eq.
Qed.

Lemma rotateTx_inv old new w :
  Inv w -> rs_rows (w_rts w) !! rt_ID old = Some old -> rt_GrantID new = rt_GrantID old ->
  rt_UserID new = rt_UserID old -> rt_ClientID new = rt_ClientID old ->
  unused_id (w_sys w) (rt_ID new) -> unused_refresh (w_sys w) (rt_TokenHash new) ->
  (forall id x, rs_rows (w_rts w) !! id = Some x -> rt_TokenHash x <> rt_TokenHash new) ->
  rt_ExpiresAt new <= now (w_sys w) + RefreshTokenTTL ->
  (forall id x, rs_rows (w_rts w) !! id = Some x -> rt_ExpiresAt x <= rt_ExpiresAt new) ->
  wp (RefreshToken_rotateTx old new) (fun _ w' => Inv w') w.
Proof.
  intros Hw Hold Hgid Hu Hcl Hid Hh Hfresh Hexp Hlast. pose proof Hw as [_ Hc].
  destruct (co_rows _ _ _ _ Hc _ _ Hold) as (_ & _ & Hne & _ & g & Hg & Hgu & Hgc & _).
  unfold RefreshToken_rotateTx. apply wp_bind.
  eapply wp_mono; [by apply checkAndExtend_inv|]. intros o w1 (H1 & L1 & Hr1 & Hext).
  destruct o as [[e|]|]; [by apply wp_ret| |done]. specialize (Hext eq_refl g Hg).
  pose proof H1 as [(HU1 & HG1 & HR1) _].
  apply wp_bind. in_port. eapply wp_mono; [apply (rr_revoke_law (rt_TokenHash old)), HR1|].
  intros o [s2 r2] (L2 & Hi2 & e & -> & Hrev). apply revoke_revoked in Hrev. simpl in *.
  assert (Inv (upd_rts (s2, r2) w1)) as H2 by (by apply Inv_revoked).
  destruct e as [err|]; [by destruct (errors_Is err ErrNotFound); apply wp_ret|].
  assert (sys_le (w_sys w) s2) as L02 by (by etrans). apply now_mono in L02 as T02.
  apply wp_bind. eapply wp_mono; [apply (save_row_inv new); [done| |]|].
  - split_and!; [by eapply unused_id_later|by eapply unused_refresh_later|by rewrite Hgid|simpl; lia|].
    exists (Grant_ExtendToCover (rt_ExpiresAt new) g). simpl. rewrite Hgid. split; [done|].
    split_and!; simpl; try congruence. unfold grantExpiryMargin, Minute, Second. lia.
  - simpl. intros id x Hx. specialize (Hrev id). rewrite Hx, Hr1 in Hrev. inversion Hrev as [y ? Hs Hy|]; subst.
    rewrite Hs. exact (Hfresh id y (eq_sym Hy)).
  - intros [[e|]|] w3 H3; [by apply wp_ret..|done].
Qed.

Lemma rotate_inv c client old u w :
  Inv w -> rs_rows (w_rts w) !! rt_ID old = Some old -> u_ID u = rt_UserID old ->
  wp (RefreshToken_rotate c client old u) (fun _ w' => Inv w') w.
Proof.
  intros Hw Hold Hu. pose proof Hw as [_ Hc]. destruct (co_rows _ _ _ _ Hc _ _ Hold) as (_ & _ & Hne & _).
  unfold RefreshToken_rotate. cbv zeta. apply wp_bind, wp_in_sys. set (req := mkIssueTokensArgs _ _ _ _ _ _).
  destruct (IssueTokens_run req (w_sys w)) as (r & s1 & Hrun & L1 & Hpost). eapply wp_eq; [exact Hrun|]. cbn beta iota.
  assert (Inv (upd_sys s1 w)) as H1 by (by apply Inv_sys).
  destruct r as [[tokens|] [e|]]; [done| |by apply wp_ret|done].
  pose proof (issued_to_store _ _ _ _ w Hw eq_refl Hpost) as Hst. destruct Hpost as (_ & Hg & _).
  destruct (it_NewGrant tokens) as [g|] eqn:Hng; [naive_solver|]. destruct Hg as [_ Hgid]. simpl in Hgid.
  destruct (Rotate_run (u_ID u) tokens old s1 ltac:(congruence) (fun _ => Hgid))
    as (new & Hnew & N1 & N2 & N3 & N4 & N5 & N6 & N7 & N8 & N9 & N10).
  apply wp_bind, wp_in_sys. eapply wp_eq; [exact Hnew|]. cbn beta iota.
  apply wp_bind, wp_ret. apply wp_bind. unfold RefreshToken_updateRefreshToken, uow_Do. apply wp_bind.
  set (s2 := mk_Sys _ _ _ _ _). assert (sys_le s1 s2) as L2 by (subst s2; sys_lia). apply now_mono in L1 as T1, L2 as T2.
  eapply wp_mono; [apply (rotateTx_inv old new); try done; try congruence|].
  - by apply Inv_sys.
  - rewrite N10. apply drawn_id. subst s2. simpl. lia.
  - rewrite N7. eapply unused_refresh_later; [exact L2|]. by apply to_store_unused in Hst.
  - simpl. rewrite N7. exact (proj2 Hst).
  - simpl. lia.
  - simpl. intros id x Hx. rewrite N9. destruct (co_rows _ _ _ _ Hc _ _ Hx) as (_ & _ & _ & ? & _). lia.
  - intros [[e|]|] w3 H3; [|by apply wp_ret, wp_ret|done].
    by destruct (is_ErrorStruct e); apply wp_ret, wp_ret.
Qed.

Lemma RefreshToken_keep c : respects keep (RefreshToken_Execute c).
Proof.
  unfold RefreshToken_Execute, fail. destruct (ClientAuthenticator_Authenticate _) as [client|]; [|solve_respects].
  destruct (negb _); [solve_respects|]. intros w Hw. keep_wp. apply wp_bind. unfold wp at 1.
  pose proof (findActive_keep (rc_RefreshToken c) w Hw) as H1.
  pose proof (findActive_spec (rc_RefreshToken c) w (proj1 Hw)) as Hf. unfold wp in Hf.
  destruct (RefreshToken_findActiveRefreshToken (rc_RefreshToken c) w) as [[[[rt|] [e|]]|] w0]; cbn [fst snd] in *; try done;
    try (by apply wp_ret).
  destruct (Hf rt eq_refl) as [(Hrt & _) (s1 & r1 & -> & _ & _ & Hrows)].
  assert (rs_rows (w_rts (upd_rts (s1, r1) w)) !! rt_ID rt = Some rt) as Hrt1 by (simpl; by rewrite Hrows).
  clear Hrt Hrows. set (w1 := upd_rts _ _) in *. pose proof H1 as [(HU & _) _]. unfold RefreshToken_redeem, fail.
  destruct (negb _); [by apply wp_ret|]. wp_call findByID_law. intros o [s2 r2] (L2 & Hi2 & Hv2 & Ho). simpl in *.
  assert (Inv (upd_users (s2, r2) w1)) as H2 by (by apply Inv_users_same).
  destruct Ho as [(l & u & id & -> & Hl & Hu & Hid)|[(-> & _)|(e & -> & _)]]; cbn beta iota; [|by apply wp_ret..].
  apply wp_bind. eapply wp_eq; [by apply in_users_deref|]. cbn beta iota.
  destruct (sessionInvalidated u rt); [by apply wp_ret|]. by apply rotate_inv.
Qed.

(** *** All of them *)

#[local] Hint Resolve CreateUser_keep CreateAuthCode_keep UpdateProfile_keep ForgotPassword_keep ResetPassword_keep
  ExchangeCode_keep RefreshToken_keep RevokeToken_keep Logout_keep GetToken_keep Authorize_keep GetSignIn_keep
  GetProfile_keep Introspect_keep : respects.

#[export] Instance keep_served : Served keep.
Proof.
  split; [exact _|..]; intros; [|solve_respects..].
  destruct cmd; simpl; unfold GetDiscovery_Execute, GetJWKS_Execute, ok; cbv zeta; solve_respects.
Qed.

(** C3: The server keeps its data consistent.  From a consistent state - an empty
    database is one - every state the server reaches, whatever requests it serves
    and whatever their outcome, is consistent: every refresh token belongs to a
    stored grant of the same user and client that outlives it, every grant to a
    stored user of the tenant, and no identifier or secret handed out later is in
    use.  So the theorems about single requests apply in every such state. *)
Theorem reachable_consistent (w w' : World) :
  Inv w -> serves w w' -> Inv w' /\ refresh_fresh w' /\ ids_fresh w' /\ user_ids_fresh w'.
Proof.
  intros Hw Hserve.
  assert (Inv w') as Hw'.
  { refine (serves_safe keep w w' _ Hserve Hw). intros w1 s c L _ H1. by apply Inv_cache. }
  split; [done|]. destruct Hw' as [(HU & HG & HR) [HcU _ HcR]]. split_and!.
  - intros uid s tok s' L Hgen id x Hx. destruct (HcR id x Hx) as (_ & Hun & _). by eapply Hun.
  - intros n Hn. destruct (rs_rows (w_rts w') !! uuid_NewString n) as [x|] eqn:Hx; [|done].
    destruct (HcR _ _ Hx) as (Hun & _). destruct (Hun n Hn). by eapply rr_row_id.
  - intros n Hn. destruct (ps_view (w_users w') !! uuid_NewString n) as [u|] eqn:Hu; [|done].
    destruct (HcU _ _ Hu) as (_ & Hun & _). destruct (Hun n Hn). eapply view_id; [exact HU|exact Hu].
Qed.

End KeepRequests.
