(* ===== verification/RouterFlow.v ===== *)
(** * Theorems about the routes

    What a request meets on its way to a use case: the caller's identity on the
    protected routes, the choice of the use case at the token endpoint, the
    headers on every answer, and that there is always an answer. *)

From S2P Require Import Prelude GoStd Crypto Errors Env Scope User Token Client AuthFlow Jwt Cache Ports Services Responses CmdTokens CmdUsers Queries Web Binding Router Frame TokenFlow WebFlow System.

Local Open Scope Z_scope.

Section RouterFlow.
  Context {E : Env} {TS : TokenServiceI} {D : Deps} {SV : StructValidator}.
  Context {CI : CacheI} {UI : UserRepoI} {GI : GrantRepoI} {RI : RefreshTokenRepoI}.
  Context {G : GinBinding} {GT : GinTyped G} {CH : CorsHandler} {GE : GinEngine}.
  Context (validate : Command -> option goerr).

Lemma run_chain_last (h : Handler) x w : run_chain [h] x w = h x w.
Proof.
  simpl. unfold bind. destruct (h x w) as [[x'|e] w']; [|done]. by destruct (x_aborted x').
Qed.

Lemma run_chain_step (h : Handler) hs x x' w w' :
  h x w = (Ret x', w') -> run_chain (h :: hs) x w = if x_aborted x' then (Ret x', w') else run_chain hs x' w'.
Proof. intros H. simpl. rewrite (bind_run _ _ _ _ _ H). by destruct (x_aborted x'). Qed.

(** ** Who the request acts for *)

(** The routes behind [Authenticate], with their commands. *)
Definition protected_routes : list (string * string * CmdKind) :=
  [("GET", "/userinfo", KProfile); ("GET", "/protocol/openid-connect/userinfo", KProfile);
   ("GET", "/oidc/me", KProfile); ("POST", "/api/v3/update-profile", KUpdateProfile)].

(** The user a command acts for. *)
Definition cmd_user (cmd : Command) : option string :=
  match cmd with
  | QProfile id => Some id
  | CUpdateProfile c => Some (pc_UserID c)
  | _ => None
  end.

Lemma protected_chain m p k :
  (m, p, k) ∈ protected_routes ->
  (k = KProfile \/ k = KUpdateProfile) /\
  exists r, find_route validate m p = Some r /\ ro_Handlers r = [Authenticate; Handle validate k].
Proof.
  unfold protected_routes. rewrite !elem_of_cons, elem_of_nil.
  intros [[= -> -> ->]|[[= -> -> ->]|[[= -> -> ->]|[[= -> -> ->]|[]]]]];
    (split; [auto|]); eexists (mkRoute _ _ _); (split; [reflexivity|reflexivity]).
Qed.

(** A command bound in a context that has a user id acts for that user, whatever
    else the request says. *)
Lemma bound_user k x uid v :
  (k = KProfile \/ k = KUpdateProfile) -> x_keys x !! UserIdKey = Some (CtxStr uid) ->
  Bind x (new_cmd k) = (v, None) -> cmd_user (cmd_of k v) = Some uid.
Proof.
  intros Hk Hx (fs & _ & Hf)%Bind_fields.
  destruct (Hf "UserID" (mkField "UserID" [tag_ctx "user_id"] true) (RStr "")) as (old & _ & Hs & Hv).
  { by destruct Hk as [-> | ->]. }
  assert (get_str "UserID" v = uid) as Hu.
  { unfold get_str. rewrite Hv. unfold bindField. change (hasTag _ "ctx") with true. simpl.
    unfold UserIdKey in Hx. rewrite Hx. by destruct old. }
  destruct Hk as [-> | ->]; simpl; by rewrite Hu.
Qed.

(** C17: Identity.  A protected route answers 401 unless the bearer token verifies,
    and then the command it dispatches acts for the subject of that token,
    whatever the query, the body or the cookies of the request say. *)
Theorem protected_routes_act_for_caller (m p : string) (k : CmdKind) (x : Ctx) (w : World) :
  (m, p, k) ∈ protected_routes -> x_aborted x = false ->
  exists r, find_route validate m p = Some r /\
  match verifyBearer x w with
  | (Ret None, w1) => exists x', run_chain (ro_Handlers r) x w = (Ret x', w1) /\ x_status x' = 401
  | (Ret (Some (claims, token)), w1) => exists x1,
      (exists err, run_chain (ro_Handlers r) x w = (Ret (responder_Response RNil (Some err) false x1), w1)) \/
      (exists cmd, cmd_user cmd = Some (cl_Subject claims) /\
         run_chain (ro_Handlers r) x w = handle validate cmd false x1 w1)
  | (Panic msg, w1) => run_chain (ro_Handlers r) x w = (Panic msg, w1)
  end.
Proof.
  intros [Hk (r & Hr & Hh)]%protected_chain Ha. exists r. split; [done|]. rewrite Hh.
  destruct (verifyBearer x w) as [[[[claims token]|]|msg] w1] eqn:Hv.
  - rewrite (run_chain_step Authenticate _ x (setBearerIdentity claims token x) w w1).
    2:{ unfold Authenticate. by rewrite (bind_run _ _ _ _ _ Hv). }
    replace (x_aborted (setBearerIdentity claims token x)) with false by (by simpl; rewrite Ha).
    exists (setBearerIdentity claims token x). rewrite run_chain_last. unfold Handle, handle_bound.
    destruct (Bind _ (new_cmd k)) as [v [err|]] eqn:Hb; [left; by eexists|right].
    exists (cmd_of k v). split; [|done]. eapply bound_user; [done| |done]. simpl. by simplify_map_eq.
  - eassert (Authenticate x w = (Ret _, w1)) as HA.
    { unfold Authenticate. rewrite (bind_run _ _ _ _ _ Hv). reflexivity. }
    rewrite (run_chain_step _ _ _ _ _ _ HA). eexists. split; [reflexivity|].
    unfold responder_Response, responder_fail, responder_failOAuth2.
    by destruct (ctx_GetBool OAuth2ErrorFormatKey _).
  - simpl. apply bind_panic. unfold Authenticate. by apply bind_panic.
Qed.

(** ** The token endpoint *)

Definition token_kind (gt : string) : option CmdKind :=
  if String.eqb gt grantTypeRefreshToken then Some KRefreshToken
  else if String.eqb gt grantTypeAuthCode then Some KExchangeCode
  else if String.eqb gt grantTypePassword then Some KToken
  else None.

Definition token_paths : list string := ["/token"; "/protocol/openid-connect/token"].

(** The context a token command is bound in. *)
Definition token_ctx (x : Ctx) : Ctx :=
  let x := ctx_Set GrantTypeKey (CtxStr (grantType x)) (ctx_Set OAuth2ErrorFormatKey (CtxBool true) x) in
  match x_BasicAuth x with
  | Some (id, secret) => ctx_Set BasicClientSecretKey (CtxStr secret) (ctx_Set BasicClientIDKey (CtxStr id) x)
  | None => x
  end.

Lemma HandleIf_aborts k x w x' w' : HandleIf validate k (fun _ => true) x w = (Ret x', w') -> x_aborted x' = true.
Proof.
  unfold HandleIf. cbn [negb]. destruct (Bind x (new_cmd k)) as [v [err|]].
  - by intros [<- _]%ret_inv.
  - by intros ([r e] & w1 & _ & [<- _]%ret_inv)%bind_Ret_inv.
Qed.

Lemma HandleIf_now k when x : when x = true -> HandleIf validate k when x = HandleIf validate k (fun _ => true) x.
Proof. intros H. unfold HandleIf. by rewrite H. Qed.

Lemma HandleIf_skip k when x w : when x = false -> HandleIf validate k when x w = (Ret x, w).
Proof. intros H. unfold HandleIf. by rewrite H. Qed.

Lemma HandleIf_ends k when hs x w :
  when x = true -> run_chain (HandleIf validate k when :: hs) x w = HandleIf validate k (fun _ => true) x w.
Proof.
  intros H. simpl. rewrite (HandleIf_now _ _ _ H). unfold bind.
  destruct (HandleIf validate k (fun _ => true) x w) as [[x'|e] w'] eqn:Hr; [|done].
  by rewrite (HandleIf_aborts _ _ _ _ _ Hr).
Qed.

Lemma token_kind_known gt k :
  token_kind gt = Some k ->
  String.eqb gt "" = false /\ contains [grantTypeRefreshToken; grantTypeAuthCode; grantTypePassword] gt = true.
Proof.
  unfold token_kind. simpl. intros H.
  rewrite (String.eqb_sym grantTypeRefreshToken), (String.eqb_sym grantTypeAuthCode), (String.eqb_sym grantTypePassword).
  destruct (String.eqb_spec gt grantTypeRefreshToken) as [->|]; [done|].
  destruct (String.eqb_spec gt grantTypeAuthCode) as [->|]; [done|].
  by destruct (String.eqb_spec gt grantTypePassword) as [->|].
Qed.

Lemma token_kind_unknown gt :
  token_kind gt = None -> contains [grantTypeRefreshToken; grantTypeAuthCode; grantTypePassword] gt = false.
Proof.
  unfold token_kind. simpl. intros H.
  rewrite (String.eqb_sym grantTypeRefreshToken), (String.eqb_sym grantTypeAuthCode), (String.eqb_sym grantTypePassword).
  by destruct (String.eqb gt grantTypeRefreshToken), (String.eqb gt grantTypeAuthCode), (String.eqb gt grantTypePassword).
Qed.

Lemma token_ctx_run x w :
  ExtractClientCredentials
    (ctx_Set GrantTypeKey (CtxStr (grantType x)) (ctx_Set OAuth2ErrorFormatKey (CtxBool true) x)) w = (Ret (token_ctx x), w).
Proof. unfold ExtractClientCredentials, token_ctx. simpl. by destruct (x_BasicAuth x) as [[id secret]|]. Qed.

Lemma token_ctx_keys x :
  x_keys (token_ctx x) !! GrantTypeKey = Some (CtxStr (grantType x)) /\ x_aborted (token_ctx x) = x_aborted x.
Proof. unfold token_ctx. simpl. destruct (x_BasicAuth x) as [[id secret]|]; simpl; by simplify_map_eq. Qed.

(** In a context that holds the grant type, the handler of that type runs and
    ends the chain. *)
Lemma token_kind_chain gt k x w :
  x_keys x !! GrantTypeKey = Some (CtxStr gt) -> token_kind gt = Some k ->
  x_aborted x = false ->
  run_chain [HandleIf validate KRefreshToken (grantTypeIs grantTypeRefreshToken);
             HandleIf validate KExchangeCode (grantTypeIs grantTypeAuthCode);
             HandleIf validate KToken (grantTypeIs grantTypePassword)] x w =
  HandleIf validate k (fun _ => true) x w.
Proof.
  unfold token_kind. intros Hx Hk Ha.
  assert (forall g, grantTypeIs g x = String.eqb gt g) as Hw by (intros g; unfold grantTypeIs; by rewrite Hx).
  destruct (String.eqb gt grantTypeRefreshToken) eqn:H1; [injection Hk as <-; apply HandleIf_ends; by rewrite Hw|].
  erewrite run_chain_step by (apply HandleIf_skip; by rewrite Hw). rewrite Ha.
  destruct (String.eqb gt grantTypeAuthCode) eqn:H2; [injection Hk as <-; apply HandleIf_ends; by rewrite Hw|].
  erewrite run_chain_step by (apply HandleIf_skip; by rewrite Hw). rewrite Ha.
  destruct (String.eqb gt grantTypePassword) eqn:H3; [injection Hk as <-; apply HandleIf_ends; by rewrite Hw|done].
Qed.

(** The token endpoint, under both of its paths.  A missing or unknown grant type
    is refused in RFC 6749 form and nothing else happens; otherwise exactly the
    use case of that grant type runs, with the request's Basic credentials. *)
Theorem token_endpoint_dispatch (path : string) (x : Ctx) (w : World) :
  path ∈ token_paths -> x_aborted x = false ->
  exists r, find_route validate "POST" path = Some r /\
  match token_kind (grantType x) with
  | Some k => run_chain (ro_Handlers r) x w = HandleIf validate k (fun _ => true) (token_ctx x) w
  | None => exists x' msg, run_chain (ro_Handlers r) x w = (Ret x', w) /\ x_status x' = 400 /\ x_aborted x' = true /\
      x_body x' = BodyOAuth2 (if String.eqb (grantType x) "" then OAuth2InvalidRequest else OAuth2UnsupportedGrantType) msg
  end.
Proof.
  intros Hp Ha. exists (mkRoute "POST" path (tokenHandlers validate)). split.
  { unfold token_paths in Hp. rewrite !elem_of_cons, elem_of_nil in Hp. by destruct Hp as [-> |[-> |[]]]. }
  unfold ro_Handlers, tokenHandlers.
  erewrite (run_chain_step OAuth2Errors) by reflexivity. simpl x_aborted. rewrite Ha.
  set (x1 := ctx_Set OAuth2ErrorFormatKey (CtxBool true) x).
  assert (grantType x1 = grantType x) as Hg by done.
  destruct (token_kind (grantType x)) as [k|] eqn:Hk.
  - erewrite (run_chain_step (GrantType _)).
    2:{ unfold GrantType. rewrite Hg. apply token_kind_known in Hk as [-> ->]. reflexivity. }
    simpl x_aborted. rewrite Ha.
    erewrite (run_chain_step ExtractClientCredentials); [|apply token_ctx_run].
    destruct (token_ctx_keys x) as [Hkey Hab]. rewrite Hab, Ha.
    apply (token_kind_chain (grantType x)); [exact Hkey|exact Hk|by rewrite Hab].
  - assert (exists msg x', GrantType [grantTypeRefreshToken; grantTypeAuthCode; grantTypePassword] x1 w = (Ret x', w) /\
      x_status x' = 400 /\ x_aborted x' = true /\
      x_body x' = BodyOAuth2 (if String.eqb (grantType x) "" then OAuth2InvalidRequest else OAuth2UnsupportedGrantType) msg)
      as (msg & x' & Hrun & Hst & Hab & Hb).
    { unfold GrantType. rewrite Hg. apply token_kind_unknown in Hk.
      assert (ctx_GetBool OAuth2ErrorFormatKey x1 = true) as Hf by (unfold ctx_GetBool; simpl; by rewrite lookup_insert_eq).
      destruct (String.eqb (grantType x) ""); [|rewrite Hk]; eexists _, _; (split; [reflexivity|]);
        unfold responder_Response, responder_fail; rewrite Hf; done. }
    rewrite (run_chain_step _ _ _ _ _ _ Hrun), Hab. by exists x', msg.
Qed.

(** ** Revocation without credentials *)

(** For a caller with a user id, no client credentials are asked for. *)
Lemma revoke_as_caller c w :
  vc_CallerID c <> "" ->
  RevokeToken_Execute c w =
    (if bool_decide (vc_TokenTypeHint c = Some "access_token") then RevokeToken_accessFirst c w else RevokeToken_refreshFirst c w).
Proof.
  intros Hu. unfold RevokeToken_Execute. rewrite (proj2 (String.eqb_neq _ _) Hu). simpl.
  destruct (vc_TokenTypeHint c) as [h|]; [|done].
  destruct (String.eqb_spec h "access_token") as [->|Hne]; [done|]. by rewrite bool_decide_false by congruence.
Qed.

(** The revocation endpoint tells callers with a bearer token from clients by
    the field [CallerID], which the middleware fills for the former.  It is not
    protected against the request: when gin's binders put a value there - the
    field has no name of its own for them, which by their rules makes its Go name
    the parameter - a request without any credentials is taken for a bearer of a
    token of that user, and its command goes straight to the revocation. *)
Theorem forged_caller_skips_authentication (x : Ctx) (w : World) (fs : list (rfield * rval)) (uid : string) :
  x_keys x = ∅ -> x_aborted x = false -> extractBearerToken (x_Authorization x) = ("", false) -> x_BasicAuth x = None ->
  let x1 := ctx_Set OAuth2ErrorFormatKey (CtxBool true) x in
  gin_filled x1 KRevokeToken fs -> field "CallerID" fs = Some (RStr uid) -> uid <> "" ->
  exists r c, find_route validate "POST" "/oidc/revoke" = Some r /\ vc_CallerID c = uid /\
    run_chain (ro_Handlers r) x w = handle validate (CRevokeToken c) false x1 w /\
    RevokeToken_Execute c w =
      (if bool_decide (vc_TokenTypeHint c = Some "access_token") then RevokeToken_accessFirst c w else RevokeToken_refreshFirst c w).
Proof.
  intros Hk Ha Hb Hc x1 Hfill Hf Hu. pose proof (gin_filled_Bind _ _ _ Hfill) as HB.
  set (v := RPtr KStructT _) in HB.
  assert (get_str "CallerID" v = uid) as Hcaller.
  { destruct (Bind_fields _ _ _ HB) as (fs' & Hfs' & Hfield). rewrite <- (gin_filled_unique _ _ _ _ Hfill Hfs') in Hfield.
    destruct (Hfield "CallerID" (mkField "CallerID" [tag_ctx "user_id"] true) (RStr "") eq_refl) as (old & Hold & _ & Hv).
    rewrite Hf in Hold. injection Hold as <-. unfold get_str. rewrite Hv. unfold bindField. simpl. by rewrite Hk. }
  exists (mkRoute "POST" "/oidc/revoke" [OAuth2Errors; AuthenticateOptional; ExtractClientCredentials; Handle validate KRevokeToken]).
  eexists (mkRevokeTokenCommand _ _ _ _ _ _ _). split; [reflexivity|]. split; [exact Hcaller|]. split.
  - unfold ro_Handlers. rewrite (run_chain_step OAuth2Errors _ x x1 w w) by done.
    change (x_aborted x1) with (x_aborted x). rewrite Ha.
    assert (verifyBearer x1 w = (Ret None, w)) as HV.
    { unfold verifyBearer. change (x_Authorization x1) with (x_Authorization x). by rewrite Hb. }
    rewrite (run_chain_step AuthenticateOptional _ x1 x1 w w).
    2:{ unfold AuthenticateOptional. by rewrite (bind_run _ _ _ _ _ HV). }
    change (x_aborted x1) with (x_aborted x). rewrite Ha.
    rewrite (run_chain_step ExtractClientCredentials _ x1 x1 w w).
    2:{ unfold ExtractClientCredentials. change (x_BasicAuth x1) with (x_BasicAuth x). by rewrite Hc. }
    change (x_aborted x1) with (x_aborted x). rewrite Ha, run_chain_last. unfold Handle, handle_bound. rewrite HB. reflexivity.
  - apply revoke_as_caller. simpl. by rewrite Hcaller.
Qed.

(** ** Every request is one the server serves *)

Lemma Handle_server k html : server_handler (handle_bound validate k html).
Proof.
  apply (sh_choice _ (fun x => match Bind x (new_cmd k) with
    | (_, Some err) => fun x => mret (responder_Response RNil (Some err) html x)
    | (cmd, None) => handle validate (cmd_of k cmd) html
    end)).
  - intros x. destruct (Bind x (new_cmd k)) as [v [err|]]; [apply sh_pure|apply sh_handle].
  - intros x w. unfold handle_bound. by destruct (Bind x (new_cmd k)) as [v [err|]].
Qed.

Lemma HandleIf_server k when : server_handler (HandleIf validate k when).
Proof.
  apply (sh_choice _ (fun x => if negb (when x) then fun x => mret x else
    match Bind x (new_cmd k) with
    | (_, Some err) => fun x => mret (ctx_Abort (responder_Response RNil (MapHTTPError (Some err)) false x))
    | (cmd, None) => fun x => ' (result, err) ← Module_Dispatch validate (cmd_of k cmd);
                       mret (ctx_Abort (responder_Response result (MapHTTPError err) false x))
    end)).
  - intros x. destruct (negb (when x)); [apply (sh_pure (fun x => x))|].
    destruct (Bind x (new_cmd k)) as [v [err|]]; [apply sh_pure|].
    apply (sh_dispatch validate (cmd_of k v) (fun r e x => ctx_Abort (responder_Response r (MapHTTPError e) false x))).
  - intros x w. unfold HandleIf. destruct (negb (when x)); [done|]. by destruct (Bind x (new_cmd k)) as [v [err|]].
Qed.

Lemma middlewares_server cfg : Forall server_handler (middlewares cfg).
Proof.
  unfold middlewares. destruct (0 <? sv_RateLimitPerMin cfg); simpl; repeat constructor; apply (sh_pure (cors_New _)).
Qed.

Lemma routes_server : Forall (fun r => Forall server_handler (ro_Handlers r)) (routes validate).
Proof.
  unfold routes, publicRoutes, oidcRoutes, v3Routes, tokenHandlers, GET, POST, Handle, HandleHTML.
  repeat constructor; try apply Handle_server; try apply HandleIf_server; try apply sh_pure.
Qed.

Lemma route_server r : r ∈ routes validate -> Forall server_handler (ro_Handlers r).
Proof. pose proof routes_server as HF. rewrite List.Forall_forall in HF. intros H. by apply HF, list_elem_of_In. Qed.

Lemma chain_served hs x w w0 : Forall server_handler hs -> serves w0 w -> serves w0 (run_chain hs x w).2.
Proof. intros Hs H. by constructor. Qed.

Lemma tick_served w w0 : serves w0 w -> serves w0 (in_sys time_Now w).2.
Proof.
  intros H. change (in_sys time_Now w).2 with (upd_sys (tick (w_sys w)) w).
  change (upd_sys (tick (w_sys w)) w) with (upd_cache (tick (w_sys w), w_cache w) w).
  apply serves_pause; [done|apply sys_le_tick|]. intros k. by left.
Qed.

Lemma logger_served hs x w w0 :
  Forall server_handler hs -> serves w0 w -> serves w0 (Logger (run_chain hs) x w).2.
Proof.
  intros Hs H. unfold Logger, Logger_logged. cbv zeta. unfold bind at 1 2.
  change (in_sys time_Now w) with (Ret (clock (n_clock (w_sys w))), (in_sys time_Now w).2). cbv iota.
  pose proof (chain_served hs (ctx_Set loggerKey CtxLogger x) _ _ Hs (tick_served _ _ H)) as H1. unfold bind.
  destruct (run_chain hs _ _) as [[x'|e] w2]; [|exact H1]. apply (tick_served _ _ H1).
Qed.

(** ** Every request is answered *)

Section Answers.
  Context {TL : TokenServiceLaws E TS} {CL : CacheLaws E CI} {HL : CorsLaws CH} {GL : GinLaws GE}.

Lemma in_sys_answers {A} (m : ST Sys A) : answers m -> answers (in_sys m).
Proof. intros Hm w. destruct (Hm (w_sys w)) as (a & s' & H). unfold in_sys. rewrite H. eauto. Qed.

Lemma getErr_answers {A} k (d : dest A) : answers (in_cache (cache_GetErr k d)).
Proof.
  intros w. unfold in_cache. destruct (cache_GetErr k d (w_sys w, w_cache w)) as [o [s' c']] eqn:H.
  destruct (wp_run _ _ _ _ _ H (getErr_law A k d _ _)) as (_ & _ & r & -> & _). eauto.
Qed.

Lemma incr_answers k window : answers (in_cache (cache_IncrWindow k window)).
Proof.
  intros w. unfold in_cache. destruct (cache_IncrWindow k window (w_sys w, w_cache w)) as [o [s' c']] eqn:H.
  destruct (wp_run _ _ _ _ _ H (incrWindow_law k window _ _)) as (_ & _ & n & err & t & -> & _). eauto.
Qed.

Lemma parse_answers tok : answers (in_sys (ts_ParseJWT tok)).
Proof. apply in_sys_answers. intros s. destruct (ts_parse_returns tok s) as (r & s' & H & _). eauto. Qed.

Lemma uuid_answers : answers (in_sys uuid_New).
Proof. apply in_sys_answers. intros s. by eexists _, _. Qed.

Lemma now_answers : answers (in_sys time_Now).
Proof. apply in_sys_answers. intros s. by eexists _, _. Qed.

Lemma registry_answers check cmd : answers (Registry_Dispatch check cmd).
Proof.
  intros w. unfold Registry_Dispatch. repeat case_match; eauto.
Qed.

Lemma counter_answers n d : answers (counter_Add n d).
Proof. intros w. by eexists _, _. Qed.

#[local] Hint Resolve getErr_answers incr_answers parse_answers uuid_answers now_answers registry_answers counter_answers : answers.

Lemma dispatch_answered check cmd : answers (Module_Dispatch check cmd).
Proof. unfold Module_Dispatch, Module_observeMetrics. solve_answers. Qed.

Lemma verifyBearer_answers x : answers (verifyBearer x).
Proof. unfold verifyBearer, revocationChecker_IsRevoked. solve_answers. Qed.

#[local] Hint Resolve dispatch_answered verifyBearer_answers : answers.

Lemma handler_answers h x : server_handler h -> answers (h x).
Proof.
  intros Hh. revert x. induction Hh as [| | | | | | | | | | | | |h choose Hc IH Heq]; intros x;
    [..|intros w; rewrite Heq; apply IH]; unfold RequestID, SecurityHeaders, CookieSecure, DistributedRateLimit,
    OAuth2Errors, GrantType, ExtractClientCredentials, ExtractAccessToken, Authenticate, AuthenticateOptional, handle;
    cbv zeta; solve_answers.
Qed.

Lemma chain_answers hs x : Forall server_handler hs -> answers (run_chain hs x).
Proof.
  intros Hs. revert x. induction Hs as [|h hs Hh _ IH]; intros x; simpl; [solve_answers|].
  pose proof (fun x => handler_answers h x Hh). solve_answers.
Qed.

Lemma logger_answers hs x : Forall server_handler hs -> answers (Logger (run_chain hs) x).
Proof. intros Hs. pose proof (fun x => chain_answers hs x Hs). unfold Logger, Logger_logged. solve_answers. Qed.

Lemma engine_returns cfg hs x w :
  Forall server_handler hs -> exists x1 w1 x' w', RequestID x w = (Ret x1, w1) /\
    Logger (run_chain (middlewares cfg ++ hs)) x1 w1 = (Ret x', w') /\ engine_chain cfg hs x w = (Ret x', w').
Proof.
  intros Hs. destruct (handler_answers RequestID x ltac:(constructor) w) as (x1 & w1 & H1).
  destruct (logger_answers (middlewares cfg ++ hs) x1 ltac:(apply Forall_app; split; [apply middlewares_server|done]) w1)
    as (x' & w' & H2).
  exists x1, w1, x', w'. split; [done|]. split; [done|]. apply gin_default_returns. by rewrite (bind_run _ _ _ _ _ H1).
Qed.

(** Requests to the engine are requests of [serves]. *)
Lemma serve_served cfg x w w0 : serves w0 w -> serves w0 (serve validate cfg x w).2.
Proof.
  assert (forall hs x, Forall server_handler hs -> serves w0 w -> serves w0 (engine_chain cfg hs x w).2) as He.
  { intros hs x0 Hs H. destruct (engine_returns cfg hs x0 w Hs) as (x1 & w1 & x' & w' & H1 & H2 & ->).
    pose proof (chain_served [RequestID] x0 _ _ ltac:(repeat constructor) H) as H3. rewrite run_chain_last, H1 in H3.
    pose proof (logger_served (middlewares cfg ++ hs) x1 _ _
      ltac:(apply Forall_app; split; [apply middlewares_server|done]) H3) as H4. cbn [snd] in H4. by rewrite H2 in H4. }
  intros H. unfold serve. destruct (gin_route _ _ _) as [i| |]; [|done|].
  - destruct (routes validate !! i) as [r|] eqn:Hr; [|done]. apply He; [|done].
    apply route_server. by eapply list_elem_of_lookup_2.
  - pose proof (He [] (ctx_Route "" x) ltac:(constructor) H) as H1. unfold bind.
    destruct (engine_chain _ _ _ _) as [[x'|e] w']; exact H1.
Qed.

(** *** Something is written *)

Definition wrote (x : Ctx) : Prop :=
  x_status x <> 0 /\ (x_body x <> BodyNone \/ is_Some (x_header x !! "Location")).

(** The answer of a chain: written by a handler, or by the CORS handler. *)
Definition answered (cfg : ServerConfig) (x : Ctx) : Prop :=
  wrote x \/ x_status x <> 0 /\ exists x1, x_aborted x1 = false /\ x = cors_New (cors_config (sv_CorsOrigins cfg)) x1.

Lemma wrote_Response data err html x : wrote (responder_Response data err html x).
Proof.
  unfold responder_Response, responder_fail, responder_failOAuth2, responder_redirect, responder_redirectStatus, wrote.
  destruct err as [e|].
  - repeat case_match; simpl; split; try (by left); rewrite ?Z.eqb_neq in *; done.
  - repeat case_match; simpl; (split; [try done; by destruct (String.eqb _ _)|]);
      first [by left|right; by simplify_map_eq].
Qed.

(** [h] stops a chain only with [P], and [hs] always ends with it. *)
Definition stops (P : Ctx -> Prop) (h : Handler) : Prop :=
  forall x, x_aborted x = false -> ensures (fun x' => x_aborted x' = true -> P x') (h x).
Definition ends (P : Ctx -> Prop) (hs : list Handler) : Prop :=
  forall x, x_aborted x = false -> ensures P (run_chain hs x).

Lemma ends_cons P h hs : stops P h -> ends P hs -> ends P (h :: hs).
Proof.
  intros Hh Hs x Ha. simpl. eapply ensures_bind_with; [by apply Hh|]. intros x' H.
  destruct (x_aborted x') eqn:Ha'; [apply ensures_ret; by apply H|by apply Hs].
Qed.

Lemma ends_app P ms hs : Forall (stops P) ms -> ends P hs -> ends P (ms ++ hs).
Proof. intros Hm Hs. induction Hm; simpl; [done|]. by apply ends_cons. Qed.

Lemma ends_handler P h : (forall x, ensures P (h x)) -> ends P [h].
Proof. intros H x _ w x' w'. rewrite run_chain_last. apply H. Qed.

Ltac solve_wrote :=
  repeat match goal with
  | |- ensures _ (bind _ _) => apply ensures_bind; intros ?
  | |- ensures _ (mret _) => apply ensures_ret
  | |- ensures _ (match ?x with _ => _ end) => destruct x
  | |- ensures _ (let _ := _ in _) => cbv zeta
  | |- wrote (ctx_Abort ?y) => change (wrote y)
  | |- wrote (responder_Response _ _ _ _) => apply wrote_Response
  | |- _ -> wrote (ctx_Abort ?y) => intros _
  | |- wrote _ => by split; [|left]
  | |- x_aborted _ = true -> _ => by cbn; congruence
  end.

Lemma writes_handle k html : ends wrote [handle_bound validate k html].
Proof. apply ends_handler. intros x. unfold handle_bound, handle. solve_wrote. Qed.

Lemma writes_signUp : ends wrote [signUp].
Proof. apply ends_handler. intros x. unfold signUp. solve_wrote. Qed.

Lemma writes_HandleIf k x : ensures wrote (HandleIf validate k (fun _ => true) x).
Proof. unfold HandleIf. cbn [negb]. solve_wrote. Qed.

Lemma writes_token : ends wrote (tokenHandlers validate).
Proof.
  intros x Ha w x' w' Hrun.
  destruct (token_endpoint_dispatch "/token" x w ltac:(constructor) Ha) as (r & Hr & H).
  assert (ro_Handlers r = tokenHandlers validate) as Hh by (by injection Hr as <-). rewrite Hh in H.
  destruct (token_kind (grantType x)) as [k|].
  - rewrite Hrun in H. by eapply writes_HandleIf.
  - destruct H as (x2 & msg & H & Hst & _ & Hb). rewrite Hrun in H. injection H as -> _.
    split; [by rewrite Hst|left; by rewrite Hb].
Qed.

Lemma stops_plain h :
  h = OAuth2Errors \/ h = ExtractClientCredentials \/ h = ExtractAccessToken \/ h = Authenticate \/
  h = AuthenticateOptional \/ (exists t, h = CachePublic t) \/ h = SecurityHeaders \/ (exists b, h = CookieSecure b) \/
  (exists l w, h = DistributedRateLimit l w) ->
  stops wrote h.
Proof.
  intros [->|[->|[->|[->|[->|[[t ->]|[->|[[b ->]|(l & w & ->)]]]]]]]] x Ha;
    unfold OAuth2Errors, ExtractClientCredentials, ExtractAccessToken, Authenticate, AuthenticateOptional, CachePublic,
      SecurityHeaders, CookieSecure, DistributedRateLimit, tooManyRequests; solve_wrote.
Qed.

Lemma routes_end : Forall (fun r => ends wrote (ro_Handlers r)) (routes validate).
Proof.
  unfold routes, publicRoutes, oidcRoutes, v3Routes, GET, POST, Handle, HandleHTML. simpl.
  repeat (apply List.Forall_cons || apply List.Forall_nil); cbn [ro_Handlers app];
    first [apply writes_token|repeat (first [apply writes_handle|apply writes_signUp|apply ends_cons; [apply stops_plain; eauto 12|]])].
Qed.

Lemma stops_weaken (P Q : Ctx -> Prop) h : (forall x, P x -> Q x) -> stops P h -> stops Q h.
Proof. intros H Hs x Ha w x' w' Hrun Hab. by eapply H, Hs. Qed.

Lemma middlewares_stop cfg : Forall (stops (answered cfg)) (middlewares cfg).
Proof.
  assert (forall h, stops wrote h -> stops (answered cfg) h) as Hw by (intros h; apply stops_weaken; by left).
  unfold middlewares. apply Forall_app. split; [|destruct (0 <? _); constructor; [|constructor]; apply Hw, stops_plain; eauto 12].
  constructor; [apply Hw, stops_plain; eauto 12|]. constructor; [|constructor; [apply Hw, stops_plain; eauto 12|constructor]].
  intros x Ha. unfold Cors. apply ensures_ret. intros Hab. right. split; [by apply cors_ends|by exists x].
Qed.

Lemma stops_chain P hs : Forall (stops P) hs -> stops P (run_chain hs).
Proof.
  intros Hs. induction Hs as [|h hs Hh _ IH]; intros x Ha; simpl; [apply ensures_ret; congruence|].
  eapply ensures_bind_with; [by apply Hh|]. intros x' H.
  destruct (x_aborted x') eqn:Ha'; [by apply ensures_ret|by apply IH].
Qed.

(** The handlers of the engine let a request on with nothing written. *)
Definition lets_on (h : Handler) : Prop :=
  forall x, ensures (fun x' => x_aborted x' = false -> x_status x' = x_status x) (h x).

Lemma lets_on_chain hs : Forall lets_on hs -> lets_on (run_chain hs).
Proof.
  intros Hs. induction Hs as [|h hs Hh _ IH]; intros x; simpl; [by apply ensures_ret|].
  eapply ensures_bind_with; [by apply Hh|]. intros x' H.
  destruct (x_aborted x') eqn:Ha'; [apply ensures_ret; congruence|].
  intros w x2 w' Hrun Hab. rewrite (IH _ _ _ _ Hrun Hab). by apply H.
Qed.

Lemma middlewares_let_on cfg : Forall lets_on (middlewares cfg).
Proof.
  assert (forall f, (forall x, x_status (f x) = x_status x) -> lets_on (fun x => mret (f x))) as Hp.
  { intros f Hf x. by apply ensures_ret. }
  unfold middlewares. apply Forall_app. split.
  - constructor; [by apply Hp|]. constructor; [|constructor; [by apply Hp|constructor]].
    intros x. apply ensures_ret. intros H. by apply cors_lets_on.
  - destruct (0 <? _); constructor; [|constructor]. intros x. unfold DistributedRateLimit, tooManyRequests.
    repeat match goal with
    | |- ensures _ (bind _ _) => apply ensures_bind; intros ?
    | |- ensures _ (mret _) => by apply ensures_ret
    | |- ensures _ (match ?x with _ => _ end) => destruct x
    end.
Qed.

(** What the engine adds in front of a chain keeps what the chain promises. *)
Lemma engine_ensures (P : Ctx -> Prop) cfg hs x w :
  Forall server_handler hs -> x_aborted x = false ->
  (forall x1, x_aborted x1 = false -> x_status x1 = x_status x -> ensures P (run_chain (middlewares cfg ++ hs) x1)) ->
  exists x' w', engine_chain cfg hs x w = (Ret x', w') /\ P x'.
Proof.
  intros Hs Ha HP. destruct (engine_returns cfg hs x w Hs) as (x1 & w1 & x' & w' & H1 & H2 & H3).
  exists x', w'. split; [done|].
  assert (x_aborted x1 = false /\ x_status x1 = x_status x) as [Ha1 Hs1].
  { unfold RequestID in H1. cbv zeta in H1. apply bind_Ret_inv in H1 as (id & w2 & _ & [<- _]%ret_inv). done. }
  unfold Logger, Logger_logged in H2. cbv zeta in H2.
  apply bind_Ret_inv in H2 as ([x2 ev] & w2 & H2 & [<- _]%ret_inv).
  apply bind_Ret_inv in H2 as (start & w3 & _ & (x3 & w4 & H2 & (fin & w5 & _ & [[= <- _] _]%ret_inv)%bind_Ret_inv)%bind_Ret_inv).
  by eapply (HP (ctx_Set loggerKey CtxLogger x1)).
Qed.


(** ** Every answer is hardened *)

Definition hardening : list (string * string) :=
  [("X-Frame-Options", "DENY"); ("Content-Security-Policy", "frame-ancestors 'none'");
   ("X-Content-Type-Options", "nosniff"); ("Referrer-Policy", "no-referrer")].

Definition no_store : string * string := ("Cache-Control", "no-store").

(** The paths of the public metadata. *)
Definition cacheable : list string :=
  ["/protocol/openid-connect/certs"; "/.well-known/openid-configuration"; "/.well-known/jwks.json"].

(** [x'] still has the headers of [hs] that [x] has. *)
Definition kept (hs : list (string * string)) (x x' : Ctx) : Prop :=
  forall k v, (k, v) ∈ hs -> x_header x !! k = Some v -> x_header x' !! k = Some v.

#[global] Instance kept_preorder hs : PreOrder (kept hs).
Proof. split; [by intros x k v|]. intros x y z Hxy Hyz k v Hin Hx. apply Hyz, Hxy; done. Qed.

Definition keeps_headers (hs : list (string * string)) (h : Handler) : Prop := forall x, ensures (kept hs x) (h x).

Lemma kept_same hs x x' : x_header x' = x_header x -> kept hs x x'.
Proof. intros Heq k v _ Hx. by rewrite Heq. Qed.

Lemma setCookies_header cs x : x_header (responder_setCookies cs x) = x_header x.
Proof.
  unfold responder_setCookies. generalize (ctx_GetBool CookieSecureKey x) as b. intros b. revert x.
  induction cs as [|c cs IH]; intros x; simpl; [done|]. by rewrite IH.
Qed.

(** None of the headers a response sets is one of these, but for no-store. *)
Lemma kept_Response data err html x : kept (no_store :: hardening) x (responder_Response data err html x).
Proof.
  unfold responder_Response, responder_fail, responder_failOAuth2, responder_redirect, responder_noStore.
  intros k v Hin Hx. unfold no_store, hardening in Hin. rewrite !elem_of_cons, elem_of_nil in Hin.
  destruct err as [e|]; [repeat case_match; simpl|destruct (response_Cookies data); repeat case_match; simpl];
    destruct Hin as [[= -> ->]|[[= -> ->]|[[= -> ->]|[[= -> ->]|[[= -> ->]|[]]]]]]; rewrite ?setCookies_header;
    by simplify_map_eq.
Qed.
Lemma kept_weaken hs hs' x x' : (forall p, p ∈ hs -> p ∈ hs') -> kept hs' x x' -> kept hs x x'.
Proof. intros Hsub H k v Hin. apply H. by apply Hsub. Qed.

(** Steps of a handler: the context as it is, or a response written on it. *)
Ltac solve_kept :=
  repeat match goal with
  | |- ensures _ (bind _ _) => apply ensures_bind; intros ?
  | |- ensures _ (mret _) => apply ensures_ret
  | |- ensures _ (match ?x with _ => _ end) => destruct x
  | |- ensures _ (let _ := _ in _) => cbv zeta
  | |- kept _ ?x (ctx_Abort ?y) => trans y; [|by apply kept_same]
  | |- kept _ ?x (responder_Response _ _ _ ?y) => trans y; [|apply kept_Response]
  | |- kept _ ?x _ => by apply kept_same
  end.

Lemma kept_other hs k v x : Forall (fun p => p.1 <> k) hs -> kept hs x (ctx_Header k v x).
Proof.
  intros Hk k' v' Hin Hx. simpl. rewrite lookup_insert_ne; [done|].
  rewrite List.Forall_forall in Hk. specialize (Hk (k', v') ltac:(by apply list_elem_of_In)). simpl in Hk. congruence.
Qed.

Lemma kept_RequestID hs : Forall (fun p => p.1 <> RequestIDHeader) hs -> keeps_headers hs RequestID.
Proof.
  intros Hk x. unfold RequestID. cbv zeta. apply ensures_bind. intros id. apply ensures_ret.
  etrans; [|by apply kept_other]. by apply kept_same.
Qed.

Lemma kept_Authenticate : keeps_headers (no_store :: hardening) Authenticate.
Proof.
  intros x. unfold Authenticate. apply ensures_bind. intros [[claims token]|]; solve_kept.
  apply kept_other. repeat constructor; done.
Qed.

Lemma kept_handle k html : keeps_headers (no_store :: hardening) (handle_bound validate k html).
Proof. intros x. unfold handle_bound, handle. solve_kept. Qed.

Lemma kept_HandleIf k when : keeps_headers (no_store :: hardening) (HandleIf validate k when).
Proof. intros x. unfold HandleIf. solve_kept. Qed.

Lemma kept_plain h :
  h = OAuth2Errors \/ (exists a, h = GrantType a) \/ h = ExtractClientCredentials \/ h = ExtractAccessToken \/
  h = AuthenticateOptional \/ h = signUp \/ (exists b, h = CookieSecure b) \/ (exists l w, h = DistributedRateLimit l w) ->
  keeps_headers (no_store :: hardening) h.
Proof.
  intros [->|[[a ->]|[->|[->|[->|[->|[[b ->]|(l & w & ->)]]]]]]] x;
    unfold OAuth2Errors, GrantType, ExtractClientCredentials, ExtractAccessToken, AuthenticateOptional, signUp,
      CookieSecure, DistributedRateLimit, tooManyRequests; solve_kept.
Qed.

Lemma kept_chain hs l x : Forall (keeps_headers hs) l -> ensures (kept hs x) (run_chain l x).
Proof.
  intros Hl. revert x. induction Hl as [|h l Hh _ IH]; intros x; simpl; [by apply ensures_ret|].
  eapply ensures_bind_with; [apply Hh|]. intros x1 H1.
  destruct (x_aborted x1); [by apply ensures_ret|].
  intros w x2 w' Hrun. etrans; [exact H1|]. exact (IH _ _ _ _ Hrun).
Qed.
(** The headers that survive on a path. *)
Definition headers_on (path : string) : list (string * string) :=
  if contains cacheable path then hardening else no_store :: hardening.

Lemma headers_on_sub path p : p ∈ headers_on path -> p ∈ no_store :: hardening.
Proof. unfold headers_on. destruct (contains cacheable path); [by right|done]. Qed.

Lemma keeps_on path h : keeps_headers (no_store :: hardening) h -> keeps_headers (headers_on path) h.
Proof.
  intros H x w x' w' Hrun. specialize (H x w x' w' Hrun). unfold headers_on.
  destruct (contains cacheable path); [|done]. eapply kept_weaken; [|exact H]. intros p Hp. by right.
Qed.

Lemma kept_CachePublic ttl : keeps_headers hardening (CachePublic ttl).
Proof.
  intros x. unfold CachePublic. apply ensures_ret. intros k v Hin Hx. simpl. unfold hardening in Hin.
  rewrite !elem_of_cons, elem_of_nil in Hin.
  destruct Hin as [[= -> ->]|[[= -> ->]|[[= -> ->]|[[= -> ->]|[]]]]]; by simplify_map_eq.
Qed.

Lemma routes_keep : Forall (fun r => Forall (keeps_headers (headers_on (ro_Path r))) (ro_Handlers r)) (routes validate).
Proof.
  unfold routes, publicRoutes, oidcRoutes, v3Routes, tokenHandlers, GET, POST, Handle, HandleHTML. simpl.
  repeat (apply List.Forall_cons || apply List.Forall_nil);
    first [apply (kept_CachePublic discoveryCacheTTL)
          |apply keeps_on; first [apply kept_handle|apply kept_HandleIf|apply kept_Authenticate|apply kept_plain; eauto 12]].
Qed.

(** A context that has all the headers of a path. *)
Definition has_headers (path : string) (x : Ctx) : Prop :=
  forall k v, (k, v) ∈ headers_on path -> x_header x !! k = Some v.

Lemma security_headers_set path x : ensures (has_headers path) (SecurityHeaders x).
Proof.
  apply ensures_ret. intros k v Hin%headers_on_sub. simpl.
  unfold no_store, hardening in Hin. rewrite !elem_of_cons, elem_of_nil in Hin.
  destruct Hin as [[= -> ->]|[[= -> ->]|[[= -> ->]|[[= -> ->]|[[= -> ->]|[]]]]]]; by simplify_map_eq.
Qed.

Lemma kept_Cors origins : keeps_headers (no_store :: hardening) (Cors origins).
Proof.
  intros x. unfold Cors. apply ensures_ret. intros k v Hin Hx. rewrite cors_headers; [done|..];
    unfold no_store, hardening in Hin; rewrite !elem_of_cons, elem_of_nil in Hin;
    by destruct Hin as [[= -> ->]|[[= -> ->]|[[= -> ->]|[[= -> ->]|[[= -> ->]|[]]]]]].
Qed.

Lemma engine_hardened cfg path hs x :
  Forall (keeps_headers (headers_on path)) hs ->
  ensures (has_headers path) (Logger (run_chain (middlewares cfg ++ hs)) x).
Proof.
  intros Hhs. unfold Logger. eapply (ensures_bind_with (fun r => has_headers path r.1)); [|intros r H2; destruct r as [xr e]; by apply ensures_ret].
  unfold Logger_logged. cbv zeta. apply ensures_bind. intros start.
  eapply (ensures_bind_with (has_headers path)); [|intros x2 H2; apply ensures_bind; intros finish; by apply ensures_ret].
  unfold middlewares. rewrite <- app_assoc. simpl.
  eapply ensures_bind_with; [apply (security_headers_set path)|].
  intros x2 H2. destruct (x_aborted x2); [by apply ensures_ret|].
  intros w1 x3 w2 H3 k v Hin.
  refine (kept_chain (headers_on path) (Cors _ :: CookieSecure _ :: _ ++ hs) x2 _ _ _ _ H3 k v Hin (H2 k v Hin)).
  constructor; [apply keeps_on, kept_Cors|]. constructor; [apply keeps_on, kept_plain; eauto 12|].
  apply Forall_app. split; [|done]. destruct (0 <? _); constructor; [|constructor].
  apply keeps_on, kept_plain. eauto 12.
Qed.

Lemma engine_headers cfg path hs x w :
  Forall server_handler hs -> Forall (keeps_headers (headers_on path)) hs ->
  exists x' w', engine_chain cfg hs x w = (Ret x', w') /\ has_headers path x'.
Proof.
  intros Hs Hk. destruct (engine_returns cfg hs x w Hs) as (x1 & w1 & x' & w' & _ & H2 & H3).
  exists x', w'. split; [done|]. exact (engine_hardened cfg path hs x1 Hk _ _ _ H2).
Qed.

Lemma not_found_headers x k v : (k, v) ∈ no_store :: hardening -> x_header (gin_serveError x) !! k = x_header x !! k.
Proof.
  unfold no_store, hardening. rewrite !elem_of_cons, elem_of_nil. intros Hin. apply gin_error_headers.
  by destruct Hin as [[= -> ->]|[[= -> ->]|[[= -> ->]|[[= -> ->]|[[= -> ->]|[]]]]]].
Qed.

(** C20: Hardening.  Every answer to a request gin hands to a chain - that of any
    registered route, or that of no route with its 404 - refused or not, forbids
    framing, sniffing and referrers; and unless it is public metadata it must not
    be cached.  The redirects gin makes itself, of a path with a slash too many or
    too few, run no middleware: the theorem says only that they are gin's.  gin
    and the CORS handler are assumed to do what they document. *)
Theorem every_answer_hardened (cfg : ServerConfig) (x : Ctx) (w : World) :
  exists x' w', serve validate cfg x w = (Ret x', w') /\
  match gin_route ((fun r => (ro_Method r, ro_Path r)) <$> routes validate) (x_Method x) (rq_Path (x_raw x)) with
  | GinRoute i => exists r, routes validate !! i = Some r /\ ro_Method r = x_Method x /\
      forall k v, (k, v) ∈ headers_on (ro_Path r) -> x_header x' !! k = Some v
  | GinNoRoute => forall k v, (k, v) ∈ no_store :: hardening -> x_header x' !! k = Some v
  | GinRedirect => x' = gin_redirect x
  end.
Proof.
  unfold serve. destruct (gin_route _ _ _) as [i| |] eqn:Hg.
  - destruct (gin_registered _ _ _ _ Hg) as (path & Hi). rewrite list_lookup_fmap in Hi.
    destruct (routes validate !! i) as [r|] eqn:Hr; [|done]. injection Hi as Hm _. apply list_elem_of_lookup_2 in Hr.
    destruct (engine_headers cfg (ro_Path r) (ro_Handlers r) (ctx_Route (ro_Path r) x) w) as (x' & w' & H & Hh).
    + by apply route_server.
    + pose proof routes_keep as HF. rewrite List.Forall_forall in HF. by apply HF, list_elem_of_In.
    + exists x', w'. split; [done|]. by exists r.
  - by eexists _, _.
  - destruct (engine_headers cfg "" [] (ctx_Route "" x) w) as (x' & w' & H & Hh); [constructor..|].
    rewrite (bind_run _ _ _ _ _ H). eexists _, _. split; [done|]. intros k v Hin. rewrite (not_found_headers _ _ v) by done.
    by apply Hh.
Qed.

End Answers.
End RouterFlow.
