(* ===== verification/Limits.v ===== *)
(** * Theorems about limits and failures

    Requests per address and recovery mails per account stay within their
    window's limit, whatever is interleaved, but for the requests whose count
    failed; panics stay inside the dispatcher. *)

From S2P Require Import Prelude GoStd Crypto Errors Env Scope User Token Client AuthFlow Jwt Cache Ports Frame Services Responses CmdTokens CmdUsers Queries Web System.

Local Open Scope Z_scope.

(** ** Counting windows *)

Section Windows.
  Context {E : Env} {CM : ClockMono E}.
  Context {CI : CacheI} {CL : CacheLaws E CI} {UI : UserRepoI} {GI : GrantRepoI} {RI : RefreshTokenRepoI}.

(** The counter has been raised [n] times since [lo], in one window. *)
Definition counted (k : string) (lo window : Z) (n : nat) (c : CS) : Prop :=
  match n with
  | O => cache_live c lo k = None
  | S _ => exists e, lo + window <= e /\ cache_entry c k = Some (VInt64 (Z.of_nat n), Some e)
  end.

Lemma counted_same k lo window n c c' :
  cache_entry c' k = cache_entry c k -> counted k lo window n c -> counted k lo window n c'.
Proof. intros He. destruct n; unfold counted, cache_live; by rewrite He. Qed.

Lemma counted_up k lo window n t c c' m :
  counted k lo window n c -> lo <= t <= lo + window -> Z.of_nat n + 1 < two63 -> counts_up k window t c c' m ->
  m = Z.of_nat (S n) /\ counted k lo window (S n) c'.
Proof.
  intros Hc Ht Hn [Hfresh Hmore]. destruct n as [|n].
  - destruct Hfresh as (-> & Hent).
    { destruct (cache_live c t k) eqn:Hl; [|done]. apply (live_antitone _ lo) in Hl; [|lia]. unfold counted in Hc. congruence. }
    split; [done|]. exists (t + window). split; [lia|done].
  - destruct Hc as (e & He & Hent). destruct (Hmore _ _ Hent ltac:(lia)) as (-> & Hent').
    rewrite wrap64_id in * by (unfold two63 in *; lia).
    replace (Z.of_nat (S n) + 1) with (Z.of_nat (S (S n))) in * by lia. split; [done|]. by exists e.
Qed.

(** One more increment, if it ends within the window: counted, or an error, after
    which it may or may not have been counted. *)
Lemma counted_step k lo window n w :
  counted k lo window n (w_cache w) -> lo <= now (w_sys w) -> Z.of_nat n + 1 < two63 ->
  wp (in_cache (cache_IncrWindow k window)) (fun o w' => exists s c m err, w' = upd_cache (s, c) w /\ sys_le (w_sys w) s /\
    o = Ret (m, err) /\
    (now s <= lo + window -> match err with
       | None => m = Z.of_nat (S n) /\ counted k lo window (S n) c
       | Some _ => counted k lo window n c \/ counted k lo window (S n) c
       end)) w.
Proof.
  intros Hc Hlo Hn. in_port. eapply wp_mono; [apply incrWindow_law|].
  intros o [s c] (L & _ & m & err & t & -> & Ht & He). exists s, c, m, err. split_and!; try done.
  intros Hend. destruct err as [err|]; [|by eapply counted_up; [..|exact He]; [done|lia|lia]].
  destruct He as [He|[m' He]]; [left; by eapply counted_same|right]. by eapply counted_up; [..|exact He]; [done|lia|lia].
Qed.

(** The count of a request fails. *)
Definition count_failed (k : string) (window : Z) (w : World) : bool :=
  match (in_cache (cache_IncrWindow k window) w).1 with Ret (_, Some _) => true | _ => false end.

Lemma incr_forward k window : forward w_sys (in_cache (cache_IncrWindow k window)).
Proof.
  intros w. unfold in_cache. destruct (cache_IncrWindow k window (w_sys w, w_cache w)) as [o [s c]] eqn:Hrun.
  by destruct (wp_run _ _ _ _ _ Hrun (incrWindow_law _ _ (w_sys w) (w_cache w))).
Qed.

(** ** The rate limiter *)

Lemma limiter_forward limit window x : forward w_sys (DistributedRateLimit limit window x).
Proof. pose proof incr_forward. unfold DistributedRateLimit. solve_respects. Qed.

(** Requests from one address, interleaved with anything that leaves its
    counter alone: how many came, for how many the count failed, for how many of
    those the limiter fails open, how many were let through. *)
Inductive limiter_trace (ip : string) (limit window : Z) (w0 : World) : nat -> nat -> nat -> nat -> World -> Prop :=
| lt_start : limiter_trace ip limit window w0 0 0 0 0 w0
| lt_request came failed opened passed w x x' w' :
    limiter_trace ip limit window w0 came failed opened passed w -> x_RemoteIP x = ip -> x_aborted x = false ->
    DistributedRateLimit limit window x w = (Ret x', w') ->
    limiter_trace ip limit window w0 (S came)
      (if count_failed (rateLimitCacheKey ip) window w then S failed else failed)
      (if count_failed (rateLimitCacheKey ip) window w && negb (isFailClosedPath (x_FullPath x)) then S opened else opened)
      (if x_aborted x' then passed else S passed) w'
| lt_other came failed opened passed w w' :
    limiter_trace ip limit window w0 came failed opened passed w -> sys_le (w_sys w) (w_sys w') ->
    cache_entry (w_cache w') (rateLimitCacheKey ip) = cache_entry (w_cache w) (rateLimitCacheKey ip) ->
    limiter_trace ip limit window w0 came failed opened passed w'.

Lemma limiter_step ip limit window lo n x w x' w' :
  counted (rateLimitCacheKey ip) lo window n (w_cache w) -> lo <= now (w_sys w) -> Z.of_nat n + 1 < two63 ->
  ip <> "" -> x_RemoteIP x = ip -> x_aborted x = false ->
  DistributedRateLimit limit window x w = (Ret x', w') ->
  sys_le (w_sys w) (w_sys w') /\ (now (w_sys w') <= lo + window ->
    if count_failed (rateLimitCacheKey ip) window w
    then x_aborted x' = isFailClosedPath (x_FullPath x) /\
      (counted (rateLimitCacheKey ip) lo window n (w_cache w') \/ counted (rateLimitCacheKey ip) lo window (S n) (w_cache w'))
    else x_aborted x' = (limit <? Z.of_nat (S n)) /\ counted (rateLimitCacheKey ip) lo window (S n) (w_cache w')).
Proof.
  intros Hc Hlo Hn Hip Hx Hab Hrun. unfold DistributedRateLimit in Hrun. rewrite Hx in Hrun.
  destruct (String.eqb_spec ip ""); [done|]. apply bind_Ret_inv in Hrun as ([count err] & w1 & Hincr & Hrest).
  destruct (wp_run _ _ _ _ _ Hincr (counted_step _ lo window n w Hc Hlo Hn)) as (s & c & m & err' & -> & L & [= <- <-] & Hwin).
  assert (w' = upd_cache (s, c) w) as ->.
  { destruct err; [destruct (isFailClosedPath _)|destruct (limit <? count)]; by injection Hrest. }
  split; [done|]. intros Hend. specialize (Hwin Hend). unfold count_failed. rewrite Hincr. simpl.
  destruct err as [err|].
  - split; [|done]. by destruct (isFailClosedPath _); injection Hrest as <-.
  - destruct Hwin as [-> Hcnt]. split; [|done]. by destruct (limit <? Z.of_nat (S n)); injection Hrest as <-.
Qed.

(** What the counter and the numbers of a trace have to do with each other. *)
Definition tallied (k : string) (lo window limit : Z) (came failed opened passed : nat) (c : CS) : Prop :=
  exists n ok : nat, counted k lo window n c /\ (came - failed <= n <= came)%nat /\ (opened <= failed <= came)%nat /\
    passed = (ok + opened)%nat /\ (ok <= came - failed)%nat /\ Z.of_nat ok <= limit /\
    Z.min (Z.of_nat came) limit <= Z.of_nat ok + Z.of_nat failed.

Lemma limiter_tallied ip limit window came failed opened passed w0 w :
  ip <> "" -> 0 <= limit -> Z.of_nat came < two63 ->
  cache_live (w_cache w0) (now (w_sys w0)) (rateLimitCacheKey ip) = None ->
  limiter_trace ip limit window w0 came failed opened passed w ->
  sys_le (w_sys w0) (w_sys w) /\ (now (w_sys w) <= now (w_sys w0) + window ->
    tallied (rateLimitCacheKey ip) (now (w_sys w0)) window limit came failed opened passed (w_cache w)).
Proof.
  intros Hip Hlim Hn H0 Htr.
  induction Htr as [|came failed opened passed w x x' w' Htr IH Hx Hab Hrun|came failed opened passed w w' Htr IH L Hsame].
  - split; [done|]. intros _. exists 0%nat, 0%nat. split_and!; first [done | lia].
  - destruct (IH ltac:(lia)) as [L0 IH']. pose proof (now_mono _ _ L0).
    assert (sys_le (w_sys w) (w_sys w')) as L.
    { pose proof (limiter_forward limit window x w) as Hf. by rewrite Hrun in Hf. }
    split; [etrans; [exact L0|exact L]|]. intros Hend. apply now_mono in L.
    destruct (IH' ltac:(lia)) as (n & ok & Hc & Hn1 & Hf & -> & Hok & Hl & Hmin).
    destruct (limiter_step ip limit window _ n x w x' w' Hc ltac:(lia) ltac:(lia) Hip Hx Hab Hrun) as [_ Hs].
    specialize (Hs Hend). destruct (count_failed _ window w).
    + destruct Hs as [-> Hc']. destruct Hc' as [Hc'|Hc']; [exists n, ok|exists (S n), ok];
        (split; [done|]); destruct (isFailClosedPath _); simpl; split_and!; lia.
    + destruct Hs as [-> Hc']. destruct (Z.ltb_spec limit (Z.of_nat (S n))); [exists (S n), ok|exists (S n), (S ok)];
        (split; [done|]); simpl; split_and!; lia.
  - destruct (IH Hn) as [L0 IH']. split; [etrans; [exact L0|exact L]|]. intros Hend. apply now_mono in L.
    destruct (IH' ltac:(lia)) as (n & ok & Hc & Hrest). exists n, ok. split; [by eapply counted_same|done].
Qed.

(** C22: The rate limiter, over the requests of one (non-empty) address in a window
    that begins when the address has no live counter.  While the cache answers, it lets through
    exactly [limit] of them, and all while there are no more.  A request whose
    count fails is let through or refused by its path alone (refused on the sign-in
    and token paths, let through on all others), and may or may not have been
    counted: so no more than [limit] are let through besides those on which the
    limiter fails open, and at most as many of the first [limit] are refused as counts
    failed.  Other addresses' requests in between make no difference. *)
Theorem rate_limiter_exact (ip : string) (limit window : Z) (came failed opened passed : nat) (w0 w : World) :
  ip <> "" -> 0 <= limit -> Z.of_nat came < two63 ->
  cache_live (w_cache w0) (now (w_sys w0)) (rateLimitCacheKey ip) = None ->
  limiter_trace ip limit window w0 came failed opened passed w -> now (w_sys w) <= now (w_sys w0) + window ->
  Z.of_nat passed <= limit + Z.of_nat opened /\
  Z.min (Z.of_nat came) limit - Z.of_nat failed + Z.of_nat opened <= Z.of_nat passed /\
  (failed = 0%nat -> Z.of_nat passed = Z.min (Z.of_nat came) limit).
Proof.
  intros Hip Hlim Hn H0 Htr Hend.
  destruct (limiter_tallied _ _ _ _ _ _ _ _ _ Hip Hlim Hn H0 Htr) as [_ H].
  destruct (H Hend) as (n & ok & _ & Hn1 & Hf & -> & Hok & Hl & Hmin). split_and!; lia.
Qed.

End Windows.

(** ** Recovery mails *)

Section Recovery.
  Context {E : Env} {CM : ClockMono E} {TS : TokenServiceI} {TL : TokenServiceLaws E TS} {D : Deps} {SV : StructValidator}.
  Context {CI : CacheI} {CL : CacheLaws E CI} {UI : UserRepoI} {GI : GrantRepoI} {RI : RefreshTokenRepoI}.
  Context {PF : PortsForward UI GI RI}.

(** At most one mail leaves the server. *)
Definition one_mail {A} (m : ST World A) : Prop := forall w, (length (w_mail (m w).2) <= S (length (w_mail w)))%nat.

Lemma one_mail_keeps {A} (m : ST World A) : keeps w_mail m -> one_mail m.
Proof. intros H w. rewrite H. lia. Qed.

Lemma one_mail_bind {A B} (m : ST World A) (k : A -> ST World B) :
  keeps w_mail m -> (forall a, one_mail (k a)) -> one_mail (bind m k).
Proof.
  intros Hm Hk w. unfold bind. specialize (Hm w). destruct (m w) as [[a|e] w1]; simpl in *; [|rewrite Hm; lia].
  rewrite <- Hm. apply Hk.
Qed.

Lemma one_mail_send a t r : one_mail (SendPasswordResetEmail a t;; mret (A := Result) r).
Proof. intros w. simpl. rewrite length_app. simpl. lia. Qed.

Lemma rateLimited_keeps_mail email : keeps w_mail (ForgotPassword_rateLimited email).
Proof. unfold ForgotPassword_rateLimited. solve_keeps. Qed.

(** A limited request sends nothing, any other at most one mail. *)
Lemma forgot_mails c w :
  match ForgotPassword_rateLimited (fc_Email c) w with
  | (Ret true, _) => w_mail (ForgotPassword_Execute c w).2 = w_mail w
  | _ => (length (w_mail (ForgotPassword_Execute c w).2) <= S (length (w_mail w)))%nat
  end.
Proof.
  pose proof (rateLimited_keeps_mail (fc_Email c) w) as Hk. unfold ForgotPassword_Execute.
  destruct (ForgotPassword_rateLimited (fc_Email c) w) as [[b|e] w1] eqn:Hrun; simpl in Hk;
    [rewrite (bind_run _ _ _ _ _ Hrun)|rewrite (bind_panic _ _ _ _ _ Hrun); simpl; rewrite Hk; lia].
  destruct b; [done|].
  rewrite <- Hk. clear Hk Hrun. revert w1.
  match goal with |- forall w1, (length (w_mail (?m w1).2) <= _)%nat => change (one_mail m) end.
  repeat match goal with
  | |- one_mail (SendPasswordResetEmail _ _;; _) => apply one_mail_send
  | |- one_mail (bind _ _) => apply one_mail_bind; [solve_keeps|intros ?]
  | |- one_mail (match ?x with _ => _ end) => destruct x
  | |- one_mail (mret _) => apply one_mail_keeps; solve_keeps
  end.
Qed.

(** The part of a request after the counter was raised. *)
Lemma forgot_rest_forward c w :
  sys_le (w_sys (ForgotPassword_rateLimited (fc_Email c) w).2) (w_sys (ForgotPassword_Execute c w).2).
Proof.
  unfold ForgotPassword_Execute.
  destruct (ForgotPassword_rateLimited (fc_Email c) w) as [[b|e] w1] eqn:Hrun;
    [rewrite (bind_run _ _ _ _ _ Hrun)|by rewrite (bind_panic _ _ _ _ _ Hrun)].
  clear Hrun. revert w1.
  match goal with |- forall w1, sys_le _ (w_sys (?m w1).2) => change (forward w_sys m) end.
  pose proof (safe_mail (fun w w' => sys_le (w_sys w) (w_sys w'))).
  pose proof (fun A m => safe_in_users (A := A) (fun w w' => sys_le (w_sys w) (w_sys w')) m).
  pose proof (fun A m => safe_in_sys (A := A) (fun w w' => sys_le (w_sys w) (w_sys w')) m).
  pose proof (fun l => deref_forward (T := User) l).
  solve_respects.
Qed.

(** Recovery requests for one account (one throttling key), interleaved with
    anything that leaves its counter alone: how many came, for how many the count
    failed, how many mails they sent. *)
Inductive recovery_trace (key : string) (w0 : World) : nat -> nat -> nat -> World -> Prop :=
| rt_start : recovery_trace key w0 0 0 0 w0
| rt_request came failed sent w c :
    recovery_trace key w0 came failed sent w -> forgotPasswordRateKey (fc_Email c) = key ->
    recovery_trace key w0 (S came) (if count_failed key forgotPasswordWindow w then S failed else failed)
      (sent + (length (w_mail (ForgotPassword_Execute c w).2) - length (w_mail w)))
      (ForgotPassword_Execute c w).2
| rt_other came failed sent w w' :
    recovery_trace key w0 came failed sent w -> sys_le (w_sys w) (w_sys w') ->
    cache_entry (w_cache w') key = cache_entry (w_cache w) key ->
    recovery_trace key w0 came failed sent w'.

(** After the counter was raised, the request leaves the cache alone. *)
Lemma forgot_cache c w :
  w_cache (ForgotPassword_Execute c w).2 = w_cache (ForgotPassword_rateLimited (fc_Email c) w).2.
Proof.
  unfold ForgotPassword_Execute, bind at 1.
  destruct (ForgotPassword_rateLimited (fc_Email c) w) as [[b|e] w1]; [|done]. cbn beta iota. revert w1.
  match goal with |- forall w1, w_cache (?m w1).2 = _ => change (keeps w_cache m) end.
  assert (forall a t, keeps w_cache (SendPasswordResetEmail a t)) as Hs by done.
  destruct b; [done|].
  repeat match goal with
  | |- keeps _ (SendPasswordResetEmail _ _) => apply Hs
  | _ => progress solve_keeps
  end.
Qed.

Lemma rateLimited_step email key lo n w :
  forgotPasswordRateKey email = key -> counted key lo forgotPasswordWindow n (w_cache w) ->
  lo <= now (w_sys w) -> Z.of_nat n + 1 < two63 ->
  wp (ForgotPassword_rateLimited email) (fun o w' => now (w_sys w') <= lo + forgotPasswordWindow ->
    if count_failed key forgotPasswordWindow w
    then o = Ret false /\ (counted key lo forgotPasswordWindow n (w_cache w') \/ counted key lo forgotPasswordWindow (S n) (w_cache w'))
    else o = Ret (3 <? Z.of_nat (S n)) /\ counted key lo forgotPasswordWindow (S n) (w_cache w')) w.
Proof.
  intros <- Hc Hlo Hn. unfold ForgotPassword_rateLimited, count_failed. apply wp_bind.
  pose proof (counted_step _ lo forgotPasswordWindow n w Hc Hlo Hn) as Hstep. unfold wp in Hstep.
  destruct (in_cache _ w) as [o w1] eqn:Hrun. eapply wp_eq; [exact Hrun|]. simpl in *.
  destruct Hstep as (s & c & m & err & -> & L & -> & Hwin).
  destruct err as [e|]; apply wp_ret; intros Hend; specialize (Hwin Hend); [done|]. by destruct Hwin as [-> ?].
Qed.

(** C23: Mail flooding.  In the hour that begins at an instant at which the account has
    no live counter, at most three recovery mails are sent for it, besides those
    of requests whose count failed (a failing cache does not block recovery, and
    each such request sends at most one); however many requests come and whatever is
    interleaved with them. *)
Theorem recovery_mails_limited (key : string) (came failed sent : nat) (w0 w : World) :
  Z.of_nat came < two63 -> cache_live (w_cache w0) (now (w_sys w0)) key = None ->
  recovery_trace key w0 came failed sent w -> now (w_sys w) <= now (w_sys w0) + forgotPasswordWindow ->
  (sent <= 3 + failed)%nat.
Proof.
  intros Hn H0 Htr.
  assert (sys_le (w_sys w0) (w_sys w) /\ (now (w_sys w) <= now (w_sys w0) + forgotPasswordWindow ->
    exists n, counted key (now (w_sys w0)) forgotPasswordWindow n (w_cache w) /\ (came - failed <= n <= came)%nat /\
      (failed <= came)%nat /\ (sent <= min (came - failed) 3 + failed)%nat)) as [_ H];
    [|intros Hend; destruct (H Hend) as (n & _ & ? & ? & ?); lia].
  induction Htr as [|came failed sent w c Htr IH Hkey|came failed sent w w' Htr IH L Hsame].
  - split; [done|]. intros _. exists 0%nat. split_and!; first [done | lia].
  - destruct (IH ltac:(lia)) as [L0 IH']. pose proof (now_mono _ _ L0).
    pose proof (ForgotPassword_safe (fun w w' => sys_le (w_sys w) (w_sys w')) c w) as L.
    split; [etrans; [exact L0|exact L]|]. intros Hend. apply now_mono in L as T.
    destruct (IH' ltac:(lia)) as (n & Hc & Hn1 & Hf & Hs).
    pose proof (rateLimited_step _ key (now (w_sys w0)) n w Hkey Hc ltac:(lia) ltac:(lia)) as Hstep.
    pose proof (forgot_mails c w) as Hm. rewrite (forgot_cache c w). unfold wp in Hstep.
    assert (now (w_sys (ForgotPassword_rateLimited (fc_Email c) w).2) <= now (w_sys (ForgotPassword_Execute c w).2)) as T1.
    { apply now_mono. apply forgot_rest_forward. }
    specialize (Hstep ltac:(lia)). destruct (ForgotPassword_rateLimited (fc_Email c) w) as [o w1]. simpl in Hstep.
    destruct (count_failed key forgotPasswordWindow w); destruct Hstep as [-> Hc'].
    + destruct Hc' as [Hc'|Hc']; [exists n|exists (S n)]; (split; [done|]); split_and!; lia.
    + exists (S n). split; [done|]. destruct (Z.ltb_spec 3 (Z.of_nat (S n))); [rewrite Hm|]; split_and!; lia.
  - destruct (IH Hn) as [L0 IH']. split; [etrans; [exact L0|exact L]|]. intros Hend. apply now_mono in L.
    destruct (IH' ltac:(lia)) as (n & Hc & Hrest). exists n. split; [by eapply counted_same|done].
Qed.

(** The answer to a recovery request is the same whether or not an account with
    this address exists, is throttled, or the mail could be sent. *)
Theorem recovery_answer_uniform (c : ForgotPasswordCommand) (w w' : World) (r : Result) :
  ForgotPassword_Execute c w = (Ret r, w') -> r = (RNil, None).
Proof.
  unfold ForgotPassword_Execute, ForgotPassword_rateLimited, bind, mret, ST_ret.
  intros H. repeat (case_match; simplify_eq/=; try done).
Qed.

End Recovery.

(** ** Panics and errors *)

Section Failures.
  Context {E : Env} {TS : TokenServiceI} {D : Deps} {SV : StructValidator}.
  Context {CI : CacheI} {UI : UserRepoI} {GI : GrantRepoI} {RI : RefreshTokenRepoI}.
  Context (validate : Command -> option goerr).

(** Every dispatched command is answered, whatever its use case does: the
    response is made from a result and an error, no panic gets past the
    dispatcher, and after the use case only the metrics change - one failed
    login for a credentials error, one issued token for a success of the three
    commands that count as such. *)
Theorem dispatch_answers (cmd : Command) (html : bool) (x : Ctx) (w : World) :
  exists result err w1, Registry_Dispatch validate cmd w = (Ret (result, err), w1) /\
    exists w2, handle validate cmd html x w =
      (Ret (responder_Response result (MapHTTPError err) html x), w2) /\
      w_users w2 = w_users w1 /\ w_grants w2 = w_grants w1 /\ w_rts w2 = w_rts w1 /\
      w_cache w2 = w_cache w1 /\ w_mail w2 = w_mail w1 /\
      w_metrics w2 = match err with
        | Some e => if bool_decide (err_Code e = Some InvalidEmailOrPassword)
                    then <[MetricFailedLogins := wrap64 (default 0 (w_metrics w1 !! MetricFailedLogins) + 1)]> (w_metrics w1)
                    else w_metrics w1
        | None => match cmd with
                  | CExchangeCode _ | CCreateAuthCode _ | QToken _ =>
                    <[MetricTokensIssued := wrap64 (default 0 (w_metrics w1 !! MetricTokensIssued) + 1)]> (w_metrics w1)
                  | _ => w_metrics w1
                  end
        end.
Proof.
  unfold handle, Module_Dispatch. destruct (Registry_Dispatch validate cmd w) as [[[result err]|msg] w1] eqn:Hrun.
  - exists result, err, w1. split; [done|]. unfold bind. rewrite Hrun.
    unfold Module_observeMetrics, counter_Add, modify, mret, ST_ret.
    destruct err as [e|]; [destruct (bool_decide _)|destruct cmd]; by eexists.
  - unfold Registry_Dispatch in Hrun. repeat case_match; simplify_eq.
Qed.


(** An invalid command never reaches its use case: it is answered with a 400 and
    leaves the server's state as it was. *)
Theorem invalid_commands_rejected (cmd : Command) (x : Ctx) (w : World) (e : goerr) :
  validate cmd = Some e -> ctx_GetBool OAuth2ErrorFormatKey x = false ->
  exists x', handle validate cmd false x w = (Ret x', w) /\ x_status x' = 400 /\
    x_body x' = BodyMsg (err_Error e) (Some validationErrCode).
Proof.
  intros Hv Hk. unfold handle, Module_Dispatch, Registry_Dispatch, bind. rewrite Hv.
  simpl. unfold bind, mret, ST_ret. eexists. split; [reflexivity|].
  unfold responder_Response, MapHTTPError. simpl. unfold responder_fail. rewrite Hk. done.
Qed.

End Failures.
