(* ===== verification/Mail.v ===== *)
(** * Mail (infrastructure/smtp, modules/auth/adapter/out/email_sender.go)

    The SMTP client keeps one connection and repairs it once per message.  What
    matters is what it does when the dialogue breaks: before the body is on the
    wire it may try again, afterwards it must not, or the user gets two mails.
    net and net/smtp talk to the relay, which is a parameter with a state of its
    own ([Relay]); the client remembers the bodies it has handed to the wire. *)

From S2P Require Import Prelude GoStd Errors Env User.

Local Open Scope Z_scope.

(** The relay, as net and net/smtp show it.  A connection is a number. *)
Class Relay := {
  relay : Type;
  net_SplitHost : string -> string;
  net_DialTimeout : string -> ST relay (nat + goerr);
  smtp_NewClient : nat -> string -> ST relay (option goerr);
  sc_StartTLS_offered : nat -> ST relay bool;
  sc_StartTLS : nat -> string -> ST relay (option goerr);
  sc_Mail : nat -> string -> ST relay (option goerr);
  sc_Rcpt : nat -> string -> ST relay (option goerr);
  sc_Data : nat -> ST relay (option goerr);
  wc_Write : nat -> string -> ST relay (option goerr);
  wc_Close : nat -> ST relay (option goerr);
  sc_Reset : nat -> ST relay unit;
  sc_Close : nat -> ST relay unit;
  raw_Close : nat -> ST relay unit;
}.

Definition errDataSent : goerr :=
  ErrVar "smtp.errDataSent" "smtp: message body already sent — retry would risk duplicate delivery".

(** [conn] and [raw] are set and cleared together. *)
Record SmtpClient `{!Relay} := mkSmtp {
  sm_From : string;
  sm_addr : string;
  sm_conn : option nat;
  sm_relay : relay;
  sm_bodies : list string;
}.

Section Smtp.
  Context {RL : Relay}.

Definition NewSmtpClient (addr from : string) (r : relay) : SmtpClient := mkSmtp _ from addr None r [].

Definition on_relay {A} (m : ST relay A) : ST SmtpClient A := fun c =>
  match m (sm_relay c) with
  | (o, r) => (o, mkSmtp _ (sm_From c) (sm_addr c) (sm_conn c) r (sm_bodies c))
  end.

Definition set_conn (v : option nat) : ST SmtpClient unit := modify (fun c =>
  mkSmtp _ (sm_From c) (sm_addr c) v (sm_relay c) (sm_bodies c)).

(** The body goes on the wire. *)
Definition write_body (k : nat) (msg : string) : ST SmtpClient (option goerr) := fun c =>
  match wc_Write k msg (sm_relay c) with
  | (o, r) => (o, mkSmtp _ (sm_From c) (sm_addr c) (sm_conn c) r (sm_bodies c ++ [msg]))
  end.

Definition SmtpClient_dial : ST SmtpClient (option goerr) :=
  c ← get;
  let host := net_SplitHost (sm_addr c) in
  d ← on_relay (net_DialTimeout (sm_addr c));
  match d with
  | inr err => mret (Some (ErrWrapped ("smtp dial " +:+ sm_addr c +:+ ": ") err))
  | inl raw =>
    e ← on_relay (smtp_NewClient raw host);
    match e with
    | Some err => on_relay (raw_Close raw);; mret (Some (ErrWrapped "smtp handshake: " err))
    | None =>
      offered ← on_relay (sc_StartTLS_offered raw);
      e ← (if (offered : bool) then on_relay (sc_StartTLS raw host) else mret None);
      match e with
      | Some err =>
        on_relay (sc_Close raw);; on_relay (raw_Close raw);; mret (Some (ErrWrapped "STARTTLS: " err))
      | None => set_conn (Some raw);; mret None
      end
    end
  end.

Definition SmtpClient_closeConn : ST SmtpClient unit :=
  c ← get;
  match sm_conn c with
  | Some k => on_relay (sc_Close k);; set_conn None
  | None => mret tt
  end.

Fixpoint rcpt_all (k : nat) (to_ : list string) : ST SmtpClient (option goerr) :=
  match to_ with
  | [] => mret None
  | r :: rs =>
    e ← on_relay (sc_Rcpt k r);
    match e with
    | Some err => mret (Some (ErrWrapped ("RCPT TO " +:+ r +:+ ": ") err))
    | None => rcpt_all k rs
    end
  end.

(** The deadlines of the connection are not modelled: a passed deadline is an
    error of the relay's operations. *)
Definition SmtpClient_doSend (to_ : list string) (rawMsg : string) : ST SmtpClient (option goerr) :=
  c ← get;
  match sm_conn c with
  | None => panic "nil pointer dereference"
  | Some k =>
    e ← on_relay (sc_Mail k (sm_From c));
    match e with
    | Some err => mret (Some (ErrWrapped "MAIL FROM: " err))
    | None =>
      e ← rcpt_all k to_;
      match e with
      | Some err => mret (Some err)
      | None =>
        e ← on_relay (sc_Data k);
        match e with
        | Some err => mret (Some (ErrWrapped "DATA: " err))
        | None =>
          e ← write_body k rawMsg;
          match e with
          | Some err =>
            on_relay (wc_Close k);;
            mret (Some (ErrSuffixed errDataSent (": write body: " +:+ err_Error err)))
          | None =>
            e ← on_relay (wc_Close k);
            match e with
            | Some err => mret (Some (ErrSuffixed errDataSent (": end DATA: " +:+ err_Error err)))
            | None => on_relay (sc_Reset k);; mret None
            end
          end
        end
      end
    end
  end.

Definition SmtpClient_Send (to_ : list string) (rawMsg : string) : ST SmtpClient (option goerr) :=
  c ← get;
  e ← (match sm_conn c with None => SmtpClient_dial | Some _ => mret None end);
  match e with
  | Some err => mret (Some err)
  | None =>
    e ← SmtpClient_doSend to_ rawMsg;
    match e with
    | None => mret None
    | Some err =>
      SmtpClient_closeConn;;
      if errors_Is err errDataSent then mret (Some err) else
      e ← SmtpClient_dial;
      match e with
      | Some dialErr => mret (Some dialErr)
      | None => SmtpClient_doSend to_ rawMsg
      end
    end
  end.

Definition SmtpClient_Close : ST SmtpClient (option goerr) := SmtpClient_closeConn;; mret None.

End Smtp.

(** ** Messages *)

Definition crlf : string := String "013" (String "010" "").

(** strings.TrimRight(body, "\r\n") *)
Fixpoint drop_crlf (l : list Z) : list Z :=
  match l with
  | [] => []
  | c :: l' => if (c =? 13) || (c =? 10) then drop_crlf l' else l
  end.

Definition strings_TrimRight_crlf (s : string) : string := string_of (rev (drop_crlf (rev (bytes_of s)))).

Definition BuildMessage (from to_ subject body : string) : string :=
  "To: " +:+ to_ +:+ crlf +:+ "From: " +:+ from +:+ crlf +:+ "Subject: " +:+ subject +:+ crlf +:+ crlf +:+
  strings_TrimRight_crlf body +:+ crlf.

Definition reset_link (appBaseURL rawToken : string) : string :=
  appBaseURL +:+ "/reset-password?token=" +:+ rawToken.

Definition SmtpEmailSender_SendPasswordResetEmail `{!Relay} (appBaseURL toEmail rawToken : string)
  : ST SmtpClient (option goerr) :=
  let body := "Click the link below to reset your password:" +:+ crlf +:+ crlf +:+
              reset_link appBaseURL rawToken +:+ crlf +:+ crlf +:+ "This link expires in 15 minutes." in
  c ← get;
  SmtpClient_Send [toEmail] (BuildMessage (sm_From c) toEmail "Reset your password" body).

(** The sender for development writes a hint to the log. *)
Fixpoint strings_IndexByte (s : string) (c : ascii) : option nat :=
  match s with
  | EmptyString => None
  | String d s' => if Ascii.eqb d c then Some 0%nat else S <$> strings_IndexByte s' c
  end.

Definition maskEmail (email : string) : string :=
  match strings_IndexByte email "@" with
  | None | Some O => "***"
  | Some at_ => String.substring 0 1 email +:+ "***" +:+ String.substring at_ (String.length email - at_) email
  end.

Definition tokenHint (token : string) : string :=
  if len token <=? 8 then token else String.substring 0 8 token +:+ "...".

(** ** Theorems *)

Section SmtpProps.
  Context {RL : Relay}.

(** What is on the wire and how the connection stands. *)
Lemma on_relay_run {A} (m : ST relay A) c :
  exists o r, on_relay m c = (o, mkSmtp _ (sm_From c) (sm_addr c) (sm_conn c) r (sm_bodies c)) /\ (m (sm_relay c)).1 = o.
Proof. unfold on_relay. destruct (m (sm_relay c)) as [o r]. by exists o, r. Qed.

(** [same c c']: nothing more went on the wire. *)
Definition same_bodies (c c' : SmtpClient) : Prop := sm_bodies c' = sm_bodies c.

#[local] Instance same_bodies_preorder : PreOrder same_bodies.
Proof. split; [done|]. unfold same_bodies. intros c1 c2 c3 H12 H23. congruence. Qed.

Lemma on_relay_bodies {A} (m : ST relay A) : respects same_bodies (on_relay m).
Proof. intros c. unfold on_relay. by destruct (m (sm_relay c)). Qed.
Lemma set_conn_bodies v : respects same_bodies (set_conn v).
Proof. done. Qed.
Lemma get_bodies : respects same_bodies get.
Proof. done. Qed.

#[local] Hint Resolve on_relay_bodies set_conn_bodies get_bodies : respects.

Lemma dial_bodies : respects same_bodies SmtpClient_dial.
Proof. unfold SmtpClient_dial. cbv zeta. solve_respects. Qed.
Lemma closeConn_bodies : respects same_bodies SmtpClient_closeConn.
Proof. unfold SmtpClient_closeConn. solve_respects. Qed.
Lemma rcpt_all_bodies k to_ : respects same_bodies (rcpt_all k to_).
Proof. induction to_ as [|r rs IH]; simpl; solve_respects. Qed.

(** One attempt, from the bodies [bs] already sent: the message is on the wire
    once or not at all; if the attempt succeeds it is; an error says which. *)
Definition attempt (msg : string) (bs : list string) (o : outcome (option goerr)) (c' : SmtpClient) : Prop :=
  match o with
  | Ret None => sm_bodies c' = bs ++ [msg]
  | Ret (Some err) => if errors_Is err errDataSent then sm_bodies c' = bs ++ [msg] else sm_bodies c' = bs
  | Panic _ => sm_bodies c' = bs \/ sm_bodies c' = bs ++ [msg]
  end.

Definition own_error (e : option goerr) : Prop := forall x, e = Some x -> errors_Is x errDataSent = false.

(** The error variable is the client's own: no library call returns it. *)
Class RelayLaws := {
  dial_ok addr : ensures (fun d => match d with inl _ => True | inr x => errors_Is x errDataSent = false end)
                         (net_DialTimeout addr);
  newClient_ok k host : ensures own_error (smtp_NewClient k host);
  startTLS_ok k host : ensures own_error (sc_StartTLS k host);
  mail_ok k from : ensures own_error (sc_Mail k from);
  rcpt_ok k to_ : ensures own_error (sc_Rcpt k to_);
  data_ok k : ensures own_error (sc_Data k);
}.

Context {RE : RelayLaws}.

Lemma own_error_none : own_error None.
Proof. done. Qed.
Lemma own_error_wrapped p e : own_error (Some e) -> own_error (Some (ErrWrapped p e)).
Proof. intros He x [= <-]. simpl. exact (He e eq_refl). Qed.

Lemma on_relay_ensures {A} (P : A -> Prop) (m : ST relay A) : ensures P m -> ensures P (on_relay m).
Proof.
  intros Hm c a c'. unfold on_relay. destruct (m (sm_relay c)) as [o r] eqn:E. intros [= -> _].
  exact (Hm _ _ _ E).
Qed.

Lemma rcpt_all_ok k to_ : ensures own_error (rcpt_all k to_).
Proof.
  induction to_ as [|r rs IH]; simpl; [by apply ensures_ret|].
  apply (ensures_bind_with _ _ _ _ (on_relay_ensures _ _ (rcpt_ok k r))). intros [err|] He; [|exact IH].
  by apply ensures_ret, own_error_wrapped.
Qed.

Lemma SmtpClient_dial_ok : ensures own_error SmtpClient_dial.
Proof.
  apply ensures_bind. intros c. cbv zeta.
  apply (ensures_bind_with _ _ _ _ (on_relay_ensures _ _ (dial_ok (sm_addr c)))). intros [raw|err] Hd; [|
    by apply ensures_ret, own_error_wrapped; intros x [= <-]].
  apply (ensures_bind_with _ _ _ _ (on_relay_ensures _ _ (newClient_ok raw _))). intros [err|] Hn.
  { apply ensures_bind. intros _. by apply ensures_ret, own_error_wrapped. }
  apply ensures_bind. intros offered. apply (ensures_bind_with own_error).
  { destruct offered; [apply on_relay_ensures, startTLS_ok|by apply ensures_ret]. }
  intros [err|] Ht; apply ensures_bind; intros _; [|by apply ensures_ret].
  apply ensures_bind. intros _. by apply ensures_ret, own_error_wrapped.
Qed.

(** A step that puts nothing on the wire, at the front of an attempt. *)
Lemma attempt_step {A} msg bs (m : ST SmtpClient A) (P : A -> Prop) (f : A -> ST SmtpClient (option goerr)) c :
  sm_bodies c = bs -> respects same_bodies m -> ensures P m ->
  (forall a c', P a -> sm_bodies c' = bs -> wp (f a) (attempt msg bs) c') ->
  wp (bind m f) (attempt msg bs) c.
Proof.
  intros <- Hm HP Hf. apply wp_bind. unfold wp at 1. specialize (Hm c). specialize (HP c).
  destruct (m c) as [[a|e] c'] eqn:E; simpl in *; [|by left]. by apply Hf; [apply (HP a c')|].
Qed.

(** An answer given without touching the wire. *)
Lemma attempt_unsent msg bs err c :
  sm_bodies c = bs -> own_error (Some err) -> wp (mret (Some err)) (attempt msg bs) c.
Proof. intros Hc He. apply wp_ret. simpl. by rewrite (He err eq_refl). Qed.

(** A last step once the body is out. *)
Lemma attempt_sent {A} msg bs (m : ST SmtpClient A) r c :
  sm_bodies c = bs ++ [msg] -> respects same_bodies m ->
  (forall err, r = Some err -> errors_Is err errDataSent = true) ->
  wp (m;; mret r) (attempt msg bs) c.
Proof.
  intros Hc Hm Hr. apply wp_bind. unfold wp at 1. specialize (Hm c). unfold same_bodies in Hm. rewrite Hc in Hm.
  destruct (m c) as [[a|e] c'] eqn:E; simpl in *; [|by right]. apply wp_ret. destruct r as [err|]; simpl; [|done].
  by rewrite (Hr err eq_refl).
Qed.

Lemma errDataSent_suffixed m err : Some (ErrSuffixed errDataSent m) = Some err -> errors_Is err errDataSent = true.
Proof. intros [= <-]. reflexivity. Qed.

Lemma doSend_attempt to_ msg c : wp (SmtpClient_doSend to_ msg) (attempt msg (sm_bodies c)) c.
Proof.
  remember (sm_bodies c) as bs eqn:Hbs. symmetry in Hbs. unfold SmtpClient_doSend.
  apply (attempt_step _ _ _ (fun _ => True)); [done|apply get_bodies|done|]. intros c0 c1 _ H1.
  destruct (sm_conn c0) as [k|]; [|by left].
  apply (attempt_step _ _ _ _ _ _ H1 (on_relay_bodies _) (on_relay_ensures _ _ (mail_ok k _))).
  intros [err|] c2 He H2; [by apply attempt_unsent, own_error_wrapped|].
  apply (attempt_step _ _ _ _ _ _ H2 (rcpt_all_bodies k to_) (rcpt_all_ok k to_)).
  intros [err|] c3 Hr H3; [by apply attempt_unsent|].
  apply (attempt_step _ _ _ _ _ _ H3 (on_relay_bodies _) (on_relay_ensures _ _ (data_ok k))).
  intros [err|] c4 Hd H4; [by apply attempt_unsent, own_error_wrapped|].
  apply wp_bind. unfold wp at 1, write_body.
  destruct (wc_Write k msg (sm_relay c4)) as [[[err|]|p] r]; simpl; [| |right; by rewrite H4].
  - apply attempt_sent; [by rewrite H4 | apply on_relay_bodies | apply errDataSent_suffixed].
  - apply wp_bind. unfold wp at 1. set (c5 := mkSmtp _ _ _ _ _ _).
    destruct (on_relay_run (wc_Close k) c5) as (o & r5 & -> & _). simpl.
    destruct o as [[err|]|p]; simpl; [| |right; by rewrite H4].
    + by rewrite H4.
    + apply attempt_sent; [by simpl; rewrite H4|apply on_relay_bodies|done].
Qed.

(** C35: [Send], its reconnect and retry included, puts the message on the wire at
    most once: exactly once when it returns no error, once when its error is
    [errDataSent], and not at all when it returns any other error. *)
Theorem send_at_most_once (to_ : list string) (msg : string) (c : SmtpClient) :
  wp (SmtpClient_Send to_ msg) (attempt msg (sm_bodies c)) c.
Proof.
  remember (sm_bodies c) as bs eqn:Hbs. symmetry in Hbs. unfold SmtpClient_Send.
  apply (attempt_step _ _ _ (fun _ => True)); [done|apply get_bodies|done|]. intros c0 c1 _ H1.
  apply (attempt_step _ _ _ own_error); [done| | |].
  { destruct (sm_conn c0); [solve_respects|apply dial_bodies]. }
  { destruct (sm_conn c0); [by apply ensures_ret|apply SmtpClient_dial_ok]. }
  intros [err|] c2 He H2; [by apply attempt_unsent|].
  apply wp_bind. rewrite <- H2. apply (wp_mono _ _ _ _ (doSend_attempt to_ msg c2)).
  intros [[err|]|p] c3 H3; simpl in H3; [| |done].
  - destruct (errors_Is err errDataSent) eqn:Hd.
    + apply attempt_sent; [done|apply closeConn_bodies|]. by intros x [= <-].
    + apply (attempt_step _ _ _ (fun _ => True)); [done|apply closeConn_bodies|done|]. intros _ c4 _ H4.
      apply (attempt_step _ _ _ _ _ _ H4 dial_bodies SmtpClient_dial_ok).
      intros [err'|] c5 He' H5; [by apply attempt_unsent|]. rewrite <- H5. apply doSend_attempt.
  - by apply wp_ret.
Qed.

(** ** The client never dereferences a missing connection *)

Class RelayReturns := {
  ret_Dial addr : answers (net_DialTimeout addr);
  ret_NewClient k host : answers (smtp_NewClient k host);
  ret_offered k : answers (sc_StartTLS_offered k);
  ret_StartTLS k host : answers (sc_StartTLS k host);
  ret_Mail k from : answers (sc_Mail k from);
  ret_Rcpt k to_ : answers (sc_Rcpt k to_);
  ret_Data k : answers (sc_Data k);
  ret_Write k msg : answers (wc_Write k msg);
  ret_Close k : answers (wc_Close k);
  ret_Reset k : answers (sc_Reset k);
  ret_scClose k : answers (sc_Close k);
  ret_rawClose k : answers (raw_Close k);
}.

Context {RR : RelayReturns}.

Lemma on_relay_answers {A} (m : ST relay A) : answers m -> answers (on_relay m).
Proof.
  intros Hm c. destruct (Hm (sm_relay c)) as (a & r & H). unfold on_relay. rewrite H. by eexists _, _.
Qed.
Lemma set_conn_answers v : answers (set_conn v).
Proof. intros c. by eexists _, _. Qed.
Lemma get_answers : answers (S := SmtpClient) get.
Proof. intros c. by eexists _, _. Qed.
Lemma write_body_answers k msg : answers (write_body k msg).
Proof.
  intros c. destruct (ret_Write k msg (sm_relay c)) as (a & r & H). unfold write_body. rewrite H. by eexists _, _.
Qed.

#[local] Hint Resolve on_relay_answers set_conn_answers get_answers write_body_answers ret_Dial ret_NewClient
  ret_offered ret_StartTLS ret_Mail ret_Rcpt ret_Data ret_Close ret_Reset ret_scClose ret_rawClose : answers.

Lemma rcpt_all_answers k to_ : answers (rcpt_all k to_).
Proof. induction to_ as [|r rs IH]; simpl; solve_answers. Qed.
#[local] Hint Resolve rcpt_all_answers : answers.

Lemma dial_answers : answers SmtpClient_dial.
Proof. unfold SmtpClient_dial. solve_answers. Qed.
Lemma closeConn_answers : answers SmtpClient_closeConn.
Proof. unfold SmtpClient_closeConn. solve_answers. Qed.

(** A successful dial leaves a connection. *)
Lemma dial_conn c c' : SmtpClient_dial c = (Ret None, c') -> is_Some (sm_conn c').
Proof.
  unfold SmtpClient_dial. intros (c0 & s0 & [= <- <-] & H)%bind_Ret_inv. cbv zeta in H.
  apply bind_Ret_inv in H as ([raw|err] & s1 & _ & H); [|by apply ret_inv in H as [[=] _]].
  apply bind_Ret_inv in H as ([err|] & s2 & _ & H).
  { apply bind_Ret_inv in H as (? & s3 & _ & H). by apply ret_inv in H as [[=] _]. }
  apply bind_Ret_inv in H as (off & s3 & _ & H). apply bind_Ret_inv in H as ([err|] & s4 & _ & H).
  - apply bind_Ret_inv in H as (? & s5 & _ & H). apply bind_Ret_inv in H as (? & s6 & _ & H).
    by apply ret_inv in H as [[=] _].
  - apply bind_Ret_inv in H as (? & s5 & [= _ <-] & H). apply ret_inv in H as [_ <-]. by eexists.
Qed.

Lemma doSend_returns to_ msg c : is_Some (sm_conn c) -> exists o c', SmtpClient_doSend to_ msg c = (Ret o, c').
Proof.
  intros [k Hk]. unfold SmtpClient_doSend. rewrite (bind_run get _ c c c eq_refl), Hk.
  match goal with |- exists _ _, ?m c = _ => enough (answers m) as H by apply H end. solve_answers.
Qed.

(** A mail to send is sent or refused with an error. *)
Theorem send_returns (to_ : list string) (msg : string) : answers (SmtpClient_Send to_ msg).
Proof.
  intros c. unfold SmtpClient_Send. rewrite (bind_run get _ c c c eq_refl).
  assert (exists e c1, (match sm_conn c with None => SmtpClient_dial | Some _ => mret None end) c = (Ret e, c1)
          /\ (e = None -> is_Some (sm_conn c1))) as (e & c1 & H1 & Hc1).
  { destruct (sm_conn c) as [k|] eqn:Hk; [by exists None, c; rewrite Hk|].
    destruct (dial_answers c) as (e & c1 & H). exists e, c1. split; [done|]. intros ->. exact (dial_conn _ _ H). }
  rewrite (bind_run _ _ _ _ _ H1). destruct e as [err|]; [by eexists _, _|].
  destruct (doSend_returns to_ msg c1 (Hc1 eq_refl)) as (o & c2 & H2). rewrite (bind_run _ _ _ _ _ H2).
  destruct o as [err|]; [|by eexists _, _].
  destruct (closeConn_answers c2) as (? & c3 & H3). rewrite (bind_run _ _ _ _ _ H3).
  destruct (errors_Is err errDataSent); [by eexists _, _|].
  destruct (dial_answers c3) as ([err'|] & c4 & H4); rewrite (bind_run _ _ _ _ _ H4); [by eexists _, _|].
  exact (doSend_returns to_ msg c4 (dial_conn _ _ H4)).
Qed.

End SmtpProps.
