(* ===== verification/Config.v ===== *)
(** * Configuration (cmd/auth/config/config.go)

    The settings are read from the process environment, once, and a value that
    makes no sense stops the boot.  The environment is a map from names to
    values; an unset variable reads as the empty string.  Reading the .env file
    (joho/godotenv), joining paths, Go's duration syntax and go-playground's
    struct validation are parameters ([ConfigLib]). *)

From stdpp Require Import pretty.
From S2P Require Import Prelude GoStd Errors Env Client Router.

Local Open Scope Z_scope.

(** ** Library code *)

Notation Environ := (gmap string string).

Definition getenv (e : Environ) (name : string) : string := default "" (e !! name).

Definition raise {S A} (o : outcome A) : ST S A := fun s => (o, s).

(** strconv.ParseInt(s, 10, 64), and strconv.Atoi on a 64-bit machine: the
    number, or nothing where Go returns an error. *)
Fixpoint digits_value (l : list Z) (acc : Z) : option Z :=
  match l with
  | [] => Some acc
  | c :: l' => if in_range 48 57 c then digits_value l' (10 * acc + (c - 48)) else None
  end.

Definition digits (l : list Z) : option Z := match l with [] => None | _ => digits_value l 0 end.

Definition strconv_ParseInt (s : string) : option Z :=
  let r := match bytes_of s with
           | 43 :: l => digits l
           | 45 :: l => Z.opp <$> digits l
           | l => digits l
           end in
  match r with
  | Some v => if (- 2 ^ 63 <=? v) && (v <? 2 ^ 63) then Some v else None
  | None => None
  end.

Definition strings_ContainsChar (s : string) (c : ascii) : bool := existsb (Ascii.eqb c) (String.list_ascii_of_string s).

Definition fs_ErrNotExist : goerr := ErrVar "fs.ErrNotExist" "file does not exist".

(** ** Settings *)

Record JwtConfig := mkJwtConfig {
  jc_PrivateKeyPath : string;
  jc_PublicKeyPath : string;
  jc_Issuer : string;
  jc_Kid : string;
}.

Record RedisOptions := mkRedisOptions { ro_Addr : string; ro_Password : string; ro_DB : Z }.

Record FileRepositoryConfig := mkFileRepositoryConfig {
  fc_Dir : string;
  fc_UserFileName : string;
  fc_RefreshTokenFileName : string;
  fc_GrantFileName : string;
}.

Record MongoConfig := mkMongoConfig {
  mc_Host : string;
  mc_Username : string;
  mc_Password : string;
  mc_AuthSource : string;
  mc_Database : string;
  mc_MaxPoolSize : Z;
  mc_Direct : bool;
  mc_ServerSelectionTimeout : Z;
}.

Record ClientConfig := mkClientConfig {
  cc_ID : string;
  cc_AuthMethod : string;
  cc_Secret : string;
  cc_RedirectURIs : list string;
  cc_AllowedGrants : list string;
}.

Record OAuthConfig := mkOAuthConfig {
  oc_Clients : list ClientConfig;
  oc_PostLogoutRedirectAllowlist : list string;
  oc_ScopeAllowlist : list string;
}.

Record SmtpConfig := mkSmtpConfig { sc_Host : string; sc_Port : string; sc_From : string }.

Definition SmtpConfig_Addr (c : SmtpConfig) : string := sc_Host c +:+ ":" +:+ sc_Port c.

Record CryptoConfig := mkCryptoConfig { cr_EmailEncryptionKey : string; cr_EmailBlindIndexKey : string }.

Record Settings := mkSettings {
  st_Server : ServerConfig;
  st_JWT : JwtConfig;
  st_RepositoryType : string;
  st_FileRepository : option FileRepositoryConfig;
  st_Mongo : option MongoConfig;
  st_Redis : RedisOptions;
  st_OAuth : OAuthConfig;
  st_SMTP : option SmtpConfig;
  st_AppBaseURL : string;
  st_Crypto : CryptoConfig;
}.

(** ** Parsing single values *)

Definition parseRedisDB (raw : string) : outcome Z :=
  if String.eqb raw "" then Ret 0 else
  match strconv_ParseInt raw with
  | Some db => if db <? 0 then Panic "invalid REDIS_DB configuration" else Ret db
  | None => Panic "invalid REDIS_DB configuration"
  end.

Definition defaultClientID : string := "client-123".
Definition defaultClientAuthMethod : string := "none".
Definition defaultRateLimitPerMin : Z := 1000.
Definition defaultRateLimitWindow : Z := Minute.

Definition parseRateLimitPerMin (raw : string) : outcome Z :=
  if String.eqb raw "" then Ret defaultRateLimitPerMin else
  match strconv_ParseInt raw with
  | Some limit => if limit <? 0 then Panic "invalid RATE_LIMIT_PER_MIN configuration" else Ret limit
  | None => Panic "invalid RATE_LIMIT_PER_MIN configuration"
  end.

Definition defaultClientRedirectURIs : list string :=
  ["https://app.example.com/callback"; "http://localhost:3000/callback"].
Definition defaultClientAllowedGrants : list string :=
  ["authorization_code"; "refresh_token"; "password"; "client_credentials"].

Definition parseFileRepositoryConfig (e : Environ) : FileRepositoryConfig :=
  mkFileRepositoryConfig (getenv e "FILE_DIR") (getenv e "USER_FILE_PATH") "refresh_tokens.json" "grants.json".

Definition parseMongoConfig (e : Environ) : MongoConfig :=
  mkMongoConfig (getenv e "MONGO_HOST") (getenv e "MONGO_USER") (getenv e "MONGO_PASSWORD")
    (getenv e "MONGO_AUTH_SOURCE") (getenv e "MONGO_DATABASE") 0 true 0.

Definition parseCommaSeparated (raw : string) : list string :=
  List.filter (fun s => negb (String.eqb s "")) (strings_TrimSpace <$> strings_Split raw ",").

Definition parseScopeAllowlist (raw : string) : list string :=
  if String.eqb raw "" then ["openid"; "email"; "profile"; "phone"] else parseCommaSeparated raw.

Definition parseCorsOrigins (raw : string) : list string :=
  if String.eqb raw "" then ["*"] else
  List.filter (fun s => negb (String.eqb s "")) (strings_TrimSpace <$> strings_Split raw ",").

Definition normalizePort (raw : string) : string :=
  if String.eqb raw "" then "" else
  if strings_ContainsChar raw ":" then raw else ":" +:+ raw.

(** ** OAuth clients *)

Definition parseClientConfigFields (e : Environ) (prefix id : string) : ClientConfig :=
  let authMethod := getenv e (prefix +:+ "AUTH_METHOD") in
  let authMethod := if String.eqb authMethod "" then defaultClientAuthMethod else authMethod in
  let grants := parseCommaSeparated (getenv e (prefix +:+ "ALLOWED_GRANTS")) in
  let grants := if Nat.eqb (length grants) 0 then defaultClientAllowedGrants else grants in
  mkClientConfig id authMethod (getenv e (prefix +:+ "SECRET"))
    (parseCommaSeparated (getenv e (prefix +:+ "REDIRECT_URIS"))) grants.

Definition no_client : string :=
  "no OAuth client configured: set OAUTH_CLIENT_ID (and related OAUTH_CLIENT_* vars), or DEV_SEED=true for local development".

Definition parsePrimaryClientConfig (e : Environ) : outcome ClientConfig :=
  let id := getenv e "OAUTH_CLIENT_ID" in
  if String.eqb id "" then
    if negb (String.eqb (getenv e "DEV_SEED") "true") then Panic no_client
    else Ret (mkClientConfig defaultClientID defaultClientAuthMethod "" defaultClientRedirectURIs
                             defaultClientAllowedGrants)
  else Ret (parseClientConfigFields e "OAUTH_CLIENT_" id).

Definition client_prefix (n : nat) : string := "OAUTH_CLIENT_" +:+ pretty n +:+ "_".

(** The loop has no bound in the code; [extra_clients_enough] shows that one
    turn more than there are variables always reaches the first gap. *)
Fixpoint extra_clients (fuel : nat) (e : Environ) (n : nat) : list ClientConfig :=
  match fuel with
  | O => []
  | S fuel' =>
    let prefix := client_prefix n in
    let id := getenv e (prefix +:+ "ID") in
    if String.eqb id "" then []
    else parseClientConfigFields e prefix id :: extra_clients fuel' e (S n)
  end.

Definition parseClientConfigs (e : Environ) : outcome (list ClientConfig) :=
  match parsePrimaryClientConfig e with
  | Panic msg => Panic msg
  | Ret c => Ret (c :: extra_clients (S (size e)) e 2)
  end.

(** ** Load *)

(** The process: its environment, and the [once] and [cfg] variables of the package. *)
Record Process := mkProcess { p_env : Environ; p_once : bool; p_cfg : option Settings }.

Class ConfigLib := {
  godotenv_Load : string -> Environ -> Environ * option goerr;
  filepath_Join : string -> string -> string;
  time_ParseDuration : string -> Z + goerr;
  validator_Struct : Settings -> option goerr;
}.

Section Load.
  Context {CL : ConfigLib}.

Definition parseRateLimitWindow (raw : string) : outcome Z :=
  if String.eqb raw "" then Ret defaultRateLimitWindow else
  match time_ParseDuration raw with
  | inl window => if window <=? 0 then Panic "invalid RATE_LIMIT_WINDOW configuration" else Ret window
  | inr _ => Panic "invalid RATE_LIMIT_WINDOW configuration"
  end.

Definition envFilePath (e : Environ) (entryPath : string) : string * bool :=
  let f := getenv e "ENV_PATH" in
  if negb (String.eqb f "") then (f, true) else (filepath_Join entryPath ".env", false).

Definition environ : ST Process Environ := fun p => (Ret (p_env p), p).

Definition set_cfg (c : Settings) : ST Process unit := modify (fun p => mkProcess (p_env p) (p_once p) (Some c)).

Definition load_env (entryPath : string) : ST Process unit := fun p =>
  let '(envPath, explicit) := envFilePath (p_env p) entryPath in
  let '(e, err) := godotenv_Load envPath (p_env p) in
  let p' := mkProcess e (p_once p) (p_cfg p) in
  match err with
  | Some err =>
    if explicit || negb (errors_Is err fs_ErrNotExist)
    then (Panic "Error loading environment variables", p') else (Ret tt, p')
  | None => (Ret tt, p')
  end.

(** The composite literal of [Load], in evaluation order. *)
Definition parseSettings (e : Environ) : ST Process Settings :=
  rate ← raise (parseRateLimitPerMin (getenv e "RATE_LIMIT_PER_MIN"));
  window ← raise (parseRateLimitWindow (getenv e "RATE_LIMIT_WINDOW"));
  db ← raise (parseRedisDB (getenv e "REDIS_DB"));
  clients ← raise (parseClientConfigs e);
  mret {|
    st_Server := mkServerConfig (normalizePort (getenv e "PORT")) (parseCorsOrigins (getenv e "CORS_ORIGINS"))
                   (String.eqb (getenv e "COOKIE_SECURE") "true") (getenv e "METRICS_ADDR") rate window;
    st_JWT := mkJwtConfig (getenv e "PRIVATE_KEY_PATH") (getenv e "PUBLIC_KEY_PATH") (getenv e "JWT_ISSUER")
                (getenv e "JWT_KID");
    st_RepositoryType := getenv e "REPOSITORY_USED";
    st_FileRepository := None;
    st_Mongo := None;
    st_Redis := mkRedisOptions (getenv e "REDIS_ADDR") (getenv e "REDIS_PASSWORD") db;
    st_OAuth := mkOAuthConfig clients (parseCommaSeparated (getenv e "OAUTH_POST_LOGOUT_REDIRECT_ALLOWLIST"))
                  (parseScopeAllowlist (getenv e "OAUTH_SCOPE_ALLOWLIST"));
    st_SMTP := None;
    st_AppBaseURL := getenv e "APP_BASE_URL";
    st_Crypto := mkCryptoConfig (getenv e "EMAIL_ENCRYPTION_KEY") (getenv e "EMAIL_BLIND_INDEX_KEY");
  |}.

Definition with_repository (e : Environ) (c : Settings) : Settings :=
  let '(file, mongo) := if String.eqb (st_RepositoryType c) "mongo"
                        then (st_FileRepository c, Some (parseMongoConfig e))
                        else (Some (parseFileRepositoryConfig e), st_Mongo c) in
  mkSettings (st_Server c) (st_JWT c) (st_RepositoryType c) file mongo (st_Redis c) (st_OAuth c) (st_SMTP c)
    (st_AppBaseURL c) (st_Crypto c).

Definition with_smtp (e : Environ) (c : Settings) : Settings :=
  let host := getenv e "SMTP_HOST" in
  if negb (String.eqb host "") then
    mkSettings (st_Server c) (st_JWT c) (st_RepositoryType c) (st_FileRepository c) (st_Mongo c) (st_Redis c)
      (st_OAuth c) (Some (mkSmtpConfig host (getenv e "SMTP_PORT") (getenv e "SMTP_FROM"))) (st_AppBaseURL c)
      (st_Crypto c)
  else c.

(** [once.Do]: a function that panics counts as done. *)
Definition once_Do (f : ST Process unit) : ST Process unit := fun p =>
  if p_once p then (Ret tt, p) else
  match f p with (o, p') => (o, mkProcess (p_env p') true (p_cfg p')) end.

Definition Load (entryPath : string) : ST Process (option Settings) :=
  once_Do (
    load_env entryPath;;
    e ← environ;
    c ← parseSettings e;
    set_cfg c;;
    set_cfg (with_repository e c);;
    set_cfg (with_smtp e (with_repository e c));;
    match validator_Struct (with_smtp e (with_repository e c)) with
    | Some err => panic (err_Error err)
    | None => mret tt
    end);;
  p ← get;
  mret (p_cfg p).

End Load.

(** ** The client loop reaches the first gap *)

Definition client_key (n : nat) : string := client_prefix n +:+ "ID".

Definition extra_client (e : Environ) (n : nat) : ClientConfig :=
  parseClientConfigFields e (client_prefix n) (getenv e (client_key n)).

#[local] Instance client_key_inj : Inj (=) (=) client_key.
Proof.
  intros n m H. unfold client_key in H. apply append_inj_r in H. unfold client_prefix in H.
  apply (inj (String.append "OAUTH_CLIENT_")), append_inj_r in H. by apply (inj pretty).
Qed.

(** Distinct variables that are set are no more than the variables. *)
Lemma set_keys_bound (e : Environ) (l : list nat) :
  NoDup l -> (forall n, n ∈ l -> getenv e (client_key n) <> "") -> (length l <= size e)%nat.
Proof.
  intros Hnd Hset. rewrite <- (length_fmap client_key), <- size_dom.
  rewrite <- (size_list_to_set (C := gset string) (client_key <$> l)) by by apply (NoDup_fmap_2 client_key).
  apply subseteq_size. intros k (n & -> & Hn)%elem_of_list_to_set%list_elem_of_fmap.
  apply elem_of_dom. specialize (Hset n Hn). unfold getenv in Hset. by destruct (e !! client_key n).
Qed.

Lemma extra_clients_spec e fuel n :
  exists k, (k <= fuel)%nat /\ extra_clients fuel e n = extra_client e <$> seq n k /\
    (forall m, m ∈ seq n k -> getenv e (client_key m) <> "") /\
    ((k < fuel)%nat -> getenv e (client_key (n + k)) = "").
Proof.
  revert n. induction fuel as [|fuel IH]; intros n; simpl.
  - exists 0%nat. repeat split; [lia|by intros m ?%elem_of_nil|lia].
  - fold (client_key n). destruct (String.eqb_spec (getenv e (client_key n)) "") as [H0|H0].
    + exists 0%nat. repeat split; [lia|by intros m ?%elem_of_nil|]. by rewrite Nat.add_0_r.
    + destruct (IH (S n)) as (k & Hk & -> & Hset & Hgap). exists (S k). repeat split; [lia| |].
      * intros m [->|Hm]%elem_of_cons; [done|by apply Hset].
      * intros Hlt. rewrite Nat.add_succ_r. apply Hgap. lia.
Qed.

(** C40: The additional clients are those before the first missing number, and the
    loop, which has no bound in the code, ends: it looks at one number more than
    there are variables at most, and more turns change nothing. *)
Theorem client_loop_reaches_gap (e : Environ) :
  exists k, (k <= size e)%nat /\ extra_clients (S (size e)) e 2 = extra_client e <$> seq 2 k /\
    (forall m, m ∈ seq 2 k -> getenv e (client_key m) <> "") /\
    getenv e (client_key (2 + k)) = "" /\
    forall fuel, (size e < fuel)%nat -> extra_clients fuel e 2 = extra_clients (S (size e)) e 2.
Proof.
  assert (forall fuel, (size e < fuel)%nat -> exists k, (k <= size e)%nat /\
    extra_clients fuel e 2 = extra_client e <$> seq 2 k /\ getenv e (client_key (2 + k)) = "" /\
    (forall m, m ∈ seq 2 k -> getenv e (client_key m) <> "")) as Hall.
  { intros fuel Hf. destruct (extra_clients_spec e fuel 2) as (k & _ & Hex & Hset & Hgap).
    pose proof (set_keys_bound e (seq 2 k) (NoDup_seq 2 k) Hset) as Hb. rewrite length_seq in Hb.
    exists k. repeat split; [done|done| |done]. apply Hgap. lia. }
  destruct (Hall (S (size e)) ltac:(lia)) as (k & Hk & Hex & Hgap & Hset). exists k. do 4 (split; [done|]).
  intros fuel Hf. destruct (Hall fuel Hf) as (k' & _ & -> & Hgap' & Hset'). rewrite Hex.
  destruct (lt_eq_lt_dec k k') as [[Hlt| ->]|Hgt]; [|done|]; exfalso.
  - apply (Hset' (2 + k)%nat); [|done]. apply elem_of_seq. lia.
  - apply (Hset (2 + k')%nat); [|done]. apply elem_of_seq. lia.
Qed.

(** ** What a successful [Load] guarantees *)

Lemma parseCommaSeparated_nonempty raw x : x ∈ parseCommaSeparated raw -> x <> "".
Proof.
  unfold parseCommaSeparated. intros Hx%list_elem_of_In%filter_In. destruct Hx as [_ Hx].
  by intros ->.
Qed.

Lemma strconv_ParseInt_range s v : strconv_ParseInt s = Some v -> - 2 ^ 63 <= v < 2 ^ 63.
Proof.
  unfold strconv_ParseInt. cbv zeta. destruct (match bytes_of s with 43 :: l => _ | _ => _ end) as [z|]; [|done].
  destruct ((- 2 ^ 63 <=? z) && (z <? 2 ^ 63)) eqn:H; [|done]. intros [= <-]. lia.
Qed.

Lemma parseRateLimitPerMin_range raw v : parseRateLimitPerMin raw = Ret v -> 0 <= v < 2 ^ 63.
Proof.
  unfold parseRateLimitPerMin. destruct (String.eqb raw ""); [by intros [= <-]|].
  destruct (strconv_ParseInt raw) as [z|] eqn:E; [|done]. apply strconv_ParseInt_range in E.
  destruct (z <? 0) eqn:?; [done|]. intros [= <-]. lia.
Qed.

Lemma parseRedisDB_range raw v : parseRedisDB raw = Ret v -> 0 <= v < 2 ^ 63.
Proof.
  unfold parseRedisDB. destruct (String.eqb raw ""); [by intros [= <-]|].
  destruct (strconv_ParseInt raw) as [z|] eqn:E; [|done]. apply strconv_ParseInt_range in E.
  destruct (z <? 0) eqn:?; [done|]. intros [= <-]. lia.
Qed.

Lemma parseRateLimitWindow_pos `{!ConfigLib} raw v : parseRateLimitWindow raw = Ret v -> 0 < v.
Proof.
  unfold parseRateLimitWindow. destruct (String.eqb raw ""); [by intros [= <-]|].
  destruct (time_ParseDuration raw) as [z|]; [|done]. destruct (z <=? 0) eqn:?; [done|]. intros [= <-]. lia.
Qed.

(** A client the configuration names: what its parsing already ensures. *)
Definition client_config_ok (c : ClientConfig) : Prop :=
  cc_ID c <> "" /\ cc_AuthMethod c <> "" /\ cc_AllowedGrants c <> [] /\
  Forall (fun g => g <> "") (cc_AllowedGrants c) /\ Forall (fun u => u <> "") (cc_RedirectURIs c).

Lemma parseClientConfigFields_ok e prefix id : id <> "" -> client_config_ok (parseClientConfigFields e prefix id).
Proof.
  intros Hid. unfold parseClientConfigFields. cbv zeta. split; [done|]. split.
  { simpl. by destruct (String.eqb_spec (getenv e (prefix +:+ "AUTH_METHOD")) ""). }
  simpl. set (grants := parseCommaSeparated _).
  assert (Forall (fun g => g <> "") grants) as Hg by (apply Forall_forall; apply parseCommaSeparated_nonempty).
  split; [|split; [|apply Forall_forall; apply parseCommaSeparated_nonempty]].
  - by destruct grants.
  - destruct grants; [|done]. simpl. unfold defaultClientAllowedGrants. by rewrite !Forall_cons.
Qed.

Lemma parseClientConfigs_ok e cs : parseClientConfigs e = Ret cs -> cs <> [] /\ Forall client_config_ok cs.
Proof.
  unfold parseClientConfigs, parsePrimaryClientConfig. cbv zeta.
  assert (Forall client_config_ok (extra_clients (S (size e)) e 2)) as Hex.
  { destruct (extra_clients_spec e (S (size e)) 2) as (k & _ & -> & Hset & _).
    apply Forall_fmap, Forall_forall. intros m Hm. apply parseClientConfigFields_ok, Hset, Hm. }
  destruct (String.eqb_spec (getenv e "OAUTH_CLIENT_ID") "") as [H0|H0].
  - destruct (negb _); [done|]. intros [= <-]. split; [done|]. constructor; [|exact Hex].
    unfold client_config_ok, defaultClientAllowedGrants, defaultClientRedirectURIs. simpl. by rewrite !Forall_cons.
  - intros [= <-]. split; [done|]. constructor; [by apply parseClientConfigFields_ok|exact Hex].
Qed.

(** A number from the environment: its default when the variable is unset or
    empty, else what the variable says. *)
Definition number_from {A} (e : Environ) (name : string) (dflt : Z) (parse : string -> A) (some : Z -> A) (v : Z) : Prop :=
  if String.eqb (getenv e name) "" then v = dflt else parse (getenv e name) = some v.

(** Where the mail goes, which store is used: as the environment says. *)
Definition smtp_from (e : Environ) : option SmtpConfig :=
  if String.eqb (getenv e "SMTP_HOST") "" then None
  else Some (mkSmtpConfig (getenv e "SMTP_HOST") (getenv e "SMTP_PORT") (getenv e "SMTP_FROM")).

Record settings_sane `{!ConfigLib} (e : Environ) (c : Settings) : Prop := {
  sane_rate : 0 <= sv_RateLimitPerMin (st_Server c) < 2 ^ 63 /\
    number_from e "RATE_LIMIT_PER_MIN" 1000 strconv_ParseInt Some (sv_RateLimitPerMin (st_Server c));
  sane_window : 0 < sv_RateLimitWindow (st_Server c) /\
    number_from e "RATE_LIMIT_WINDOW" Minute time_ParseDuration inl (sv_RateLimitWindow (st_Server c));
  sane_db : 0 <= ro_DB (st_Redis c) < 2 ^ 63 /\ number_from e "REDIS_DB" 0 strconv_ParseInt Some (ro_DB (st_Redis c));
  sane_redis : ro_Addr (st_Redis c) = getenv e "REDIS_ADDR" /\ ro_Password (st_Redis c) = getenv e "REDIS_PASSWORD";
  sane_port : sv_Port (st_Server c) = getenv e "PORT" \/
    strings_ContainsChar (getenv e "PORT") ":" = false /\ sv_Port (st_Server c) = ":" +:+ getenv e "PORT";
  sane_server : sv_CorsOrigins (st_Server c) = parseCorsOrigins (getenv e "CORS_ORIGINS") /\
    (sv_CookieSecure (st_Server c) = true <-> getenv e "COOKIE_SECURE" = "true") /\
    sv_MetricsAddr (st_Server c) = getenv e "METRICS_ADDR";
  sane_jwt : st_JWT c = mkJwtConfig (getenv e "PRIVATE_KEY_PATH") (getenv e "PUBLIC_KEY_PATH") (getenv e "JWT_ISSUER")
    (getenv e "JWT_KID");
  sane_crypto : st_Crypto c = mkCryptoConfig (getenv e "EMAIL_ENCRYPTION_KEY") (getenv e "EMAIL_BLIND_INDEX_KEY");
  sane_clients : oc_Clients (st_OAuth c) <> [] /\ Forall client_config_ok (oc_Clients (st_OAuth c));
  sane_configured : parseClientConfigs e = Ret (oc_Clients (st_OAuth c));
  sane_allowed : oc_PostLogoutRedirectAllowlist (st_OAuth c) = parseCommaSeparated (getenv e "OAUTH_POST_LOGOUT_REDIRECT_ALLOWLIST") /\
    oc_ScopeAllowlist (st_OAuth c) = parseScopeAllowlist (getenv e "OAUTH_SCOPE_ALLOWLIST");
  sane_type : st_RepositoryType c = getenv e "REPOSITORY_USED";
  sane_repository :
    if String.eqb (getenv e "REPOSITORY_USED") "mongo"
    then st_FileRepository c = None /\
         st_Mongo c = Some (mkMongoConfig (getenv e "MONGO_HOST") (getenv e "MONGO_USER") (getenv e "MONGO_PASSWORD")
           (getenv e "MONGO_AUTH_SOURCE") (getenv e "MONGO_DATABASE") 0 true 0)
    else st_Mongo c = None /\
         st_FileRepository c = Some (mkFileRepositoryConfig (getenv e "FILE_DIR") (getenv e "USER_FILE_PATH")
           "refresh_tokens.json" "grants.json");
  sane_smtp : st_SMTP c = smtp_from e;
  sane_url : st_AppBaseURL c = getenv e "APP_BASE_URL";
  sane_validated : validator_Struct c = None;
}.

Section LoadProps.
  Context {CL : ConfigLib}.

Lemma raise_inv {S A} (o : outcome A) (s : S) a s' : raise o s = (Ret a, s') -> o = Ret a /\ s' = s.
Proof. by intros [= -> ->]. Qed.

Lemma parseSettings_run e p c p' :
  parseSettings e p = (Ret c, p') ->
  p' = p /\ exists rate window db clients,
  parseRateLimitPerMin (getenv e "RATE_LIMIT_PER_MIN") = Ret rate /\
  parseRateLimitWindow (getenv e "RATE_LIMIT_WINDOW") = Ret window /\
  parseRedisDB (getenv e "REDIS_DB") = Ret db /\ parseClientConfigs e = Ret clients /\
  c = mkSettings (mkServerConfig (normalizePort (getenv e "PORT")) (parseCorsOrigins (getenv e "CORS_ORIGINS"))
        (String.eqb (getenv e "COOKIE_SECURE") "true") (getenv e "METRICS_ADDR") rate window)
      (mkJwtConfig (getenv e "PRIVATE_KEY_PATH") (getenv e "PUBLIC_KEY_PATH") (getenv e "JWT_ISSUER") (getenv e "JWT_KID"))
      (getenv e "REPOSITORY_USED") None None
      (mkRedisOptions (getenv e "REDIS_ADDR") (getenv e "REDIS_PASSWORD") db)
      (mkOAuthConfig clients (parseCommaSeparated (getenv e "OAUTH_POST_LOGOUT_REDIRECT_ALLOWLIST"))
        (parseScopeAllowlist (getenv e "OAUTH_SCOPE_ALLOWLIST")))
      None (getenv e "APP_BASE_URL")
      (mkCryptoConfig (getenv e "EMAIL_ENCRYPTION_KEY") (getenv e "EMAIL_BLIND_INDEX_KEY")).
Proof.
  unfold parseSettings.
  intros (rate & ? & [H1 ->]%raise_inv & H)%bind_Ret_inv.
  apply bind_Ret_inv in H as (window & ? & [H2 ->]%raise_inv & H).
  apply bind_Ret_inv in H as (db & ? & [H3 ->]%raise_inv & H).
  apply bind_Ret_inv in H as (clients & ? & [H4 ->]%raise_inv & H).
  apply ret_inv in H as [<- <-]. split; [done|]. by exists rate, window, db, clients.
Qed.

Lemma rate_from e v : parseRateLimitPerMin (getenv e "RATE_LIMIT_PER_MIN") = Ret v ->
  number_from e "RATE_LIMIT_PER_MIN" 1000 strconv_ParseInt Some v.
Proof.
  unfold parseRateLimitPerMin, number_from. destruct (String.eqb _ ""); [by intros [= <-]|].
  destruct (strconv_ParseInt _) as [z|]; [|done]. destruct (z <? 0); [done|]. by intros [= ->].
Qed.

Lemma window_from e v : parseRateLimitWindow (getenv e "RATE_LIMIT_WINDOW") = Ret v ->
  number_from e "RATE_LIMIT_WINDOW" Minute time_ParseDuration inl v.
Proof.
  unfold parseRateLimitWindow, number_from. destruct (String.eqb _ ""); [by intros [= <-]|].
  destruct (time_ParseDuration _) as [z|]; [|done]. destruct (z <=? 0); [done|]. by intros [= ->].
Qed.

Lemma db_from e v : parseRedisDB (getenv e "REDIS_DB") = Ret v -> number_from e "REDIS_DB" 0 strconv_ParseInt Some v.
Proof.
  unfold parseRedisDB, number_from. destruct (String.eqb _ ""); [by intros [= <-]|].
  destruct (strconv_ParseInt _) as [z|]; [|done]. destruct (z <? 0); [done|]. by intros [= ->].
Qed.

Lemma port_from raw : normalizePort raw = raw \/ strings_ContainsChar raw ":" = false /\ normalizePort raw = ":" +:+ raw.
Proof.
  unfold normalizePort. destruct (String.eqb_spec raw "") as [->|]; [by left|].
  destruct (strings_ContainsChar raw ":"); auto.
Qed.

Lemma completed_sane e p c p' :
  parseSettings e p = (Ret c, p') -> validator_Struct (with_smtp e (with_repository e c)) = None ->
  settings_sane e (with_smtp e (with_repository e c)).
Proof.
  intros (_ & rate & window & db & clients & H1 & H2 & H3 & H4 & ->)%parseSettings_run Hv.
  pose proof (parseRateLimitPerMin_range _ _ H1). pose proof (parseRateLimitWindow_pos _ _ H2).
  pose proof (parseRedisDB_range _ _ H3). apply rate_from in H1. apply window_from in H2. apply db_from in H3.
  pose proof (parseClientConfigs_ok e _ H4). pose proof (port_from (getenv e "PORT")).
  assert (String.eqb (getenv e "COOKIE_SECURE") "true" = true <-> getenv e "COOKIE_SECURE" = "true") by apply String.eqb_eq.
  unfold with_smtp, with_repository in *. simpl in *.
  destruct (String.eqb (getenv e "REPOSITORY_USED") "mongo") eqn:Ht, (String.eqb (getenv e "SMTP_HOST") "") eqn:Hh; simpl in *;
    (split; simpl; unfold smtp_from; rewrite ?Ht, ?Hh; done).
Qed.

(** The environment after the .env file was read. *)
Lemma load_env_env entryPath p u p' : load_env entryPath p = (Ret u, p') ->
  p_env p' = (godotenv_Load (envFilePath (p_env p) entryPath).1 (p_env p)).1.
Proof.
  unfold load_env. destruct (envFilePath (p_env p) entryPath) as [path explicit]. simpl.
  destruct (godotenv_Load path (p_env p)) as [e [err|]]; [destruct (explicit || _); [done|]|]; by intros [= _ <-].
Qed.

(** A first [Load] that returns has sane, validated settings, and every later
    one returns the same without looking at the environment again. *)
Theorem load_sane (entryPath : string) (p : Process) (r : option Settings) (p' : Process) :
  p_once p = false -> Load entryPath p = (Ret r, p') ->
  exists c, r = Some c /\ settings_sane (p_env p') c /\
    p_env p' = (godotenv_Load (envFilePath (p_env p) entryPath).1 (p_env p)).1 /\
    forall path, Load path p' = (Ret (Some c), p').
Proof.
  intros Honce (? & p1 & H1 & H)%bind_Ret_inv. apply bind_Ret_inv in H as (? & ? & [= <- <-] & H).
  apply ret_inv in H as [<- <-]. unfold once_Do in H1. rewrite Honce in H1.
  destruct (bind _ _ p) as [o q] eqn:Hrun. injection H1 as -> <-.
  apply bind_Ret_inv in Hrun as (? & p2 & Henv & Hrun). apply bind_Ret_inv in Hrun as (e & ? & [= <- <-] & Hrun).
  apply bind_Ret_inv in Hrun as (c & p3 & Hparse & Hrun).
  pose proof (parseSettings_run _ _ _ _ Hparse) as (-> & _).
  apply bind_Ret_inv in Hrun as (? & p4 & [= _ <-] & Hrun).
  apply bind_Ret_inv in Hrun as (? & p5 & [= _ <-] & Hrun).
  apply bind_Ret_inv in Hrun as (? & p6 & [= _ <-] & Hrun).
  destruct (validator_Struct _) eqn:Hv; [done|]. apply ret_inv in Hrun as [_ <-]. simpl.
  eexists. split; [done|]. split; [exact (completed_sane _ _ _ _ Hparse Hv)|]. split; [exact (load_env_env _ _ _ _ Henv)|done].
Qed.

(** No client configured and no opt-in to the development client: no settings. *)
Lemma no_client_no_settings e p :
  getenv e "OAUTH_CLIENT_ID" = "" -> getenv e "DEV_SEED" <> "true" ->
  exists msg, parseSettings e p = (Panic msg, p).
Proof.
  intros Hid Hseed.
  assert (parseClientConfigs e = Panic no_client) as Hc.
  { unfold parseClientConfigs, parsePrimaryClientConfig. rewrite Hid. simpl.
    by destruct (String.eqb_spec (getenv e "DEV_SEED") "true"). }
  unfold parseSettings, bind, raise.
  destruct (parseRateLimitPerMin _); [|by eexists]. destruct (parseRateLimitWindow _); [|by eexists].
  destruct (parseRedisDB _); [|by eexists]. rewrite Hc. by eexists.
Qed.

End LoadProps.
