(* ===== verification/Boot.v ===== *)
(** * Boot, wiring and shutdown (cmd/auth/main.go, cmd/auth/dependencies,
      cmd/auth/wire, handler/web/server.go, the constructors of infrastructure)

    What the process builds from the settings before it serves: the key pair and
    the published key, the cache, the cipher, the stores, the registered clients.
    Every constructor that fails stops the boot.  The file system, the PEM
    parser, Redis, MongoDB and the listening socket are parameters ([BootLib]). *)

From S2P Require Import Prelude GoStd Crypto Errors Env Cipher Base64 Scope User Token Client Jwt FileRepo Adapters Router Config.

Local Open Scope Z_scope.

(** ** Keys (infrastructure/jwt/jwt_service.go) *)

(** big.Int.Bytes: the bytes of a non-negative number, most significant first,
    none for zero. *)
Fixpoint magnitude_bytes (fuel : nat) (z : Z) (acc : list Z) : list Z :=
  match fuel with
  | O => acc
  | S fuel' => if z <=? 0 then acc else magnitude_bytes fuel' (z / 256) (z mod 256 :: acc)
  end.

Definition big_Bytes (z : Z) : list Z := magnitude_bytes (S (Z.to_nat (Z.log2 z))) z [].

Class BootLib := {
  FS : Type;
  os_Stat : string -> FS -> option goerr;
  os_MkdirAll : string -> ST FS (option goerr);
  os_Create : string -> ST FS (option goerr);
  (** json.NewEncoder(file).Encode(map[string]struct{}{}) *)
  encode_empty : string -> ST FS (option goerr);
  os_ReadFile : string -> FS -> list Z + goerr;
  (** os.Open and json.NewDecoder(file).Decode, per document type *)
  decode_users : string -> FS -> gmap string userDoc + goerr;
  decode_refreshTokens : string -> FS -> gmap string refreshTokenDoc + goerr;
  decode_grants : string -> FS -> gmap string grantDoc + goerr;
  ParseRSAPrivateKeyFromPEM : list Z -> rsaPrivateKey + goerr;
  ParseRSAPublicKeyFromPEM : list Z -> rsaPublicKey + goerr;
  redis_Ping : RedisOptions -> option goerr;
  mongo_Connect : MongoConfig -> option goerr;
  mongo_Ping : MongoConfig -> option goerr;
  (** col.Indexes().CreateOne/CreateMany on the named collection *)
  mongo_CreateIndexes : MongoConfig -> string -> option goerr;
}.

Definition NewErrInitFailed (cause : goerr) : goerr := ErrWrapped "repository: init failed: " cause.
Definition NewErrReadFailed (cause : goerr) : goerr := ErrWrapped "repository: read failed: " cause.

(** The host: the configuration package's globals, the jwt package's [once] and
    [svc], the files, and the clock, random numbers and salts. *)
Record Host `{!BootLib} := mkHost {
  h_proc : Process;
  h_jwtOnce : bool;
  h_svc : option JWTService;
  h_fs : FS;
  h_sys : Sys;
}.

Section Boot.
  Context {CL : ConfigLib} {BL : BootLib} {E : Env} {A : Aead}.

Definition on_proc {X} (m : ST Process X) : ST Host X := fun h =>
  match m (h_proc h) with (o, p) => (o, mkHost _ p (h_jwtOnce h) (h_svc h) (h_fs h) (h_sys h)) end.
Definition on_fs {X} (m : ST FS X) : ST Host X := fun h =>
  match m (h_fs h) with (o, f) => (o, mkHost _ (h_proc h) (h_jwtOnce h) (h_svc h) f (h_sys h)) end.
Definition on_sys {X} (m : ST Sys X) : ST Host X := fun h =>
  match m (h_sys h) with (o, s) => (o, mkHost _ (h_proc h) (h_jwtOnce h) (h_svc h) (h_fs h) s) end.
Definition set_jwt (once : bool) (svc : option JWTService) : ST Host unit := modify (fun h =>
  mkHost _ (h_proc h) once svc (h_fs h) (h_sys h)).

Definition loadPrivateKey (path : string) (f : FS) : rsaPrivateKey + goerr :=
  match os_ReadFile path f with
  | inr err => inr (ErrWrapped ("read private key failed at " +:+ path +:+ ": ") err)
  | inl b =>
    match ParseRSAPrivateKeyFromPEM b with
    | inr err => inr (ErrWrapped ("parse private key failed at " +:+ path +:+ ": ") err)
    | inl key => inl key
    end
  end.

Definition loadPublicKeyAndJWK (path kid : string) (f : FS) : (rsaPublicKey * JWK) + goerr :=
  match os_ReadFile path f with
  | inr err => inr (ErrWrapped ("read public key failed at " +:+ path +:+ ": ") err)
  | inl b =>
    match ParseRSAPublicKeyFromPEM b with
    | inr err => inr (ErrWrapped ("parse public key failed at " +:+ path +:+ ": ") err)
    | inl key =>
      inl (key, mkJWK "RSA" (base64_RawURL_EncodeToString (big_Bytes (pk_E key)))
                  (base64_RawURL_EncodeToString (big_Bytes (pk_N key))) "RS256" "sig" kid)
    end
  end.

Definition NewJWTService (cfg : JwtConfig) : ST Host (option JWTService * option goerr) :=
  h ← get;
  if h_jwtOnce h then mret (h_svc h, None) else
  match loadPrivateKey (jc_PrivateKeyPath cfg) (h_fs h) with
  | inr err => mret (None, Some err)
  | inl privateKey =>
    match loadPublicKeyAndJWK (jc_PublicKeyPath cfg) (jc_Kid cfg) (h_fs h) with
    | inr err => mret (None, Some err)
    | inl (publicKey, jwk) =>
      let svc := mkJWTService privateKey publicKey jwk (jc_Issuer cfg) (jc_Kid cfg) in
      set_jwt true (Some svc);; mret (Some svc, None)
    end
  end.

Definition JWTService_Close : ST Host unit := set_jwt false None.

(** ** Stores *)

Definition NewFileStore (dbDir fileName : string) : ST FS (string + goerr) :=
  f ← get;
  let filePath := filepath_Join dbDir fileName in
  match os_Stat filePath f with
  | None => mret (inl filePath)
  | Some _ =>
    e ← os_MkdirAll dbDir;
    match e with
    | Some err => mret (inr (NewErrInitFailed err))
    | None =>
      e ← os_Create filePath;
      match e with
      | Some err => mret (inr (NewErrInitFailed err))
      | None =>
        e ← encode_empty filePath;
        match e with
        | Some err => mret (inr (NewErrInitFailed err))
        | None => mret (inl filePath)
        end
      end
    end
  end.

(** [filerepo.New] on the file's documents. *)
Definition open_repo {T D} `{!FileCodec E T D} (loaded : gmap string D + goerr) : FileRepo T D + goerr :=
  match loaded with
  | inr err => inr (NewErrReadFailed err)
  | inl docs => fr_load docs
  end.

(** ** Dependencies *)

(** The cache is one process's memory or the shared Redis. *)
Inductive CacheChoice := MemoryCacheChoice | RedisCacheChoice (opts : RedisOptions).
Inductive UowChoice := NoopUnitOfWork | MongoUnitOfWork.

Record DepsBundle := mkDepsBundle {
  db_Config : Settings;
  db_JWTService : option JWTService;
  db_MongoClient : option MongoConfig;
  db_UnitOfWork : option UowChoice;
  db_Cache : option CacheChoice;
  db_FileStore : option string;
  db_RefreshTokenStore : option string;
  db_GrantStore : option string;
  db_SMTPClient : option (string * string);
  db_EmailCipher : option Cipher;
}.

Definition NewRedisCache (opts : RedisOptions) : CacheChoice + goerr :=
  match redis_Ping opts with
  | Some err => inr err
  | None => inl (RedisCacheChoice opts)
  end.

Definition selectCache (redisAddr : string) (newRedis : unit -> CacheChoice + goerr) : CacheChoice + goerr :=
  if String.eqb redisAddr "" then inl MemoryCacheChoice else
  match newRedis tt with
  | inr err => inr (ErrWrapped ("redis configured at " +:+ redisAddr +:+ " but unreachable: ") err)
  | inl r => inl r
  end.

Definition mongo_defaults (cfg : MongoConfig) : MongoConfig :=
  mkMongoConfig (mc_Host cfg) (mc_Username cfg) (mc_Password cfg) (mc_AuthSource cfg) (mc_Database cfg)
    (if mc_MaxPoolSize cfg =? 0 then 100 else mc_MaxPoolSize cfg) (mc_Direct cfg)
    (if mc_ServerSelectionTimeout cfg =? 0 then 10 * Second else mc_ServerSelectionTimeout cfg).

Definition NewMongoClient (cfg : MongoConfig) : MongoConfig + goerr :=
  let cfg := mongo_defaults cfg in
  match mongo_Connect cfg with
  | Some err => inr (ErrWrapped "failed to connect to MongoDB: " err)
  | None =>
    match mongo_Ping cfg with
    | Some err => inr (ErrWrapped "MongoDB ping failed: " err)
    | None => inl cfg
    end
  end.

(** [panic(err)] on an error, the value otherwise. *)
Definition must {S X} (prefix : string) (r : X + goerr) : ST S X :=
  match r with
  | inl x => mret x
  | inr err => panic (prefix +:+ err_Error err)
  end.

(** A pointer used without a test. *)
Definition deref {S X} (o : option X) : ST S X :=
  match o with Some x => mret x | None => panic "nil pointer dereference" end.

Definition NewDeps (cfg : Settings) : ST Host DepsBundle :=
  r ← NewJWTService (st_JWT cfg);
  jwtSvc ← (match r with (_, Some err) => panic (err_Error err) | (svc, None) => mret svc end);
  c ← must "" (selectCache (ro_Addr (st_Redis cfg)) (fun _ => NewRedisCache (st_Redis cfg)));
  let smtp := (fun s => (SmtpConfig_Addr s, sc_From s)) <$> st_SMTP cfg in
  cipher ← must "" (NewCipherFromBase64 (cr_EmailEncryptionKey (st_Crypto cfg)) (cr_EmailBlindIndexKey (st_Crypto cfg)));
  if String.eqb (st_RepositoryType cfg) "mongo" then
    mcfg ← deref (st_Mongo cfg);
    mongoClient ← must "" (NewMongoClient mcfg);
    mret (mkDepsBundle cfg jwtSvc (Some mongoClient) (Some MongoUnitOfWork) (Some c) None None None smtp (Some cipher))
  else
    fcfg ← deref (st_FileRepository cfg);
    r ← on_fs (NewFileStore (fc_Dir fcfg) (fc_UserFileName fcfg));
    fileStore ← must "" r;
    r ← on_fs (NewFileStore (fc_Dir fcfg) (fc_RefreshTokenFileName fcfg));
    rtStore ← must "" r;
    r ← on_fs (NewFileStore (fc_Dir fcfg) (fc_GrantFileName fcfg));
    grantStore ← must "" r;
    mret (mkDepsBundle cfg jwtSvc None None (Some c) (Some fileStore) (Some rtStore) (Some grantStore) smtp (Some cipher)).

(** ** Wiring *)

Fixpoint parse_grants (l : list string) : ST Sys (list string) :=
  match l with
  | [] => mret []
  | raw :: l' =>
    match ParseGrantType raw with
    | (_, Some err) => panic ("invalid client configuration: " +:+ err_Error err)
    | (g, None) => gs ← parse_grants l'; mret (g :: gs)
    end
  end.

Definition buildClient (c : ClientConfig) : ST Sys Client :=
  match ParseClientAuthMethod (cc_AuthMethod c) with
  | (_, Some err) => panic ("invalid client configuration: " +:+ err_Error err)
  | (authMethod, None) =>
    grants ← parse_grants (cc_AllowedGrants c);
    r ← NewClient (mkClientArgs (cc_ID c) "" authMethod (cc_Secret c) (cc_RedirectURIs c) grants);
    match r with
    | (_, Some err) => panic ("invalid client configuration: " +:+ err_Error err)
    | (client, None) => deref client
    end
  end.

Fixpoint build_clients (cs : list ClientConfig) : ST Sys (list Client) :=
  match cs with
  | [] => mret []
  | c :: cs' => x ← buildClient c; xs ← build_clients cs'; mret (x :: xs)
  end.

Definition buildClientRegistry (cs : list ClientConfig) : ST Sys ClientRegistry :=
  clients ← build_clients cs; mret (NewConfigClientRegistry clients).

(** Where the entities live: in files, loaded at start, or in MongoDB. *)
Inductive Backend :=
| FileBackend (users : FileRepo User userDoc) (rts : FileRepo RefreshToken refreshTokenDoc)
              (grants : FileRepo Grant grantDoc) (cipher : Cipher)
| MongoBackend (client : MongoConfig) (cipher : Cipher).

Inductive EmailSenderChoice := SmtpEmailSender (addr from appBaseURL : string) | LogEmailSender.

Record Dependencies := mkDependencies {
  dp_Cache : option CacheChoice;
  dp_UoW : UowChoice;
  dp_JWTSvc : option JWTService;
  dp_Backend : Backend;
  dp_EmailSender : EmailSenderChoice;
  dp_ClientRegistry : ClientRegistry;
  dp_PostLogoutRedirectAllowlist : list string;
  dp_ScopeAllowlist : list string;
}.

Definition create_indexes (m : MongoConfig) (col what : string) : unit + goerr :=
  match mongo_CreateIndexes m col with
  | Some err => inr (ErrWrapped ("failed to create " +:+ what +:+ " indexes: ") err)
  | None => inl tt
  end.

Definition buildEmailSender (deps : DepsBundle) : EmailSenderChoice :=
  match db_SMTPClient deps with
  | Some (addr, from) => SmtpEmailSender addr from (st_AppBaseURL (db_Config deps))
  | None => LogEmailSender
  end.

(** The three repositories, in the order of the code. *)
Definition build_backend (cfg : Settings) (deps : DepsBundle) : ST Host Backend :=
  h ← get;
  cipher ← deref (db_EmailCipher deps);
  if String.eqb (st_RepositoryType cfg) "mongo" then
    m ← deref (db_MongoClient deps);
    must "failed to initialize user repository: " (create_indexes m "users" "user");;
    must "failed to initialize refresh token repository: " (create_indexes m "refresh_tokens" "refresh token");;
    must "failed to initialize grant repository: " (create_indexes m "grants" "grant");;
    mret (MongoBackend m cipher)
  else
    store ← deref (db_FileStore deps);
    users ← must "failed to initialize user repository: "
              (open_repo (FileCodec0 := userCodec (EC := cipher)) (decode_users store (h_fs h)));
    store ← deref (db_RefreshTokenStore deps);
    rts ← must "failed to initialize refresh token repository: " (open_repo (decode_refreshTokens store (h_fs h)));
    store ← deref (db_GrantStore deps);
    grants ← must "failed to initialize grant repository: " (open_repo (decode_grants store (h_fs h)));
    mret (FileBackend users rts grants cipher).

Definition buildAuthDeps (cfg : Settings) (deps : DepsBundle) : ST Host Dependencies :=
  backend ← build_backend cfg deps;
  let uow := default NoopUnitOfWork (db_UnitOfWork deps) in
  registry ← on_sys (buildClientRegistry (oc_Clients (st_OAuth cfg)));
  mret (mkDependencies (db_Cache deps) uow (db_JWTService deps) backend (buildEmailSender deps) registry
          (oc_PostLogoutRedirectAllowlist (st_OAuth cfg)) (oc_ScopeAllowlist (st_OAuth cfg))).

(** ** Serving and shutdown (handler/web/server.go) *)

(** What the server does besides answering: the order is the code's. *)
Inductive ServerAction :=
| Listening (addr : string)
| ServingMetrics (addr : string)
| ShuttingDown
| DisconnectMongo
| CloseJwt
| CloseCache
| CloseSmtp.

(** How serving ends: a signal, or the listener fails. *)
Inductive ServerEvent := StopSignal | ListenFailed (err : goerr).

(** The cache is closed if its [Close] returns an error: that of MemoryCache does
    not, so the assertion on the interface fails for it. *)
Definition Deps_Cleanup (d : DepsBundle) : list ServerAction :=
  (if db_MongoClient d then [DisconnectMongo] else []) ++
  (if db_JWTService d then [CloseJwt] else []) ++
  (match db_Cache d with Some (RedisCacheChoice _) => [CloseCache] | _ => [] end) ++
  (if db_SMTPClient d then [CloseSmtp] else []).

Definition Engine_run (addr : string) (cleanup : list ServerAction) (ev : ServerEvent)
  : list ServerAction * option goerr :=
  let runErr := match ev with StopSignal => None | ListenFailed err => Some err end in
  ([Listening addr] ++ (if runErr then [] else [ShuttingDown]) ++ cleanup, runErr).

Definition startMetricsServer (addr : string) : list ServerAction :=
  if String.eqb addr "" then [] else [ServingMetrics addr].

Definition Engine_start (server : ServerConfig) (cleanup : list ServerAction) (ev : ServerEvent)
  : list ServerAction * option goerr :=
  let '(actions, err) := Engine_run (sv_Port server) cleanup ev in
  (startMetricsServer (sv_MetricsAddr server) ++ actions, err).

(** ** main *)

Definition boot (entryPath : string) : ST Host (Settings * DepsBundle * Dependencies) :=
  r ← on_proc (Load entryPath);
  cfg ← deref r;
  deps ← NewDeps cfg;
  mods ← buildAuthDeps cfg deps;
  mret (cfg, deps, mods).

(** The exit code, and what the server did. *)
Definition main (entryPath : string) (ev : ServerEvent) (h : Host) : Z * list ServerAction :=
  match boot entryPath h with
  | (Panic _, _) => (1, [])
  | (Ret (cfg, deps, _), _) =>
    let '(actions, err) := Engine_start (st_Server cfg) (Deps_Cleanup deps) ev in
    (if err then 1 else 0, actions)
  end.

End Boot.

(** ** The published key *)

Definition be_value (l : list Z) : Z := fold_left (fun a b => 256 * a + b) l 0.

Lemma be_value_snoc l b : be_value (l ++ [b]) = 256 * be_value l + b.
Proof. unfold be_value. by rewrite fold_left_app. Qed.

(** The numeral of [z]: its bytes, its value, no leading zero. *)
Definition numeral (z : Z) (bs : list Z) : Prop :=
  Forall is_byte bs /\ be_value bs = z /\ head bs <> Some 0.

Lemma numeral_snoc z bs : 0 < z -> numeral (z / 256) bs -> numeral z (bs ++ [z mod 256]).
Proof.
  intros Hz (Hb & Hv & Hh). pose proof (Z.div_mod z 256 ltac:(lia)) as Hdm.
  pose proof (Z.mod_pos_bound z 256 ltac:(lia)) as Hm. split; [|split].
  - apply Forall_app. split; [done|]. by constructor.
  - rewrite be_value_snoc. lia.
  - destruct bs as [|b bs]; [|done]. simpl. unfold be_value in Hv. simpl in Hv. intros [= H]. lia.
Qed.

Lemma be_bytes_spec fuel z acc :
  0 <= z < 256 ^ Z.of_nat fuel -> exists bs, magnitude_bytes fuel z acc = bs ++ acc /\ numeral z bs.
Proof.
  revert z acc. induction fuel as [|fuel IH]; intros z acc Hz; simpl.
  - exists []. split; [done|]. repeat split; [constructor| |done]. unfold be_value. simpl in *. lia.
  - destruct (z <=? 0) eqn:Hz0.
    + exists []. split; [done|]. repeat split; [constructor| |done]. unfold be_value. simpl. lia.
    + destruct (IH (z / 256) (z mod 256 :: acc)) as (bs & -> & Hn).
      { split; [apply Z.div_pos; lia|]. apply Z.div_lt_upper_bound; [lia|].
        rewrite Nat2Z.inj_succ, Z.pow_succ_r in Hz by lia. lia. }
      exists (bs ++ [z mod 256]). split; [by rewrite <- app_assoc|]. apply numeral_snoc; [lia|done].
Qed.

Lemma big_Bytes_numeral z : 0 <= z -> numeral z (big_Bytes z).
Proof.
  intros Hz. unfold big_Bytes. destruct (be_bytes_spec (S (Z.to_nat (Z.log2 z))) z []) as (bs & -> & Hn).
  - split; [done|]. rewrite Nat2Z.inj_succ, Z2Nat.id by apply Z.log2_nonneg.
    destruct (Z.eq_dec z 0) as [-> |Hnz]; [simpl; lia|].
    eapply Z.lt_le_trans; [apply (Z.log2_spec z); lia|]. apply Z.pow_le_mono_l. lia.
  - by rewrite app_nil_r.
Qed.

(** What the key set publishes decodes to the numbers of the public key, each in
    its shortest form, under the configured key id. *)
Theorem published_key_exact `{!BootLib} (path kid : string) (f : FS) (key : rsaPublicKey) (jwk : JWK) :
  loadPublicKeyAndJWK path kid f = inl (key, jwk) -> 0 <= pk_E key -> 0 <= pk_N key ->
  jwk_Kid jwk = kid /\ jwk_Alg jwk = "RS256" /\
  exists e n, base64_RawURL_DecodeString (jwk_E jwk) = Some e /\ numeral (pk_E key) e /\
              base64_RawURL_DecodeString (jwk_N jwk) = Some n /\ numeral (pk_N key) n.
Proof.
  unfold loadPublicKeyAndJWK. destruct (os_ReadFile path f) as [b|]; [|done].
  destruct (ParseRSAPublicKeyFromPEM b) as [k|]; [|done]. intros [= <- <-] HE HN. simpl.
  do 2 (split; [done|]). apply big_Bytes_numeral in HE, HN. eexists _, _.
  split; [apply base64_roundtrip, HE|]. split; [exact HE|]. split; [apply base64_roundtrip, HN|exact HN].
Qed.

(** ** Registered clients *)

Section BootProps.
  Context {CL : ConfigLib} {BL : BootLib} {E : Env} {A : Aead} {BC : BcryptSpec E}.

Lemma deref_inv {S X} (o : option X) (s : S) x s' : deref o s = (Ret x, s') -> o = Some x /\ s' = s.
Proof. unfold deref. destruct o; [|done]. by intros [<- <-]%ret_inv. Qed.

Lemma must_inv {S X} prefix (r : X + goerr) (s : S) x s' : must prefix r s = (Ret x, s') -> r = inl x /\ s' = s.
Proof. unfold must. destruct r; [|done]. by intros [<- <-]%ret_inv. Qed.

Definition known_grant (g : string) : Prop :=
  g ∈ [GrantAuthorizationCode; GrantRefreshToken; GrantPassword; GrantClientCredentials].

Lemma parse_grants_run l s gs s' : parse_grants l s = (Ret gs, s') -> gs = l /\ Forall known_grant l /\ s' = s.
Proof.
  revert gs s s'. induction l as [|raw l IH]; intros gs s s'; simpl; [by intros [<- <-]%ret_inv|].
  unfold ParseGrantType. destruct (String.eqb raw _ || _ || _ || _) eqn:Hraw; [|done].
  intros (gs' & s1 & (-> & Hl & ->)%IH & [<- <-]%ret_inv)%bind_Ret_inv.
  split; [done|]. split; [|done]. constructor; [|done]. unfold known_grant. rewrite !orb_true_iff, !String.eqb_eq in Hraw.
  set_solver.
Qed.

(** A client as configured: its id, its secret, its redirect URIs and its grants. *)
Definition client_fits (cc : ClientConfig) (c : Client) : Prop :=
  client_wf c /\ c_ID c = cc_ID cc /\ c_TenantID c = DefaultTenantID /\ c_AuthMethod c = cc_AuthMethod cc /\
  c_AllowedGrants c = cc_AllowedGrants cc /\ Forall known_grant (c_AllowedGrants c) /\
  Forall (fun uri => Client_AllowsRedirectURI c uri = true) (cc_RedirectURIs cc) /\
  (Client_IsPublic c = false -> Client_VerifySecret c (cc_Secret cc) = true).

Lemma NewClient_fields args s c err s' :
  NewClient args s = (Ret (Some c, err), s') ->
  c_TenantID c = (if String.eqb (ca_TenantID args) "" then DefaultTenantID else ca_TenantID args) /\
  c_AuthMethod c = ca_AuthMethod args /\ c_AllowedGrants c = ca_AllowedGrants args.
Proof.
  unfold NewClient. destruct (NewClientID (ca_ID args)) as [id [e|]]; [by intros [[=] _]%ret_inv|].
  destruct (ClientArgs_validate args); [by intros [[=] _]%ret_inv|].
  intros ([h [e|]] & s1 & _ & H)%bind_Ret_inv; [by apply ret_inv in H as [[=] _]|].
  apply ret_inv in H as [[= <- _] _]. done.
Qed.

Lemma buildClient_fits cc s c s' : buildClient cc s = (Ret c, s') -> client_fits cc c.
Proof.
  unfold buildClient, ParseClientAuthMethod. destruct (String.eqb (cc_AuthMethod cc) _ || _ || _); [|done].
  intros (gs & s1 & (-> & Hg & ->)%parse_grants_run & H)%bind_Ret_inv.
  apply bind_Ret_inv in H as (r & s2 & Hnew & H).
  set (args := mkClientArgs _ _ _ _ _ _) in Hnew.
  destruct (NewClient_wf args s) as (r' & s2' & Hnew' & Hr). rewrite Hnew in Hnew'. injection Hnew' as <- <-.
  destruct r as [[c0|] [err|]]; [done| |done|by destruct Hr].
  apply ret_inv in H as [<- _]. destruct Hr as (_ & Hwf & Hid & Huri & Hsec).
  apply NewClient_fields in Hnew as (Ht & Hm & Ha). change (cc_AllowedGrants cc) with (ca_AllowedGrants args) in Hg.
  rewrite <- Ha in Hg. done.
Qed.

Lemma build_clients_fits ccs s cs s' : build_clients ccs s = (Ret cs, s') -> Forall2 client_fits ccs cs.
Proof.
  revert s cs s'. induction ccs as [|cc ccs IH]; intros s cs s'; simpl; [by intros [<- _]%ret_inv|].
  intros (c & s1 & Hc & H)%bind_Ret_inv. apply bind_Ret_inv in H as (cs' & s2 & Hcs & [<- _]%ret_inv).
  constructor; [exact (buildClient_fits _ _ _ _ Hc)|exact (IH _ _ _ Hcs)].
Qed.

Lemma registry_find_complete cs c :
  c ∈ cs -> is_Some (Registry_FindByID (NewConfigClientRegistry cs) (c_TenantID c) (c_ID c)).
Proof.
  unfold Registry_FindByID. induction cs as [|c' cs IH] using rev_ind; [by intros ?%elem_of_nil|].
  rewrite registry_snoc, elem_of_app, list_elem_of_singleton, lookup_insert. intros [Hc| ->].
  - case_decide; [by eexists|auto].
  - rewrite decide_True by done. by eexists.
Qed.

(** The registry holds the configured clients, each as configured, and no other. *)
Definition registry_fits (ccs : list ClientConfig) (r : ClientRegistry) : Prop :=
  (forall tid id c, Registry_FindByID r tid id = Some c ->
     tid = DefaultTenantID /\ exists cc, cc ∈ ccs /\ cc_ID cc = id /\ client_fits cc c) /\
  forall cc, cc ∈ ccs -> is_Some (Registry_FindByID r DefaultTenantID (cc_ID cc)).

Lemma buildClientRegistry_fits ccs s r s' : buildClientRegistry ccs s = (Ret r, s') -> registry_fits ccs r.
Proof.
  intros (cs & s1 & Hcs%build_clients_fits & [<- _]%ret_inv)%bind_Ret_inv. split.
  - intros tid id c (Hin & <- & <-)%registry_find_sound.
    apply list_elem_of_lookup_1 in Hin as [i Hi]. destruct (Forall2_lookup_r _ _ _ _ _ Hcs Hi) as (cc & Hcc & Hfit).
    split; [by destruct Hfit as (_ & _ & Ht & _)|]. exists cc. split; [by eapply list_elem_of_lookup_2|].
    split; [|done]. by destruct Hfit as (_ & -> & _).
  - intros cc [i Hi]%list_elem_of_lookup_1. destruct (Forall2_lookup_l _ _ _ _ _ Hcs Hi) as (c & Hc & Hfit).
    destruct Hfit as (_ & Hid & Ht & _). rewrite <- Hid, <- Ht. apply registry_find_complete.
    by eapply list_elem_of_lookup_2.
Qed.

(** ** What a boot that returns has built *)

(** Fail closed: Redis if it is configured, whatever happens. *)
Definition cache_fits (cfg : Settings) (c : CacheChoice) : Prop :=
  match c with
  | MemoryCacheChoice => ro_Addr (st_Redis cfg) = ""
  | RedisCacheChoice opts => ro_Addr (st_Redis cfg) <> "" /\ opts = st_Redis cfg /\ redis_Ping opts = None
  end.

Definition cipher_fits (cfg : Settings) (c : Cipher) : Prop :=
  length (ci_key c) = 32%nat /\ ci_blindIndexKey c <> [] /\
  base64_Std_DecodeString (cr_EmailEncryptionKey (st_Crypto cfg)) = inl (ci_key c) /\
  base64_Std_DecodeString (cr_EmailBlindIndexKey (st_Crypto cfg)) = inl (ci_blindIndexKey c).

(** The token service: the keys of the configured files, as they were at start. *)
Definition jwt_fits (f : FS) (cfg : JwtConfig) (svc : JWTService) : Prop :=
  js_Issuer svc = jc_Issuer cfg /\ js_kid svc = jc_Kid cfg /\
  loadPrivateKey (jc_PrivateKeyPath cfg) f = inl (js_privateKey svc) /\
  loadPublicKeyAndJWK (jc_PublicKeyPath cfg) (jc_Kid cfg) f = inl (js_publicKey svc, js_jwk svc) /\
  jwk_Kid (js_jwk svc) = jc_Kid cfg.

(** The store: a database that answered, or three files of the directory. *)
Definition store_fits (cfg : Settings) (d : DepsBundle) : Prop :=
  if String.eqb (st_RepositoryType cfg) "mongo"
  then db_UnitOfWork d = Some MongoUnitOfWork /\
       db_FileStore d = None /\ db_RefreshTokenStore d = None /\ db_GrantStore d = None /\
       exists mc, st_Mongo cfg = Some mc /\ db_MongoClient d = Some (mongo_defaults mc) /\
         mongo_Connect (mongo_defaults mc) = None /\ mongo_Ping (mongo_defaults mc) = None
  else db_MongoClient d = None /\ db_UnitOfWork d = None /\
       exists fc, st_FileRepository cfg = Some fc /\
         db_FileStore d = Some (filepath_Join (fc_Dir fc) (fc_UserFileName fc)) /\
         db_RefreshTokenStore d = Some (filepath_Join (fc_Dir fc) (fc_RefreshTokenFileName fc)) /\
         db_GrantStore d = Some (filepath_Join (fc_Dir fc) (fc_GrantFileName fc)).

Record deps_fit (f : FS) (cfg : Settings) (d : DepsBundle) : Prop := {
  df_config : db_Config d = cfg;
  df_jwt : exists svc, db_JWTService d = Some svc /\ jwt_fits f (st_JWT cfg) svc;
  df_cache : exists c, db_Cache d = Some c /\ cache_fits cfg c;
  df_smtp : db_SMTPClient d = (fun s => (sc_Host s +:+ ":" +:+ sc_Port s, sc_From s)) <$> st_SMTP cfg;
  df_cipher : exists c, db_EmailCipher d = Some c /\ cipher_fits cfg c;
  df_store : store_fits cfg d;
}.

Lemma selectCache_fits cfg c :
  selectCache (ro_Addr (st_Redis cfg)) (fun _ => NewRedisCache (st_Redis cfg)) = inl c -> cache_fits cfg c.
Proof.
  unfold selectCache, NewRedisCache. destruct (String.eqb_spec (ro_Addr (st_Redis cfg)) ""); [by intros [= <-]|].
  destruct (redis_Ping (st_Redis cfg)) eqn:?; [done|]. by intros [= <-].
Qed.

Lemma NewCipherFromBase64_fits cfg c :
  NewCipherFromBase64 (cr_EmailEncryptionKey (st_Crypto cfg)) (cr_EmailBlindIndexKey (st_Crypto cfg)) = inl c -> cipher_fits cfg c.
Proof.
  unfold NewCipherFromBase64, NewCipher, cipher_fits. destruct (base64_Std_DecodeString (cr_EmailEncryptionKey _)) as [enc|]; [|done].
  destruct (base64_Std_DecodeString (cr_EmailBlindIndexKey _)) as [bi|]; [|done]. destruct (negb _) eqn:H1; [done|].
  destruct (Nat.eqb (length bi) 0) eqn:H2; [done|]. intros [= <-]. unfold aesKeySize in *. simpl.
  split; [lia|]. split; [by intros ->|done].
Qed.

Lemma NewJWTService_fits cfg h svc h' :
  h_jwtOnce h = false -> NewJWTService cfg h = (Ret (svc, None), h') ->
  exists j, svc = Some j /\ jwt_fits (h_fs h) cfg j.
Proof.
  unfold NewJWTService. intros Honce (h0 & h1 & [= <- <-] & H)%bind_Ret_inv. rewrite Honce in H.
  destruct (loadPrivateKey _ _) as [sk|] eqn:Hs; [|by apply ret_inv in H as [[=] _]].
  destruct (loadPublicKeyAndJWK _ _ _) as [[k jwk]|] eqn:Hk; [|by apply ret_inv in H as [[=] _]].
  apply bind_Ret_inv in H as (? & h2 & _ & [[= <-] _]%ret_inv). eexists. split; [done|]. do 4 (split; [done|]).
  unfold loadPublicKeyAndJWK in Hk. destruct (os_ReadFile _ _) as [b|]; [|done].
  destruct (ParseRSAPublicKeyFromPEM b); [|done]. by injection Hk as _ <-.
Qed.

Lemma NewFileStore_path dir name h r h' store h'' :
  on_fs (NewFileStore dir name) h = (Ret r, h') -> must (S := Host) "" r h' = (Ret store, h'') ->
  store = filepath_Join dir name /\ h'' = h'.
Proof.
  intros Hr [-> ->]%must_inv. unfold on_fs in Hr. destruct (NewFileStore dir name (h_fs h)) as [o f1] eqn:Hn.
  injection Hr as -> <-. split; [|done]. unfold NewFileStore in Hn.
  apply bind_Ret_inv in Hn as (f0 & ? & _ & Hn). cbv zeta in Hn.
  destruct (os_Stat _ _) as [err|]; [|by apply ret_inv in Hn as [[= <-] _]].
  do 3 (apply bind_Ret_inv in Hn as ([e|] & ? & _ & Hn); [by apply ret_inv in Hn as [[=] _]|]).
  by apply ret_inv in Hn as [[= <-] _].
Qed.

Lemma NewMongoClient_fits mc m : NewMongoClient mc = inl m ->
  m = mongo_defaults mc /\ mongo_Connect (mongo_defaults mc) = None /\ mongo_Ping (mongo_defaults mc) = None.
Proof.
  unfold NewMongoClient. cbv zeta. destruct (mongo_Connect _); [done|]. destruct (mongo_Ping _); [done|]. by intros [= <-].
Qed.

Lemma NewDeps_fit cfg h d h' : h_jwtOnce h = false -> NewDeps cfg h = (Ret d, h') -> deps_fit (h_fs h) cfg d.
Proof.
  intros Honce ([svc err] & h1 & Hjwt & H)%bind_Ret_inv.
  apply bind_Ret_inv in H as (svc' & h2 & Hsvc & H). destruct err as [err|]; [done|].
  apply ret_inv in Hsvc as [<- <-]. apply (NewJWTService_fits _ _ _ _ Honce) in Hjwt as (j & -> & Hj).
  apply bind_Ret_inv in H as (c & ? & [Hc%selectCache_fits ->]%must_inv & H). cbv zeta in H.
  apply bind_Ret_inv in H as (ci & ? & [Hci%NewCipherFromBase64_fits ->]%must_inv & H).
  destruct (String.eqb (st_RepositoryType cfg) "mongo") eqn:Ht.
  - apply bind_Ret_inv in H as (mcfg & ? & [Hm ->]%deref_inv & H).
    apply bind_Ret_inv in H as (mc & ? & [(-> & H1 & H2)%NewMongoClient_fits ->]%must_inv & [<- _]%ret_inv).
    split; simpl; [done|eauto|eauto|done|eauto|]. unfold store_fits. rewrite Ht. simpl. by eauto 10.
  - apply bind_Ret_inv in H as (fcfg & ? & [Hf ->]%deref_inv & H).
    apply bind_Ret_inv in H as (r1 & ? & Hr1 & H). apply bind_Ret_inv in H as (f1 & ? & Hf1 & H).
    destruct (NewFileStore_path _ _ _ _ _ _ _ Hr1 Hf1) as [-> ->].
    apply bind_Ret_inv in H as (r2 & ? & Hr2 & H). apply bind_Ret_inv in H as (f2 & ? & Hf2 & H).
    destruct (NewFileStore_path _ _ _ _ _ _ _ Hr2 Hf2) as [-> ->].
    apply bind_Ret_inv in H as (r3 & ? & Hr3 & H). apply bind_Ret_inv in H as (f3 & ? & Hf3 & [<- _]%ret_inv).
    destruct (NewFileStore_path _ _ _ _ _ _ _ Hr3 Hf3) as [-> ->].
    split; simpl; [done|eauto|eauto|done|eauto|]. unfold store_fits. rewrite Ht. simpl. by eauto 10.
Qed.

(** The repositories: in the files of the store, as they are on the disk [f], or in
    the database, with its indexes. *)
Definition backend_fits (f : FS) (cfg : Settings) (d : DepsBundle) (b : Backend) : Prop :=
  match b with
  | MongoBackend client cipher =>
    st_RepositoryType cfg = "mongo" /\ db_MongoClient d = Some client /\ db_EmailCipher d = Some cipher /\
    Forall (fun col => mongo_CreateIndexes client col = None) ["users"; "refresh_tokens"; "grants"]
  | FileBackend users rts grants cipher =>
    st_RepositoryType cfg <> "mongo" /\ db_EmailCipher d = Some cipher /\
    (exists p, db_FileStore d = Some p /\ open_repo (FileCodec0 := userCodec (EC := cipher)) (decode_users p f) = inl users) /\
    (exists p, db_RefreshTokenStore d = Some p /\ open_repo (decode_refreshTokens p f) = inl rts) /\
    (exists p, db_GrantStore d = Some p /\ open_repo (decode_grants p f) = inl grants)
  end.

(** The module the router serves. *)
Record module_fits (f : FS) (cfg : Settings) (d : DepsBundle) (m : Dependencies) : Prop := {
  mf_cache : dp_Cache m = db_Cache d;
  mf_jwt : dp_JWTSvc m = db_JWTService d;
  mf_backend : backend_fits f cfg d (dp_Backend m);
  mf_uow : dp_UoW m = if String.eqb (st_RepositoryType cfg) "mongo" then MongoUnitOfWork else NoopUnitOfWork;
  mf_registry : registry_fits (oc_Clients (st_OAuth cfg)) (dp_ClientRegistry m);
  mf_allowed : dp_PostLogoutRedirectAllowlist m = oc_PostLogoutRedirectAllowlist (st_OAuth cfg) /\
               dp_ScopeAllowlist m = oc_ScopeAllowlist (st_OAuth cfg);
  mf_mail : match st_SMTP cfg with
            | Some s => dp_EmailSender m = SmtpEmailSender (sc_Host s +:+ ":" +:+ sc_Port s) (sc_From s) (st_AppBaseURL cfg)
            | None => dp_EmailSender m = LogEmailSender
            end;
}.

Lemma create_indexes_inv m col what u : create_indexes m col what = inl u -> mongo_CreateIndexes m col = None.
Proof. unfold create_indexes. by destruct (mongo_CreateIndexes m col). Qed.

Lemma build_backend_fits cfg d h b h' :
  build_backend cfg d h = (Ret b, h') -> backend_fits (h_fs h) cfg d b /\ h' = h.
Proof.
  intros (h0 & ? & [= <- <-] & H)%bind_Ret_inv. apply bind_Ret_inv in H as (ci & ? & [Hci ->]%deref_inv & H).
  destruct (String.eqb_spec (st_RepositoryType cfg) "mongo") as [Ht|Ht].
  - apply bind_Ret_inv in H as (m & ? & [Hm ->]%deref_inv & H).
    apply bind_Ret_inv in H as (? & ? & [H1%create_indexes_inv ->]%must_inv & H).
    apply bind_Ret_inv in H as (? & ? & [H2%create_indexes_inv ->]%must_inv & H).
    apply bind_Ret_inv in H as (? & ? & [H3%create_indexes_inv ->]%must_inv & H).
    apply ret_inv in H as [<- <-]. split; [|done]. split; [done|]. split; [done|]. split; [done|]. by repeat constructor.
  - apply bind_Ret_inv in H as (p1 & ? & [Hp1 ->]%deref_inv & H). apply bind_Ret_inv in H as (us & ? & [H1 ->]%must_inv & H).
    apply bind_Ret_inv in H as (p2 & ? & [Hp2 ->]%deref_inv & H). apply bind_Ret_inv in H as (rs & ? & [H2 ->]%must_inv & H).
    apply bind_Ret_inv in H as (p3 & ? & [Hp3 ->]%deref_inv & H). apply bind_Ret_inv in H as (gs & ? & [H3 ->]%must_inv & H).
    apply ret_inv in H as [<- <-]. split; [|done]. split; [done|]. split; [done|].
    split; [exists p1|split; [exists p2|exists p3]]; by split.
Qed.

Lemma buildAuthDeps_fits f cfg d h m h' :
  deps_fit f cfg d -> buildAuthDeps cfg d h = (Ret m, h') -> module_fits (h_fs h') cfg d m.
Proof.
  intros Hd (b & h1 & [Hb ->]%build_backend_fits & H)%bind_Ret_inv. cbv zeta in H.
  apply bind_Ret_inv in H as (r & h2 & Hr & [<- <-]%ret_inv). unfold on_sys in Hr.
  destruct (buildClientRegistry _ (h_sys h)) as [o s2] eqn:E1. injection Hr as -> <-.
  apply buildClientRegistry_fits in E1. pose proof (df_store _ _ _ Hd) as Hst. unfold store_fits in Hst.
  split; simpl; [done|done|done| |done|done|].
  - destruct (String.eqb (st_RepositoryType cfg) "mongo"); [by destruct Hst as (-> & _)|by destruct Hst as (_ & -> & _)].
  - unfold buildEmailSender. rewrite (df_smtp _ _ _ Hd), (df_config _ _ _ Hd). by destruct (st_SMTP cfg).
Qed.

(** Nothing after [Load] touches the environment. *)
Definition same_proc (h h' : Host) : Prop := h_proc h' = h_proc h.

#[local] Instance same_proc_preorder : PreOrder same_proc.
Proof. split; [done|]. unfold same_proc. intros h1 h2 h3 H12 H23. congruence. Qed.

Lemma on_fs_proc {X} (m : ST FS X) : respects same_proc (on_fs m).
Proof. intros h. unfold on_fs. by destruct (m (h_fs h)). Qed.
Lemma on_sys_proc {X} (m : ST Sys X) : respects same_proc (on_sys m).
Proof. intros h. unfold on_sys. by destruct (m (h_sys h)). Qed.
Lemma set_jwt_proc b svc : respects same_proc (set_jwt b svc).
Proof. done. Qed.
Lemma get_proc : respects same_proc get.
Proof. done. Qed.
Lemma must_proc {X} p (r : X + goerr) : respects same_proc (must p r).
Proof. by destruct r. Qed.
Lemma deref_proc {X} (o : option X) : respects same_proc (deref o).
Proof. by destruct o. Qed.

#[local] Hint Resolve on_fs_proc on_sys_proc set_jwt_proc get_proc must_proc deref_proc : respects.

Lemma NewDeps_proc cfg : respects same_proc (NewDeps cfg).
Proof. unfold NewDeps, NewJWTService. solve_respects. Qed.
Lemma buildAuthDeps_proc cfg d : respects same_proc (buildAuthDeps cfg d).
Proof. unfold buildAuthDeps, build_backend. solve_respects. Qed.

Lemma boot_inv entryPath (h h' : Host) cfg d m :
  p_once (h_proc h) = false -> h_jwtOnce h = false -> boot entryPath h = (Ret (cfg, d, m), h') ->
  settings_sane (p_env (h_proc h')) cfg /\
  p_env (h_proc h') = (godotenv_Load (envFilePath (p_env (h_proc h)) entryPath).1 (p_env (h_proc h))).1 /\
  deps_fit (h_fs h) cfg d /\ exists h2, buildAuthDeps cfg d h2 = (Ret m, h').
Proof.
  intros Honce Hjwt (r & h1 & Hload & H)%bind_Ret_inv. unfold on_proc in Hload.
  destruct (Load entryPath (h_proc h)) as [o p1] eqn:HL. injection Hload as -> <-.
  destruct (load_sane _ _ _ _ Honce HL) as (c & -> & Hc & Henv & _).
  set (h1 := mkHost _ p1 _ _ _ _) in H. apply bind_Ret_inv in H as (? & ? & [[= <-] ->]%deref_inv & H).
  apply bind_Ret_inv in H as (d0 & h2 & Hd & H). apply bind_Ret_inv in H as (m0 & h3 & Hm & H).
  apply ret_inv in H as [[= <- <- <-] <-].
  pose proof (NewDeps_proc c h1) as H2. rewrite Hd in H2.
  pose proof (buildAuthDeps_proc c d0 h2) as H3. rewrite Hm in H3. unfold same_proc in H2, H3. simpl in H2, H3.
  rewrite H3, H2. split; [done|]. split; [done|]. split; [exact (NewDeps_fit c h1 d0 h2 Hjwt Hd)|by exists h2].
Qed.


(** ** Exit codes and shutdown *)

Lemma Cleanup_fits f cfg d :
  deps_fit f cfg d ->
  (CloseCache ∈ Deps_Cleanup d <-> ro_Addr (st_Redis cfg) <> "") /\
  CloseJwt ∈ Deps_Cleanup d /\ NoDup (Deps_Cleanup d) /\
  (DisconnectMongo ∈ Deps_Cleanup d <-> st_RepositoryType cfg = "mongo") /\
  (CloseSmtp ∈ Deps_Cleanup d <-> is_Some (st_SMTP cfg)).
Proof.
  intros [_ (j & Hj & _) (c & Hc & Hcf) Hs _ Hst]. unfold Deps_Cleanup.
  assert (is_Some (st_SMTP cfg) <-> is_Some (db_SMTPClient d)) as Hsm by (by rewrite Hs, fmap_is_Some).
  rewrite Hj, Hc, Hsm. unfold store_fits in Hst.
  assert ((db_MongoClient d <> None) <-> st_RepositoryType cfg = "mongo") as Hm.
  { destruct (String.eqb_spec (st_RepositoryType cfg) "mongo"); [destruct Hst as (_ & _ & _ & _ & mc & _ & -> & _)|destruct Hst as (-> & _)]; done. }
  assert (match c with RedisCacheChoice _ => True | _ => False end <-> ro_Addr (st_Redis cfg) <> "") as Hr.
  { destruct c; simpl in Hcf; [done|]. by destruct Hcf. }
  rewrite <- Hm, <- Hr. clear.
  destruct (db_MongoClient d), c, (db_SMTPClient d); simpl; rewrite <- ?not_eq_None_Some;
    (split_and!; [set_solver|set_solver|by repeat (constructor; [set_solver|]); constructor|set_solver|set_solver]).
Qed.

(** The process reports success exactly when the boot returned and a signal
    ended it; then it has stopped accepting before it closes anything, and has
    closed once each connection the boot opened (the memory cache is not closed). *)
Theorem exit_zero_is_clean (entryPath : string) (ev : ServerEvent) (h : Host) :
  p_once (h_proc h) = false -> h_jwtOnce h = false ->
  ((main entryPath ev h).1 = 0 <->
     ev = StopSignal /\ exists cfg d m h', boot entryPath h = (Ret (cfg, d, m), h')) /\
  (forall cfg d m h', boot entryPath h = (Ret (cfg, d, m), h') ->
     exists before, (main entryPath ev h).2 = before ++ Deps_Cleanup d /\
       (ev = StopSignal -> last before = Some ShuttingDown) /\
       (CloseCache ∈ Deps_Cleanup d <-> ro_Addr (st_Redis cfg) <> "") /\
       CloseJwt ∈ Deps_Cleanup d /\ NoDup (Deps_Cleanup d) /\
       (DisconnectMongo ∈ Deps_Cleanup d <-> st_RepositoryType cfg = "mongo") /\
       (CloseSmtp ∈ Deps_Cleanup d <-> is_Some (st_SMTP cfg))).
Proof.
  intros Honce Hjwt. split.
  - unfold main. destruct (boot entryPath h) as [[[[cfg d] m]|msg] h'] eqn:Hb.
    + simpl. destruct ev; simpl; split; [intros _; split; [done|by eexists _, _, _, _]|done|done|by intros []].
    + simpl. split; [done|]. intros (_ & cfg & d & m & h'' & [=]).
  - intros cfg d m h' Hb. unfold main. rewrite Hb.
    destruct (boot_inv _ _ _ _ _ _ Honce Hjwt Hb) as (_ & _ & Hd & _). simpl.
    exists (startMetricsServer (sv_MetricsAddr (st_Server cfg)) ++
            [Listening (sv_Port (st_Server cfg))] ++ match ev with StopSignal => [ShuttingDown] | _ => [] end).
    split; [by destruct ev; simpl; rewrite <- ?app_assoc|].
    split; [intros ->; by rewrite app_assoc, last_snoc|]. exact (Cleanup_fits _ cfg d Hd).
Qed.

End BootProps.
