(* ===== verification/Disk.v ===== *)
(** * Files and crashes (infrastructure/repository/file/file_repository.go)

    In FileRepo.v a write of the document file is one step that succeeds or
    fails.  Here it is what the code makes of it: a temporary file is opened,
    written, synced, closed and renamed, any of these calls may fail, and the
    process or the machine may stop between any two of them.

    [Volume] is a directory of the operating system: the names, the bytes behind
    them, which bytes are known to be on the medium, and the earlier states of
    the directory, one of which may be what a power failure leaves behind (the
    code never syncs the directory).  The bytes of a file that was not synced
    are arbitrary after a power failure. *)

From S2P Require Import Prelude GoStd Crypto Errors Env FileRepo Boot.

Local Open Scope Z_scope.

(** ** The volume *)

Record Volume := mkVolume {
  vol_dir : gmap string nat;             (** name to file *)
  vol_data : gmap nat string;            (** the bytes of a file *)
  vol_synced : gset nat;                 (** files whose bytes are on the medium *)
  vol_past : list (gmap string nat);     (** earlier states of the directory *)
  vol_next : nat;                        (** the next file *)
}.

Definition vol_dirs (v : Volume) : list (gmap string nat) := vol_dir v :: vol_past v.

Definition visible (v : Volume) (name : string) : option string :=
  match vol_dir v !! name with
  | Some i => vol_data v !! i
  | None => None
  end.

Definition put_data (i : nat) (s : string) (v : Volume) : Volume :=
  mkVolume (vol_dir v) (<[i := s]> (vol_data v)) (vol_synced v ∖ {[i]}) (vol_past v) (vol_next v).

Definition put_dir (d : gmap string nat) (v : Volume) : Volume :=
  mkVolume d (vol_data v) (vol_synced v) (vol_dir v :: vol_past v) (vol_next v).

(** The running process: the volume, what it looked like after each call, and
    how many calls there were. *)
Record Disk := mkDisk { d_vol : Volume; d_seen : list Volume; d_calls : nat }.

(** What goes wrong: the error of the n-th call, and how many bytes a failing
    write wrote before. *)
Class Faults := {
  call_error : nat -> option string;
  call_written : nat -> nat;
}.

Section Disk.
  Context {FL : Faults}.

Definition syscall {A} (ok : Volume -> A * Volume) (failed : goerr -> nat -> Volume -> A * Volume) : ST Disk A := fun d =>
  let '(a, v) := match call_error (d_calls d) with
                 | None => ok (d_vol d)
                 | Some msg => failed (ErrMsg msg) (call_written (d_calls d)) (d_vol d)
                 end in
  (Ret a, mkDisk v (d_seen d ++ [v]) (S (d_calls d))).

(** [os.OpenFile] with O_WRONLY, O_CREATE and O_TRUNC, which is also [os.Create]. *)
Definition os_OpenFile (name : string) : ST Disk (nat + goerr) :=
  syscall (fun v => match vol_dir v !! name with
                    | Some i => (inl i, put_data i "" v)
                    | None =>
                      let i := vol_next v in
                      let v' := put_dir (<[name := i]> (vol_dir v)) (put_data i "" v) in
                      (inl i, mkVolume (vol_dir v') (vol_data v') (vol_synced v') (vol_past v') (S i))
                    end)
          (fun err _ v => (inr err, v)).

Definition file_bytes (v : Volume) (f : nat) : string := default "" (vol_data v !! f).

Definition file_Write (f : nat) (text : string) : ST Disk (option goerr) :=
  syscall (fun v => (None, put_data f (file_bytes v f +:+ text) v))
          (fun err k v => (Some err, put_data f (file_bytes v f +:+ String.substring 0 k text) v)).

Definition file_Sync (f : nat) : ST Disk (option goerr) :=
  syscall (fun v => (None, mkVolume (vol_dir v) (vol_data v) ({[f]} ∪ vol_synced v) (vol_past v) (vol_next v)))
          (fun err _ v => (Some err, v)).

Definition file_Close (f : nat) : ST Disk (option goerr) :=
  syscall (fun v => (None, v)) (fun err _ v => (Some err, v)).

Definition os_Remove (name : string) : ST Disk (option goerr) :=
  syscall (fun v => (None, put_dir (delete name (vol_dir v)) v)) (fun err _ v => (Some err, v)).

Definition os_Rename (old new : string) : ST Disk (option goerr) :=
  syscall (fun v => match vol_dir v !! old with
                    | Some i => (None, put_dir (<[new := i]> (delete old (vol_dir v))) v)
                    | None => (Some (ErrMsg "no such file or directory"), v)
                    end)
          (fun err _ v => (Some err, v)).

Definition vol_Stat (name : string) : ST Disk (option goerr) :=
  syscall (fun v => (match vol_dir v !! name with
                     | Some _ => None
                     | None => Some (ErrMsg "no such file or directory")
                     end, v))
          (fun err _ v => (Some err, v)).

Definition vol_MkdirAll : ST Disk (option goerr) := syscall (fun v => (None, v)) (fun err _ v => (Some err, v)).

(** [os.Open] and the reads of the decoder. *)
Definition os_ReadAll (name : string) : ST Disk (string + goerr) :=
  syscall (fun v => (match visible v name with
                     | Some s => inl s
                     | None => inr (ErrMsg "no such file or directory")
                     end, v))
          (fun err _ v => (inr err, v)).

(** ** The code *)

Section Json.
  Context {D : Type} (json_Encode : gmap string D -> string + goerr) (json_Decode : string -> gmap string D + goerr).

Definition encoder_Encode (f : nat) (docs : gmap string D) : ST Disk (option goerr) :=
  match json_Encode docs with
  | inr err => mret (Some err)
  | inl text => file_Write f text
  end.

Definition disk_writeToFile (filePath : string) (docs : gmap string D) : ST Disk (option goerr) :=
  let tmp := filePath +:+ ".tmp" in
  r ← os_OpenFile tmp;
  match r with
  | inr err => mret (Some (NewErrWriteFailed err))
  | inl f =>
    err ← encoder_Encode f docs;
    match err with
    | Some err => file_Close f;; os_Remove tmp;; mret (Some (NewErrWriteFailed err))
    | None =>
      err ← file_Sync f;
      match err with
      | Some err => file_Close f;; os_Remove tmp;; mret (Some (NewErrWriteFailed err))
      | None =>
        err ← file_Close f;
        match err with
        | Some err => os_Remove tmp;; mret (Some (NewErrWriteFailed err))
        | None =>
          err ← os_Rename tmp filePath;
          match err with
          | Some err => os_Remove tmp;; mret (Some (NewErrWriteFailed err))
          | None => mret None
          end
        end
      end
    end
  end.

Definition disk_loadFromFile (filePath : string) : ST Disk (gmap string D + goerr) :=
  r ← os_ReadAll filePath;
  match r with
  | inr err => mret (inr (NewErrReadFailed err))
  | inl text =>
    match json_Decode text with
    | inr err => mret (inr (NewErrReadFailed err))
    | inl result => mret (inl result)
    end
  end.

Definition disk_NewFileStore (filePath : string) : ST Disk (option goerr) :=
  err ← vol_Stat filePath;
  match err with
  | None => mret None
  | Some _ =>
    err ← vol_MkdirAll;
    match err with
    | Some err => mret (Some (NewErrInitFailed err))
    | None =>
      r ← os_OpenFile filePath;
      match r with
      | inr err => mret (Some (NewErrInitFailed err))
      | inl file =>
        err ← encoder_Encode file ∅;
        file_Close file;;
        match err with
        | Some err => mret (Some (NewErrInitFailed err))
        | None => mret None
        end
      end
    end
  end.

End Json.
End Disk.

(** ** Power failures *)

(** What a power failure leaves of a volume: one of the states of its directory,
    and the bytes of the files that were synced. *)
Definition power_failure (v v' : Volume) : Prop :=
  vol_dir v' ∈ vol_dirs v /\ vol_past v' = [] /\ vol_next v' = vol_next v /\ vol_synced v' = dom (vol_data v') /\
  forall i, i ∈ vol_synced v -> vol_data v' !! i = vol_data v !! i.

(** ** The invariant *)

Section Atomic.
  Context (path : string).
  Notation tmp := (path +:+ ".tmp").

(** In every directory state a power failure may bring back, the file is there
    and its bytes, on the medium, are one of [vs]; the temporary file is
    another one. *)
Record vol_ok (vs : list string) (v : Volume) : Prop := {
  ok_file : forall dir, dir ∈ vol_dirs v ->
    exists i t, dir !! path = Some i /\ i ∈ vol_synced v /\ vol_data v !! i = Some t /\ t ∈ vs;
  ok_next : forall dir n i, dir ∈ vol_dirs v -> dir !! n = Some i -> (i < vol_next v)%nat;
  ok_tmp : forall dir i, dir ∈ vol_dirs v -> vol_dir v !! tmp = Some i -> dir !! path <> Some i;
  ok_apart : forall dir i, dir ∈ vol_dirs v -> dir !! tmp = Some i -> dir !! path <> Some i;
}.

Lemma tmp_ne : tmp <> path.
Proof.
  intros H. apply (f_equal String.length) in H. rewrite length_append in H. simpl in H. lia.
Qed.

Lemma dir_here v : vol_dir v ∈ vol_dirs v.
Proof. left. Qed.

Lemma vol_ok_more vs t v : vol_ok vs v -> vol_ok (t :: vs) v.
Proof.
  intros [H1 H2 H3 H4]. split; try done. intros dir Hd. destruct (H1 dir Hd) as (i & t' & ? & ? & ? & ?).
  exists i, t'. split_and!; try done. by apply elem_of_cons; right.
Qed.

(** Writing the temporary file. *)
Lemma put_data_ok vs v f s :
  (forall dir, dir ∈ vol_dirs v -> dir !! path <> Some f) -> vol_ok vs v ->
  vol_ok vs (put_data f s v) /\ visible (put_data f s v) path = visible v path.
Proof.
  intros Hf [H1 H2 H3 H4].
  assert (forall dir i, dir ∈ vol_dirs v -> dir !! path = Some i -> i <> f) as Hne by (intros dir i Hd Hi ->; by apply (Hf dir)).
  split; [split; try done|].
  - intros dir Hd. destruct (H1 dir Hd) as (i & t & Hi & Hs & Ht & Hv). specialize (Hne dir i Hd Hi).
    exists i, t. simpl. rewrite lookup_insert_ne by done. split_and!; try done. set_solver.
  - unfold visible. simpl. destruct (vol_dir v !! path) as [i|] eqn:Hi; [|done].
    rewrite lookup_insert_ne; [done|]. intros <-. exact (Hne _ f (dir_here v) Hi eq_refl).
Qed.

(** A new state of the directory that has the file. *)
Lemma put_dir_ok vs v d :
  vol_ok vs v ->
  (exists i t, d !! path = Some i /\ i ∈ vol_synced v /\ vol_data v !! i = Some t /\ t ∈ vs) ->
  (forall n i, d !! n = Some i -> (i < vol_next v)%nat) ->
  (forall dir i, dir ∈ d :: vol_dirs v -> d !! tmp = Some i -> dir !! path <> Some i) ->
  vol_ok vs (put_dir d v).
Proof.
  intros [H1 H2 H3 H4] Hfile Hnext Htmp. split.
  - intros dir [->|Hd]%elem_of_cons; [done|]. by apply H1.
  - intros dir n i [->|Hd]%elem_of_cons; [apply Hnext|]. by apply H2.
  - exact Htmp.
  - intros dir i [->|Hd]%elem_of_cons; [apply Htmp; left|]. by apply H4.
Qed.

Lemma power_failure_ok vs v v' : power_failure v v' -> vol_ok vs v -> vol_ok vs v'.
Proof.
  intros (Hd & Hp & Hn & Hs & Hdata) [H1 H2 H3 H4].
  assert (forall dir, dir ∈ vol_dirs v' -> dir = vol_dir v') as Hone.
  { intros dir. unfold vol_dirs. rewrite Hp. by intros ->%list_elem_of_singleton. }
  split.
  - intros dir ->%Hone. destruct (H1 _ Hd) as (i & t & Hi & Hsy & Ht & Hv). exists i, t.
    rewrite Hs, (Hdata i Hsy), Ht. split_and!; try done. apply elem_of_dom. by rewrite (Hdata i Hsy), Ht.
  - intros dir n i ->%Hone Hi. rewrite Hn. by apply (H2 (vol_dir v') n).
  - intros dir i ->%Hone. by apply H4.
  - intros dir i ->%Hone. by apply H4.
Qed.

(** ** The calls *)

Context {FL : Faults}.

Definition disk_ok (vs : list string) (d : Disk) : Prop := vol_ok vs (d_vol d) /\ Forall (vol_ok vs) (d_seen d).

Definition unchanged (v v' : Volume) : Prop := visible v' path = visible v path.

Lemma syscall_ok {A} (ok : Volume -> A * Volume) (failed : goerr -> nat -> Volume -> A * Volume) vs (P : A -> Volume -> Prop) d :
  disk_ok vs d ->
  (vol_ok vs (ok (d_vol d)).2 /\ P (ok (d_vol d)).1 (ok (d_vol d)).2) ->
  (forall err k, vol_ok vs (failed err k (d_vol d)).2 /\ P (failed err k (d_vol d)).1 (failed err k (d_vol d)).2) ->
  wp (syscall ok failed) (fun o d' => exists a, o = Ret a /\ disk_ok vs d' /\ P a (d_vol d')) d.
Proof.
  intros [Hv Hs] Hok Hfail. unfold wp, syscall.
  set (r := match call_error (d_calls d) with None => _ | Some _ => _ end).
  assert (vol_ok vs r.2 /\ P r.1 r.2) as [Hv' HP] by (subst r; destruct (call_error (d_calls d)); [apply Hfail|exact Hok]).
  destruct r as [a v]. simpl in *. exists a. split; [done|]. split; [split; [done|]|done].
  simpl. apply Forall_app. by split; [|apply Forall_singleton].
Qed.

(** A new file, under the temporary name. *)
Definition created (i : nat) (v : Volume) : Volume :=
  mkVolume (<[tmp := i]> (vol_dir v)) (<[i := ""]> (vol_data v)) (vol_synced v ∖ {[i]}) (vol_dirs v) (S i).

Lemma created_ok vs v i : i = vol_next v -> vol_ok vs v -> vol_ok vs (created i v) /\ unchanged v (created i v).
Proof.
  intros Hi Hv. pose proof tmp_ne as Hne.
  assert (forall dir n, dir ∈ vol_dirs v -> dir !! n <> Some i) as Hfresh.
  { intros dir n Hd Hn. pose proof (ok_next vs v Hv dir n i Hd Hn). lia. }
  destruct (put_data_ok vs v i "") as [[H1 H2 H3 H4] Hs]; [by intros; apply Hfresh|done|].
  assert (forall dir, dir ∈ vol_dirs (created i v) -> dir !! path <> Some i) as Hp.
  { intros dir [->|Hd]%elem_of_cons; [|by apply Hfresh].
    simpl. rewrite lookup_insert_ne by done. exact (Hfresh _ path (dir_here v)). }
  split; [split|].
  - intros dir [->|Hd]%elem_of_cons; [|by apply H1].
    destruct (H1 _ (dir_here v)) as (j & t & Hj & ?). exists j, t. simpl. by rewrite lookup_insert_ne.
  - intros dir n j [->|Hd]%elem_of_cons; simpl; [rewrite lookup_insert_Some; intros [[_ <-]|[_ Hj]]; [lia|]|intros Hj].
    + pose proof (H2 _ n j (dir_here v) Hj). simpl in *. lia.
    + pose proof (H2 dir n j Hd Hj). simpl in *. lia.
  - intros dir j Hd. simpl. rewrite lookup_insert_eq. intros [= <-]. by apply Hp.
  - intros dir j Hd. apply elem_of_cons in Hd as Hd'. destruct Hd' as [->|Hd']; [|by apply H4].
    simpl. rewrite lookup_insert_eq. intros [= <-]. by apply (Hp _ Hd).
  - unfold unchanged, visible in *. simpl in *. by rewrite lookup_insert_ne.
Qed.

(** The temporary file is open as [f]. *)
Definition is_tmp (f : nat) (v : Volume) : Prop := vol_dir v !! tmp = Some f.

Lemma tmp_write_ok vs v f s : is_tmp f v -> vol_ok vs v ->
  vol_ok vs (put_data f s v) /\ unchanged v (put_data f s v).
Proof. intros Hf Hv. apply put_data_ok; [|done]. intros dir Hd. by apply (ok_tmp vs v Hv). Qed.

Lemma open_ok vs d : disk_ok vs d ->
  wp (os_OpenFile tmp) (fun o d' => exists r, o = Ret r /\ disk_ok vs d' /\ unchanged (d_vol d) (d_vol d') /\
    match r with inl f => is_tmp f (d_vol d') /\ vol_data (d_vol d') !! f = Some "" | inr _ => True end) d.
Proof.
  intros Hd. apply (syscall_ok _ _ vs (fun r v => unchanged (d_vol d) v /\
    match r with inl f => is_tmp f v /\ vol_data v !! f = Some "" | inr _ => True end)); [done| |by destruct Hd].
  destruct Hd as [Hv _]. destruct (vol_dir (d_vol d) !! tmp) as [i|] eqn:Htmp; simpl.
  - destruct (tmp_write_ok vs _ i "" Htmp Hv) as [Hv' Hs]. split_and!; try done. by rewrite lookup_insert_eq.
  - destruct (created_ok vs (d_vol d) _ eq_refl Hv) as [Hv' Hs]. split_and!; try done; apply lookup_insert_eq.
Qed.

Lemma write_ok vs d f text : disk_ok vs d -> is_tmp f (d_vol d) -> vol_data (d_vol d) !! f = Some "" ->
  wp (file_Write f text) (fun o d' => exists e, o = Ret e /\ disk_ok vs d' /\ unchanged (d_vol d) (d_vol d') /\
    is_tmp f (d_vol d') /\ (e = None -> vol_data (d_vol d') !! f = Some text)) d.
Proof.
  intros Hd Hf He. apply (syscall_ok _ _ vs (fun e v => unchanged (d_vol d) v /\ is_tmp f v /\
    (e = None -> vol_data v !! f = Some text))); [done| |]; destruct Hd as [Hv _]; [|intros err k]; simpl;
    (edestruct (tmp_write_ok vs (d_vol d) f) as [Hv' Hs]; [done|done|]); (split_and!; try done).
  intros _. unfold file_bytes. by rewrite lookup_insert_eq, He.
Qed.

Lemma sync_ok vs d f : disk_ok vs d -> is_tmp f (d_vol d) ->
  wp (file_Sync f) (fun o d' => exists e, o = Ret e /\ disk_ok vs d' /\ unchanged (d_vol d) (d_vol d') /\
    is_tmp f (d_vol d') /\ vol_data (d_vol d') = vol_data (d_vol d) /\ (e = None -> f ∈ vol_synced (d_vol d'))) d.
Proof.
  intros Hd Hf. apply (syscall_ok _ _ vs (fun e v => unchanged (d_vol d) v /\ is_tmp f v /\
    vol_data v = vol_data (d_vol d) /\ (e = None -> f ∈ vol_synced v))); [done| |by destruct Hd].
  destruct Hd as [[H1 H2 H3 H4] _]. split_and!; try done; [|set_solver]. split; try done.
  intros dir Hd. destruct (H1 dir Hd) as (i & t & ? & ? & ? & ?). exists i, t. split_and!; try done. set_solver.
Qed.

Lemma close_ok vs d f : disk_ok vs d ->
  wp (file_Close f) (fun o d' => exists e, o = Ret e /\ disk_ok vs d' /\ d_vol d' = d_vol d) d.
Proof. intros Hd. by apply (syscall_ok _ _ vs (fun _ v => v = d_vol d)); [|destruct Hd..]. Qed.

Lemma remove_ok vs d : disk_ok vs d ->
  wp (os_Remove tmp) (fun o d' => exists e, o = Ret e /\ disk_ok vs d' /\ unchanged (d_vol d) (d_vol d')) d.
Proof.
  intros Hd. apply (syscall_ok _ _ vs (fun _ v => unchanged (d_vol d) v)); [done| |by destruct Hd].
  destruct Hd as [Hv _]. pose proof tmp_ne as Hne. split; [|unfold unchanged, visible; simpl; by rewrite lookup_delete_ne].
  apply put_dir_ok; [done| | |].
  - rewrite lookup_delete_ne by done. apply (ok_file vs _ Hv), dir_here.
  - intros n i [_ Hi]%lookup_delete_Some. exact (ok_next vs _ Hv _ n i (dir_here _) Hi).
  - intros dir i _. by rewrite lookup_delete_eq.
Qed.

Lemma rename_ok vs d f text : disk_ok vs d -> is_tmp f (d_vol d) -> f ∈ vol_synced (d_vol d) ->
  vol_data (d_vol d) !! f = Some text -> text ∈ vs ->
  wp (os_Rename tmp path) (fun o d' => exists e, o = Ret e /\ disk_ok vs d' /\
    match e with None => visible (d_vol d') path = Some text | Some _ => unchanged (d_vol d) (d_vol d') end) d.
Proof.
  intros Hd Hf Hs Ht Hin. apply (syscall_ok _ _ vs (fun e v =>
    match e with None => visible v path = Some text | Some _ => unchanged (d_vol d) v end)); [done| |by destruct Hd].
  destruct Hd as [Hv _]. rewrite !Hf. simpl. split; [|unfold visible; simpl; by rewrite lookup_insert_eq].
  pose proof tmp_ne as Hne. apply put_dir_ok; [done| | |].
  - exists f, text. by rewrite lookup_insert_eq.
  - intros n i [[_ <-]|[_ [_ Hi]%lookup_delete_Some]]%lookup_insert_Some.
    + exact (ok_next vs _ Hv _ tmp f (dir_here _) Hf).
    + exact (ok_next vs _ Hv _ n i (dir_here _) Hi).
  - intros dir i _. by rewrite lookup_insert_ne, lookup_delete_eq.
Qed.

(** ** A write *)

Section Writes.
  Context {D : Type} (json_Encode : gmap string D -> string + goerr).

Definition written (docs : gmap string D) (vs : list string) : list string :=
  match json_Encode docs with inl text => text :: vs | inr _ => vs end.

Lemma disk_ok_written docs vs d : disk_ok vs d -> disk_ok (written docs vs) d.
Proof.
  unfold written. destruct (json_Encode docs) as [text|]; [|done]. intros [Hv Hs].
  split; [by apply vol_ok_more|]. eapply Forall_impl; [exact Hs|]. intros v. apply vol_ok_more.
Qed.

(** What a write ends in, from the volume [v0] it began with. *)
Definition write_result (docs : gmap string D) (v0 : Volume) (e : option goerr) (v : Volume) : Prop :=
  match e with
  | None => exists text, json_Encode docs = inl text /\ visible v path = Some text
  | Some err => (exists cause, err = NewErrWriteFailed cause) /\ unchanged v0 v
  end.

Definition write_post (docs : gmap string D) (vs : list string) (v0 : Volume) (o : outcome (option goerr)) (d' : Disk) : Prop :=
  exists e, o = Ret e /\ disk_ok vs d' /\ write_result docs v0 e (d_vol d').

(** The temporary file is removed, and the error returned. *)
Lemma remove_and_fail_ok docs vs v0 d err : disk_ok vs d -> unchanged v0 (d_vol d) ->
  wp (os_Remove tmp;; mret (Some (NewErrWriteFailed err))) (write_post docs vs v0) d.
Proof.
  intros Hd Hu. apply wp_bind. eapply wp_mono; [by apply remove_ok|]. intros o d1 (e & -> & Hd1 & Hu1).
  apply wp_ret. eexists. split; [reflexivity|]. split; [done|]. split; [eauto|]. by etrans.
Qed.

Lemma close_and_fail_ok docs vs v0 d f err : disk_ok vs d -> unchanged v0 (d_vol d) ->
  wp (file_Close f;; os_Remove tmp;; mret (Some (NewErrWriteFailed err))) (write_post docs vs v0) d.
Proof.
  intros Hd Hu. apply wp_bind. eapply wp_mono; [by apply close_ok|]. intros o d1 (e & -> & Hd1 & Hv1).
  apply remove_and_fail_ok; [done|]. by rewrite Hv1.
Qed.

Lemma encode_ok docs vs d f : disk_ok vs d -> is_tmp f (d_vol d) -> vol_data (d_vol d) !! f = Some "" ->
  wp (encoder_Encode json_Encode f docs) (fun o d' => exists e, o = Ret e /\ disk_ok vs d' /\
    unchanged (d_vol d) (d_vol d') /\ is_tmp f (d_vol d') /\
    (e = None -> exists text, json_Encode docs = inl text /\ vol_data (d_vol d') !! f = Some text)) d.
Proof.
  intros Hd Hf He. unfold encoder_Encode. destruct (json_Encode docs) as [text|err].
  - eapply wp_mono; [by apply write_ok|]. intros o d' (e & -> & H1 & H2 & H3 & H4). exists e. split_and!; try done. eauto.
  - apply wp_ret. exists (Some err). by split_and!.
Qed.

Lemma disk_write_ok docs vs d : disk_ok vs d ->
  wp (disk_writeToFile json_Encode path docs) (write_post docs (written docs vs) (d_vol d)) d.
Proof.
  intros Hd%(disk_ok_written docs). unfold disk_writeToFile. cbv zeta.
  apply wp_bind. eapply wp_mono; [by apply open_ok|]. intros o d1 (r & -> & Hd1 & Hu1 & Hr).
  destruct r as [f|err]; [destruct Hr as [Hf1 He1]|apply wp_ret; eexists; split_and!; try done; split; [eauto|done]].
  apply wp_bind. eapply wp_mono; [by apply encode_ok|]. intros o d2 (e & -> & Hd2 & Hu2 & Hf2 & He2).
  assert (unchanged (d_vol d) (d_vol d2)) as U2 by (by etrans).
  destruct e as [err|]; [by apply close_and_fail_ok|]. destruct (He2 eq_refl) as (text & Htext & Hdata2).
  apply wp_bind. eapply wp_mono; [by apply sync_ok|]. intros o d3 (e & -> & Hd3 & Hu3 & Hf3 & Hdata3 & Hs3).
  assert (unchanged (d_vol d) (d_vol d3)) as U3 by (by etrans).
  destruct e as [err|]; [by apply close_and_fail_ok|]. specialize (Hs3 eq_refl).
  apply wp_bind. eapply wp_mono; [by apply close_ok|]. intros o d4 (e & -> & Hd4 & Hv4). rewrite <-Hv4 in *.
  destruct e as [err|]; [by apply remove_and_fail_ok|].
  apply wp_bind. eapply wp_mono; [apply (rename_ok (written docs vs) d4 f text); try done|].
  { by rewrite Hdata3. }
  { unfold written. rewrite Htext. left. }
  intros o d5 (e & -> & Hd5 & He5). destruct e as [err|].
  - apply remove_and_fail_ok; [done|]. by etrans.
  - apply wp_ret. eexists. split; [reflexivity|]. split; [done|]. by exists text.
Qed.

End Writes.
End Atomic.

(** ** Runs with failures and crashes *)

Section Runs.
  Context {D : Type} (json_Encode : gmap string D -> string + goerr) (json_Decode : string -> gmap string D + goerr).
  Context (path : string).

(** The volumes a process may leave behind: it begins with the file complete and
    on the medium (as after any write of the repository; NewFileStore, which makes
    the first one, does not sync it), writes it any number of times with whatever calls failing, and stops
    after any call; the power may fail at any time.  [vs] are the texts of the
    documents it was to write. *)
Inductive leaves : list string -> Volume -> Prop :=
| leaves_start v i text :
    vol_past v = [] -> vol_dir v !! path = Some i -> vol_dir v !! (path +:+ ".tmp") = None ->
    vol_data v !! i = Some text -> i ∈ vol_synced v -> (forall n j, vol_dir v !! n = Some j -> (j < vol_next v)%nat) ->
    leaves [text] v
| leaves_write (FL : Faults) vs v docs v' :
    leaves vs v -> v' ∈ d_seen (disk_writeToFile json_Encode path docs (mkDisk v [] 0)).2 ->
    leaves (written json_Encode docs vs) v'
| leaves_power vs v v' : leaves vs v -> power_failure v v' -> leaves vs v'.

Lemma leaves_ok vs v : leaves vs v -> vol_ok path vs v.
Proof.
  induction 1 as [v i text Hp Hi Htmp Ht Hs Hn|FL vs v docs v' _ IH Hin|vs v v' _ IH Hpf].
  - assert (forall dir, dir ∈ vol_dirs v -> dir = vol_dir v) as Hone.
    { intros dir. unfold vol_dirs. rewrite Hp. by intros ->%list_elem_of_singleton. }
    split.
    + intros dir ->%Hone. exists i, text. split_and!; try done. left.
    + intros dir n j ->%Hone. apply Hn.
    + intros dir j _. by rewrite Htmp.
    + intros dir j ->%Hone. by rewrite Htmp.
  - destruct (disk_write_ok path json_Encode docs vs (mkDisk v [] 0)) as (e & _ & [_ Hseen] & _); [done|].
    rewrite Forall_forall in Hseen. by apply Hseen.
  - by eapply power_failure_ok.
Qed.

(** C28: From a file that is complete and synced on (which the creation of an empty
    store does not ensure before the first write), whatever calls fail and whenever
    the process or the machine stops, the file is there and holds, complete, one of the documents that were to be written:
    it is never missing, cut off or mixed.  A write from there on answers nil
    exactly when the file has the new documents; after an error it has the old
    ones. *)
Theorem disk_writes_atomic (vs : list string) (v : Volume) (docs : gmap string D) (FL : Faults) (calls : nat) :
  leaves vs v ->
  (exists text, text ∈ vs /\ visible v path = Some text) /\
  exists e d', disk_writeToFile json_Encode path docs (mkDisk v [] calls) = (Ret e, d') /\
    match e with
    | None => exists text, json_Encode docs = inl text /\ visible (d_vol d') path = Some text
    | Some err => (exists cause, err = NewErrWriteFailed cause) /\ visible (d_vol d') path = visible v path
    end.
Proof.
  intros Hv%leaves_ok. split.
  - destruct (ok_file path vs v Hv _ (dir_here v)) as (i & text & Hi & _ & Ht & Hin). exists text. split; [done|].
    unfold visible. by rewrite Hi.
  - destruct (disk_write_ok path json_Encode docs vs (mkDisk v [] calls)) as (e & He & _ & Hr); [done|].
    exists e, (disk_writeToFile json_Encode path docs (mkDisk v [] calls)).2.
    split; [by rewrite <-He, <-surjective_pairing|exact Hr].
Qed.

(** *** The step of FileRepo.v *)

(** The file has the documents the repository believes it has. *)
Definition on_medium {T} (v : Volume) (r : FileRepo T D) : Prop :=
  exists text, json_Encode (fr_disk r) = inl text /\ visible v path = Some text.

(** Where the environment's next write fails exactly when this one does, the
    step of FileRepo.v answers alike and keeps the file and the repository's
    picture of it together. *)
Theorem write_is_one_step {T} {E : Env} (FL : Faults) (docs : gmap string D) (vs : list string) (v : Volume) (calls : nat)
    (s : Sys) (r : FileRepo T D) (e : option goerr) (d' : Disk) :
  leaves vs v -> on_medium v r ->
  disk_writeToFile json_Encode path docs (mkDisk v [] calls) = (Ret e, d') ->
  (disk_write (n_disk s) = None <-> e = None) ->
  exists e' s' r', writeToFile docs (s, r) = (Ret e', (s', r')) /\ (e' = None <-> e = None) /\
    (forall err, e' = Some err -> exists cause, err = NewErrWriteFailed cause) /\ on_medium (d_vol d') r'.
Proof.
  intros Hv Hm Hrun Hd. destruct (disk_write_ok path json_Encode docs vs (mkDisk v [] calls)) as (e1 & He & _ & Hr).
  { split; [by apply leaves_ok|done]. }
  rewrite Hrun in He, Hr. simpl in He, Hr. injection He as <-.
  unfold writeToFile, bind, fr_sys, next_disk_write. simpl. destruct (disk_write (n_disk s)) as [msg|].
  - destruct e as [err|]; [|by destruct Hd as [_ Hd]; specialize (Hd eq_refl)]. destruct Hr as [_ Hu].
    eexists _, _, r. split; [reflexivity|]. split_and!; [done|intros err' [= <-]; eauto|].
    unfold on_medium. by rewrite Hu.
  - destruct Hd as [Hd _]. rewrite (Hd eq_refl) in Hr.
    eexists _, _, _. split; [reflexivity|]. split_and!; [tauto|done|exact Hr].
Qed.

(** *** The first start *)

(** The file is created under its own name and filled afterwards.  A process
    that stops in between leaves an empty file, which the next start finds and
    cannot read. *)
Theorem interrupted_init_blocks_start (FL : Faults) (v : Volume) (text : string) (err : goerr) :
  (forall n, call_error n = None) -> json_Encode ∅ = inl text -> json_Decode "" = inr err ->
  vol_dir v !! path = None ->
  exists v', v' ∈ d_seen (disk_NewFileStore json_Encode path (mkDisk v [] 0)).2 /\
    (disk_NewFileStore json_Encode path (mkDisk v' [] 0)).1 = Ret None /\
    (disk_loadFromFile json_Decode path (mkDisk v' [] 0)).1 = Ret (inr (NewErrReadFailed err)).
Proof.
  intros Hok Htext Hempty Hno.
  exists (mkVolume (<[path := vol_next v]> (vol_dir v)) (<[vol_next v := ""]> (vol_data v)) (vol_synced v ∖ {[vol_next v]})
            (vol_dirs v) (S (vol_next v))).
  unfold disk_NewFileStore, disk_loadFromFile, encoder_Encode, vol_Stat, vol_MkdirAll, os_OpenFile, file_Write, file_Close,
    os_ReadAll, visible, bind, syscall. rewrite Htext. simpl.
  rewrite !Hok, Hno. simpl. rewrite !Hok. simpl. rewrite Hno. simpl. rewrite !lookup_insert_eq. simpl.
  rewrite Hempty. split_and!; [|done..]. rewrite !Hok. simpl.
  apply elem_of_cons; right; apply elem_of_cons; right; left.
Qed.

(** Any error of [os.Stat] is taken for a missing file: one that is there is
    truncated. *)
Theorem stat_error_erases_store (FL : Faults) (v : Volume) (text : string) :
  is_Some (call_error 0) -> (forall n, (0 < n)%nat -> call_error n = None) -> json_Encode ∅ = inl text ->
  is_Some (vol_dir v !! path) ->
  exists d', disk_NewFileStore json_Encode path (mkDisk v [] 0) = (Ret None, d') /\ visible (d_vol d') path = Some text.
Proof.
  intros [msg H0] Hok Htext [i Hi]. eexists.
  unfold disk_NewFileStore, encoder_Encode, vol_Stat, vol_MkdirAll, os_OpenFile, file_Write, file_Close, file_bytes,
    visible, bind, syscall. rewrite Htext. simpl.
  rewrite H0. simpl. rewrite !Hok by lia. simpl. rewrite Hi. simpl. rewrite !Hok by lia. simpl.
  rewrite !Hok by lia. simpl. rewrite !Hok by (simpl; lia). split; [reflexivity|]. simpl.
  by rewrite Hi, !lookup_insert_eq.
Qed.

End Runs.
