(* ===== verification/Relying.v ===== *)
(** * The relying party (cmd/backend/main.go)

    The second program of the repository: a small web application that logs its
    users in at the server, with the authorization-code flow and PKCE, and keeps
    their tokens in sessions.  Its state is a map of sessions, the login that is
    in flight, and what it sends to the server, which answers as it likes
    ([Remote]).  encoding/json and the encoding of query strings are parameters
    ([BackendLib]); the HTML around the values of a page is not part of the
    model. *)

From stdpp Require Import pretty.
From S2P Require Import Prelude GoStd Crypto Errors Env Scope Client AuthFlow Queries Base64.

Local Open Scope Z_scope.

(** ** Library code *)

(** html.EscapeString *)
Definition html_escape_char (c : ascii) : string :=
  let z := byteZ c in
  if z =? 38 then "&amp;" else if z =? 39 then "&#39;" else if z =? 60 then "&lt;"
  else if z =? 62 then "&gt;" else if z =? 34 then "&#34;" else String c "".

Fixpoint html_EscapeString (s : string) : string :=
  match s with
  | EmptyString => ""
  | String c s' => html_escape_char c +:+ html_EscapeString s'
  end.

(** ** Data *)

Record tokenResponse := mkTok {
  tk_AccessToken : string;
  tk_RefreshToken : string;
  tk_IDToken : string;
  tk_TokenType : string;
  tk_ExpiresIn : Z;
}.

Definition tokenResponse_zero : tokenResponse := mkTok "" "" "" "" 0.

Record sessionData := mkSessionData {
  sd_Tokens : tokenResponse;
  sd_ExpiresAt : Z;
  sd_LastResponse : string;
  sd_CSRFToken : string;
}.

Record pendingAuth := mkPending { pa_State : string; pa_Nonce : string; pa_Verifier : string }.

Definition pendingAuth_zero : pendingAuth := mkPending "" "" "".

(** A request to the authorization server. *)
Record OutRequest := mkOut {
  out_Method : string;
  out_URL : string;
  out_Bearer : option string;
  out_Form : list (string * string);
}.

(** A request of a browser: [FormValue] and [Query().Get] by name, the session
    cookie. *)
Record BackendRequest := mkReq {
  rq_Method : string;
  rq_Cookie : option string;
  rq_Query : string -> string;
  rq_FormValue : string -> string;
  rq_ParseForm : option goerr;
}.

(** What is written to the browser: at most one reply, and cookies. *)
Inductive Page :=
| HomePage (loggedIn : option string) (csrf : option string) (lastResponse : string)
| UpdateProfilePage
| ForgotPasswordPage
| ResetPasswordPage (token : string).

Inductive Reply :=
| ErrorReply (status : Z) (msg : string)
| RedirectReply (url : string)
| PageReply (p : Page).

Record SessionCookie := mkSessionCookie { sck_Value : string; sck_MaxAge : Z }.

(** The authorization server, as the network shows it: a state of its own and
    what it answers, a status and a body, or no answer. *)
Class Remote := {
  remote : Type;
  http_Do : OutRequest -> ST remote ((Z * string) + goerr);
}.

Class BackendLib := {
  json_tokenResponse : string -> tokenResponse + goerr;     (** json.Unmarshal(body, &tok) *)
  json_nonce : list Z -> string + goerr;                    (** json.Unmarshal(payload, &claims) *)
  json_MarshalIndent : tokenResponse -> string + goerr;
  fmt_Sprint : tokenResponse -> string;                     (** the fallback of prettyJSON *)
  values_Encode : list (string * string) -> string;         (** url.Values.Encode *)
  url_SchemeHost : string -> option (string * string);      (** of url.Parse, [None] when it fails *)
  http_NewRequest : string -> option goerr;                 (** the error for a URL, if any *)
}.

Record Backend `{!Remote} := mkBackend {
  b_sys : Sys;
  b_sessions : gmap string sessionData;
  b_pending : pendingAuth;
  b_remote : remote;
  b_sent : list OutRequest;
  b_cookies : list SessionCookie;
  b_reply : option Reply;
}.

Definition ListenHost : string := "localhost:3000".
Definition ClientID : string := "my_client2".
Definition RedirectURI : string := "http://" +:+ ListenHost +:+ "/callback".
Definition LoginScope : string := "openid profile email".
Definition sessionCookieName : string := "session_id".
Definition csrfTokenField : string := "csrf_token".
Definition sessionMaxAge : Z := 86400.
Definition refreshThreshold : Z := 1 * Minute.

(** [AUTH_SERVER_URL], or the default; [None] is the exit of the program. *)
Definition envOr `{!BackendLib} (getenv : string -> string) (key fallback : string) : option string :=
  let v := strings_TrimRight_slash (getenv key) in
  if String.eqb v "" then Some fallback else
  match url_SchemeHost v with
  | None => None
  | Some (scheme, host) => if String.eqb scheme "" || String.eqb host "" then None else Some v
  end.

Section Relying.
  Context {E : Env} {RM : Remote} {BL : BackendLib}.
  Context (AuthServerURL : string).

Definition AuthorizeEndpoint : string := AuthServerURL +:+ "/authorize".
Definition TokenEndpoint : string := AuthServerURL +:+ "/token".
Definition UserinfoEndpoint : string := AuthServerURL +:+ "/userinfo".
Definition RevokeEndpoint : string := AuthServerURL +:+ "/oidc/revoke".
Definition IntrospectEndpoint : string := AuthServerURL +:+ "/oidc/introspect".
Definition LogoutEndpoint : string := AuthServerURL +:+ "/oidc/logout".
Definition UpdateProfileEndpoint : string := AuthServerURL +:+ "/api/v3/update-profile".
Definition ForgotPasswordEndpoint : string := AuthServerURL +:+ "/forgot-password".
Definition ResetPasswordEndpoint : string := AuthServerURL +:+ "/reset-password".

(** ** State access *)

Definition upd_sessions (f : gmap string sessionData -> gmap string sessionData) : ST Backend unit := modify (fun b =>
  mkBackend _ (b_sys b) (f (b_sessions b)) (b_pending b) (b_remote b) (b_sent b) (b_cookies b) (b_reply b)).
Definition set_pending (p : pendingAuth) : ST Backend unit := modify (fun b =>
  mkBackend _ (b_sys b) (b_sessions b) p (b_remote b) (b_sent b) (b_cookies b) (b_reply b)).
Definition http_SetCookie (c : SessionCookie) : ST Backend unit := modify (fun b =>
  mkBackend _ (b_sys b) (b_sessions b) (b_pending b) (b_remote b) (b_sent b) (b_cookies b ++ [c]) (b_reply b)).
Definition write (r : Reply) : ST Backend unit := modify (fun b =>
  mkBackend _ (b_sys b) (b_sessions b) (b_pending b) (b_remote b) (b_sent b) (b_cookies b) (Some r)).
Definition b_in_sys {A} (m : ST Sys A) : ST Backend A := fun b =>
  match m (b_sys b) with
  | (o, s) => (o, mkBackend _ s (b_sessions b) (b_pending b) (b_remote b) (b_sent b) (b_cookies b) (b_reply b))
  end.
(** A request goes out, and is remembered. *)
Definition httpClient_Do (r : OutRequest) : ST Backend ((Z * string) + goerr) := fun b =>
  match http_Do r (b_remote b) with
  | (o, n) => (o, mkBackend _ (b_sys b) (b_sessions b) (b_pending b) n (b_sent b ++ [r]) (b_cookies b) (b_reply b))
  end.

Definition http_Error (msg : string) (status : Z) : ST Backend unit := write (ErrorReply status msg).
Definition redirectHome : ST Backend unit := write (RedirectReply "/").

Definition lookup_session (id : string) : ST Backend (option sessionData) := fun b => (Ret (b_sessions b !! id), b).

(** ** Requests to the server *)

Definition generateRandom : ST Backend (string * option goerr) := b_in_sys random_Token.

Definition extractNonce (idToken : string) : string + goerr :=
  match strings_Split idToken "." with
  | [_; payload; _] =>
    match base64_RawURL_DecodeString payload with
    | None => inr (ErrMsg "illegal base64 data")
    | Some bytes => json_nonce bytes
    end
  | _ => inr (ErrMsg "invalid id_token")
  end.

Definition postForm (endpoint : string) (data : list (string * string)) : ST Backend ((Z * string) + goerr) :=
  httpClient_Do (mkOut "POST" endpoint None data).

Definition postToken (data : list (string * string)) : ST Backend (tokenResponse + goerr) :=
  r ← httpClient_Do (mkOut "POST" TokenEndpoint None data);
  match r with
  | inr err => mret (inr err)
  | inl (status, body) =>
    if negb (status =? 200) then mret (inr (ErrMsg ("token endpoint returned " +:+ pretty status +:+ ": " +:+ body))) else
    match json_tokenResponse body with
    | inr err => mret (inr (ErrWrapped "failed to parse token response: " err))
    | inl tok =>
      if String.eqb (tk_AccessToken tok) "" then mret (inr (ErrMsg ("no access_token in response: " +:+ body)))
      else mret (inl tok)
    end
  end.

Definition postWithBearer (endpoint token : string) (data : list (string * string))
  : ST Backend ((Z * string) + goerr) :=
  match http_NewRequest endpoint with
  | Some err => mret (inr err)
  | None => httpClient_Do (mkOut "POST" endpoint (Some token) data)
  end.

Definition fetchUserInfo (token : string) : ST Backend (string + goerr) :=
  match http_NewRequest UserinfoEndpoint with
  | Some err => mret (inr err)
  | None =>
    r ← httpClient_Do (mkOut "GET" UserinfoEndpoint (Some token) []);
    match r with
    | inr err => mret (inr err)
    | inl (status, body) =>
      if negb (status =? 200) then mret (inr (ErrMsg ("userinfo endpoint returned " +:+ pretty status +:+ ": " +:+ body)))
      else mret (inl (strings_TrimSpace body))
    end
  end.

Definition prettyJSON (t : tokenResponse) : string :=
  match json_MarshalIndent t with inl s => s | inr _ => fmt_Sprint t end.

Definition backend_s256Challenge (verifier : string) : string :=
  base64_RawURL_EncodeToString (sha256_Sum256 (bytes_of verifier)).

(** ** Sessions *)

Definition getSession (r : BackendRequest) : ST Backend (tokenResponse * bool) :=
  match rq_Cookie r with
  | None => mret (tokenResponse_zero, false)
  | Some id =>
    d ← lookup_session id;
    mret match d with Some data => (sd_Tokens data, true) | None => (tokenResponse_zero, false) end
  end.

(** The three steps of [setSession] under the lock, then the cookie. *)
Definition setSession (id : string) (tok : tokenResponse) : ST Backend unit :=
  t ← b_in_sys time_Now;
  let expiresAt := t + wrap64 (tk_ExpiresIn tok * Second) in
  current ← lookup_session id;
  let data := match current with
              | Some c => mkSessionData tok expiresAt (sd_LastResponse c) (sd_CSRFToken c)
              | None => mkSessionData tok expiresAt "" ""
              end in
  upd_sessions <[id := data]>;;
  http_SetCookie (mkSessionCookie id sessionMaxAge).

Definition refresh_form (refreshToken : string) : list (string * string) :=
  [("grant_type", "refresh_token"); ("client_id", ClientID); ("refresh_token", refreshToken)].

(** The end of [getSessionWithRefresh], after the lock is released. *)
Definition finishRefresh (id refreshToken : string) : ST Backend (tokenResponse * bool) :=
  n ← postToken (refresh_form refreshToken);
  match n with
  | inr _ => mret (tokenResponse_zero, false)
  | inl newTok => setSession id newTok;; mret (newTok, true)
  end.

Definition getSessionWithRefresh (r : BackendRequest) : ST Backend (tokenResponse * bool) :=
  match rq_Cookie r with
  | None => mret (tokenResponse_zero, false)
  | Some id =>
    d ← lookup_session id;
    match d with
    | None => mret (tokenResponse_zero, false)
    | Some data =>
      t ← b_in_sys time_Now;
      if refreshThreshold <? sd_ExpiresAt data - t then mret (sd_Tokens data, true) else
      if String.eqb (tk_RefreshToken (sd_Tokens data)) "" then mret (tokenResponse_zero, false)
      else finishRefresh id (tk_RefreshToken (sd_Tokens data))
    end
  end.

Definition getLastResponse (r : BackendRequest) : ST Backend string :=
  match rq_Cookie r with
  | None => mret ""
  | Some id => d ← lookup_session id; mret match d with Some data => sd_LastResponse data | None => "" end
  end.

Definition setLastResponse (id response : string) : ST Backend unit := upd_sessions (fun m =>
  match m !! id with
  | None => m
  | Some d => <[id := mkSessionData (sd_Tokens d) (sd_ExpiresAt d) response (sd_CSRFToken d)]> m
  end).

Definition setCurrentLastResponse (r : BackendRequest) (response : string) : ST Backend unit :=
  match rq_Cookie r with
  | Some id => setLastResponse id response
  | None => mret tt
  end.

Definition setCSRFToken (id token : string) : ST Backend unit := upd_sessions (fun m =>
  match m !! id with
  | None => m
  | Some d => <[id := mkSessionData (sd_Tokens d) (sd_ExpiresAt d) (sd_LastResponse d) token]> m
  end).

Definition csrfToken (r : BackendRequest) : ST Backend string :=
  match rq_Cookie r with
  | None => mret ""
  | Some id => d ← lookup_session id; mret match d with Some data => sd_CSRFToken data | None => "" end
  end.

Definition requireSessionToken (r : BackendRequest) : ST Backend (tokenResponse * bool) :=
  ' (tok, ok) ← getSessionWithRefresh r;
  if negb ok || String.eqb (tk_AccessToken tok) "" then redirectHome;; mret (tokenResponse_zero, false)
  else mret (tok, true).

Definition requireLogoutToken (r : BackendRequest) : ST Backend (tokenResponse * bool) :=
  ' (tok, ok) ← getSession r;
  if negb ok || (String.eqb (tk_AccessToken tok) "" && String.eqb (tk_RefreshToken tok) "")
  then redirectHome;; mret (tokenResponse_zero, false)
  else mret (tok, true).

Definition requireRefreshToken (r : BackendRequest) : ST Backend (tokenResponse * string * bool) :=
  match rq_Cookie r with
  | None => redirectHome;; mret (tokenResponse_zero, "", false)
  | Some id =>
    ' (tok, ok) ← getSession r;
    if negb ok || String.eqb (tk_RefreshToken tok) "" then redirectHome;; mret (tokenResponse_zero, "", false)
    else mret (tok, id, true)
  end.

Definition requirePOSTWithCSRF (r : BackendRequest) : ST Backend bool :=
  if negb (String.eqb (rq_Method r) "POST") then http_Error "method not allowed" 405;; mret false else
  token ← csrfToken r;
  if String.eqb token "" || negb (String.eqb (rq_FormValue r csrfTokenField) token)
  then http_Error "invalid csrf token" 403;; mret false
  else mret true.

Definition clearSession (r : BackendRequest) : ST Backend unit :=
  (match rq_Cookie r with
   | Some id => upd_sessions (delete id)
   | None => mret tt
   end);;
  http_SetCookie (mkSessionCookie "" (-1)).

(** ** Handlers *)

(** [s[:min(10, len(s))]] *)
Definition prefix10 (s : string) : string := String.substring 0 10 s.

Definition handleHome (r : BackendRequest) : ST Backend unit :=
  ' (tok, hasToken) ← getSessionWithRefresh r;
  csrf ← (if (hasToken : bool) then c ← csrfToken r; mret (Some (html_EscapeString c)) else mret None);
  last ← getLastResponse r;
  write (PageReply (HomePage (if hasToken then Some (prefix10 (tk_AccessToken tok)) else None) csrf
    (if negb (String.eqb last "") then html_EscapeString last else ""))).

Definition login_params (state nonce verifier : string) : list (string * string) :=
  [("client_id", ClientID); ("redirect_uri", RedirectURI); ("response_type", "code"); ("scope", LoginScope);
   ("state", state); ("nonce", nonce); ("code_challenge", backend_s256Challenge verifier);
   ("code_challenge_method", "S256")].

Definition handleLogin (r : BackendRequest) : ST Backend unit :=
  ' (tok, ok) ← getSessionWithRefresh r;
  if ok && negb (String.eqb (tk_AccessToken tok) "") then redirectHome else
  s ← generateRandom;
  match s with
  | (_, Some _) => http_Error "failed to generate state" 500
  | (state, None) =>
    n ← generateRandom;
    match n with
    | (_, Some _) => http_Error "failed to generate nonce" 500
    | (nonce, None) =>
      v ← generateRandom;
      match v with
      | (_, Some _) => http_Error "failed to generate code verifier" 500
      | (verifier, None) =>
        set_pending (mkPending state nonce verifier);;
        setCurrentLastResponse r "";;
        write (RedirectReply (AuthorizeEndpoint +:+ "?" +:+ values_Encode (login_params state nonce verifier)))
      end
    end
  end.

Definition exchange_form (code verifier : string) : list (string * string) :=
  [("grant_type", "authorization_code"); ("code", code); ("client_id", ClientID); ("redirect_uri", RedirectURI);
   ("code_verifier", verifier); ("expire_secs", "120")].

(** The end of the callback, once the tokens are accepted. *)
Definition startSession (tok : tokenResponse) : ST Backend unit :=
  set_pending pendingAuth_zero;;
  s ← generateRandom;
  match s with
  | (_, Some _) => http_Error "failed to generate session" 500
  | (sessionID, None) =>
    c ← generateRandom;
    match c with
    | (_, Some _) => http_Error "failed to generate csrf token" 500
    | (csrf, None) =>
      setSession sessionID tok;;
      setCSRFToken sessionID csrf;;
      setLastResponse sessionID (prettyJSON tok);;
      redirectHome
    end
  end.

Definition handleCallback (r : BackendRequest) : ST Backend unit :=
  let code := rq_Query r "code" in
  if String.eqb code "" then http_Error "no code in request" 400 else
  let state := rq_Query r "state" in
  b ← get;
  if String.eqb (pa_State (b_pending b)) "" || negb (String.eqb state (pa_State (b_pending b)))
  then http_Error "state mismatch" 400 else
  t ← postToken (exchange_form code (pa_Verifier (b_pending b)));
  match t with
  | inr _ => http_Error "token exchange failed" 500
  | inl tok =>
    b ← get;
    match extractNonce (tk_IDToken tok) with
    | inr _ => http_Error "nonce mismatch" 400
    | inl nonce =>
      if negb (String.eqb nonce (pa_Nonce (b_pending b))) then http_Error "nonce mismatch" 400
      else startSession tok
    end
  end.

Definition handleRefresh (r : BackendRequest) : ST Backend unit :=
  go ← requirePOSTWithCSRF r;
  if negb go then mret tt else
  ' (tok, sessionID, ok) ← requireRefreshToken r;
  if negb ok then mret tt else
  n ← postToken (refresh_form (tk_RefreshToken tok));
  match n with
  | inr _ => http_Error "refresh failed" 500
  | inl newTok =>
    setSession sessionID newTok;;
    setLastResponse sessionID (prettyJSON newTok);;
    redirectHome
  end.

Definition token_form (token : string) : list (string * string) :=
  [("token", token); ("token_type_hint", "access_token")].

Definition handleRevoke (r : BackendRequest) : ST Backend unit :=
  go ← requirePOSTWithCSRF r;
  if negb go then mret tt else
  ' (tok, ok) ← requireSessionToken r;
  if negb ok then mret tt else
  p ← postWithBearer RevokeEndpoint (tk_AccessToken tok) (token_form (tk_AccessToken tok));
  match p with
  | inr _ => http_Error "revoke failed" 500
  | inl (status, body) =>
    setCurrentLastResponse r ("HTTP " +:+ pretty status +:+ String "010" body);;
    clearSession r;;
    redirectHome
  end.

Definition handleIntrospect (r : BackendRequest) : ST Backend unit :=
  ' (tok, ok) ← requireSessionToken r;
  if negb ok then mret tt else
  p ← postWithBearer IntrospectEndpoint (tk_AccessToken tok) (token_form (tk_AccessToken tok));
  match p with
  | inr _ => http_Error "introspect failed" 500
  | inl (status, body) => setCurrentLastResponse r body;; redirectHome
  end.

Definition handleUserInfo (r : BackendRequest) : ST Backend unit :=
  ' (tok, ok) ← requireSessionToken r;
  if negb ok then mret tt else
  p ← fetchUserInfo (tk_AccessToken tok);
  match p with
  | inr _ => http_Error "userinfo failed" 500
  | inl body => setCurrentLastResponse r body;; redirectHome
  end.

Definition handleLogout (r : BackendRequest) : ST Backend unit :=
  go ← requirePOSTWithCSRF r;
  if negb go then mret tt else
  ' (tok, ok) ← requireLogoutToken r;
  if negb ok then mret tt else
  match http_NewRequest LogoutEndpoint with
  | Some _ => http_Error "logout failed" 500
  | None =>
    let bearer := if negb (String.eqb (tk_AccessToken tok) "") then Some (tk_AccessToken tok) else None in
    p ← httpClient_Do (mkOut "POST" LogoutEndpoint bearer []);
    match p with
    | inr _ => http_Error "logout failed" 500
    | inl (status, _) =>
      setCurrentLastResponse r ("HTTP " +:+ pretty status +:+ " — logged out");;
      clearSession r;;
      redirectHome
    end
  end.

Definition set_if (k v : string) : list (string * string) := if negb (String.eqb v "") then [(k, v)] else [].

Definition handleUpdateProfile (r : BackendRequest) : ST Backend unit :=
  ' (tok, ok) ← requireSessionToken r;
  if negb ok then mret tt else
  if String.eqb (rq_Method r) "POST" then
    match rq_ParseForm r with
    | Some _ => http_Error "invalid form" 400
    | None =>
      let data := set_if "username" (rq_FormValue r "username") ++ set_if "nickname" (rq_FormValue r "nickname") ++
                  set_if "email" (rq_FormValue r "email") in
      p ← postWithBearer UpdateProfileEndpoint (tk_AccessToken tok) data;
      match p with
      | inr _ => http_Error "update profile failed" 500
      | inl (status, body) => setCurrentLastResponse r body;; redirectHome
      end
    end
  else write (PageReply UpdateProfilePage).

Definition handleForgotPassword (r : BackendRequest) : ST Backend unit :=
  if String.eqb (rq_Method r) "POST" then
    match rq_ParseForm r with
    | Some _ => http_Error "invalid form" 400
    | None =>
      p ← postForm ForgotPasswordEndpoint [("email", rq_FormValue r "email")];
      match p with
      | inr _ => http_Error "request failed" 500
      | inl _ => redirectHome
      end
    end
  else write (PageReply ForgotPasswordPage).

Definition handleResetPassword (r : BackendRequest) : ST Backend unit :=
  if String.eqb (rq_Method r) "POST" then
    match rq_ParseForm r with
    | Some _ => http_Error "invalid form" 400
    | None =>
      p ← postForm ResetPasswordEndpoint [("token", rq_FormValue r "token"); ("password", rq_FormValue r "password")];
      match p with
      | inr _ => http_Error "request failed" 500
      | inl _ => redirectHome
      end
    end
  else write (PageReply (ResetPasswordPage (html_EscapeString (rq_Query r "token")))).

(** The handlers [main] registers, by path; "/" takes every other path. *)
Definition backend_routes : list (string * (BackendRequest -> ST Backend unit)) :=
  [("/login", handleLogin); ("/callback", handleCallback); ("/refresh", handleRefresh); ("/revoke", handleRevoke);
   ("/introspect", handleIntrospect); ("/userinfo", handleUserInfo); ("/logout", handleLogout);
   ("/update-profile", handleUpdateProfile); ("/forgot-password", handleForgotPassword);
   ("/reset-password", handleResetPassword); ("/", handleHome)].

End Relying.
