(* ===== verification/RelyingFlow.v ===== *)
(** * Theorems about the relying party

    A login makes a session only out of the answer to its own request; what
    changes state needs the session's CSRF token; the sessions are well-formed;
    and the two programs agree about PKCE. *)

From S2P Require Import Prelude GoStd Crypto Errors Env Cipher Scope Client AuthFlow Queries Relying Base64.

Local Open Scope Z_scope.

(** ** Escaping *)

Lemma string_in_app (s1 s2 : string) x :
  List.In x (String.list_ascii_of_string (s1 +:+ s2)) <->
  List.In x (String.list_ascii_of_string s1) \/ List.In x (String.list_ascii_of_string s2).
Proof. induction s1 as [|c s1 IH]; simpl; [tauto|]. rewrite IH. tauto. Qed.

(** What a page shows of a response, a token or a parameter cannot end the
    attribute or the element it stands in: the escaped text has no markup
    character. *)
Theorem escaped_is_inert (s : string) (c : ascii) :
  List.In c (String.list_ascii_of_string (html_EscapeString s)) -> ~ In (byteZ c) [34; 39; 60; 62].
Proof.
  induction s as [|d s IH]; simpl; [done|]. rewrite string_in_app. intros [Hd|Hs]; [|by apply IH].
  unfold html_escape_char in Hd. cbv zeta in Hd.
  repeat (case_match; [simpl in Hd; intuition (subst; simpl in *; intuition done)|]).
  simpl in Hd. destruct Hd as [<-|[]]. simpl. intuition lia.
Qed.

(** ** Requests *)

Section Flow.
  Context {E : Env} {RM : Remote} {BL : BackendLib}.
  Context (AuthServerURL : string).

Definition with_reply (r : Reply) (b : Backend) : Backend := (write r b).2.

(** The request is a POST that repeats the CSRF token of its session. *)
Definition csrf_ok (r : BackendRequest) (b : Backend) : bool :=
  String.eqb (rq_Method r) "POST" &&
  match rq_Cookie r ≫= (b_sessions b !!.) with
  | Some d => negb (String.eqb (sd_CSRFToken d) "") && String.eqb (rq_FormValue r csrfTokenField) (sd_CSRFToken d)
  | None => false
  end.

Lemma requirePOST_run r b :
  requirePOSTWithCSRF r b =
  if csrf_ok r b then (Ret true, b)
  else (Ret false, with_reply (if String.eqb (rq_Method r) "POST" then ErrorReply 403 "invalid csrf token"
                               else ErrorReply 405 "method not allowed") b).
Proof.
  unfold requirePOSTWithCSRF, csrf_ok, csrfToken. destruct (String.eqb (rq_Method r) "POST"); [simpl|done].
  destruct (rq_Cookie r) as [id|]; [|done]. unfold bind, lookup_session. simpl.
  destruct (b_sessions b !! id) as [d|]; [|done]. simpl. destruct (String.eqb (sd_CSRFToken d) ""); [done|].
  by destruct (String.eqb (rq_FormValue r csrfTokenField) (sd_CSRFToken d)).
Qed.

Definition guarded : list (BackendRequest -> ST Backend unit) :=
  [handleRefresh AuthServerURL; handleRevoke AuthServerURL; handleLogout AuthServerURL].

(** Refresh, revocation and logout answer any other request with an error and do
    nothing else: no session changes and nothing is sent to the server. *)
Theorem csrf_guards (h : BackendRequest -> ST Backend unit) (r : BackendRequest) (b : Backend) :
  List.In h guarded -> csrf_ok r b = false ->
  exists status msg, h r b = (Ret tt, with_reply (ErrorReply status msg) b) /\ (status = 403 \/ status = 405).
Proof.
  intros Hh Hc.
  assert (exists status msg, requirePOSTWithCSRF r b = (Ret false, with_reply (ErrorReply status msg) b) /\
    (status = 403 \/ status = 405)) as (status & msg & Hrun & Hs).
  { rewrite requirePOST_run, Hc. destruct (String.eqb (rq_Method r) "POST"); eauto. }
  exists status, msg. split; [|done].
  destruct Hh as [<-|[<-|[<-|[]]]]; unfold handleRefresh, handleRevoke, handleLogout;
    by rewrite (bind_run _ _ _ _ _ Hrun).
Qed.

(** *** What a token request does *)

Lemma postToken_run data b :
  exists o n, postToken AuthServerURL data b =
    (o, mkBackend _ (b_sys b) (b_sessions b) (b_pending b) n
          (b_sent b ++ [mkOut "POST" (TokenEndpoint AuthServerURL) None data]) (b_cookies b) (b_reply b)) /\
    forall tok, o = Ret (inl tok) -> tk_AccessToken tok <> "" /\ exists body,
      http_Do (mkOut "POST" (TokenEndpoint AuthServerURL) None data) (b_remote b) = (Ret (inl (200, body)), n) /\
      json_tokenResponse body = inl tok.
Proof.
  unfold postToken, httpClient_Do, bind. destruct (http_Do _ _) as [[[[status body]|err]|msg] n].
  - destruct (Z.eqb_spec status 200) as [->|]; [|by eexists _, n]. cbn [negb].
    destruct (json_tokenResponse body) as [tok|err] eqn:Hj; [|by eexists _, n].
    destruct (String.eqb_spec (tk_AccessToken tok) ""); [by eexists _, n|].
    eexists _, n. split; [reflexivity|]. intros ? [= <-]. eauto.
  - by eexists _, n.
  - by eexists _, n.
Qed.

Lemma generateRandom_run b :
  exists r s, generateRandom b =
    (Ret r, mkBackend _ s (b_sessions b) (b_pending b) (b_remote b) (b_sent b) (b_cookies b) (b_reply b)) /\
    random_Token (b_sys b) = (Ret r, s) /\ forall tok, r = (tok, None) -> String.length tok = 43%nat.
Proof.
  unfold generateRandom, b_in_sys. destruct (random_Token (b_sys b)) as [o s] eqn:Hr.
  assert (exists r, o = Ret r) as [r ->].
  { revert Hr. unfold random_Token. destruct (rand_Read _); intros [= <- _]; eauto. }
  exists r, s. split; [done|]. split; [done|]. intros tok ->. by eapply length_random_Token.
Qed.

(** The session a login or a refresh leaves behind. *)
Lemma setSession_run id tok b :
  exists s, setSession id tok b =
    (Ret tt, mkBackend _ s (<[id := mkSessionData tok (now (b_sys b) + wrap64 (tk_ExpiresIn tok * Second))
        (from_option sd_LastResponse "" (b_sessions b !! id)) (from_option sd_CSRFToken "" (b_sessions b !! id))]>
        (b_sessions b)) (b_pending b) (b_remote b) (b_sent b) (b_cookies b ++ [mkSessionCookie id sessionMaxAge]) (b_reply b)).
Proof.
  unfold setSession, bind, b_in_sys, lookup_session. simpl.
  destruct (b_sessions b !! id); simpl; eexists _; reflexivity.
Qed.

(** *** Login *)

(** The session a callback starts: its name and its CSRF token are the next two
    random values, it expires when the tokens say, and the cookie names it. *)
Definition session_started (tok : tokenResponse) (b b' : Backend) : Prop :=
  exists sid csrf s1 s2, random_Token (b_sys b) = (Ret (sid, None), s1) /\ random_Token s1 = (Ret (csrf, None), s2) /\
    b_sessions b' = <[sid := mkSessionData tok (now s2 + wrap64 (tk_ExpiresIn tok * Second)) (prettyJSON tok) csrf]>
      (b_sessions b) /\
    b_cookies b' = b_cookies b ++ [mkSessionCookie sid sessionMaxAge] /\ b_reply b' = Some (RedirectReply "/").

(** No randomness to be had. *)
Definition random_failed : Prop := exists s tok err s', random_Token s = (Ret (tok, Some err), s').

Lemma startSession_spec tok b :
  wp (startSession tok) (fun o b' => b_pending b' = pendingAuth_zero /\ b_sent b' = b_sent b /\ exists u, o = Ret u /\
    (b_sessions b' = b_sessions b /\ (exists msg, b_reply b' = Some (ErrorReply 500 msg)) /\ random_failed \/
     session_started tok b b')) b.
Proof.
  unfold startSession. apply wp_bind. eapply wp_eq; [reflexivity|]. cbn beta iota. apply wp_bind.
  edestruct generateRandom_run as ([sid err] & s1 & Hr1 & H1 & _). eapply wp_eq; [exact Hr1|]. clear Hr1. cbn beta iota.
  destruct err as [e|].
  { split_and!; [done..|]. eexists. split; [done|]. left. split_and!; [done|by eexists|by eexists _, _, _, _]. }
  apply wp_bind.
  edestruct generateRandom_run as ([csrf err] & s2 & Hr2 & H2 & _). eapply wp_eq; [exact Hr2|]. clear Hr2. cbn beta iota.
  destruct err as [e|].
  { split_and!; [done..|]. eexists. split; [done|]. left. split_and!; [done|by eexists|by eexists _, _, _, _]. }
  apply wp_bind. simpl in H1, H2.
  edestruct setSession_run as (s3 & Hr3). eapply wp_eq; [exact Hr3|]. clear Hr3. cbn beta iota.
  apply wp_bind. eapply wp_eq; [reflexivity|]. apply wp_bind. eapply wp_eq; [reflexivity|]. eapply wp_eq; [reflexivity|].
  simpl. split_and!; [done..|]. exists tt. split; [done|]. right.
  exists sid, csrf, s1, s2. split_and!; [done|done| |done|done]. simpl.
  rewrite lookup_insert_eq. simpl. rewrite insert_insert_eq, lookup_insert_eq, insert_insert_eq. reflexivity.
Qed.

(** The request a callback sends. *)
Definition exchange_request (r : BackendRequest) (b : Backend) : OutRequest :=
  mkOut "POST" (TokenEndpoint AuthServerURL) None (exchange_form (rq_Query r "code") (pa_Verifier (b_pending b))).

(** Why a callback starts no session. *)
Definition callback_refused (r : BackendRequest) (b : Backend) : Prop :=
  rq_Query r "code" = "" \/ pa_State (b_pending b) = "" \/ rq_Query r "state" <> pa_State (b_pending b) \/
  (exists err, (postToken AuthServerURL (exchange_form (rq_Query r "code") (pa_Verifier (b_pending b))) b).1 = Ret (inr err)) \/
  (exists tok, (postToken AuthServerURL (exchange_form (rq_Query r "code") (pa_Verifier (b_pending b))) b).1 = Ret (inl tok) /\
     extractNonce (tk_IDToken tok) <> inl (pa_Nonce (b_pending b))) \/
  random_failed.

Lemma callback_spec (r : BackendRequest) (b b' : Backend) :
  handleCallback AuthServerURL r b = (Ret tt, b') ->
  b_sessions b' = b_sessions b /\ (exists status msg, b_reply b' = Some (ErrorReply status msg)) /\ callback_refused r b \/
  exists tok body n, rq_Query r "code" <> "" /\ pa_State (b_pending b) <> "" /\
    rq_Query r "state" = pa_State (b_pending b) /\ b_sent b' = b_sent b ++ [exchange_request r b] /\
    http_Do (exchange_request r b) (b_remote b) = (Ret (inl (200, body)), n) /\ json_tokenResponse body = inl tok /\
    tk_AccessToken tok <> "" /\ extractNonce (tk_IDToken tok) = inl (pa_Nonce (b_pending b)) /\
    b_pending b' = pendingAuth_zero /\ session_started tok b b'.
Proof.
  intros Hrun. refine (wp_run _ (fun o b' => o = Ret tt -> _) _ _ _ Hrun _ eq_refl). clear Hrun b'.
  unfold handleCallback, callback_refused. cbv zeta.
  destruct (String.eqb_spec (rq_Query r "code") "") as [|Hcode]; [by intros _; left; split_and!; [|eexists _, _|left]|].
  apply wp_bind. eapply wp_eq; [reflexivity|]. cbn beta iota.
  destruct (String.eqb_spec (pa_State (b_pending b)) "") as [|Hst]; [by intros _; left; split_and!; [|eexists _, _|right; left]|].
  destruct (String.eqb_spec (rq_Query r "state") (pa_State (b_pending b))) as [Heq|];
    [|by intros _; left; split_and!; [|eexists _, _|right; right; left]].
  cbn [orb negb]. apply wp_bind. edestruct postToken_run as (o & n & Hp & Htok). rewrite Hp. eapply wp_eq; [exact Hp|]. clear Hp.
  destruct o as [[tok|err]|msg];
    [|by intros _; left; split_and!; [|eexists _, _|right; right; right; left; eexists]|by intros].
  destruct (Htok tok eq_refl) as (Ha & body & Hdo & Hj).
  apply wp_bind. eapply wp_eq; [reflexivity|]. cbn beta iota. simpl b_pending.
  destruct (extractNonce (tk_IDToken tok)) as [nonce|err] eqn:Hn.
  2:{ intros _; left; split_and!; [done|by eexists _, _|]. do 4 right. left. exists tok. by rewrite Hn. }
  destruct (String.eqb_spec nonce (pa_Nonce (b_pending b))) as [->|Hne]; cbn [negb].
  2:{ intros _; left; split_and!; [done|by eexists _, _|]. do 4 right. left. exists tok. rewrite Hn. split; [done|congruence]. }
  eapply wp_mono; [apply startSession_spec|]. simpl. intros o b' (Hpd & Hsent & u & _ & [(Hs & [m Hm] & Hf)|Hs]) _.
  - left. split_and!; [done|by eexists _, _|by do 5 right].
  - right. exists tok, body, n. split_and!; try done.
Qed.

(** C36: Login.  A callback starts a session only when it repeats the state of the
    login in flight; the code went to the token endpoint together with the
    verifier of that login, and nothing else was sent; the tokens are the body of
    the answer, which had status 200, with an access token, and the ID token
    carries the nonce of that login, which is then over.  Exactly one session is
    added, with these tokens; its name, which is also the cookie's, and its CSRF
    token are the two random values drawn for it; and no callback after it starts
    one before the next login.  Every other callback leaves the sessions as they
    are and is answered with an error: it had no code, the wrong state, the
    exchange or the nonce failed, or there was no randomness. *)
Theorem callback_sound (r : BackendRequest) (b b' : Backend) :
  handleCallback AuthServerURL r b = (Ret tt, b') ->
  b_sessions b' = b_sessions b /\ (exists status msg, b_reply b' = Some (ErrorReply status msg)) /\ callback_refused r b \/
  exists tok body n, rq_Query r "code" <> "" /\ pa_State (b_pending b) <> "" /\
    rq_Query r "state" = pa_State (b_pending b) /\ b_sent b' = b_sent b ++ [exchange_request r b] /\
    http_Do (exchange_request r b) (b_remote b) = (Ret (inl (200, body)), n) /\ json_tokenResponse body = inl tok /\
    tk_AccessToken tok <> "" /\ extractNonce (tk_IDToken tok) = inl (pa_Nonce (b_pending b)) /\
    b_pending b' = pendingAuth_zero /\ session_started tok b b' /\
    forall r2 b2, handleCallback AuthServerURL r2 b' = (Ret tt, b2) -> b_sessions b2 = b_sessions b'.
Proof.
  intros [Hs|(tok & body & n & H)]%callback_spec; [by left|right].
  destruct H as (Hc & Hst & Heq & Hsent & Hdo & Hj & Ht & Hn & Hp & Hss).
  exists tok, body, n. do 10 (split; [done|]). intros r2 b2 [[Hs _]|(? & ? & ? & _ & Hst2 & _)]%callback_spec; [done|].
  by rewrite Hp in Hst2.
Qed.

(** *** The sessions are well-formed *)

Definition session_ok (d : sessionData) : Prop :=
  tk_AccessToken (sd_Tokens d) <> "" /\ String.length (sd_CSRFToken d) = 43%nat.

Definition sessions_ok (b : Backend) : Prop := map_Forall (fun _ d => session_ok d) (b_sessions b).

Definition keep_ok (b b' : Backend) : Prop := sessions_ok b -> sessions_ok b'.

#[local] Instance keep_ok_preorder : PreOrder keep_ok.
Proof. split; [intros b H; exact H|]. intros b1 b2 b3 H12 H23 H. exact (H23 (H12 H)). Qed.

(** Steps that leave the sessions alone. *)
Lemma keep_same {A} (m : ST Backend A) : (forall b, b_sessions (m b).2 = b_sessions b) -> respects keep_ok m.
Proof. intros H b Hb. unfold sessions_ok. by rewrite H. Qed.

Lemma keep_in_sys {A} (m : ST Sys A) : respects keep_ok (b_in_sys m).
Proof. apply keep_same. intros b. unfold b_in_sys. by destruct (m (b_sys b)). Qed.
Lemma keep_do r : respects keep_ok (httpClient_Do r).
Proof. apply keep_same. intros b. unfold httpClient_Do. by destruct (http_Do r (b_remote b)). Qed.
Lemma keep_write r : respects keep_ok (write r).
Proof. by apply keep_same. Qed.
Lemma keep_cookie c : respects keep_ok (http_SetCookie c).
Proof. by apply keep_same. Qed.
Lemma keep_pending p : respects keep_ok (set_pending p).
Proof. by apply keep_same. Qed.
Lemma keep_lookup id : respects keep_ok (lookup_session id).
Proof. by apply keep_same. Qed.
Lemma keep_get : respects keep_ok get.
Proof. by apply keep_same. Qed.

Lemma keep_delete id : respects keep_ok (upd_sessions (delete id)).
Proof. intros b Hb. apply map_Forall_delete. exact Hb. Qed.

Lemma keep_last id response : respects keep_ok (setLastResponse id response).
Proof.
  intros b Hb. unfold sessions_ok, setLastResponse. simpl. destruct (b_sessions b !! id) as [d|] eqn:Hd; [|exact Hb].
  apply map_Forall_insert_2; [|exact Hb]. exact (Hb id d Hd).
Qed.

#[local] Hint Resolve keep_in_sys keep_do keep_write keep_cookie keep_pending keep_lookup keep_get keep_delete
  keep_last : respects.

(** Tokens put into a session that is there. *)
Lemma setSession_ok id tok b d :
  sessions_ok b -> b_sessions b !! id = Some d -> tk_AccessToken tok <> "" -> sessions_ok (setSession id tok b).2.
Proof.
  intros Hb Hd Ht. destruct (setSession_run id tok b) as (s & ->). unfold sessions_ok. simpl. rewrite Hd. simpl.
  apply map_Forall_insert_2; [|exact Hb]. split; [done|]. apply (Hb id d Hd).
Qed.

(** The refresh that precedes a request, if one is due. *)
Lemma refresh_ok id token d b :
  b_sessions b !! id = Some d -> keep_ok b (finishRefresh AuthServerURL id token b).2.
Proof.
  intros Hd Hb. unfold finishRefresh, bind at 1. edestruct postToken_run as (o & n & -> & Htok).
  destruct o as [[tok|err]|msg]; [|exact Hb|exact Hb]. set (b1 := mkBackend _ _ _ _ _ _ _ _).
  pose proof (setSession_ok id tok b1 d Hb Hd (proj1 (Htok tok eq_refl))) as H. unfold bind.
  by destruct (setSession id tok b1) as [[?|?] b2].
Qed.

Lemma getSessionWithRefresh_ok r : respects keep_ok (getSessionWithRefresh AuthServerURL r).
Proof.
  intros b. unfold getSessionWithRefresh. destruct (rq_Cookie r) as [id|]; [|reflexivity].
  unfold bind at 1, lookup_session. simpl. destruct (b_sessions b !! id) as [d|] eqn:Hd; [|reflexivity].
  unfold bind at 1, b_in_sys. simpl. set (b1 := mkBackend _ _ _ _ _ _ _ _).
  destruct (refreshThreshold <? _); [intros Hb; exact Hb|].
  destruct (String.eqb (tk_RefreshToken (sd_Tokens d)) ""); [intros Hb; exact Hb|].
  exact (refresh_ok id _ d b1 Hd).
Qed.

#[local] Hint Resolve getSessionWithRefresh_ok : respects.

Lemma handleRefresh_ok r : respects keep_ok (handleRefresh AuthServerURL r).
Proof.
  unfold handleRefresh. intros b Hb. unfold bind at 1. rewrite requirePOST_run.
  destruct (csrf_ok r b); [|exact Hb]. simpl. unfold requireRefreshToken, getSession.
  destruct (rq_Cookie r) as [id|]; [|exact Hb].
  unfold bind at 1 2 3, lookup_session. simpl. destruct (b_sessions b !! id) as [d|] eqn:Hd; [|exact Hb]. simpl.
  destruct (String.eqb (tk_RefreshToken (sd_Tokens d)) ""); [exact Hb|]. simpl. unfold bind at 1.
  edestruct postToken_run as (o & n & -> & Htok). destruct o as [[tok|err]|msg]; [|exact Hb|exact Hb].
  set (b1 := mkBackend _ _ _ _ _ _ _ _). pose proof (setSession_ok id tok b1 d Hb Hd (proj1 (Htok tok eq_refl))) as H.
  unfold bind at 1. destruct (setSession id tok b1) as [[?|?] b2]; [|exact H].
  refine ((_ : respects keep_ok _) b2 H). unfold redirectHome. solve_respects.
Qed.

Lemma handleCallback_ok r : respects keep_ok (handleCallback AuthServerURL r).
Proof.
  intros b Hb. destruct (handleCallback AuthServerURL r b) as [[[]|msg] b'] eqn:Hrun.
  - apply callback_spec in Hrun as [[Hs _]|(tok & _ & _ & _ & _ & _ & _ & _ & _ & Ht & _ & _ & sid & csrf & s1 & s2 & _ & Hl & Hs & _)];
      unfold sessions_ok; simpl; rewrite Hs; [exact Hb|].
    apply map_Forall_insert_2; [|exact Hb]. split; [done|]. by eapply length_random_Token.
  - unfold sessions_ok. simpl. enough (b_sessions b' = b_sessions b) as -> by exact Hb.
    refine (wp_run _ (fun o b' => o = Panic msg -> b_sessions b' = b_sessions b) _ _ _ Hrun _ eq_refl).
    unfold handleCallback. cbv zeta. destruct (String.eqb _ ""); [by intros|].
    apply wp_bind. eapply wp_eq; [reflexivity|]. cbn beta iota. destruct (_ || _); [by intros|].
    apply wp_bind. edestruct postToken_run as (o & n & Hp & _). eapply wp_eq; [exact Hp|].
    destruct o as [[tok|err]|msg']; [|by intros|by intros].
    apply wp_bind. eapply wp_eq; [reflexivity|]. cbn beta iota. destruct (extractNonce _); [|by intros].
    destruct (negb _); [by intros|]. eapply wp_mono; [apply startSession_spec|].
    by intros o b2 (_ & _ & u & -> & _) [=].
Qed.

#[local] Hint Resolve handleRefresh_ok handleCallback_ok : respects.

(** What the browsers make the program do: requests, one after the other, each
    with a fresh response writer. *)
Definition fresh_response (b : Backend) : Backend :=
  mkBackend _ (b_sys b) (b_sessions b) (b_pending b) (b_remote b) (b_sent b) [] None.

Inductive backend_runs (b : Backend) : Backend -> Prop :=
| runs_nothing : backend_runs b b
| runs_request path h r b1 :
    backend_runs b b1 -> List.In (path, h) (backend_routes AuthServerURL) ->
    backend_runs b (h r (fresh_response b1)).2.

Lemma route_ok path h r : List.In (path, h) (backend_routes AuthServerURL) -> respects keep_ok (h r).
Proof.
  unfold backend_routes. simpl.
  intros [[= _ <-]|[[= _ <-]|[[= _ <-]|[[= _ <-]|[[= _ <-]|[[= _ <-]|[[= _ <-]|[[= _ <-]|[[= _ <-]|[[= _ <-]|[[= _ <-]|[]]]]]]]]]]]];
    [| |..]; try (solve [eauto with respects]);
    unfold handleLogin, handleRevoke, handleIntrospect, handleUserInfo, handleLogout, handleUpdateProfile,
      handleForgotPassword, handleResetPassword, handleHome, requirePOSTWithCSRF, requireSessionToken, requireLogoutToken,
      getSession, csrfToken, getLastResponse, setCurrentLastResponse, clearSession, postWithBearer, postForm, fetchUserInfo,
      generateRandom, http_Error, redirectHome; cbv zeta; solve_respects.
Qed.

(** Every session the program ever holds has an access token and a full CSRF
    token: the guard above is never open to an empty token. *)
Theorem sessions_well_formed (b b' : Backend) : sessions_ok b -> backend_runs b b' -> sessions_ok b'.
Proof.
  intros Hb Hr. induction Hr as [|path h r b1 _ IH Hin]; [done|].
  exact (route_ok path h r Hin (fresh_response b1) IH).
Qed.

(** *** The two programs *)

(** The query of an authorization request, as the server binds it. *)
Definition param (k : string) (l : list (string * string)) : option string :=
  snd <$> List.find (fun p => String.eqb (fst p) k) l.

Definition authorize_query (l : list (string * string)) : GetAuthorizeQuery :=
  let s k := default "" (param k l) in
  mkGetAuthorizeQuery (s "response_type") (s "client_id") (s "redirect_uri") (s "scope") (param "state" l) (param "nonce" l)
    (param "code_challenge" l) (param "code_challenge_method" l).

Definition same_pending (b b' : Backend) : Prop := b_pending b' = b_pending b.

#[local] Instance same_pending_preorder : PreOrder same_pending.
Proof. split; [done|]. unfold same_pending. intros b1 b2 b3 H12 H23. congruence. Qed.

Lemma getSessionWithRefresh_pending r : respects same_pending (getSessionWithRefresh AuthServerURL r).
Proof.
  intros b. unfold getSessionWithRefresh. destruct (rq_Cookie r) as [id|]; [|done].
  unfold bind at 1, lookup_session. simpl. destruct (b_sessions b !! id) as [d|]; [|done].
  unfold bind at 1, b_in_sys. simpl. set (b1 := mkBackend _ _ _ _ _ _ _ _).
  destruct (refreshThreshold <? _); [done|]. destruct (String.eqb _ ""); [done|]. unfold finishRefresh, bind at 1.
  edestruct postToken_run as (o & n & -> & _). destruct o as [[tok|err]|msg]; [|done|done]. unfold bind.
  by edestruct setSession_run as (s & ->).
Qed.

(** The parameters of a login pass the server's checks. *)
Lemma login_params_ok state nonce verifier client :
  String.length state = 43%nat -> String.length nonce = 43%nat ->
  Authorize_protocolError (authorize_query (login_params state nonce verifier)) client = "".
Proof.
  intros Hs Hn. unfold Authorize_protocolError. set (q := authorize_query _).
  change (aq_ResponseType q) with "code". change (aq_Scope q) with LoginScope.
  change (aq_State q) with (Some state). change (aq_Nonce q) with (Some nonce).
  assert (validPKCE q = true) as ->.
  { unfold validPKCE. change (aq_CodeChallenge q) with (Some (s256Challenge verifier)).
    change (aq_CodeChallengeMethod q) with (Some "S256"). unfold len. by rewrite s256Challenge_length. }
  change (aq_CodeChallenge q) with (Some (s256Challenge verifier)).
  assert (tooLong (Some state) = false) as -> by (unfold tooLong, len; by rewrite Hs).
  assert (tooLong (Some nonce) = false) as -> by (unfold tooLong, len; by rewrite Hn).
  destruct (NewScope (strings_Fields LoginScope)) as [sc err] eqn:Hsc. vm_compute in Hsc. injection Hsc as <- <-.
  by destruct (Client_IsPublic client).
Qed.

(** Why a login does not send the browser to the server. *)
Definition login_stayed (r : BackendRequest) (b b' : Backend) : Prop :=
  (exists msg, b_reply b' = Some (ErrorReply 500 msg)) /\ random_failed \/
  b_reply b' = Some (RedirectReply "/") /\
    exists tok b1, getSessionWithRefresh AuthServerURL r b = (Ret (tok, true), b1) /\ tk_AccessToken tok <> "".

(** C37: The login and the server agree.  A login sends the browser to the server,
    unless it has a session with an access token, when it is sent home, or there is
    no randomness, which is answered with an error.  The authorization request it
    makes has no protocol error for the server, public client or not; its state,
    nonce and verifier are the three random values drawn for it and are kept for
    the callback; and the verifier is one the server will accept for a code that
    was issued to this request. *)
Theorem login_meets_server (r : BackendRequest) (b b' : Backend) :
  handleLogin AuthServerURL r b = (Ret tt, b') ->
  b_pending b' = b_pending b /\ login_stayed r b b' \/
  exists state nonce verifier s1 s2 s3 s4, random_Token s1 = (Ret (state, None), s2) /\
    random_Token s2 = (Ret (nonce, None), s3) /\ random_Token s3 = (Ret (verifier, None), s4) /\
    b_pending b' = mkPending state nonce verifier /\
    let q := authorize_query (login_params state nonce verifier) in
    b_reply b' = Some (RedirectReply (AuthorizeEndpoint AuthServerURL +:+ "?" +:+
                                     values_Encode (login_params state nonce verifier))) /\
    aq_State q = Some state /\ aq_Nonce q = Some nonce /\
    (forall client, Authorize_protocolError q client = "") /\
    forall code, ac_CodeChallenge code = aq_CodeChallenge q -> ac_CodeChallengeMethod code = aq_CodeChallengeMethod q ->
      AuthCode_verifyCodeVerifier code verifier = None.
Proof.
  intros Hrun. unfold handleLogin in Hrun. apply bind_Ret_inv in Hrun as ([tok ok] & b1 & H1 & Hrun).
  assert (b_pending b1 = b_pending b) as Hb1 by (pose proof (getSessionWithRefresh_pending r b) as H; by rewrite H1 in H).
  rewrite <- Hb1. destruct (ok && _) eqn:Hok.
  { apply andb_prop in Hok as [-> Hok]. injection Hrun as <-. left. split; [done|]. right. split; [done|].
    exists tok, b1. split; [done|]. by intros Ht; rewrite Ht in Hok. }
  refine (wp_run _ (fun o b' => o = Ret tt -> _) _ _ _ Hrun _ eq_refl). clear Hrun H1 b'. unfold login_stayed. apply wp_bind.
  assert (forall t e s s', random_Token s = (Ret (t, Some e), s') -> random_failed) as Hrf by (intros t e s s1 Hx; exists s, t, e, s1; exact Hx).
  edestruct generateRandom_run as ([state err] & s1 & Hr1 & R1 & L1). eapply wp_eq; [exact Hr1|]. clear Hr1. cbn beta iota.
  destruct err as [e|]; [intros _; left; split; [done|]; left; split; [by eexists|by eapply Hrf]|]. apply wp_bind.
  edestruct generateRandom_run as ([nonce err] & s2 & Hr2 & R2 & L2). eapply wp_eq; [exact Hr2|]. clear Hr2. cbn beta iota.
  destruct err as [e|]; [intros _; left; split; [done|]; left; split; [by eexists|by eapply Hrf]|]. apply wp_bind.
  edestruct generateRandom_run as ([verifier err] & s3 & Hr3 & R3 & L3). eapply wp_eq; [exact Hr3|]. clear Hr3. cbn beta iota.
  destruct err as [e|]; [intros _; left; split; [done|]; left; split; [by eexists|by eapply Hrf]|].
  apply wp_bind. eapply wp_eq; [reflexivity|]. cbn beta iota. apply wp_bind.
  unfold setCurrentLastResponse.
  eapply (wp_mono _ (fun o b2 => b_pending b2 = mkPending state nonce verifier)).
  { by destruct (rq_Cookie r). }
  intros [[]|msg] b2 Hb2; [|done]. eapply wp_eq; [reflexivity|]. intros _. right. simpl in R2, R3.
  exists state, nonce, verifier, (b_sys b1), s1, s2, s3. simpl. split_and!; try done.
  - intros client. apply login_params_ok; [by apply L1|by apply L2].
  - intros code Hc Hm. apply verifyCodeVerifier_spec. unfold pkce_ok. rewrite Hc, Hm. simpl.
    split_and!; [|done|by right]. intros ->. by specialize (L3 _ eq_refl).
Qed.

(** *** A race *)

Lemma logout_clears r b b1 id :
  rq_Cookie r = Some id -> b_cookies b = [] -> handleLogout AuthServerURL r b = (Ret tt, b1) -> b_cookies b1 <> [] ->
  b_sessions b1 !! id = None.
Proof.
  intros Hid Hc Hrun. refine (wp_run _ (fun o b1 => o = Ret tt -> b_cookies b1 <> [] -> _) _ _ _ Hrun _ eq_refl).
  clear Hrun b1. unfold handleLogout. apply wp_bind. unfold wp at 1. rewrite requirePOST_run.
  destruct (csrf_ok r b); cbn [fst snd]; [|intros _ []; exact Hc]. cbn [negb]. apply wp_bind. unfold requireLogoutToken, getSession. rewrite Hid.
  do 2 apply wp_bind. eapply wp_eq; [reflexivity|]. cbn beta iota. apply wp_ret.
  destruct (b_sessions b !! id) as [d|] eqn:Hd; [|intros _ []; exact Hc]. cbn [negb orb].
  destruct (_ && _); [intros _ []; exact Hc|]. apply wp_ret. cbn [negb]. destruct (http_NewRequest _); [intros _ []; exact Hc|].
  apply wp_bind. unfold httpClient_Do, wp at 1. destruct (http_Do _ _) as [[[[status body]|err]|msg] n]; [|intros _ []; exact Hc|done].
  cbn [fst snd]. unfold setCurrentLastResponse, clearSession. rewrite Hid. unfold wp, bind, redirectHome.
  simpl. intros _ _. apply lookup_delete_eq.
Qed.

(** The lock is not held while a refresh is on its way to the server.  When a
    logout of the same session gets in between - it removes the session - the
    answer to the refresh puts the session back, with live tokens and without a
    CSRF token. *)
Theorem refresh_revives_session (r : BackendRequest) (id refreshToken : string) (newTok : tokenResponse)
    (b b1 b2 : Backend) :
  rq_Cookie r = Some id -> b_cookies b = [] ->
  handleLogout AuthServerURL r b = (Ret tt, b1) -> b_cookies b1 <> [] ->
  finishRefresh AuthServerURL id refreshToken b1 = (Ret (newTok, true), b2) ->
  b_sessions b1 !! id = None /\
  exists d, b_sessions b2 !! id = Some d /\ sd_Tokens d = newTok /\ tk_AccessToken newTok <> "" /\ sd_CSRFToken d = "".
Proof.
  intros Hid Hc Hout Hc1 Hfin. pose proof (logout_clears r b b1 id Hid Hc Hout Hc1) as Hnone. split; [done|].
  unfold finishRefresh, bind at 1 in Hfin. edestruct postToken_run as (o & n & Hp & Htok). rewrite Hp in Hfin. clear Hp.
  destruct o as [[tok|err]|msg]; [|done|done]. unfold bind in Hfin.
  edestruct setSession_run as (s & Hset). rewrite Hset in Hfin. injection Hfin as <- <-. simpl. rewrite Hnone.
  eexists. split; [apply lookup_insert_eq|]. split_and!; try done. by apply (Htok tok).
Qed.

End Flow.
