(* ===== verification/Pages.v ===== *)
(** * Pages of the demo relying party (cmd/backend/main.go)

    The HTML the handlers of Relying.v write, as the source spells it, with
    [fmt.Sprintf] for the verbs the templates use.  In the templates below a
    backquote stands for a double quote ([quoted]); a Go raw string cannot hold a
    backquote of its own.

    The theorem says that what a page shows of a request, of the server's answers
    or of a session cannot add markup to it, because every handler escapes it. *)

From S2P Require Import Prelude GoStd Crypto Errors Env Relying RelyingFlow.

Local Open Scope Z_scope.

(** ** Text *)

Definition double_quote : ascii := Ascii.ascii_of_nat 34.

Fixpoint quoted (s : string) : string :=
  match s with
  | EmptyString => ""
  | String c s' => String (if Ascii.eqb c "`" then double_quote else c) (quoted s')
  end.

(** [fmt.Sprintf] with the verbs %s and %%. *)
Fixpoint fmt_Sprintf (format : string) (args : list string) : string :=
  match format with
  | String c (String v f as rest) =>
    if Ascii.eqb c "%" then
      if Ascii.eqb v "%" then String "%" (fmt_Sprintf f args)
      else match args with
           | a :: args' => a +:+ fmt_Sprintf f args'
           | [] => "%!s(MISSING)" +:+ fmt_Sprintf f []
           end
    else String c (fmt_Sprintf rest args)
  | _ => format
  end.

(** ** The pages *)

Definition action_template : string := quoted "<form method=`POST` action=`%s` class=`inline`><input type=`hidden` name=`%s` value=`%s`><button type=`submit` class=`btn %s`>%s</button></form>".

(** A state-changing action is a POST form that carries the CSRF token. *)
Definition actionForm (action label btnClass csrf : string) : string :=
  fmt_Sprintf action_template [action; csrfTokenField; csrf; btnClass; label].

Definition statusText (loggedIn : option string) : string :=
  match loggedIn with
  | Some prefix => fmt_Sprintf "Logged in &mdash; access token: <code>%s…</code>" [prefix]
  | None => "Click the button below to authenticate via OIDC."
  end.

Definition login_buttons : string := quoted "<a href=`/login` class=`btn`>Login with IdP</a>  <a href=`/forgot-password` class=`btn btn-secondary`>Forgot Password</a>".

Definition links : string := quoted "
			<a href=`/userinfo`       class=`btn btn-secondary`>UserInfo</a>
			<a href=`/update-profile` class=`btn btn-secondary`>Update Profile</a>
			<a href=`/introspect`     class=`btn btn-info`>Introspect Token</a>
		".

Definition home_buttons (csrf : option string) : string :=
  match csrf with
  | None => login_buttons
  | Some csrf =>
    actionForm "/refresh" "Refresh Token" "btn-secondary" csrf +:+ links +:+
    actionForm "/revoke" "Revoke Token" "btn-warning" csrf +:+ actionForm "/logout" "Logout" "btn-danger" csrf
  end.

Definition response_template : string := quoted "<div class=`response`><pre>%s</pre></div>".

Definition responseSection (lastResponse : string) : string :=
  if String.eqb lastResponse "" then "" else fmt_Sprintf response_template [lastResponse].

Definition home_template : string := quoted
"<!DOCTYPE html>
<html>
<head>
	<title>OIDC Test Tool</title>
	<style>
		body { font-family: sans-serif; display: flex; justify-content: center; align-items: flex-start; min-height: 100vh; margin: 0; padding: 2rem; background-color: #f4f7f6; box-sizing: border-box; }
		.card { width: 100%%; max-width: 800px; margin: auto; text-align: center; padding: 2rem; background: white; border-radius: 8px; box-shadow: 0 4px 6px rgba(0,0,0,0.1); }
		.btn { padding: 10px 20px; font-size: 16px; cursor: pointer; color: white; border: none; border-radius: 4px; text-decoration: none; display: inline-block; margin: 4px; }
		.btn           { background-color: #007bff; }
		.btn-secondary { background-color: #6c757d; }
		.btn-warning   { background-color: #ffc107; color: #212529; }
		.btn-info      { background-color: #17a2b8; }
		.btn-danger    { background-color: #dc3545; }
		.btn:hover     { opacity: 0.85; }
		form.inline    { display: inline-block; margin: 0; }
		.response      { margin-top: 1.5rem; text-align: left; background: #f8f9fa; border: 1px solid #dee2e6; border-radius: 4px; padding: 1rem; overflow-x: auto; }
		.response pre  { margin: 0; font-size: 13px; white-space: pre-wrap; word-break: break-all; }
	</style>
</head>
<body>
	<div class=`card`>
		<h1>OIDC Test Tool</h1>
		<p>%s</p>
		%s
		%s
	</div>
</body>
</html>".

Definition homePage (loggedIn csrf : option string) (lastResponse : string) : string :=
  fmt_Sprintf home_template [statusText loggedIn; home_buttons csrf; responseSection lastResponse].

Definition form_template : string := quoted
"<!DOCTYPE html>
<html>
<head>
	<title>%s</title>
	<style>
		body { font-family: sans-serif; display: flex; justify-content: center; align-items: flex-start; min-height: 100vh; margin: 0; padding: 2rem; background-color: #f4f7f6; box-sizing: border-box; }
		.card { width: 100%%; max-width: 480px; margin: auto; padding: 2rem; background: white; border-radius: 8px; box-shadow: 0 4px 6px rgba(0,0,0,0.1); }
		h1 { margin-top: 0; }
		label { display: block; margin-top: 1rem; font-weight: bold; font-size: 14px; }
		input { width: 100%%; padding: 8px; margin-top: 4px; border: 1px solid #ced4da; border-radius: 4px; font-size: 14px; box-sizing: border-box; }
		.hint { font-size: 12px; color: #6c757d; margin-top: 2px; }
		.actions { margin-top: 1.5rem; display: flex; gap: 8px; }
		.btn { padding: 10px 20px; font-size: 15px; cursor: pointer; color: white; border: none; border-radius: 4px; text-decoration: none; display: inline-block; }
		.btn-primary { background-color: #007bff; }
		.btn-secondary { background-color: #6c757d; }
		.btn:hover { opacity: 0.85; }
	</style>
</head>
<body>
	<div class=`card`>
		<h1>%s</h1>
		%s
	</div>
</body>
</html>".

Definition formPage (title bodyHTML : string) : string :=
  fmt_Sprintf form_template [title; title; bodyHTML].

Definition update_form : string := quoted "
		<form method=`POST` action=`/update-profile`>
			<label>Username</label>
			<input type=`text` name=`username` placeholder=`Leave blank to keep current`>
			<label>Nickname</label>
			<input type=`text` name=`nickname` placeholder=`Leave blank to keep current`>
			<label>Email</label>
			<input type=`email` name=`email` placeholder=`Leave blank to keep current`>
			<p class=`hint`>Only filled fields are updated.</p>
			<div class=`actions`>
				<button type=`submit` class=`btn btn-primary`>Save</button>
				<a href=`/` class=`btn btn-secondary`>Cancel</a>
			</div>
		</form>".

Definition forgot_form : string := quoted "
		<form method=`POST` action=`/forgot-password`>
			<label>Email</label>
			<input type=`email` name=`email` placeholder=`your@email.com` required>
			<div class=`actions`>
				<button type=`submit` class=`btn btn-primary`>Send Reset Link</button>
				<a href=`/` class=`btn btn-secondary`>Cancel</a>
			</div>
		</form>".

Definition reset_form : string := quoted "
		<form method=`POST` action=`/reset-password`>
			<label>Reset Token</label>
			<input type=`text` name=`token` value=`%s` placeholder=`Paste token from email` required>
			<label>New Password</label>
			<input type=`password` name=`password` placeholder=`At least 8 characters` required>
			<div class=`actions`>
				<button type=`submit` class=`btn btn-primary`>Reset Password</button>
				<a href=`/` class=`btn btn-secondary`>Cancel</a>
			</div>
		</form>".

(** What a reply with a page carries. *)
Definition render (p : Page) : string :=
  match p with
  | HomePage loggedIn csrf lastResponse => homePage loggedIn csrf lastResponse
  | UpdateProfilePage => formPage "Update Profile" update_form
  | ForgotPasswordPage => formPage "Forgot Password" forgot_form
  | ResetPasswordPage token => formPage "Reset Password" (fmt_Sprintf reset_form [token])
  end.

(** ** Markup *)

(** The characters that open or close a tag or a quoted attribute. *)
Definition is_markup (c : ascii) : bool :=
  let z := byteZ c in (z =? 60) || (z =? 62) || (z =? 34) || (z =? 39).

Fixpoint markup (s : string) : string :=
  match s with
  | EmptyString => ""
  | String c s' => if is_markup c then String c (markup s') else markup s'
  end.

Lemma markup_app s t : markup (s +:+ t) = markup s +:+ markup t.
Proof. induction s as [|c s IH]; [done|]. simpl. destruct (is_markup c); simpl; by rewrite IH. Qed.

Lemma markup_app_eq s s' t t' :
  markup s = markup s' -> markup t = markup t' -> markup (s +:+ t) = markup (s' +:+ t').
Proof. intros Hs Ht. by rewrite !markup_app, Hs, Ht. Qed.

Lemma markup_escape s : markup (html_EscapeString s) = "".
Proof.
  induction s as [|c s IH]; [done|]. simpl. rewrite markup_app, IH. unfold html_escape_char.
  repeat (case_match; [done|]). simpl.
  replace (is_markup c) with false; [done|]. unfold is_markup. lia.
Qed.

(** [fmt.Sprintf] on its next two characters. *)
Lemma sprintf_step c v f args :
  fmt_Sprintf (String c (String v f)) args =
  if Ascii.eqb c "%" then
    if Ascii.eqb v "%" then String "%" (fmt_Sprintf f args)
    else match args with
         | a :: args' => a +:+ fmt_Sprintf f args'
         | [] => "%!s(MISSING)" +:+ fmt_Sprintf f []
         end
  else String c (fmt_Sprintf (String v f) args).
Proof. reflexivity. Qed.

(** What is put into a template shows in its result only through its own markup. *)
Lemma sprintf_markup format args args' :
  map markup args = map markup args' -> markup (fmt_Sprintf format args) = markup (fmt_Sprintf format args').
Proof.
  revert args args'. induction format as [format IH] using (well_founded_ind (well_founded_ltof _ String.length)).
  intros args args' H. destruct format as [|c [|v f]]; [done..|]. rewrite !sprintf_step.
  assert (ltof _ String.length f (String c (String v f))) as Hf by (unfold ltof; simpl; lia).
  assert (ltof _ String.length (String v f) (String c (String v f))) as Hv by (unfold ltof; simpl; lia).
  pose proof (IH _ Hv args args' H) as IHv. specialize (IH f Hf).
  destruct (Ascii.eqb c "%"); [|cbn [markup]; by rewrite IHv].
  destruct (Ascii.eqb v "%"); [cbn [markup]; by rewrite (IH args args' H)|].
  destruct args as [|a args], args' as [|a' args']; [done..|]. injection H as Ha H.
  by rewrite !markup_app, Ha, (IH args args' H).
Qed.

(** ** What the pages say *)

Definition plain (s : string) : Prop := markup s = "".

(** A page whose holes hold no markup of their own, the beginning of the access
    token apart. *)
Definition escaped_page (p : Page) : Prop :=
  match p with
  | HomePage (Some _) (Some csrf) last => plain csrf /\ plain last
  | HomePage None None last => plain last
  | HomePage _ _ _ => False
  | ResetPasswordPage token => plain token
  | UpdateProfilePage | ForgotPasswordPage => True
  end.

(** The page with nothing in its holes. *)
Definition blank (p : Page) : Page :=
  match p with
  | HomePage loggedIn csrf last =>
    HomePage loggedIn (match csrf with Some _ => Some "" | None => None end) (if String.eqb last "" then "" else "-")
  | ResetPasswordPage _ => ResetPasswordPage ""
  | UpdateProfilePage | ForgotPasswordPage => p
  end.

Lemma actionForm_markup action label btnClass csrf :
  plain csrf -> markup (actionForm action label btnClass csrf) = markup (actionForm action label btnClass "").
Proof. intros H. apply sprintf_markup. simpl. by rewrite H. Qed.

Lemma responseSection_markup last :
  plain last -> markup (responseSection last) = markup (responseSection (if String.eqb last "" then "" else "-")).
Proof.
  intros H. unfold responseSection at 1. destruct (String.eqb last ""); [done|].
  apply sprintf_markup. simpl. by rewrite H.
Qed.

Lemma homePage_markup loggedIn csrf csrf' last last' :
  markup (home_buttons csrf) = markup (home_buttons csrf') ->
  markup (responseSection last) = markup (responseSection last') ->
  markup (homePage loggedIn csrf last) = markup (homePage loggedIn csrf' last').
Proof. intros Hc Hl. apply sprintf_markup. simpl. by rewrite Hc, Hl. Qed.

Lemma buttons_markup csrf : plain csrf -> markup (home_buttons (Some csrf)) = markup (home_buttons (Some "")).
Proof.
  intros H. unfold home_buttons.
  repeat (apply markup_app_eq; [first [exact (actionForm_markup _ _ _ csrf H)|reflexivity]|]).
  exact (actionForm_markup _ _ _ csrf H).
Qed.

Lemma reset_markup token : plain token -> markup (render (ResetPasswordPage token)) = markup (render (ResetPasswordPage "")).
Proof.
  intros H. apply sprintf_markup. cbn [map].
  by rewrite (sprintf_markup reset_form [token] [""]) by (cbn [map]; by rewrite H).
Qed.

Lemma escaped_markup p : escaped_page p -> markup (render p) = markup (render (blank p)).
Proof.
  destruct p as [[l|] [csrf|] last| | |token]; intros H; [| | | |reflexivity|reflexivity|].
  - exact (homePage_markup _ _ _ _ _ (buttons_markup csrf (proj1 H)) (responseSection_markup last (proj2 H))).
  - destruct H.
  - destruct H.
  - exact (homePage_markup _ _ _ _ _ eq_refl (responseSection_markup last H)).
  - exact (reset_markup token H).
Qed.

(** ** The handlers write such pages *)

Section Pages.
  Context {E : Env} {RM : Remote} {BL : BackendLib}.
  Context (AuthServerURL : string).

Definition reply_ok (b : Backend) : Prop :=
  match b_reply b with Some (PageReply p) => escaped_page p | _ => True end.

Definition keep_reply (b b' : Backend) : Prop := reply_ok b -> reply_ok b'.

#[local] Instance keep_reply_preorder : PreOrder keep_reply.
Proof. split; [intros b H; exact H|]. intros b1 b2 b3 H12 H23 H. exact (H23 (H12 H)). Qed.

Lemma reply_same {A} (m : ST Backend A) : (forall b, b_reply (m b).2 = b_reply b) -> respects keep_reply m.
Proof. intros H b Hb. unfold reply_ok. by rewrite H. Qed.

Lemma reply_in_sys {A} (m : ST Sys A) : respects keep_reply (b_in_sys m).
Proof. apply reply_same. intros b. unfold b_in_sys. by destruct (m (b_sys b)). Qed.
Lemma reply_do r : respects keep_reply (httpClient_Do r).
Proof. apply reply_same. intros b. unfold httpClient_Do. by destruct (http_Do r (b_remote b)). Qed.
Lemma reply_cookie c : respects keep_reply (http_SetCookie c).
Proof. by apply reply_same. Qed.
Lemma reply_pending p : respects keep_reply (set_pending p).
Proof. by apply reply_same. Qed.
Lemma reply_lookup id : respects keep_reply (lookup_session id).
Proof. by apply reply_same. Qed.
Lemma reply_get : respects keep_reply get.
Proof. by apply reply_same. Qed.
Lemma reply_upd f : respects keep_reply (upd_sessions f).
Proof. by apply reply_same. Qed.

(** The replies the code writes. *)
Lemma reply_error status msg : respects keep_reply (write (ErrorReply status msg)).
Proof. by intros b _. Qed.
Lemma reply_redirect url : respects keep_reply (write (RedirectReply url)).
Proof. by intros b _. Qed.
Lemma reply_page p : escaped_page p -> respects keep_reply (write (PageReply p)).
Proof. by intros H b _. Qed.
Lemma reply_reset token : respects keep_reply (write (PageReply (ResetPasswordPage (html_EscapeString token)))).
Proof. apply reply_page. apply markup_escape. Qed.
Lemma reply_update : respects keep_reply (write (PageReply UpdateProfilePage)).
Proof. by apply reply_page. Qed.
Lemma reply_forgot : respects keep_reply (write (PageReply ForgotPasswordPage)).
Proof. by apply reply_page. Qed.

#[local] Hint Resolve reply_in_sys reply_do reply_cookie reply_pending reply_lookup reply_get reply_upd reply_error
  reply_redirect reply_reset reply_update reply_forgot : respects.

Lemma plain_last last : plain (if negb (String.eqb last "") then html_EscapeString last else "").
Proof. destruct (negb _); [apply markup_escape|done]. Qed.

Lemma reply_home loggedIn csrf last :
  respects keep_reply (write (PageReply (HomePage (Some loggedIn) (Some (html_EscapeString csrf))
    (if negb (String.eqb last "") then html_EscapeString last else "")))).
Proof. apply reply_page. split; [apply markup_escape|apply plain_last]. Qed.
Lemma reply_home_out last :
  respects keep_reply (write (PageReply (HomePage None None
    (if negb (String.eqb last "") then html_EscapeString last else "")))).
Proof. apply reply_page. apply plain_last. Qed.

#[local] Hint Resolve reply_home reply_home_out : respects.

Lemma bind_assoc {S A B C} (m : ST S A) (f : A -> ST S B) (g : B -> ST S C) s :
  bind (bind m f) g s = bind m (fun a => bind (f a) g) s.
Proof. unfold bind. by destruct (m s) as [[a|msg] s']. Qed.

Lemma handleHome_reply r : respects keep_reply (handleHome AuthServerURL r).
Proof.
  unfold handleHome. apply respects_bind; [exact _| |intros [tok [|]]].
  - unfold getSessionWithRefresh, finishRefresh, postToken, setSession. solve_respects.
  - intros b. rewrite bind_assoc. revert b.
    change (respects keep_reply (c ← csrfToken r; last ← getLastResponse r;
      write (PageReply (HomePage (Some (prefix10 (tk_AccessToken tok))) (Some (html_EscapeString c))
        (if negb (String.eqb last "") then html_EscapeString last else ""))))).
    unfold csrfToken, getLastResponse. solve_respects.
  - change (respects keep_reply (last ← getLastResponse r;
      write (PageReply (HomePage None None (if negb (String.eqb last "") then html_EscapeString last else ""))))).
    unfold getLastResponse. solve_respects.
Qed.

#[local] Hint Resolve handleHome_reply : respects.

Lemma route_reply path h r : List.In (path, h) (backend_routes AuthServerURL) -> respects keep_reply (h r).
Proof.
  unfold backend_routes. simpl.
  intros [[= _ <-]|[[= _ <-]|[[= _ <-]|[[= _ <-]|[[= _ <-]|[[= _ <-]|[[= _ <-]|[[= _ <-]|[[= _ <-]|[[= _ <-]|[[= _ <-]|[]]]]]]]]]]]];
    try (solve [eauto with respects]);
    unfold handleLogin, handleCallback, startSession, setCSRFToken, handleRefresh, handleRevoke, handleIntrospect, handleUserInfo, handleLogout,
      handleUpdateProfile, handleForgotPassword, handleResetPassword, requirePOSTWithCSRF, requireSessionToken,
      requireLogoutToken, requireRefreshToken, getSessionWithRefresh, finishRefresh, getSession, csrfToken,
      getLastResponse, setCurrentLastResponse, setLastResponse, clearSession, postToken, postWithBearer, postForm,
      fetchUserInfo, setSession, generateRandom, http_Error, redirectHome; cbv zeta; solve_respects.
Qed.

(** Whatever the request, the sessions and the server's answers, a page any route
    of the program serves has exactly the markup of the page with empty holes:
    the CSRF token, the last answer shown and the reset token of the query cannot
    add a tag or leave an attribute.  Only the beginning of the access token is
    written as it is. *)
Theorem pages_escape (path : string) (h : BackendRequest -> ST Backend unit) (r : BackendRequest) (b : Backend) (p : Page) :
  List.In (path, h) (backend_routes AuthServerURL) ->
  b_reply (h r (fresh_response b)).2 = Some (PageReply p) ->
  markup (render p) = markup (render (blank p)).
Proof.
  intros Hin Hp. apply escaped_markup. pose proof (route_reply path h r Hin (fresh_response b) I) as H.
  unfold reply_ok in H. by rewrite Hp in H.
Qed.

End Pages.
