(* ===== verification/Demo.v ===== *)
(** * A concrete server

    An environment, a token library, a cipher and a client registry that run,
    with proofs that they meet the hypotheses the theorems are stated under; and
    small worlds on the file backend and the in-memory cache.  The instances of
    the theorems at these inputs are in [Witnesses.v]. *)

From stdpp Require Import pretty.
From S2P Require Import Prelude GoStd Crypto Errors Env Cipher Scope User Token Client AuthFlow Jwt Cache FileRepo Ports Adapters Services Responses CmdTokens CmdUsers Queries Web Frame TokenFlow AccountFlow WebFlow.

Local Open Scope Z_scope.

(** ** The environment

    The clock advances a millisecond per reading; the random source answers
    sixteen times; a "hash" is its cost followed by the password. *)

Definition demo_epoch : Z := 1700000000 * Second.

Definition toy_bcrypt_Generate (_ : nat) (pw : string) (c : Z) : string + goerr :=
  if 72 <? len pw then inr (ErrMsg "bcrypt: password length exceeds 72 bytes")
  else inl (String (Ascii.ascii_of_N (Z.to_N c)) pw).

Definition toy_bcrypt_Compare (h pw : string) : bool :=
  match h with String _ pw' => String.eqb pw' pw | EmptyString => false end.

Definition toy_bcrypt_Cost (h : string) : option Z :=
  match h with String c _ => Some (Z.of_N (Ascii.N_of_ascii c)) | EmptyString => None end.

Definition toy_SetQuery (l : list (string * string)) (u : string) : string :=
  foldl (fun u '(k, v) => u +:+ "?" +:+ k +:+ "=" +:+ v) u l.

#[export] Instance demo_env : Env := {|
  clock n := demo_epoch + Z.of_nat n * 1000000;
  rand_Read n := if (n <? 16)%nat then inl (fun i => Z.of_nat (n + i)) else inr (ErrMsg "entropy exhausted");
  uuid_NewString n := "id-" +:+ pretty n;
  bcrypt_Generate := toy_bcrypt_Generate;
  bcrypt_Compare := toy_bcrypt_Compare;
  bcrypt_Cost := toy_bcrypt_Cost;
  unicode_tables _ := ROther;
  unicode_ToLower r := r;
  url_type := string;
  url_Parse := inl;
  url_String := id;
  url_SetQuery := toy_SetQuery;
  disk_write _ := None;
  map_rank _ _ _ := 0;
|}.

#[export] Instance demo_clock : ClockMono demo_env.
Proof. intros i j H. simpl. lia. Qed.

#[export] Instance demo_uuid : UuidFresh demo_env.
Proof.
  split; [|done]. intros i j H. simpl in H. apply (inj (String.append "id-")) in H. by apply (inj pretty).
Qed.

#[export] Instance demo_disk : DiskOk demo_env.
Proof. done. Qed.

#[export] Instance demo_bcrypt : BcryptSpec demo_env.
Proof.
  split; simpl; unfold toy_bcrypt_Generate.
  - intros n pw c h. destruct (72 <? len pw); [done|]. intros [= <-]. simpl. apply String.eqb_refl.
  - intros n pw c h Hc. destruct (72 <? len pw); [done|]. intros [= <-]. simpl. f_equal.
    rewrite Ascii.N_ascii_embedding by lia. lia.
  - intros n pw c H. replace (72 <? len pw) with true by lia. eauto.
  - intros n pw c _ H. replace (72 <? len pw) with false by lia. eauto.
Qed.

(** ** Tokens

    A signed token is the claims themselves, written as the bits of their
    encoding; the signer only signs tokens that expire at one fixed instant, a
    quarter of an hour after the start. *)

Definition demo_expiry : Z := (1700000000 + 900) * Second.

#[export] Instance claimVal_eq_dec : EqDecision claimVal.
Proof. solve_decision. Defined.

#[export] Instance claimVal_countable : Countable claimVal :=
  inj_countable'
    (fun v => match v with CStr s => inl s | CInt n => inr (inl n) | CBool b => inr (inr b) end)
    (fun x => match x with inl s => CStr s | inr (inl n) => CInt n | inr (inr b) => CBool b end)
    (fun v => match v with CStr _ | CInt _ | CBool _ => eq_refl end).

Fixpoint bits (p : positive) : string :=
  match p with
  | xH => "" | xO p' => String "0" (bits p') | xI p' => String "1" (bits p')
  end.

Fixpoint unbits (s : string) : positive :=
  match s with
  | EmptyString => xH
  | String c s' => if Ascii.eqb c "0" then xO (unbits s') else xI (unbits s')
  end.

Lemma unbits_bits p : unbits (bits p) = p.
Proof. induction p; simpl; congruence. Qed.

(** Algorithm, modulus of the signing key, claims. *)
Definition toy_text (tok : string) : option (string * Z * MapClaims) := decode (unbits tok).
Definition toy_claims (tok : string) : option MapClaims := snd <$> toy_text tok.

Definition toy_signs (m : MapClaims) : bool := bool_decide (claim_time m "exp" = Some demo_expiry).

Definition toy_header (tok : string) : option jwtToken :=
  match toy_text tok with
  | Some (alg, _, _) =>
    Some (mkJwtToken (if String.prefix "RS" alg then SigningMethodRSA alg else SigningMethodOther alg) alg)
  | None => None
  end.

Definition toy_verify (method : SigningMethod) (key : rsaPublicKey) (tok : string) : bool :=
  match toy_text tok, method with
  | Some (alg, n, m), SigningMethodRSA name => String.eqb alg name && (n =? pk_N key) && toy_signs m
  | _, _ => false
  end.

Definition toy_parse {A} (dec : MapClaims -> A) (kf : Keyfunc) (t : Z) (tok : string) : (bool * A) + goerr :=
  match toy_claims tok, toy_header tok with
  | Some m, Some h =>
    match kf h with
    | inr err => inr err
    | inl key =>
      if negb (toy_verify (tk_Method h) key tok) then inr (ErrMsg "signature is invalid") else
      if times_valid (claim_time m "exp") (claim_time m "nbf") (claim_time m "iat") t then inl (true, dec m)
      else inr (ErrMsg "token is expired")
    end
  | _, _ => inr (ErrMsg "token is malformed")
  end.

#[export] Instance demo_jwtlib : JwtLib := {|
  jwt_SignedString method m _ sk :=
    match method with
    | SigningMethodRSA alg =>
      if toy_signs m then inl (bits (encode (alg, pk_N (sk_PublicKey sk), m))) else inr (ErrMsg "refused")
    | SigningMethodOther _ => inr (ErrMsg "key is of invalid type")
    end;
  jwt_ParseAccess := toy_parse decode_access;
  jwt_ParseID := toy_parse decode_id;
  jwt_Header := toy_header;
  jwt_AccessClaims tok := decode_access <$> toy_claims tok;
  jwt_IDClaims tok := decode_id <$> toy_claims tok;
  jwt_Verify := toy_verify;
|}.

Lemma toy_parse_spec {A} (dec : MapClaims -> A) kf t tok v c :
  toy_parse dec kf t tok = inl (v, c) <->
  v = true /\ exists m, toy_claims tok = Some m /\ c = dec m /\
    times_valid (claim_time m "exp") (claim_time m "nbf") (claim_time m "iat") t = true /\
    exists h key, toy_header tok = Some h /\ kf h = inl key /\ toy_verify (tk_Method h) key tok = true.
Proof.
  unfold toy_parse. split.
  - destruct (toy_claims tok) as [m|]; [|done]. destruct (toy_header tok) as [h|]; [|done].
    destruct (kf h) as [key|] eqn:Hk; [|done]. destruct (toy_verify (tk_Method h) key tok) eqn:Hv; [|done]. simpl.
    destruct (times_valid _ _ _ t) eqn:Ht; [|done]. intros [= <- <-]. eauto 12.
  - intros (-> & m & -> & -> & Ht & h & key & -> & -> & ->). by rewrite Ht.
Qed.

#[export] Instance demo_jwt : JwtSpec demo_jwtlib.
Proof.
  split.
  - intros kf t tok v c. simpl. rewrite toy_parse_spec. destruct (toy_claims tok) as [m|]; simpl.
    + split; [intros (-> & m' & [= <-] & -> & Ht & H); auto|]. intros (-> & [= <-] & Ht & H). eauto 10.
    + split; [by intros (_ & m & ? & _)|by intros (_ & ? & _)].
  - intros kf t tok v c. simpl. rewrite toy_parse_spec. destruct (toy_claims tok) as [m|]; simpl.
    + split; [intros (-> & m' & [= <-] & -> & Ht & H); auto|]. intros (-> & [= <-] & Ht & H). eauto 10.
    + split; [by intros (_ & m & ? & _)|by intros (_ & ? & _)].
  - intros m kid sk tok. simpl. destruct (toy_signs m) eqn:Hs; [|done]. intros [= <-].
    assert (toy_text (bits (encode ("RS256", pk_N (sk_PublicKey sk), m))) = Some ("RS256", pk_N (sk_PublicKey sk), m)) as Ht
      by (unfold toy_text; by rewrite unbits_bits, decode_encode).
    unfold toy_header, toy_claims, toy_verify. rewrite Ht. simpl. rewrite Z.eqb_refl, Hs. done.
Qed.

Definition demo_rsa : rsaPrivateKey := mkRsaPrivateKey (mkRsaPublicKey 65537 3233) 2753.

Definition demo_service : JWTService :=
  mkJWTService demo_rsa (sk_PublicKey demo_rsa) (mkJWK "RSA" "AQAB" "n" "RS256" "sig" "k1") "https://id.example/" "k1".

#[export] Instance demo_tokens : TokenServiceI := JWTServiceAdapter demo_service.

#[export] Instance demo_token_laws : TokenServiceLaws demo_env demo_tokens := jwt_laws demo_service.

(** ** Cipher, validator, clients *)

#[export] Instance demo_aead : Aead := {| gcm_Seal _ _ p := p; gcm_Open _ _ c := Some c |}.

#[export] Instance demo_aead_spec : AeadSpec demo_aead.
Proof. done. Qed.

#[export] Instance demo_cipher : EmailCipher := mkCipher (replicate 32 7) (replicate 32 9).

#[export] Instance demo_validator : StructValidator :=
  {| vs_AuthorizeRequest _ := None; vs_AuthCode _ := None |}.

Definition demo_spa : Client :=
  mkClient "spa" DefaultTenantID ClientAuthNone None ["https://app.example/cb"]
    [GrantAuthorizationCode; GrantRefreshToken].

Definition demo_backend : Client :=
  mkClient "backend" DefaultTenantID ClientAuthSecretBasic (Some (String (Ascii.ascii_of_nat 12) "s3cret"))
    ["https://backend.example/cb"] [GrantAuthorizationCode; GrantRefreshToken].

#[export] Instance demo_deps : Deps := {|
  d_ClientRegistry := NewConfigClientRegistry [demo_spa; demo_backend];
  d_PostLogoutRedirectAllowlist := ["https://app.example/bye"];
  d_ScopeAllowlist := ["openid"; "email"];
  d_SendMail _ _ := None;
|}.

(** ** Worlds *)

Section Repos.
  Context {T D : Type} `{FC : !FileCodec demo_env T D}.

Definition fr_empty : FileRepo T D := mkFileRepo ∅ 0 ∅ ∅ ∅ 0.
Definition fr_one (x : T) : FileRepo T D := mkFileRepo {[0%nat := x]} 1 {[fc_getID x := 0%nat]} ∅ ∅ 0.

Lemma fr_view_one x : fr_view (fr_one x) = {[fc_getID x := x]}.
Proof. unfold fr_view. simpl. by rewrite omap_singleton_Some with (y := x) by (by rewrite lookup_singleton_eq). Qed.

Lemma fr_empty_inv : fr_inv fr_empty.
Proof.
  split; [split|]; simpl.
  - intros id l. by rewrite lookup_empty.
  - intros l x. by rewrite lookup_empty.
  - intros f v id1 id2 x1 x2 _. unfold fr_view. simpl. by rewrite omap_empty, lookup_empty.
  - intros f index. by rewrite lookup_empty.
Qed.

Lemma fr_one_inv x : fr_inv (fr_one x).
Proof.
  split; [split|].
  - simpl. intros id l [<- <-]%lookup_singleton_Some. exists x. by rewrite lookup_singleton_eq.
  - simpl. intros l y [<- <-]%lookup_singleton_Some. lia.
  - intros f v id1 id2 x1 x2 _. rewrite fr_view_one.
    by intros [<- _]%lookup_singleton_Some [<- _]%lookup_singleton_Some.
  - simpl. intros f index. by rewrite lookup_empty.
Qed.

End Repos.

Definition alice : User :=
  mkUser demo_epoch demo_epoch "u-1" DefaultTenantID "alice" "Al" (String (Ascii.ascii_of_nat 12) "Passw0rd!")
    "alice@example.com" true None None None 0 None.

Definition demo_scope : Scope := (NewScope ["openid"; "email"]).1.

Definition demo_rt : RefreshToken :=
  mkRefreshToken "rt-1" "u-1" "spa" "g-1" (Hash "raw-1") demo_scope "" demo_epoch demo_epoch
    (demo_epoch + RefreshTokenTTL) None.

Definition demo_grant : Grant :=
  mkGrant "g-1" "u-1" "spa" "" demo_epoch demo_epoch (demo_epoch + RefreshTokenTTL) None.

Definition world_at (s : Sys) (cache : MemoryCache) (u : User) (g : Grant)
    (rts : FileRepo RefreshToken refreshTokenDoc) : World :=
  mkWorld _ _ _ _ s cache (fr_one u) (fr_one g) rts ∅ [].

Definition demo_world (cache : MemoryCache) (u : User) (rts : FileRepo RefreshToken refreshTokenDoc) : World :=
  world_at sys0 cache u demo_grant rts.

Definition demo_refresh : RefreshTokenCommand :=
  mkRefreshTokenCommand "refresh_token" "spa" "" "" "" "raw-1" None.
