(* ===== verification/Witnesses.v ===== *)
(** * The theorems at concrete inputs

    For every theorem with hypotheses, an instance on the server of [Demo.v] at
    which they all hold: the requests are run, the results computed. *)

From stdpp Require Import pretty.
From S2P Require Import Prelude GoStd Crypto Errors Env Cipher Scope User Token Client AuthFlow Jwt Cache FileRepo Ports Adapters Forward Services Responses CmdTokens CmdUsers Queries Web Frame TokenFlow AccountFlow WebFlow LoginFlow System Limits Demo.

Local Open Scope Z_scope.

(** ** Facts about the demo worlds *)

Lemma demo_inv cache u rts : fr_inv rts -> world_inv (demo_world cache u rts).
Proof. intros H. split_and!; [apply fr_one_inv|apply fr_one_inv|exact H]. Qed.

(** The sixteen tokens the random source can still produce. *)
Definition demo_raw (n : nat) : string :=
  base64_RawURL_EncodeToString ((fun i => Z.of_nat (n + i) mod 256) <$> List.seq 0 TokenBytes).

Definition demo_unused (h : string) : bool :=
  forallb (fun n => negb (String.eqb h (Hash (demo_raw n)))) (List.seq 0 16).

Lemma demo_gen_refresh uid s tok s' :
  ts_GenRefreshToken uid s = (Ret (tok, None), s') -> exists n, (n < 16)%nat /\ tok = demo_raw n.
Proof.
  simpl. unfold JWTService_GenRefreshToken, bind, random_Token. simpl.
  destruct (Nat.ltb_spec (n_rand s) 16); [|done]. intros [= <- _]. eauto.
Qed.

Lemma demo_fresh (w : World) :
  (forall id x, rs_rows (w_rts w) !! id = Some x -> demo_unused (rt_TokenHash x) = true) -> refresh_fresh w.
Proof.
  intros Hw uid s tok s' _ Hgen id x Hx Heq. destruct (demo_gen_refresh _ _ _ _ Hgen) as (n & Hn & ->).
  specialize (Hw id x Hx). unfold demo_unused in Hw. rewrite forallb_forall in Hw.
  specialize (Hw n ltac:(apply in_seq; lia)). by rewrite Heq, String.eqb_refl in Hw.
Qed.

Lemma demo_row_fresh cache u : refresh_fresh (demo_world cache u (fr_one demo_rt)).
Proof.
  apply demo_fresh. intros id x. simpl. rewrite fr_view_one. intros [_ <-]%lookup_singleton_Some.
  vm_compute. reflexivity.
Qed.

Lemma demo_empty_fresh cache u : refresh_fresh (demo_world cache u fr_empty).
Proof. apply demo_fresh. intros id x. simpl. unfold fr_view. simpl. by rewrite omap_empty, lookup_empty. Qed.

Lemma demo_ids_fresh cache u : ids_fresh (demo_world cache u (fr_one demo_rt)).
Proof. intros n _. simpl. rewrite fr_view_one. by apply lookup_singleton_ne. Qed.

(** ** Reading off results *)

Definition is_token (o : outcome Result) : bool :=
  match o with Ret (RToken _, None) => true | _ => false end.
Definition is_nil (o : outcome Result) : bool :=
  match o with Ret (RNil, None) => true | _ => false end.

Lemma token_result {W} (r : outcome Result * W) :
  is_token r.1 = true -> exists t w', r = (Ret (RToken t, None), w').
Proof. destruct r as [[[[] []]|] w']; try done. eauto. Qed.

Lemma nil_result {W} (r : outcome Result * W) : is_nil r.1 = true -> exists w', r = (Ret (RNil, None), w').
Proof. destruct r as [[[[] []]|] w']; try done. eauto. Qed.

Lemma ret_result {A W} (r : outcome A * W) a : r.1 = Ret a -> r = (Ret a, r.2).
Proof. destruct r. simpl. by intros ->. Qed.

Lemma panic_result {A W} (r : outcome A * W) msg : r.1 = Panic msg -> r = (Panic msg, r.2).
Proof. destruct r. simpl. by intros ->. Qed.

(** ** Refresh tokens *)

Notation demo_w := (demo_world ∅ alice (fr_one demo_rt)).

Lemma rotation_sound_witness :
  exists t w', RefreshToken_Execute demo_refresh demo_w = (Ret (RToken t, None), w') /\
    exists client old new,
      token_client "spa" "" "" "" GrantRefreshToken client /\ active_row "raw-1" demo_w old /\
      rotated demo_refresh client old new demo_w w' t.
Proof.
  destruct (token_result (RefreshToken_Execute demo_refresh demo_w)) as (t & w' & Hrun); [vm_compute; reflexivity|].
  exists t, w'. split; [exact Hrun|].
  exact (rotation_sound demo_refresh demo_w w' t (demo_inv _ _ _ (fr_one_inv _)) (demo_row_fresh _ _)
    (demo_ids_fresh _ _) Hrun).
Defined.

Lemma demo_client_ok (grant : string) : token_client "spa" "" "" "" grant demo_spa <->
  Client_AllowsGrant demo_spa grant = true.
Proof. split; [by intros [_ H]|]. intros H. split; [vm_compute; reflexivity|exact H]. Qed.

Lemma replay_kills_family_witness :
  exists t w1, RefreshToken_Execute demo_refresh demo_w = (Ret (RToken t, None), w1) /\
    exists old w2, active_row "raw-1" demo_w old /\
      RefreshToken_Execute demo_refresh w1 = (Ret (RNil, Some NewErrInvalidRefreshToken), w2) /\
      family_ended old (w_sys w1) w2 /\
      forall t3, (RefreshToken_Execute (mkRefreshTokenCommand "refresh_token" "spa" "" "" "" (tr_RefreshToken t) None) w2).1
        <> Ret (RToken t3, None).
Proof.
  destruct (token_result (RefreshToken_Execute demo_refresh demo_w)) as (t & w1 & Hrun); [vm_compute; reflexivity|].
  exists t, w1. split; [exact Hrun|].
  destruct (replay_kills_family demo_refresh demo_refresh
    (mkRefreshTokenCommand "refresh_token" "spa" "" "" "" (tr_RefreshToken t) None) demo_spa demo_w w1 t)
    as (old & w2 & Hold & Hrun2 & _ & Hend).
  - apply demo_inv, fr_one_inv.
  - apply demo_row_fresh.
  - apply demo_ids_fresh.
  - exact Hrun.
  - reflexivity.
  - by apply demo_client_ok.
  - reflexivity.
  - exists old, w2. split; [exact Hold|]. split; [exact Hrun2|]. apply Hend. split_and!; exact _.
Defined.

(** A token from before there were grants: it is rotated, under a new grant, and a
    replay of it revokes the new one. *)
Definition legacy_rt : RefreshToken :=
  mkRefreshToken "rt-0" "u-1" "spa" "" (Hash "raw-1") demo_scope "" demo_epoch demo_epoch
    (demo_epoch + RefreshTokenTTL) None.

Definition revoked_rows (w : World) : list bool :=
  map (fun '(_, x) => bool_decide (is_Some (rt_RevokedAt x))) (map_to_list (rs_rows (w_rts w))).

Example legacy_rotation :
  let r1 := RefreshToken_Execute demo_refresh (demo_world ∅ alice (fr_one legacy_rt)) in
  let r2 := RefreshToken_Execute demo_refresh r1.2 in
  is_token r1.1 = true /\ size (ps_view (w_grants r1.2)) = 2%nat /\
  r2.1 = Ret (RNil, Some NewErrInvalidRefreshToken) /\ revoked_rows r2.2 = [true; true].
Proof. vm_compute. done. Qed.

(** ** Authorization codes *)

Definition demo_code : AuthCode :=
  mkAuthCode "code-1" "u-1" (Some "spa") "https://app.example/cb" demo_scope (Some "n-1")
    (Some (s256Challenge "verifier")) (Some CodeChallengeMethodS256) (demo_epoch + AuthCodeTTL).

Notation demo_code_w := (demo_world
  {[AuthCodeCacheKey "code-1" := mk_cacheItem (VAuthCode demo_code) (Some (demo_epoch + AuthCodeTTL))]}
  alice fr_empty).

Definition demo_exchange : ExchangeCodeCommand :=
  mkExchangeCodeCommand "code-1" "spa" "" "" "" "https://app.example/cb" None "verifier".

Lemma exchange_sound_witness :
  exists t w', ExchangeCode_Execute demo_exchange demo_code_w = (Ret (RToken t, None), w') /\
    exists client v code, token_client "spa" "" "" "" GrantAuthorizationCode client /\
      cache_live (w_cache demo_code_w) (now sys0) (AuthCodeCacheKey "code-1") = Some v /\
      destCode v = inl code /\ exchanged demo_exchange client code demo_code_w w' t.
Proof.
  destruct (token_result (ExchangeCode_Execute demo_exchange demo_code_w)) as (t & w' & Hrun); [vm_compute; reflexivity|].
  exists t, w'. split; [exact Hrun|].
  exact (exchange_sound demo_exchange demo_code_w w' t (demo_inv _ _ _ fr_empty_inv) (demo_empty_fresh _ _) Hrun).
Defined.

Lemma code_single_use_witness :
  let w' := (ExchangeCode_Execute demo_exchange demo_code_w).2 in
  exists e, (ExchangeCode_Execute demo_exchange w').1 = Ret (RNil, Some e) /\
    (e = NewErrInvalidClient \/ e = NewErrAuthCodeNotFound) /\
    w_rts (ExchangeCode_Execute demo_exchange w').2 = w_rts w' /\
    w_grants (ExchangeCode_Execute demo_exchange w').2 = w_grants w'.
Proof.
  apply (code_single_use demo_exchange demo_exchange demo_spa demo_code_w).
  - exact _.
  - by apply demo_client_ok.
  - reflexivity.
  - reflexivity.
Defined.

(** ** Revocation and logout *)

Definition demo_revoke : RevokeTokenCommand := mkRevokeTokenCommand "u-1" "" "" "" "" "raw-1" None.

Lemma revocation_ends_grant_witness :
  exists w', RevokeToken_Execute demo_revoke demo_w = (Ret (RNil, None), w') /\
    (token_ended demo_rt demo_w w' \/ access_token_ended "raw-1" "u-1" demo_w w').
Proof.
  destruct (nil_result (RevokeToken_Execute demo_revoke demo_w)) as (w' & Hrun); [vm_compute; reflexivity|].
  exists w'. split; [exact Hrun|].
  apply (revocation_ends_grant demo_revoke demo_rt demo_w w').
  - apply demo_inv, fr_one_inv.
  - simpl. rewrite fr_view_one. apply lookup_singleton_eq.
  - reflexivity.
  - by right.
  - exact Hrun.
Defined.

(** With the wrong hint it is the refresh token that ends all the same. *)
Example revocation_with_wrong_hint :
  let r := RevokeToken_Execute (mkRevokeTokenCommand "u-1" "" "" "" "" "raw-1" (Some "access_token")) demo_w in
  r.1 = Ret (RNil, None) /\ revoked_rows r.2 = [true].
Proof. vm_compute. done. Qed.

(** The first access token the server issues, for the grant of [demo_rt]. *)
Definition demo_access : string :=
  (signToken demo_service (access_claims demo_service demo_epoch "id-0" "u-1" "openid" "g-1" 900)).1.

Definition demo_claims : Claims :=
  mkClaims "u-1" "openid" "https://id.example/" [accessTokenAudience] "id-0" (Some demo_expiry) (Some demo_epoch) "g-1".

Definition sys1 : Sys := mk_Sys 1 0 1 0 0.

Lemma demo_access_generated : ts_GenAccessToken "u-1" "openid" "g-1" 900 sys0 = (Ret (demo_access, None), sys1).
Proof. vm_compute. reflexivity. Qed.

Definition bearer (tok : string) : Ctx :=
  mkCtx (mkRawRequest "/userinfo" "" "" "" ∅ ∅ "" "" "" "") "GET" ("Bearer " +:+ tok) None "10.0.0.1" "/userinfo" "" None None ∅ false 0 ∅ [] BodyNone.

Lemma bearer_demo_access : extractBearerToken (x_Authorization (bearer demo_access)) = (demo_access, true).
Proof. vm_compute. reflexivity. Qed.

(** A world in which the grant of that token has just ended. *)
Definition demo_ended_w : World :=
  world_at sys1
    {[RevokedGrantKey "g-1" := mk_cacheItem (VBool true) (Some (demo_epoch + 2 * RevokedGrantMarkerTTL))]}
    alice (set_g_RevokedAt (Some demo_epoch) demo_grant) fr_empty.

(** Requests in between: the key set, and a recovery mail behind the limiter. *)
Definition demo_requests : list Handler :=
  [SecurityHeaders; DistributedRateLimit 10 Minute;
   handle (fun _ => None) (CForgotPassword (mkForgotPasswordCommand "alice@example.com")) false].

Lemma demo_requests_ok : Forall server_handler demo_requests.
Proof. repeat constructor. Qed.

Lemma ended_grant_stays_ended_witness :
  let w2 := (run_chain demo_requests (bearer demo_access) demo_ended_w).2 in
  (verifyBearer (bearer demo_access) w2).1 = Ret None \/
  now sys0 + 900 * Second <= now (w_sys (verifyBearer (bearer demo_access) w2).2).
Proof.
  apply (ended_grant_stays_ended "g-1" "u-1" "openid" demo_access 900 sys0 sys1 sys1 (bearer demo_access) demo_ended_w).
  - apply demo_access_generated.
  - lia.
  - done.
  - unfold sys_le, sys1, sys0. simpl. lia.
  - split_and!.
    + simpl. intros g. rewrite fr_view_one. intros [_ <-]%lookup_singleton_Some. simpl. eauto.
    + simpl. intros id x. unfold fr_view. simpl. by rewrite omap_empty, lookup_empty.
    + exists (demo_epoch + 2 * RevokedGrantMarkerTTL). split; [reflexivity|].
      unfold now, RevokedGrantMarkerTTL. simpl. unfold MaxTokenExpirySecs, Second. lia.
  - reflexivity.
  - apply serves_request; [apply serves_nothing|apply demo_requests_ok].
  - apply bearer_demo_access.
Defined.

Definition demo_logout : LogoutCommand := mkLogoutCommand (Some demo_access) (Some "https://app.example/bye").

(** Every token of the demo signer expires at the same instant. *)
Lemma demo_tokens_expire tok s c : (ts_ParseJWT tok s).1 = Ret (Some c, None) -> cl_ExpiresAt c = Some demo_expiry.
Proof.
  intros (p & (name & alg & _ & Hv) & Hp & _ & _ & _ & _ & ->)%ParseJWT_Some. simpl in *.
  unfold toy_verify in Hv. unfold toy_claims in Hp. destruct (toy_text tok) as [[[a n] m]|]; [|done].
  injection Hp as <-. rewrite !andb_true_iff in Hv. destruct Hv as [_ Hs]. by apply bool_decide_eq_true in Hs.
Qed.

Lemma logout_ends_session_witness :
  exists u w', Logout_Execute demo_logout (world_at sys1 ∅ alice demo_grant (fr_one demo_rt)) = (Ret (RLogout u, None), w') /\
    (u = "" \/ u ∈ d_PostLogoutRedirectAllowlist) /\
    (exists s1, sys_le sys1 s1 /\ grant_ended "g-1" s1 w') /\
    forall x w2, serves w' w2 -> extractBearerToken (x_Authorization x) = (demo_access, true) ->
      (verifyBearer x w2).1 = Ret None \/ demo_expiry < now (w_sys (verifyBearer x w2).2).
Proof.
  apply (logout_ends_session demo_logout demo_access demo_claims demo_expiry
    (world_at sys1 ∅ alice demo_grant (fr_one demo_rt))).
  - split_and!; exact _.
  - intros tok s c Hp _. by eapply demo_tokens_expire.
  - split_and!; apply fr_one_inv.
  - reflexivity.
  - vm_compute. reflexivity.
  - done.
  - done.
Defined.

(** ** Password reset *)

Definition demo_resetter : User :=
  set_PasswordResetExpiresAt (Some (demo_epoch + Hour)) (set_PasswordResetTokenHash (Some (Hash "reset-1")) alice).

Definition demo_reset : ResetPasswordCommand := mkResetPasswordCommand "reset-1" "N3w-Passw0rd".

Lemma reset_password_sound_witness :
  exists w', ResetPassword_Execute demo_reset (demo_world ∅ demo_resetter (fr_one demo_rt)) = (Ret (RNil, None), w') /\
    exists u u' at_, reset_done demo_reset (demo_world ∅ demo_resetter (fr_one demo_rt)) w' u u' at_.
Proof.
  destruct (nil_result (ResetPassword_Execute demo_reset (demo_world ∅ demo_resetter (fr_one demo_rt))))
    as (w' & Hrun); [vm_compute; reflexivity|].
  exists w'. split; [exact Hrun|].
  exact (reset_password_sound demo_reset _ w' _ _ (demo_inv _ _ _ (fr_one_inv _)) Hrun).
Defined.

(** A world in which alice's sessions have just been ended. *)
Definition demo_reset_w : World :=
  world_at sys1
    {[SessionsInvalidatedKey "u-1" := mk_cacheItem (VInt64 (time_Unix demo_epoch))
        (Some (demo_epoch + 2 * SessionsInvalidationTTL))]} alice demo_grant fr_empty.

Lemma ended_sessions_stay_ended_witness :
  let w2 := (run_chain demo_requests (bearer demo_access) demo_reset_w).2 in
  (verifyBearer (bearer demo_access) w2).1 = Ret None \/
  now sys0 + 900 * Second <= now (w_sys (verifyBearer (bearer demo_access) w2).2).
Proof.
  apply (ended_sessions_stay_ended "g-1" "u-1" "openid" demo_access 900 demo_epoch sys0 sys1 (bearer demo_access)
    demo_reset_w).
  - apply demo_access_generated.
  - lia.
  - unfold sys_le, sys1, sys0. simpl. lia.
  - unfold now. simpl. lia.
  - split.
    + simpl. intros id x. unfold fr_view. simpl. by rewrite omap_empty, lookup_empty.
    + eexists. split; [reflexivity|]. unfold SessionsInvalidationTTL, MaxTokenExpirySecs, Second. lia.
  - apply serves_request; [apply serves_nothing|apply demo_requests_ok].
  - apply bearer_demo_access.
Defined.

(** ** Logging in *)

Definition demo_session : AuthorizeRequest :=
  mkAuthorizeRequest "s-1" demo_epoch "csrf-1" "spa" "https://app.example/cb" demo_scope (Some "st") (Some "n-1")
    (Some (s256Challenge "verifier")) (Some CodeChallengeMethodS256) 0.

Notation demo_session_w := (demo_world
  {[AuthorizeRequestCacheKey "s-1" := mk_cacheItem (VSession demo_session) (Some (demo_epoch + AuthorizeRequestTTL))]}
  alice fr_empty).

Definition demo_signin (pw : string) : CreateAuthCodeCommand :=
  mkCreateAuthCodeCommand "alice@example.com" pw "csrf-1" "s-1".

Definition is_code (o : outcome Result) : bool :=
  match o with Ret (RCreateAuthCode _, None) => true | _ => false end.

Lemma code_result {W} (r : outcome Result * W) :
  is_code r.1 = true -> exists u w', r = (Ret (RCreateAuthCode u, None), w').
Proof. destruct r as [[[[] []]|] w']; try done. eauto. Qed.

Lemma sign_in_sound_witness :
  exists url w', CreateAuthCode_Execute (demo_signin "Passw0rd!") demo_session_w = (Ret (RCreateAuthCode url, None), w') /\
    exists v session uid code,
      cache_live (w_cache demo_session_w) (now sys0) (AuthorizeRequestCacheKey "s-1") = Some v /\
      destSession v = inl session /\ signed_in (demo_signin "Passw0rd!") session uid code url demo_session_w w' /\
      cache_entry (w_cache w') (AuthorizeRequestCacheKey "s-1") = None.
Proof.
  destruct (code_result (CreateAuthCode_Execute (demo_signin "Passw0rd!") demo_session_w)) as (url & w' & Hrun);
    [vm_compute; reflexivity|].
  exists url, w'. split; [exact Hrun|].
  exact (sign_in_sound (demo_signin "Passw0rd!") demo_session_w w' url (fr_one_inv alice) Hrun).
Defined.

(** Two wrong passwords and a lost form. *)
Definition demo_guess (w : World) : World := (CreateAuthCode_Execute (demo_signin "wrong") w).2.

Lemma demo_guess_inv w : ps_inv (w_users w) -> ps_inv (w_users (demo_guess w)).
Proof. intros H. by destruct (createAuthCode_spec (demo_signin "wrong") w H) as (_ & ? & _). Qed.

Lemma sign_in_attempts_witness :
  (CreateAuthCode_Execute (demo_signin "Passw0rd!") (demo_guess (demo_guess (demo_guess demo_session_w)))).1 =
  Ret (RNil, Some NewErrInvalidSession).
Proof.
  apply (sign_in_attempts (demo_signin "Passw0rd!") 3 demo_session_w).
  - exact _.
  - apply trace_attempt; [|reflexivity|do 2 apply demo_guess_inv; apply fr_one_inv].
    apply trace_attempt; [|reflexivity|apply demo_guess_inv; apply fr_one_inv].
    apply trace_attempt; [apply trace_start|reflexivity|apply fr_one_inv].
  - intros v x s [= <- <-] [= <-]. vm_compute. done.
  - lia.
Defined.

Definition demo_authorize : GetAuthorizeQuery :=
  mkGetAuthorizeQuery "code" "spa" "https://app.example/cb" "openid email" (Some "st") (Some "n-1")
    (Some (s256Challenge "verifier")) (Some CodeChallengeMethodS256).

Definition is_session (o : outcome Result) : bool :=
  match o with Ret (RAuthorize _, None) => true | _ => false end.

Lemma session_result {W} (r : outcome Result * W) :
  is_session r.1 = true -> exists sid w', r = (Ret (RAuthorize sid, None), w').
Proof. destruct r as [[[[] []]|] w']; try done. eauto. Qed.

Lemma authorize_sound_witness :
  exists sid w', Authorize_Execute demo_authorize demo_w = (Ret (RAuthorize sid, None), w') /\
    exists client, Registry_FindByID d_ClientRegistry DefaultTenantID "spa" = Some client /\
      Client_AllowsRedirectURI client "https://app.example/cb" = true /\
      exists session d, ar_ID session = sid /\ session_for demo_authorize client session /\
        cache_entry (w_cache w') (AuthorizeRequestCacheKey sid) = Some (VSession session, Some d) /\
        now sys0 + AuthorizeRequestTTL <= d <= now (w_sys w') + AuthorizeRequestTTL.
Proof.
  destruct (session_result (Authorize_Execute demo_authorize demo_w)) as (sid & w' & Hrun); [vm_compute; reflexivity|].
  exists sid, w'. split; [exact Hrun|]. exact (authorize_sound demo_authorize demo_w w' (RAuthorize sid) Hrun).
Defined.

Definition demo_password : GetTokenQuery := mkGetTokenQuery "alice@example.com" "Passw0rd!" (Some "openid") None.

Lemma password_grant_sound_witness :
  exists t w', GetToken_Execute demo_password (demo_world ∅ alice fr_empty) = (Ret (RToken t, None), w') /\
    exists uid scope,
      credentials_ok uid "alice@example.com" "Passw0rd!" (ps_view (w_users (demo_world ∅ alice fr_empty)))
        (now sys0) (now (w_sys w')) /\
      (forall v, v ∈ scope_values scope -> v ∈ d_ScopeAllowlist) /\
      tokens_issued uid scope (ResolveExpirySecs None) t (demo_world ∅ alice fr_empty) w'.
Proof.
  destruct (token_result (GetToken_Execute demo_password (demo_world ∅ alice fr_empty))) as (t & w' & Hrun);
    [vm_compute; reflexivity|].
  exists t, w'. split; [exact Hrun|].
  exact (password_grant_sound demo_password _ w' t (demo_inv _ _ _ fr_empty_inv) (demo_empty_fresh _ _) Hrun).
Defined.

(** ** Introspection and authentication *)

Definition demo_introspect : IntrospectTokenQuery :=
  mkIntrospectTokenQuery "" "" "backend" "s3cret" demo_access None.

Definition demo_later_w : World := world_at sys1 ∅ alice demo_grant fr_empty.

Lemma introspection_agrees_witness :
  (exists r, (Introspect_Execute demo_introspect demo_later_w).1 = Ret (RIntrospect r, None) /\ ir_Active r = true) <->
  (exists claims, (verifyBearer (bearer demo_access) demo_later_w).1 = Ret (Some (claims, demo_access))).
Proof.
  apply (introspection_agrees demo_introspect (bearer demo_access) demo_later_w).
  - vm_compute. reflexivity.
  - apply bearer_demo_access.
  - intros claims Hp.
    assert ((ts_ParseJWT demo_access sys1).1 = Ret (Some demo_claims, None)) as Hd by (vm_compute; reflexivity).
    simpl iq_Token in Hp. simpl w_sys in Hp. rewrite Hd in Hp. by injection Hp as <-.
Defined.

Lemma bearer_check_exact_witness :
  exists x' w', Authenticate (bearer demo_access) demo_later_w = (Ret x', w') /\ x_aborted x' = false /\
    exists tok claims, (ts_ParseJWT tok (w_sys demo_later_w)).1 = Ret (Some claims, None) /\
      ~ marked claims (w_cache demo_later_w) (now (w_sys w')) /\
      x_keys x' !! UserIdKey = Some (CtxStr (cl_Subject claims)).
Proof.
  destruct (bearer_check_exact (bearer demo_access) demo_later_w eq_refl) as (x' & w' & Hrun & Hsound & Hcomplete).
  assert ((ts_ParseJWT demo_access (w_sys demo_later_w)).1 = Ret (Some demo_claims, None)) as Hd
    by (vm_compute; reflexivity).
  assert (x_aborted x' = false) as Hpass.
  { apply (Hcomplete _ demo_access demo_claims); [apply bearer_demo_access|exact Hd|done|intros v [=]|].
    intros [[v [=]]|[[_ [v [=]]]|(iat & n & _ & _ & [=])]]. }
  exists x', w'. split; [exact Hrun|]. split; [exact Hpass|].
  destruct (Hsound Hpass) as (tok & claims & _ & Hp & _ & Hm & Hu & _).
  exists tok, claims. split; [exact Hp|]. split; [exact Hm|exact Hu].
Defined.

(** ** Accounts *)

Definition demo_register : CreateUserCommand := mkCreateUserCommand "bob" "Bobby" "bob@example.com" "Passw0rd!".

Lemma create_user_sound_witness :
  wp (CreateUser_Execute demo_register) (registration demo_register demo_w) demo_w /\
  exists r, (CreateUser_Execute demo_register demo_w).1 = Ret (r, None).
Proof.
  split; [|eexists; vm_compute; reflexivity].
  apply (create_user_sound demo_register demo_w).
  - apply fr_one_inv.
  - intros n _. simpl. rewrite fr_view_one. by apply lookup_singleton_ne.
Defined.

Lemma account_lockout_witness :
  exists u' s', fail_n 6 alice sys0 = (Ret u', s') /\ u_FailedLoginAttempts u' = 6 /\
    ((6 < 5)%nat -> forall s2, (User_IsLockedOut u' s2).1 = Ret false) /\
    ((5 <= 6)%nat -> exists s1, sys_le sys0 s1 /\ sys_le s1 s' /\
       forall s2, (User_IsLockedOut u' s2).1 = Ret (now s2 <? now s1 + Z.min (Minute * 2 ^ (6 - 5)) Hour)).
Proof. apply (account_lockout 6 alice sys0); done. Defined.

Lemma SetPassword_branches_witness :
  exists e s', User_SetPassword (String.concat "" (repeat "Passw0rd!" 9)) alice sys0 = (Panic e, s').
Proof.
  exact (SetPassword_branches alice (String.concat "" (repeat "Passw0rd!" 9)) sys0).
Defined.

(** ** Limits *)

Definition demo_hit (w : World) : World := (DistributedRateLimit 2 Minute (bearer "") w).2.

Definition demo_ctx (w : World) : Ctx :=
  match (DistributedRateLimit 2 Minute (bearer "") w).1 with Ret x => x | Panic _ => bearer "" end.

Lemma demo_hit_run w :
  (exists x, (DistributedRateLimit 2 Minute (bearer "") w).1 = Ret x) ->
  DistributedRateLimit 2 Minute (bearer "") w = (Ret (demo_ctx w), demo_hit w).
Proof. intros [x Hx]. unfold demo_ctx, demo_hit. rewrite Hx. by apply ret_result. Qed.

Lemma demo_hit_step came passed passed' w :
  limiter_trace "10.0.0.1" 2 Minute demo_w came 0 0 passed w ->
  (exists x, (DistributedRateLimit 2 Minute (bearer "") w).1 = Ret x) ->
  count_failed (rateLimitCacheKey "10.0.0.1") Minute w = false ->
  (if x_aborted (demo_ctx w) then passed else S passed) = passed' ->
  limiter_trace "10.0.0.1" 2 Minute demo_w (S came) 0 0 passed' (demo_hit w).
Proof.
  intros Ht Hx Hf <-. pose proof (lt_request _ _ _ _ _ _ _ _ w (bearer "") (demo_ctx w) _ Ht eq_refl eq_refl (demo_hit_run w Hx)) as H.
  by rewrite Hf in H.
Qed.

(** Three requests against a limit of two. *)
Lemma demo_hits : limiter_trace "10.0.0.1" 2 Minute demo_w 3 0 0 2 (demo_hit (demo_hit (demo_hit demo_w))).
Proof.
  apply (demo_hit_step 2 2); [|eexists; vm_compute; reflexivity|vm_compute; reflexivity..].
  apply (demo_hit_step 1 1); [|eexists; vm_compute; reflexivity|vm_compute; reflexivity..].
  apply (demo_hit_step 0 0); [|eexists; vm_compute; reflexivity|vm_compute; reflexivity..].
  apply lt_start.
Qed.

Lemma rate_limiter_exact_witness :
  limiter_trace "10.0.0.1" 2 Minute demo_w 3 0 0 2 (demo_hit (demo_hit (demo_hit demo_w))) /\
  Z.of_nat 2 = Z.min (Z.of_nat 3) 2.
Proof.
  split; [apply demo_hits|].
  apply (rate_limiter_exact "10.0.0.1" 2 Minute 3 0 0 2 demo_w (demo_hit (demo_hit (demo_hit demo_w)))).
  - done.
  - done.
  - done.
  - vm_compute. reflexivity.
  - apply demo_hits.
  - vm_compute. done.
  - done.
Defined.

Definition demo_forgot : ForgotPasswordCommand := mkForgotPasswordCommand "alice@example.com".

Definition demo_ask (w : World) : World := (ForgotPassword_Execute demo_forgot w).2.

Definition demo_mails (w : World) : nat := (length (w_mail (demo_ask w)) - length (w_mail w))%nat.

Lemma demo_ask_step came sent w :
  recovery_trace (forgotPasswordRateKey "alice@example.com") demo_w came 0 sent w ->
  count_failed (forgotPasswordRateKey "alice@example.com") forgotPasswordWindow w = false ->
  recovery_trace (forgotPasswordRateKey "alice@example.com") demo_w (S came) 0 (sent + demo_mails w) (demo_ask w).
Proof. intros Ht Hf. pose proof (rt_request _ _ _ _ _ w demo_forgot Ht eq_refl) as H. by rewrite Hf in H. Qed.

Lemma recovery_mails_limited_witness :
  (0 + demo_mails demo_w + demo_mails (demo_ask demo_w) + demo_mails (demo_ask (demo_ask demo_w))
     + demo_mails (demo_ask (demo_ask (demo_ask demo_w))) <= 3)%nat.
Proof.
  apply (recovery_mails_limited (forgotPasswordRateKey "alice@example.com") 4 0 _ demo_w
    (demo_ask (demo_ask (demo_ask (demo_ask demo_w))))).
  - done.
  - vm_compute. reflexivity.
  - do 4 (apply demo_ask_step; [|vm_compute; reflexivity]). apply rt_start.
  - vm_compute. done.
Defined.

Lemma recovery_answer_uniform_witness :
  exists r w', ForgotPassword_Execute demo_forgot demo_w = (Ret r, w') /\ r = (RNil, None).
Proof.
  destruct (nil_result (ForgotPassword_Execute demo_forgot demo_w)) as (w' & Hrun); [vm_compute; reflexivity|].
  exists (RNil, None), w'. split; [exact Hrun|]. exact (recovery_answer_uniform demo_forgot demo_w w' _ Hrun).
Defined.

(** A password bcrypt refuses makes registration panic. *)
Definition demo_long : Command :=
  CCreateUser (mkCreateUserCommand "bob" "Bobby" "bob@example.com" (String.concat "" (repeat "Passw0rd!" 9))).


(** The same panic behind an endpoint in the OAuth 2 format. *)
Example panic_message_reaches_client :
  match (handle (fun _ => None) demo_long false (ctx_Set OAuth2ErrorFormatKey (CtxBool true) (bearer "")) demo_w).1 with
  | Ret x' => (x_status x', x_body x') =
      (400, BodyOAuth2 OAuth2InvalidRequest "panic in registry: bcrypt: password length exceeds 72 bytes")
  | Panic _ => False
  end.
Proof. vm_compute. reflexivity. Qed.

(** ** Backends, codecs and entities *)

Lemma file_backend_implements_ports_witness :
  UserRepoLaws demo_env fileUserRepo /\ GrantRepoLaws demo_env fileGrantRepo /\
  RefreshTokenRepoLaws demo_env fileRTRepo /\ PortsForward fileUserRepo fileGrantRepo fileRTRepo /\
  (DiskOk demo_env -> GrantRepoReliable fileGrantRepo /\ RefreshTokenRepoReliable fileRTRepo).
Proof. exact (file_backend_implements_ports demo_clock). Defined.

Lemma memory_cache_implements_port_witness : CacheLaws demo_env MemoryCacheI /\ CacheReliable MemoryCacheI.
Proof. exact (memory_cache_implements_port demo_clock). Defined.

(** The demo token is accepted; the same claims under another method, another key
    or another issuer are not. *)
Definition demo_token_claims : MapClaims := default ∅ (toy_claims demo_access).
Definition forged_token (alg : string) (n : Z) (m : MapClaims) : string := bits (encode (alg, n, m)).

Lemma jwt_service_implements_port_witness :
  TokenServiceLaws demo_env (JWTServiceAdapter demo_service) /\ signed_by demo_service demo_access /\
  forall tok s c, (ts_ParseJWT (TokenServiceI := JWTServiceAdapter demo_service) tok s).1 = Ret (Some c, None) ->
    signed_by demo_service tok /\ cl_Issuer c = "https://id.example/".
Proof.
  destruct (jwt_service_implements_port demo_service demo_jwt) as (Hlaws & Hparse & _). split; [exact Hlaws|].
  assert ((ts_ParseJWT (TokenServiceI := JWTServiceAdapter demo_service) demo_access sys1).1 = Ret (Some demo_claims, None)) as Hd
    by (vm_compute; reflexivity).
  split; [apply Hparse in Hd as (p & Hs & _); exact Hs|].
  intros tok s c (p & Hs & _ & _ & Hi & _ & _ & ->)%Hparse. split; [exact Hs|exact Hi].
Defined.

Definition refused (o : outcome (option Claims * option goerr)) : bool :=
  match o with Ret (None, Some _) => true | _ => false end.

Example forged_tokens_refused :
  refused (ts_ParseJWT (forged_token "HS256" 3233 demo_token_claims) sys1).1 = true /\
  refused (ts_ParseJWT (forged_token "RS256" 15 demo_token_claims) sys1).1 = true /\
  refused (ts_ParseJWT (forged_token "RS256" 3233 (<["iss" := CStr "https://evil.example/"]> demo_token_claims)) sys1).1 = true /\
  refused (ts_ParseJWT (forged_token "RS256" 3233 demo_token_claims) sys1).1 = false.
Proof. vm_compute. done. Qed.

Lemma memory_cache_ttl_witness :
  exists s' m', mc_Set "k" (VBool true) (Some Minute) (sys0, ∅) = (Ret None, (s', m')) /\
    (exists r s3 m3, mc_GetErr "k" destNil (sys1, m') = (Ret r, (s3, m3)) /\
      (now s3 <= now sys0 + Minute -> r = (Some tt, None)) /\ (now sys0 + Minute < now sys1 -> r = (None, None))) /\
    (exists r s3 m3, mc_GetAndDelete "k" destNil (sys1, m') = (Ret r, (s3, m3)) /\
      (now sys0 + Minute < now sys1 -> r = None) /\
      forall s4, (mc_GetAndDelete "k" destNil (s4, m3)).1 = Ret None).
Proof. apply (memory_cache_ttl unit "k" (VBool true) Minute destNil sys0 sys1 ∅). done. Defined.

Lemma janitor_invisible_witness :
  cache_live (mc_deleteExpired 7 {["k" := mk_cacheItem (VBool true) (Some 5)]}) 8 "k" =
    cache_live ({["k" := mk_cacheItem (VBool true) (Some 5)]} : MemoryCache) 8 "k" /\
  map_Forall (fun _ it => item_expired 7 it = false)
    (mc_deleteExpired 7 {["k" := mk_cacheItem (VBool true) (Some 5)]}).
Proof. apply (janitor_invisible 7 8 "k" {["k" := mk_cacheItem (VBool true) (Some 5)]}). done. Defined.

Lemma nonpositive_ttl_is_permanent_witness :
  exists s' m', mc_Set "k" (VBool true) (Some 0) (sys0, ∅) = (Ret None, (s', m')) /\
    forall t, cache_live m' t "k" = Some (VBool true).
Proof. apply (nonpositive_ttl_is_permanent "k" (VBool true) 0 sys0 ∅). done. Defined.

Lemma refresh_tokens_survive_restart_witness :
  exists s' r', fileRT_Save demo_rt (sys0, fr_empty) = (Ret None, (s', r')) /\
    exists r0, fr_load (fr_disk r') = inl r0 /\ fr_view r0 = fr_view r' /\
      fr_view r0 = <["rt-1" := demo_rt]> (fr_view (fr_empty : FileRepo RefreshToken refreshTokenDoc)).
Proof.
  destruct (fileRT_Save demo_rt (sys0, fr_empty)) as [o [s' r']] eqn:Hrun.
  assert (o = Ret None) as -> by (change (o = Ret None) with ((o, (s', r')).1 = Ret None); rewrite <- Hrun;
    vm_compute; reflexivity).
  exists s', r'. split; [done|].
  apply (refresh_tokens_survive_restart demo_rt sys0 s' fr_empty r').
  - apply fr_empty_inv.
  - intros id y. unfold fr_view. simpl. by rewrite omap_empty, lookup_empty.
  - intros id y. unfold fr_view. simpl. rewrite omap_empty. intros [[_ <-]|[_ Hy]]%lookup_insert_Some; [|done].
    split; [repeat constructor|]. split; [done|]. repeat constructor; apply contains_spec; reflexivity.
  - exact Hrun.
Defined.

Lemma empty_scope_row_breaks_restart_witness :
  exists err, fr_load (E := demo_env) (T := RefreshToken)
    {["rt-1" := rtToDoc (mkRefreshToken "rt-1" "u-1" "" "g-1" "h" Scope_zero "" 0 0 0 None)]} = inr err.
Proof.
  apply (empty_scope_row_breaks_restart _ "rt-1" (mkRefreshToken "rt-1" "u-1" "" "g-1" "h" Scope_zero "" 0 0 0 None)).
  - apply lookup_singleton_eq.
  - reflexivity.
Defined.

Lemma access_token_roundtrip_witness :
  exists exp iat r s3, JWTService_ParseJWT demo_service demo_access sys1 = (Ret r, s3) /\
    exp <= now sys0 + 900 * Second < exp + Second /\ iat <= now sys0 < iat + Second /\
    if now sys1 <? exp
    then r = (Some (mkClaims "u-1" "openid" "https://id.example/" [accessTokenAudience] (uuid_NewString 0)
                      (Some exp) (Some iat) "g-1"), None)
    else exists err, r = (None, Some err).
Proof.
  apply (access_token_roundtrip demo_service "u-1" "openid" "g-1" demo_access 900 sys0 sys1 sys1).
  - reflexivity.
  - apply demo_access_generated.
  - lia.
  - unfold now. simpl. lia.
Defined.

Lemma token_kinds_disjoint_witness :
  exists err s3, JWTService_ParseIDToken demo_service demo_access sys1 = (Ret (None, Some err), s3).
Proof.
  apply (token_kinds_disjoint demo_service "u-1" "openid" "g-1" demo_access 900
    (mkIDTokenArgs "u-1" "spa" "alice@example.com" "" "g-1" true 900) sys0 sys1 sys1).
  apply demo_access_generated.
Defined.

Lemma cipher_roundtrip_witness :
  exists r s', Cipher_Encrypt demo_cipher "alice@example.com" sys0 = (Ret r, s') /\ sys_le sys0 s' /\
    match r with
    | inl ct => Cipher_Decrypt demo_cipher ct = inl "alice@example.com"
    | inr err => rand_Read 0 = inr err
    end.
Proof. exact (cipher_roundtrip demo_cipher "alice@example.com" sys0). Defined.

Lemma AuthCode_IsValid_spec_witness :
  exists b s', AuthCode_IsValid demo_code "spa" "https://app.example/cb" "verifier" sys0 = (Ret b, s') /\ sys_le sys0 s' /\
    (b = true <-> now sys0 <= ac_ExpiresAt demo_code /\ "spa" = "spa" /\
       ac_RedirectURI demo_code = "https://app.example/cb" /\ pkce_ok demo_code "verifier").
Proof. apply (AuthCode_IsValid_spec demo_code "spa"). reflexivity. Defined.
