(* ===== verification/RouterWitnesses.v ===== *)
(** * The invariant and the routes at concrete inputs

    The demo server of [Demo.v] behind its router: its secrets are distinct, its
    data are consistent, and requests run through the whole chain. *)

From S2P Require Import Prelude GoStd Crypto Errors Env Cipher Scope User Token Client AuthFlow Jwt Cache FileRepo Ports Adapters Services Responses CmdTokens CmdUsers Queries Web Binding Router Frame TokenFlow AccountFlow WebFlow LoginFlow System Invariant RouterFlow Demo Witnesses.

Local Open Scope Z_scope.

(** ** Consistent data *)

Definition demo_hashes : list string := (fun n => Hash (demo_raw n)) <$> List.seq 0 16.

Lemma demo_hashes_distinct : bool_decide (NoDup demo_hashes) = true.
Proof. vm_compute. reflexivity. Qed.

Lemma demo_random s tok s' :
  random_Token s = (Ret (tok, None), s') -> (n_rand s < 16)%nat /\ tok = demo_raw (n_rand s) /\ n_rand s' = S (n_rand s).
Proof. unfold random_Token. simpl. destruct (Nat.ltb_spec (n_rand s) 16); [|done]. by intros [= <- <-]. Qed.

Lemma demo_hash_inj n m : (n < 16)%nat -> (m < 16)%nat -> Hash (demo_raw n) = Hash (demo_raw m) -> n = m.
Proof.
  intros Hn Hm H. pose proof (bool_decide_eq_true_1 _ demo_hashes_distinct) as Hd.
  assert (forall k, (k < 16)%nat -> demo_hashes !! k = Some (Hash (demo_raw k))) as Hl.
  { intros k Hk. unfold demo_hashes. rewrite list_lookup_fmap, lookup_seq_lt by done. done. }
  apply (NoDup_lookup _ n m _ Hd (Hl n Hn)). by rewrite (Hl m Hm), H.
Qed.

Lemma demo_random_distinct s1 tok1 s1' s2 tok2 s2' :
  random_Token s1 = (Ret (tok1, None), s1') -> sys_le s1' s2 -> random_Token s2 = (Ret (tok2, None), s2') ->
  Hash tok1 <> Hash tok2.
Proof.
  intros (H1 & -> & Hs)%demo_random L (H2 & -> & _)%demo_random H%demo_hash_inj; [|done..].
  destruct L as (_ & L & _). lia.
Qed.

#[export] Instance demo_secrets : SecretsDistinct demo_env demo_tokens.
Proof.
  assert (forall uid s tok s', ts_GenRefreshToken uid s = (Ret (tok, None), s') ->
    random_Token s = (Ret (tok, None), s')) as Hgen.
  { intros uid s tok s'. simpl. unfold JWTService_GenRefreshToken.
    intros ([t [e|]] & s1 & H & H2)%bind_Ret_inv; [by apply ret_inv in H2 as [[=] _]|].
    by apply ret_inv in H2 as [[= <-] <-]. }
  split.
  - intros uid1 uid2 s1 s1' s2 s2' tok1 tok2 H1 L H2. by eapply demo_random_distinct; eauto.
  - intros s1 s1' s2 s2' tok1 tok2. apply demo_random_distinct.
Qed.

Lemma demo_not_id (s : string) sys : (forall t, s <> "id-" +:+ t) -> unused_id sys s.
Proof. intros H n _. apply H. Qed.

Lemma demo_not_refresh h sys : demo_unused h = true -> unused_refresh sys h.
Proof.
  unfold demo_unused. rewrite forallb_forall. intros Hu uid s1 tok s2 _ (n & Hn & ->)%demo_gen_refresh Heq.
  specialize (Hu n ltac:(apply in_seq; lia)). by rewrite Heq, String.eqb_refl in Hu.
Qed.

Lemma demo_rt_unused : demo_unused (rt_TokenHash demo_rt) = true.
Proof. vm_compute. reflexivity. Qed.

Lemma demo_consistent : Inv demo_w.
Proof.
  split; [apply demo_inv, fr_one_inv|].
  change (consistent sys0 (fr_view (fr_one alice)) (fr_view (fr_one demo_grant)) (fr_view (fr_one demo_rt))).
  rewrite !fr_view_one. split; intros id x [_ <-]%lookup_singleton_Some.
  - split; [done|]. split; [by apply demo_not_id|done].
  - split; [by apply demo_not_id|]. exists alice. by rewrite lookup_singleton_eq.
  - split; [by apply demo_not_id|]. split; [apply demo_not_refresh, demo_rt_unused|]. split; [done|].
    split; [done|]. exists demo_grant. split; [by rewrite lookup_singleton_eq|]. by repeat split.
Qed.

(** After a refresh request and a pause. *)
Lemma reachable_consistent_witness :
  let w' := (run_chain [handle (fun _ => None) (CRefreshToken demo_refresh) false] (bearer "") demo_w).2 in
  Inv w' /\ refresh_fresh w' /\ ids_fresh w' /\ user_ids_fresh w'.
Proof.
  apply (reachable_consistent demo_w); [exact demo_consistent|].
  apply serves_request; [apply serves_nothing|]. repeat constructor.
Defined.

(** ** The routes *)

(** A binder that finds nothing in the request. *)
#[export] Instance demo_binding : GinBinding := {|
  gin_ShouldBindUri _ v := (v, None);
  gin_ShouldBindQuery _ v := (v, None);
  gin_ShouldBindHeader _ v := (v, None);
  gin_ShouldBind _ v := (v, None);
|}.

#[export] Instance demo_typed : GinTyped demo_binding.
Proof. split; intros x v obj H; exact H. Qed.

#[export] Instance demo_cors : CorsHandler := fun _ x => x.

#[export] Instance demo_cors_laws : CorsLaws demo_cors.
Proof. split; unfold cors_New, demo_cors; [congruence|done|done]. Qed.

(** An engine that looks a path up as it is, and redirects when a slash at its end
    makes the difference. *)
Definition slash_apart (m p : string) (r : string * string) : bool :=
  String.eqb r.1 m && (String.eqb (r.2 +:+ "/") p || String.eqb (p +:+ "/") r.2).

#[export] Instance demo_gin : GinEngine := {|
  gin_route rs m p :=
    match list_find (eq (m, p)) rs with
    | Some (i, _) => GinRoute i
    | None => if existsb (slash_apart m p) rs then GinRedirect else GinNoRoute
    end;
  gin_redirect x := ctx_Write 301 BodyNone (ctx_Header "Location" "/" x);
  gin_serveError x := if x_status x =? 0 then ctx_Write 404 (BodyText "404 page not found") x else x;
  gin_Default _ next x w :=
    match next x w with
    | (Ret x', w') => (Ret x', w')
    | (Panic _, w') => (Ret (ctx_Write 500 BodyNone x), w')
    end;
|}.

#[export] Instance demo_gin_laws : GinLaws demo_gin.
Proof.
  split.
  - intros x. split; [done|]. simpl. by rewrite lookup_insert_eq.
  - intros rs m p i. simpl. destruct (list_find (eq (m, p)) rs) as [[j r]|] eqn:H.
    + intros [= <-]. apply list_find_Some in H as (H & <- & _). by exists p.
    + by destruct (existsb _ rs).
  - intros x H. simpl. by rewrite H.
  - intros x H. simpl. by rewrite (proj2 (Z.eqb_neq _ _) H).
  - intros x k _. simpl. by destruct (_ =? _).
  - intros W next x w x' w' H. simpl. by rewrite H.
Qed.

Definition demo_validate (_ : Command) : option goerr := None.

Lemma protected_routes_act_for_caller_witness :
  exists r, find_route demo_validate "GET" "/userinfo" = Some r /\
    match verifyBearer (bearer demo_access) demo_w with
    | (Ret None, w1) => exists x', run_chain (ro_Handlers r) (bearer demo_access) demo_w = (Ret x', w1) /\ x_status x' = 401
    | (Ret (Some (claims, _)), w1) =>
      exists x1,
        (exists err, run_chain (ro_Handlers r) (bearer demo_access) demo_w = (Ret (responder_Response RNil (Some err) false x1), w1)) \/
        exists cmd, cmd_user cmd = Some (cl_Subject claims) /\
          run_chain (ro_Handlers r) (bearer demo_access) demo_w = handle demo_validate cmd false x1 w1
    | (Panic msg, w1) => run_chain (ro_Handlers r) (bearer demo_access) demo_w = (Panic msg, w1)
    end.
Proof.
  apply (protected_routes_act_for_caller demo_validate "GET" "/userinfo" KProfile (bearer demo_access) demo_w).
  - constructor.
  - reflexivity.
Defined.

(** A token request of an unknown kind. *)
Definition demo_token_ctx : Ctx :=
  mkCtx (mkRawRequest "/token" "" "" "" ∅ ∅ "" "" "" "") "POST" "" None "10.0.0.1" "/token" "magic" None None ∅ false 0 ∅ [] BodyNone.

Lemma token_endpoint_dispatch_witness :
  exists r, find_route demo_validate "POST" "/token" = Some r /\
    exists x' msg, run_chain (ro_Handlers r) demo_token_ctx demo_w = (Ret x', demo_w) /\ x_status x' = 400 /\
      x_aborted x' = true /\ x_body x' = BodyOAuth2 OAuth2UnsupportedGrantType msg.
Proof.
  apply (token_endpoint_dispatch demo_validate "/token" demo_token_ctx demo_w).
  - constructor.
  - reflexivity.
Defined.

Definition demo_config : ServerConfig := mkServerConfig ":8080" ["*"] true "" 1000 Minute.

(** A request to a path of the table, one to no path of it, and one to a path of
    it with a slash too many. *)
Definition request (m p : string) : Ctx :=
  mkCtx (mkRawRequest p "" "" "" ∅ ∅ "" "" "" "") m "" None "10.0.0.1" "" "" None None ∅ false 0 ∅ [] BodyNone.


Example sign_up_answered :
  match (serve demo_validate demo_config (request "GET" "/sign-up") demo_w).1,
        (serve demo_validate demo_config (request "GET" "/nowhere") demo_w).1 with
  | Ret x, Ret y => (x_status x, x_status y) = (200, 404) /\ x_header x !! "X-Frame-Options" = Some "DENY" /\
      x_header y !! "X-Frame-Options" = Some "DENY"
  | _, _ => False
  end.
Proof. vm_compute. by repeat split. Qed.

Lemma every_answer_hardened_witness :
  exists x' w', serve demo_validate demo_config (request "GET" "/sign-up") demo_w = (Ret x', w') /\
    x_header x' !! "X-Frame-Options" = Some "DENY".
Proof.
  destruct (every_answer_hardened demo_validate demo_config (request "GET" "/sign-up") demo_w) as (x' & w' & Hrun & H).
  assert (gin_route ((fun r => (ro_Method r, ro_Path r)) <$> routes demo_validate) "GET" "/sign-up" = GinRoute 1) as Hg
    by (vm_compute; reflexivity).
  cbn [x_Method x_raw rq_Path request] in H. rewrite Hg in H. destruct H as (r & Hr & _ & H). injection Hr as <-.
  exists x', w'. split; [exact Hrun|]. apply H. apply elem_of_cons. right. apply elem_of_cons. left. reflexivity.
Defined.

(** The redirect of a path with a slash too many has none of the headers. *)
Example redirect_not_hardened :
  match (serve demo_validate demo_config (request "GET" "/sign-in/") demo_w).1 with
  | Ret x => x_status x = 301 /\ x_header x !! "X-Frame-Options" = None /\ x_header x !! RequestIDHeader = None
  | Panic _ => False
  end.
Proof. vm_compute. by repeat split. Qed.

(** A body that names a caller. *)
Definition forge (p : rfield * rval) : rfield * rval :=
  match p with
  | (f, RStr s) => (f, RStr (if String.eqb (f_Name f) "CallerID" then "u-1" else s))
  | _ => p
  end.

Definition forging_binding : GinBinding := {|
  gin_ShouldBindUri _ v := (v, None);
  gin_ShouldBindQuery _ v := (v, None);
  gin_ShouldBindHeader _ v := (v, None);
  gin_ShouldBind _ v := (match v with
                         | RPtr k (Some (RStruct leaf fs)) => RPtr k (Some (RStruct leaf (forge <$> fs)))
                         | _ => v
                         end, None);
|}.

Lemma forging_typed : GinTyped forging_binding.
Proof.
  split; try (intros x v obj H; exact H). intros x v obj (e & -> & Hs). simpl.
  destruct e as [| | | | |leaf fs| |]; try (eexists; split; [reflexivity|exact Hs]).
  eexists. split; [reflexivity|]. rewrite <- Hs. simpl. f_equal. clear.
  induction fs as [|[f [s| | | | | | |]] fs IH]; simpl; [done|..]; by f_equal.
Qed.

Definition forged_ctx : Ctx :=
  mkCtx (mkRawRequest "/oidc/revoke" "" "" "" ∅ ∅ "" "" "" "") "POST" "" None "10.0.0.1" "/oidc/revoke" "" None None ∅ false 0 ∅ [] BodyNone.

Lemma forged_caller_skips_authentication_witness :
  let x1 := ctx_Set OAuth2ErrorFormatKey (CtxBool true) forged_ctx in
  exists r c, find_route (G := forging_binding) demo_validate "POST" "/oidc/revoke" = Some r /\ vc_CallerID c = "u-1" /\
    run_chain (ro_Handlers r) forged_ctx demo_w = handle demo_validate (CRevokeToken c) false x1 demo_w /\
    RevokeToken_Execute c demo_w =
      (if bool_decide (vc_TokenTypeHint c = Some "access_token") then RevokeToken_accessFirst c demo_w
       else RevokeToken_refreshFirst c demo_w).
Proof.
  apply (@forged_caller_skips_authentication _ _ _ _ _ _ _ _ forging_binding forging_typed demo_validate forged_ctx demo_w
    (forge <$> cmd_fields KRevokeToken) "u-1"); [reflexivity..| |reflexivity|done].
  eexists _, _, _, _. do 4 (split; [reflexivity|]). done.
Defined.
