(* ===== verification/HostWitnesses.v ===== *)
(** * Mail, configuration and boot at concrete inputs

    A relay that breaks once, an environment and a host from which the server
    boots; the theorems of Mail.v, Config.v and Boot.v there. *)

From S2P Require Import Prelude GoStd Crypto Errors Env Cipher Base64 User Token Client Jwt FileRepo Adapters Router Mail Config Boot Demo.

Local Open Scope Z_scope.

(** ** Mail *)

(** The relay's state counts the dialogues; the first one is refused at MAIL. *)
#[local] Instance demo_relay : Relay := {|
  relay := nat;
  net_SplitHost _ := "mail.example";
  net_DialTimeout _ n := (Ret (inl n), S n);
  smtp_NewClient _ _ n := (Ret None, n);
  sc_StartTLS_offered _ n := (Ret true, n);
  sc_StartTLS _ _ n := (Ret None, n);
  sc_Mail k _ n := (Ret (if Nat.eqb k 0 then Some (ErrMsg "421 closing") else None), n);
  sc_Rcpt _ _ n := (Ret None, n);
  sc_Data _ n := (Ret None, n);
  wc_Write _ _ n := (Ret None, n);
  wc_Close _ n := (Ret None, n);
  sc_Reset _ n := (Ret tt, n);
  sc_Close _ n := (Ret tt, n);
  raw_Close _ n := (Ret tt, n);
|}.

#[local] Instance demo_relay_laws : RelayLaws.
Proof.
  split; try (intros; intros s a s' [= <- _]; done).
  intros k from s a s' [= <- _]. destruct (Nat.eqb k 0); [|done]. by intros x [= <-].
Qed.

Definition demo_smtp : SmtpClient := NewSmtpClient "mail.example:25" "noreply@example.com" 0%nat.

(** The first dialogue fails, the retry delivers: one body on the wire. *)
Lemma send_at_most_once_witness :
  (SmtpClient_Send ["alice@example.com"] "hello" demo_smtp).1 = Ret None /\
  sm_bodies (SmtpClient_Send ["alice@example.com"] "hello" demo_smtp).2 = ["hello"].
Proof.
  split; [reflexivity|]. exact (send_at_most_once ["alice@example.com"] "hello" demo_smtp).
Defined.

(** ** Boot *)

Definition demo_key : string := base64_Std_EncodeToString (replicate 32 7).

Definition demo_environ : Environ := list_to_map [
  ("PORT", "8080"); ("PRIVATE_KEY_PATH", "k.pem"); ("PUBLIC_KEY_PATH", "p.pem"); ("JWT_ISSUER", "https://id.example/");
  ("JWT_KID", "k1"); ("FILE_DIR", "db"); ("USER_FILE_PATH", "users.json"); ("REDIS_ADDR", "redis:6379");
  ("REDIS_DB", "3"); ("RATE_LIMIT_PER_MIN", "0"); ("OAUTH_CLIENT_ID", "spa");
  ("OAUTH_CLIENT_REDIRECT_URIS", "https://app.example/cb, https://app.example/cb2"); ("OAUTH_CLIENT_2_ID", "backend");
  ("OAUTH_CLIENT_2_AUTH_METHOD", "client_secret_basic"); ("OAUTH_CLIENT_2_SECRET", "s3cret");
  ("OAUTH_CLIENT_2_REDIRECT_URIS", "https://backend.example/cb"); ("EMAIL_ENCRYPTION_KEY", demo_key);
  ("EMAIL_BLIND_INDEX_KEY", demo_key)].

#[local] Instance demo_config_lib : ConfigLib := {|
  godotenv_Load _ e := (e, Some fs_ErrNotExist);
  filepath_Join d f := d +:+ "/" +:+ f;
  time_ParseDuration _ := inl Minute;
  validator_Struct c := if String.eqb (sv_Port (st_Server c)) "" then Some (ErrMsg "Port is required") else None;
|}.

(** Empty disk; a public exponent of 65537. *)
#[local] Instance demo_boot_lib : BootLib := {|
  FS := unit;
  os_Stat _ _ := Some fs_ErrNotExist;
  os_MkdirAll _ f := (Ret None, f);
  os_Create _ f := (Ret None, f);
  encode_empty _ f := (Ret None, f);
  os_ReadFile _ _ := inl [1];
  decode_users _ _ := inl ∅;
  decode_refreshTokens _ _ := inl ∅;
  decode_grants _ _ := inl ∅;
  ParseRSAPrivateKeyFromPEM _ := inl (mkRsaPrivateKey (mkRsaPublicKey 65537 1000003) 1);
  ParseRSAPublicKeyFromPEM _ := inl (mkRsaPublicKey 65537 1000003);
  redis_Ping _ := None;
  mongo_Connect _ := None;
  mongo_Ping _ := None;
  mongo_CreateIndexes _ _ := None;
|}.

Definition demo_fs : @FS demo_boot_lib := tt.

Definition demo_host : Host := mkHost _ (mkProcess demo_environ false None) false None demo_fs sys0.

Definition boots (o : outcome (Settings * DepsBundle * Dependencies)) : bool :=
  match o with Ret _ => true | Panic _ => false end.

Lemma boots_result (r : outcome (Settings * DepsBundle * Dependencies) * Host) :
  boots r.1 = true -> exists cfg d m h', r = (Ret (cfg, d, m), h').
Proof. destruct r as [[[[cfg d] m]|] h']; [by eexists _, _, _, _|done]. Qed.


Lemma published_key_exact_witness :
  exists jwk e n, loadPublicKeyAndJWK "p.pem" "k1" demo_fs = inl (mkRsaPublicKey 65537 1000003, jwk) /\
    base64_RawURL_DecodeString (jwk_E jwk) = Some e /\ numeral 65537 e /\
    base64_RawURL_DecodeString (jwk_N jwk) = Some n /\ numeral 1000003 n.
Proof.
  eexists. destruct (published_key_exact "p.pem" "k1" demo_fs (mkRsaPublicKey 65537 1000003)
    (mkJWK "RSA" (base64_RawURL_EncodeToString (big_Bytes 65537)) (base64_RawURL_EncodeToString (big_Bytes 1000003))
       "RS256" "sig" "k1")) as (_ & _ & e & n & H); [reflexivity|done|done|].
  exists e, n. split; [reflexivity|exact H].
Defined.
