(* ===== verification/RelyingWitnesses.v ===== *)
(** * The relying party at concrete inputs

    An authorization server that answers every request for tokens with the same
    tokens, and a browser that logs in and comes back. *)

From S2P Require Import Prelude GoStd Crypto Errors Env Cipher Scope Client AuthFlow Queries Base64 Relying RelyingFlow Pages Demo.

Local Open Scope Z_scope.

#[local] Instance demo_remote : Remote := {| remote := unit; http_Do _ s := (Ret (inl (200, "tokens")), s) |}.

(** The ID token is [h.p.s]; its payload names the nonce of the second random
    value of the demo environment. *)
Definition demo_nonce : string := base64_RawURL_EncodeToString ((fun i => Z.of_nat (1 + i) mod 256) <$> List.seq 0 TokenBytes).

#[local] Instance demo_backend_lib : BackendLib := {|
  json_tokenResponse _ := inl (mkTok "at" "rt" "h.cA.s" "" 900);
  json_nonce _ := inl demo_nonce;
  json_MarshalIndent _ := inl "{}";
  fmt_Sprint _ := "";
  values_Encode l := strings_Join ((fun '(k, v) => k +:+ "=" +:+ v) <$> l) "&";
  url_SchemeHost _ := Some ("https", "id.example");
  http_NewRequest _ := None;
|}.

Definition demo_b : Backend := mkBackend _ sys0 ∅ pendingAuth_zero tt [] [] None.

Definition demo_req (meth : string) (cookie : option string) (query : string -> string) : BackendRequest :=
  mkReq meth cookie query (fun _ => "") None.

Definition demo_b1 : Backend := (handleLogin "https://id.example" (demo_req "GET" None (fun _ => "")) demo_b).2.

Lemma login_meets_server_witness :
  handleLogin "https://id.example" (demo_req "GET" None (fun _ => "")) demo_b = (Ret tt, demo_b1) /\
  exists state nonce verifier, b_pending demo_b1 = mkPending state nonce verifier /\
    b_reply demo_b1 = Some (RedirectReply ("https://id.example/authorize?" +:+
                                           values_Encode (login_params state nonce verifier))) /\
    forall client, Authorize_protocolError (authorize_query (login_params state nonce verifier)) client = "".
Proof.
  split; [reflexivity|].
  destruct (login_meets_server "https://id.example" (demo_req "GET" None (fun _ => "")) demo_b demo_b1)
    as [[_ [[[msg H] _]|[H _]]]|(state & nonce & verifier & s1 & s2 & s3 & s4 & _ & _ & _ & Hp & Hr & _ & _ & Hq & _)].
  - reflexivity.
  - vm_compute in H. discriminate H.
  - vm_compute in H. discriminate H.
  - exists state, nonce, verifier. split; [exact Hp|]. split; [exact Hr|exact Hq].
Defined.

(** The browser returns with a code and the state of that login. *)
Definition demo_return : BackendRequest :=
  demo_req "GET" None (fun k => if String.eqb k "code" then "c0de" else
                                if String.eqb k "state" then pa_State (b_pending demo_b1) else "").

Definition is_unit (o : outcome unit) : bool := match o with Ret _ => true | Panic _ => false end.

Lemma unit_result {W} (r : outcome unit * W) : is_unit r.1 = true -> exists w', r = (Ret tt, w').
Proof. destruct r as [[[]|] w']; [by eexists|done]. Qed.

Lemma callback_sound_witness :
  exists b', handleCallback "https://id.example" demo_return demo_b1 = (Ret tt, b') /\
    exists tok, json_tokenResponse "tokens" = inl tok /\
      extractNonce (tk_IDToken tok) = inl (pa_Nonce (b_pending demo_b1)) /\ session_started tok demo_b1 b'.
Proof.
  destruct (unit_result (handleCallback "https://id.example" demo_return demo_b1)) as (b' & Hrun); [vm_compute; reflexivity|].
  exists b'. split; [exact Hrun|].
  destruct (callback_sound "https://id.example" demo_return demo_b1 b' Hrun)
    as [(_ & (status & msg & H) & _)|(tok & body & n & _ & _ & _ & _ & Hdo & Hj & _ & Hn & _ & Hs & _)].
  - assert (b_reply (handleCallback "https://id.example" demo_return demo_b1).2 = Some (RedirectReply "/")) as Hr
      by (vm_compute; reflexivity).
    rewrite Hrun in Hr. cbn [snd] in Hr. rewrite H in Hr. discriminate Hr.
  - injection Hdo as <- _. exists tok. split; [exact Hj|]. split; [exact Hn|exact Hs].
Defined.

(** The callback did start a session. *)
Example demo_callback_starts :
  size (b_sessions (handleCallback "https://id.example" demo_return demo_b1).2) = 1%nat.
Proof. vm_compute. reflexivity. Qed.

(** A logout that does not come from the page. *)
Lemma csrf_guards_witness :
  exists status msg, handleLogout "https://id.example" (demo_req "POST" None (fun _ => "")) demo_b1 =
    (Ret tt, with_reply (ErrorReply status msg) demo_b1) /\ (status = 403 \/ status = 405).
Proof.
  apply (csrf_guards "https://id.example" (handleLogout "https://id.example") (demo_req "POST" None (fun _ => "")) demo_b1).
  - simpl. tauto.
  - reflexivity.
Defined.

Lemma sessions_well_formed_witness :
  sessions_ok (handleCallback "https://id.example" demo_return (fresh_response demo_b1)).2.
Proof.
  apply (sessions_well_formed "https://id.example" demo_b1); [done|].
  apply (runs_request "https://id.example" demo_b1 "/callback" (handleCallback "https://id.example") demo_return demo_b1);
    [apply runs_nothing|]. simpl. tauto.
Defined.

(** A link to the reset page whose token tries to close the attribute. *)
Definition demo_reset : BackendRequest :=
  demo_req "GET" None (fun _ => String Pages.double_quote "><script>").

Lemma pages_escape_witness :
  exists p, b_reply (handleResetPassword "https://id.example" demo_reset (fresh_response demo_b)).2 = Some (PageReply p) /\
    markup (render p) = markup (render (ResetPasswordPage "")).
Proof.
  eexists. split; [reflexivity|].
  refine (pages_escape "https://id.example" "/reset-password" (handleResetPassword "https://id.example") demo_reset demo_b
    (ResetPasswordPage (html_EscapeString (rq_Query demo_reset "token"))) _ eq_refl). simpl. tauto.
Defined.

(** The beginning of the access token is not escaped. *)
Example token_prefix_is_markup :
  String.eqb (markup (render (HomePage (Some "<b>") (Some "") ""))) (markup (render (HomePage (Some "") (Some "") "")))
  = false.
Proof. vm_compute. reflexivity. Qed.
