(* ===== verification/MongoWitnesses.v ===== *)
(** * The MongoDB theorems at concrete inputs

    A server in memory ([RefMongo]) keeps every promise of the driver; on it the
    demo user, grant and token are saved, a reset token is consumed by two
    requests at once, and a refresh token is rotated in a transaction. *)

From S2P Require Import Prelude GoStd Crypto Errors Env Cipher Scope User Token Client AuthFlow Jwt Cache FileRepo Ports Adapters Contract Mongo MongoAdapters MongoRows MongoCodecs MongoContract MongoFlow.
From S2P Require Import Services Responses CmdTokens Frame TokenFlow MongoTxn Demo.

Local Open Scope Z_scope.

#[local] Existing Instance RefMongo.

Lemma backends_share_contract_witness :
  backend_contract (fun t => t) eq fileUserRepo fileGrantRepo fileRTRepo /\
  backend_contract ms_trunc blind_equal mongoUserRepo mongoGrantRepo mongoRTRepo.
Proof. apply backends_share_contract; exact _. Defined.

(** ** Repositories with one entity *)

Definition no_rows {T} (ixs : list IndexModel) (h : list T) : MongoRepo T :=
  mkMongoRepo h (Ref.mkRefColl ∅ ixs : @Coll RefMongo).

Lemma no_rows_inv {T D} {MC : MongoCodec T D} ixs (h : list T) : mongo_inv ixs (no_rows ixs h).
Proof.
  split; [split|split].
  - intros id d H. simpl in H. by rewrite lookup_empty in H.
  - intros ix id1 id2 d1 d2 _ _ H. simpl in H. by rewrite lookup_empty in H.
  - done.
  - exists ∅. split; [simpl; by rewrite fmap_empty|]. intros id d H. simpl in H. by rewrite lookup_empty in H.
Qed.

Definition resetter : User := set_PasswordResetTokenHash (Some "h-1") alice.

Definition users_one : MongoRepo User := (MongoUser_Save 0 (sys0, no_rows user_indexes [resetter])).2.2.
Definition grants_one : MongoRepo Grant := (MongoGrant_Save 0 (sys0, no_rows grant_indexes [demo_grant])).2.2.
Definition tokens_one : MongoRepo RefreshToken := (MongoRT_Save demo_rt (sys0, no_rows rt_indexes [])).2.2.

Lemma no_rows_view {T D} {MC : MongoCodec T D} ixs : coll_view T (Ref.mkRefColl ∅ ixs : @Coll RefMongo) = ∅.
Proof. unfold coll_view. simpl. apply omap_empty. Qed.

Lemma users_one_spec : mongo_inv user_indexes users_one /\
  coll_view User (mr_col users_one) = {["u-1" := user_norm ms_trunc resetter]}.
Proof.
  assert ((MongoUser_Save 0 (sys0, no_rows user_indexes [resetter])).1 = Ret None) as Ho by (vm_compute; reflexivity).
  pose proof (pc_save (PtrContract := uc_ptr) 0 resetter sys0 (no_rows user_indexes [resetter])
    (no_rows_inv _ _) eq_refl) as H.
  unfold wp, users_one in *. destruct (ps_Save _ _) as [o [s' r']] eqn:Hrun in H.
  change (MongoUser_Save 0 (sys0, no_rows user_indexes [resetter]) = (o, (s', r'))) in Hrun.
  rewrite Hrun in Ho |- *. simpl in Ho. subst o. destruct H as (_ & Hinv & _ & Hv).
  - split; [done|]. intros id u' Hu'. change (coll_view User (Ref.mkRefColl ∅ user_indexes) !! id = Some u') in Hu'.
    by rewrite no_rows_view, lookup_empty in Hu'.
  - split; [exact Hinv|]. etrans; [exact Hv|]. simpl. by rewrite no_rows_view.
Qed.

(** ** Two requests consume one reset token *)

Definition reset_user : User := set_PasswordResetTokenHash None resetter.

Definition first_consume := MongoUser_consume "h-1" reset_user (sys0, mkMongoRepo [] (mr_col users_one)).
Definition second_consume := MongoUser_consume "h-1" reset_user (sys0, mkMongoRepo [] (mr_col first_consume.2.2)).

Lemma consume_step h u s c e es g c2 :
  u_TenantID u <> "" -> u_PasswordResetTokenHash u = None ->
  (MongoUser_consume h u (s, mkMongoRepo [] c)).1 = Ret e ->
  reset_run h (mr_col (MongoUser_consume h u (s, mkMongoRepo [] c)).2.2) es g c2 -> reset_run h c (e :: es) g c2.
Proof.
  intros Ht Hh. destruct (MongoUser_consume h u (s, mkMongoRepo [] c)) as [o [s' [hp' c1]]] eqn:Hrun.
  simpl. intros -> Hr. eapply reset_consume; eauto.
Qed.

Lemma two_consumers : reset_run "h-1" (mr_col users_one) [None; Some ErrNotFound] 0 (mr_col second_consume.2.2).
Proof.
  apply (consume_step _ reset_user sys0); [done|done|vm_compute; reflexivity|].
  apply (consume_step _ reset_user sys0); [done|done|vm_compute; reflexivity|]. constructor.
Qed.

Lemma reset_token_single_use_witness :
  (successes [None; Some ErrNotFound] <= 1)%nat /\
  (successes [None; Some ErrNotFound] = 1%nat ->
     forall id u, coll_view User (mr_col second_consume.2.2) !! id = Some u -> u_PasswordResetTokenHash u <> Some "h-1").
Proof.
  destruct users_one_spec as [Hinv Hv]. apply (reset_token_single_use "h-1" (mr_col users_one)).
  - exact Hinv.
  - rewrite Hv. intros id1 id2 u1 u2 [<- _]%lookup_singleton_Some [<- _]%lookup_singleton_Some _ _. reflexivity.
  - exact two_consumers.
Defined.

(** ** A rotation in a transaction *)

Definition demo_new_rt : RefreshToken :=
  mkRefreshToken "rt-2" "u-1" "spa" "g-1" (Hash "raw-2") demo_scope "" demo_epoch demo_epoch
    (demo_epoch + 2 * RefreshTokenTTL) None.

Lemma grants_one_spec : mongo_inv grant_indexes grants_one.
Proof.
  pose proof (pc_save (PtrContract := gc_ptr) 0 demo_grant sys0 (no_rows grant_indexes [demo_grant])
    (no_rows_inv _ _) eq_refl I) as H.
  unfold wp, grants_one in *. destruct (ps_Save _ _) as [o [s' r']] eqn:Hrun in H.
  change (MongoGrant_Save 0 (sys0, no_rows grant_indexes [demo_grant]) = (o, (s', r'))) in Hrun.
  rewrite Hrun. apply H.
Qed.

Lemma tokens_one_spec : mongo_inv rt_indexes tokens_one.
Proof.
  unfold tokens_one. destruct (MongoRT_Save _ _) as [o [s' r']] eqn:Hrun.
  apply (wp_run _ _ _ _ _ Hrun (mongo_rt_save demo_rt sys0 _ (no_rows_inv _ _) ltac:(by apply (bool_decide_unpack _)))).
Qed.

Definition mongo_w : MongoWorld MemoryCacheI :=
  @mkWorld MemoryCacheI mongoUserRepo mongoGrantRepo mongoRTRepo sys0 ∅ users_one grants_one tokens_one ∅ [].

Definition demo_rotation : outcome (option goerr) * MongoWorld MemoryCacheI :=
  UnitOfWork_Do (SE := RefSession) (RefreshToken_rotateTx demo_rt demo_new_rt) mongo_w.

Lemma rotation_serialised_witness :
  demo_rotation.1 = Ret None /\
  exists w0 wx, same_db mongo_w w0 /\ same_db w0 wx /\ rotation_effect demo_rt demo_new_rt w0 wx demo_rotation.2.
Proof.
  assert (demo_rotation.1 = Ret None) as Ho by (vm_compute; reflexivity). split; [exact Ho|].
  destruct (rotation_serialised (SE := RefSession) same_db RefSession_spec demo_rt demo_new_rt mongo_w demo_rotation.2
    demo_rotation.1 same_db_preorder same_db_inv) as [[Hne _]|(w0 & wx & H1 & H2 & H3 & _)].
  - split; [apply users_one_spec|]. split; [exact grants_one_spec|exact tokens_one_spec].
  - by apply (bool_decide_unpack _).
  - intros H. vm_compute in H. discriminate H.
  - apply surjective_pairing.
  - by destruct Hne.
  - exists w0, wx. auto.
Defined.

(** ** A stale copy saved after the reset *)

Definition stale_repo : MongoRepo User := mkMongoRepo [resetter] (mr_col first_consume.2.2).

Lemma consumed_spec c v s s' hp' c1 :
  mongo_inv user_indexes (mkMongoRepo (T := User) [] c) -> coll_view User c = {["u-1" := v]} ->
  MongoUser_consume "h-1" reset_user (s, mkMongoRepo [] c) = (Ret None, (s', mkMongoRepo hp' c1)) ->
  mongo_inv user_indexes (mkMongoRepo [resetter] c1) /\ holders "h-1" c1 = ∅.
Proof.
  intros Hinv Hv Hrun.
  assert (u_TenantID reset_user <> "") as Ht by done.
  destruct (consume_holders _ _ _ _ _ _ _ _ _ Hinv Ht eq_refl Hrun) as (Hi & Hsub & Hs).
  split; [by destruct Hi|]. destruct (Hs eq_refl) as (id & Hin & Hout).
  assert (holders "h-1" c ⊆ {["u-1"]}) as H1.
  { intros id' (u & Hu & _)%elem_of_holders. rewrite Hv in Hu.
    apply lookup_singleton_Some in Hu as [<- _]. by apply elem_of_singleton. }
  apply H1, elem_of_singleton in Hin. subst id.
  apply elem_of_equiv_empty_L. intros id' Hid'. pose proof (H1 _ (Hsub _ Hid')) as ->%elem_of_singleton. done.
Qed.

Lemma stale_repo_spec : mongo_inv user_indexes stale_repo /\ holders "h-1" (mr_col stale_repo) = ∅.
Proof.
  assert (first_consume.1 = Ret None) as Ho by (vm_compute; reflexivity).
  destruct users_one_spec as [Hinv Hv].
  assert (first_consume = (Ret None, (first_consume.2.1,
    mkMongoRepo (mr_heap first_consume.2.2) (mr_col first_consume.2.2)))) as Hrun.
  { rewrite <-Ho. by destruct first_consume as [? [? []]]. }
  exact (consumed_spec _ _ _ _ _ _ Hinv Hv Hrun).
Qed.

Lemma stale_save_witness :
  holders "h-1" (mr_col (MongoUser_Save 0 (sys0, stale_repo)).2.2) = {["u-1"]}.
Proof.
  assert ((MongoUser_Save 0 (sys0, stale_repo)).1 = Ret None) as Ho by (vm_compute; reflexivity).
  destruct stale_repo_spec as [Hinv Hnone].
  assert (MongoUser_Save 0 (sys0, stale_repo) =
    (Ret None, ((MongoUser_Save 0 (sys0, stale_repo)).2.1, (MongoUser_Save 0 (sys0, stale_repo)).2.2))) as Hrun.
  { rewrite <-Ho. by destruct (MongoUser_Save 0 (sys0, stale_repo)) as [? [? ?]]. }
  exact (proj1 (stale_save_revives_reset_token "h-1" 0 resetter _ _ _ _ Hinv eq_refl ltac:(done) eq_refl Hnone Hrun)).
Defined.

(** A run in which the stale copy is saved: the token is given back once, and two
    requests consume it. *)
Definition revived := MongoUser_Save 0 (sys0, stale_repo).
Definition third_consume := MongoUser_consume "h-1" reset_user (sys0, mkMongoRepo [] (mr_col revived.2.2)).

Lemma save_step h l u hp s c es g c2 :
  hp !! l = Some u -> u_TenantID u <> "" ->
  reset_run h (mr_col (MongoUser_Save l (s, mkMongoRepo hp c)).2.2) es g c2 -> reset_run h c es (carries h u + g) c2.
Proof.
  intros Hl Ht. destruct (MongoUser_Save l (s, mkMongoRepo hp c)) as [o [s' [hp' c1]]] eqn:Hrun.
  simpl. intros Hr. eapply reset_save; eauto.
Qed.

Example stale_save_second_success :
  reset_run "h-1" (mr_col users_one) [None; None] 1 (mr_col third_consume.2.2).
Proof.
  apply (consume_step _ reset_user sys0); [done|done|vm_compute; reflexivity|].
  apply (save_step "h-1" 0 resetter [resetter] sys0 _ _ 0); [done|done|].
  apply (consume_step _ reset_user sys0); [done|done|vm_compute; reflexivity|]. constructor.
Qed.
