(* ===== verification/RedisWitnesses.v ===== *)
(** * The Redis cache at concrete inputs

    On the server in memory of Redis.v, whose clock stands at zero. *)

From S2P Require Import Prelude GoStd Crypto Errors Env Cipher Scope AuthFlow Cache Redis Demo.

Local Open Scope Z_scope.

Definition redis0 : RDB (RedisServer := RefRedis) := RefRedisServer.mkDB 0 ∅.

Definition as_count : dest Z := fun v => match v with VInt64 n => inl n | _ => inr (ErrMsg "not a number") end.

(** Written for two seconds, read within them and after them. *)
Lemma redis_lifetimes_witness :
  exists t, t = 0 /\
    forall db2 : RDB (RedisServer := RefRedis),
      elapse (R := RefRedis) (RefRedisServer.mkDB 0 {["k" := (VInt64 7, Some 2000)]}) db2 ->
      exists r db3, RedisCache_GetErr (R := RefRedis) "k" as_count (sys0, db2) = (Ret r, (sys0, db3)) /\ elapse (R := RefRedis) db2 db3 /\
        ((exists err, r = (None, Some err) /\ errors_Is err (redis_Nil (RedisServer := RefRedis)) = false) \/
         ((RefRedisServer.db_time db3 < t + 2000 -> r = (Some 7, None)) /\ (t + 2000 < RefRedisServer.db_time db3 -> r = (None, None)))).
Proof.
  destruct (redis_lifetimes (RS := RefRedis_spec) "k" (VInt64 7) (2 * Second) as_count sys0 redis0 eq_refl)
    as (e & db1 & Hrun & H).
  vm_compute in Hrun. injection Hrun as He Hdb. destruct (H (eq_sym He)) as (t & Ht & Hread).
  exists t. split; [rewrite <-Hdb in Ht; simpl in Ht; lia|]. intros db2 Hel. apply Hread. by rewrite <-Hdb.
Defined.

(** Two requests for one code: the first gets it. *)
Definition redis1 : RDB (RedisServer := RefRedis) := RefRedisServer.mkDB 0 {["code" := (VInt64 7, None)]}.

Lemma redis_take_once_witness :
  exists db', take_run (R := RefRedis) "code" as_count redis1 [Some 7; None] db' /\ (hits [Some 7; None] <= 1)%nat.
Proof.
  assert (take_run (R := RefRedis) "code" as_count redis1 [Some 7; None] redis0) as Hrun.
  { apply (take_one _ _ _ sys0 _ sys0 redis0); [vm_compute; reflexivity|].
    apply (take_one _ _ _ sys0 _ sys0 redis0); [vm_compute; reflexivity|]. apply take_done. }
  exists redis0. split; [exact Hrun|]. exact (redis_take_once (RS := RefRedis_spec) "code" as_count redis1 redis0 _ Hrun).
Defined.

(** Three requests within a minute, two allowed. *)
Definition counter_at (n : Z) : RDB (RedisServer := RefRedis) :=
  RefRedisServer.mkDB 0 {["ip" := (VInt64 n, Some 60000)]}.


(** A window of half a millisecond. *)
Lemma redis_tiny_window_witness :
  exists n err s' db', RedisCache_IncrWindow (R := RefRedis) "ip" 500000 (sys0, redis0) = (Ret (n, err), (s', db')) /\
    (err = None -> n = 1) /\ rdb_entry (RedisServer := RefRedis) db' "ip" = None.
Proof.
  exists 1, None, sys0, redis0. split; [vm_compute; reflexivity|].
  apply (redis_tiny_window_never_counts (RS := RefRedis_spec) "ip" 500000 1 None sys0 sys0 redis0 redis0).
  - done.
  - reflexivity.
  - vm_compute. reflexivity.
Defined.
