(* ===== verification/DiskWitnesses.v ===== *)
(** * Files and crashes at concrete inputs

    A volume with one store, on which a write fails while it is synced, the power
    fails, and the next write succeeds. *)

From S2P Require Import Prelude GoStd Crypto Errors Env FileRepo Boot Disk.

Local Open Scope Z_scope.

Definition demo_encode (docs : gmap string string) : string + goerr :=
  inl ("{" +:+ strings_Join ((fun '(k, d) => k +:+ ":" +:+ d) <$> map_to_list docs) "," +:+ "}").

Definition demo_decode (text : string) : gmap string string + goerr :=
  if String.eqb text "" then inr (ErrMsg "EOF") else inl ∅.

Definition no_faults : Faults := {| call_error _ := None; call_written _ := 0%nat |}.
Definition fault_at (k : nat) : Faults :=
  {| call_error n := if Nat.eqb n k then Some "input/output error" else None; call_written _ := 1%nat |}.

Definition vol0 : Volume := mkVolume {["users.json" := 0%nat]} {[0%nat := "{}"]} {[0%nat]} [] 1.

(** After the failing sync, before the temporary file is closed. *)
Definition vol1 : Volume :=
  default vol0 (d_seen (disk_writeToFile (FL := fault_at 2) demo_encode "users.json" {["a" := "1"]} (mkDisk vol0 [] 0)).2 !! 2%nat).

(** The power fails: the bytes of the temporary file are lost, those of the
    store are not. *)
Definition vol2 : Volume := mkVolume (vol_dir vol1) {[0%nat := "{}"; 1%nat := "garbage"]} {[0%nat; 1%nat]} [] (vol_next vol1).

Lemma vol2_left : leaves demo_encode "users.json" ["{a:1}"; "{}"] vol2.
Proof.
  apply (leaves_power _ _ _ vol1).
  - change ["{a:1}"; "{}"] with (written demo_encode {["a" := "1"]} ["{}"]).
    apply (leaves_write _ _ (fault_at 2) _ vol0); [|apply list_elem_of_lookup; exists 2%nat; reflexivity].
    apply (leaves_start _ _ _ 0); try reflexivity.
    intros n j. unfold vol0, vol_dir. intros [_ <-]%lookup_singleton_Some. simpl. lia.
  - split_and!; [left|reflexivity|reflexivity|reflexivity|].
    intros i Hi. assert (i = 0%nat) as ->; [|reflexivity].
    revert Hi. change (vol_synced vol1) with ({[0%nat]} ∖ {[1%nat]} ∖ {[1%nat]} : gset nat). set_solver.
Qed.

Lemma disk_writes_atomic_witness :
  visible vol2 "users.json" = Some "{}" /\
  (exists text, text ∈ ["{a:1}"; "{}"] /\ visible vol2 "users.json" = Some text) /\
  exists e d', disk_writeToFile (FL := no_faults) demo_encode "users.json" {["b" := "2"]} (mkDisk vol2 [] 0) = (Ret e, d') /\
    match e with
    | None => exists text, demo_encode {["b" := "2"]} = inl text /\ visible (d_vol d') "users.json" = Some text
    | Some err => (exists cause, err = NewErrWriteFailed cause) /\
                  visible (d_vol d') "users.json" = visible vol2 "users.json"
    end.
Proof.
  split; [reflexivity|].
  exact (disk_writes_atomic demo_encode "users.json" ["{a:1}"; "{}"] vol2 {["b" := "2"]} no_faults 0 vol2_left).
Defined.

(** That write succeeds. *)
Example clean_write :
  (disk_writeToFile (FL := no_faults) demo_encode "users.json" {["b" := "2"]} (mkDisk vol2 [] 0)).1 = Ret None.
Proof. vm_compute. reflexivity. Qed.

Lemma interrupted_init_witness :
  exists v', (disk_loadFromFile (FL := no_faults) demo_decode "users.json" (mkDisk v' [] 0)).1 =
    Ret (inr (NewErrReadFailed (ErrMsg "EOF"))).
Proof.
  destruct (interrupted_init_blocks_start demo_encode demo_decode "users.json" no_faults (mkVolume ∅ ∅ ∅ [] 0) "{}" (ErrMsg "EOF"))
    as (v' & _ & _ & H); try reflexivity. exists v'. exact H.
Defined.

Lemma stat_error_witness :
  exists d', disk_NewFileStore (FL := fault_at 0) demo_encode "users.json" (mkDisk vol0 [] 0) = (Ret None, d') /\
    visible (d_vol d') "users.json" = Some "{}".
Proof.
  apply (stat_error_erases_store demo_encode "users.json" (fault_at 0) vol0 "{}").
  - by eexists.
  - intros [|n] Hn; [lia|reflexivity].
  - reflexivity.
  - by eexists.
Defined.
