(* ===== verification/RaceWitnesses.v ===== *)
(** * Races at concrete inputs

    Requests of the demo server run in computed schedules: the theorems of Races.v
    where they apply, and two schedules that show what the code does not prevent. *)

From Stdlib Require Import Sorting.Sorted.
From S2P Require Import Prelude Interleave GoStd Crypto Errors Env Cipher Scope User Token Client AuthFlow Jwt Cache CacheLocks Redis FileRepo Ports Adapters Contract Mongo MongoAdapters MongoRows MongoCodecs MongoContract.
From S2P Require Import Services Responses CmdTokens CmdUsers Races Queries Frame TokenFlow MongoFlow MongoTxn AccountFlow WebFlow LoginFlow Demo Witnesses MongoWitnesses.

Local Open Scope Z_scope.

(** ** The theorems *)

(** Three requests for one code, a logout in between. *)
Definition three_exchanges : list (proc World Result) :=
  (run_schedule [0; 1; 3; 2; 0; 1; 0; 3; 0; 0; 0; 0; 0; 0]%nat
     (map ExchangeCode_proc [demo_exchange; demo_exchange; demo_exchange] ++ [Logout_proc demo_logout])
     (demo_world {[AuthCodeCacheKey "code-1" := mk_cacheItem (VAuthCode demo_code) (Some (demo_epoch + AuthCodeTTL))]}
        alice fr_empty)).1.

Lemma code_race_witness : (length (takers succeeded 3 three_exchanges) <= 1)%nat.
Proof.
  apply (code_race "code-1" [demo_exchange; demo_exchange; demo_exchange] [Logout_proc demo_logout]).
  - by repeat constructor.
  - apply Forall_singleton. apply logout_bystander; intros; key_ne.
Defined.

(** The first of them did get tokens. *)
Example code_race_has_winner : takers succeeded 3 three_exchanges = [0%nat].
Proof. vm_compute. reflexivity. Qed.

(** Five forms at once on one session: each takes it after the one before has
    put it back, as fast as that is possible. *)
Definition five_guesses : list (proc World Result) :=
  (run_schedule (List.concat (map (fun i => repeat i 9) (seq 0 5)))
     (map CreateAuthCode_proc (repeat (demo_signin "wrong") 5) ++ [])
     (demo_world {[AuthorizeRequestCacheKey "s-1" := mk_cacheItem (VSession demo_session) (Some (demo_epoch + AuthorizeRequestTTL))]}
        alice fr_empty)).1.

Lemma sign_in_race_witness : (length (takers attempted 5 five_guesses) <= 3)%nat.
Proof.
  apply (sign_in_race "s-1" (repeat (demo_signin "wrong") 5) []).
  - by repeat constructor.
  - constructor.
  - intros v x s [= <- <-] [= <-]. vm_compute. done.
Defined.

(** The bound is reached. *)
Example sign_in_race_tight : takers attempted 5 five_guesses = [0; 1; 2]%nat.
Proof. vm_compute. reflexivity. Qed.

(** The theorems hold on the Redis cache too. *)
Lemma redis_takes : CacheTake (RedisCacheI (R := RefRedis)).
Proof. exact _. Qed.

(** ** A refresh and a logout on the file backend

    The refresh reads the grant and finds it valid; the logout revokes it; the
    refresh saves its copy, and revokes the old token; the logout revokes the
    tokens of the grant; the refresh saves the new one. *)

Definition logout_race : list (proc World Result) * World :=
  run_schedule (repeat 0 9 ++ repeat 1 4 ++ repeat 0 3 ++ repeat 1 2 ++ [0])%nat
    [RefreshToken_proc demo_refresh; Logout_proc demo_logout] (demo_world ∅ alice (fr_one demo_rt)).

Definition new_refresh_token (ps : list (proc World Result)) : string :=
  match ps with Done (RToken t, None) :: _ => tr_RefreshToken t | _ => "" end.

Definition demo_refresh_again (raw : string) : RefreshTokenCommand :=
  mkRefreshTokenCommand "refresh_token" "spa" "" "" "" raw None.

(** Both requests are answered with success, and afterwards the grant is not
    revoked and its new refresh token works: the session outlives its logout. *)
Theorem logout_race_session_survives :
  takers succeeded 2 logout_race.1 = [0; 1]%nat /\
  g_RevokedAt <$> (ps_view (w_grants logout_race.2) !! "g-1") = Some None /\
  is_token (RefreshToken_Execute (demo_refresh_again (new_refresh_token logout_race.1)) logout_race.2).1 = true.
Proof. split_and!; vm_compute; reflexivity. Qed.

(** One after the other, it does not. *)
Example logout_then_refresh :
  let w := (Logout_Execute demo_logout (demo_world ∅ alice (fr_one demo_rt))).2 in
  g_RevokedAt <$> (ps_view (w_grants w) !! "g-1") <> Some None /\
  is_token (RefreshToken_Execute demo_refresh w).1 = false.
Proof. split; [|vm_compute; reflexivity]. intros H. vm_compute in H. discriminate H. Qed.

(** ** Wrong passwords in parallel on MongoDB

    Six sign-in forms with wrong passwords, each on a session of its own. *)

#[local] Existing Instance RefMongo.

Definition session_of (id : string) : AuthorizeRequest :=
  mkAuthorizeRequest id demo_epoch "csrf-1" "spa" "https://app.example/cb" demo_scope None None None None 0.

Definition guess (id : string) : CreateAuthCodeCommand :=
  mkCreateAuthCodeCommand "alice@example.com" "wrong" "csrf-1" id.

Definition guess_ids : list string := ["a"; "b"; "c"; "d"; "e"; "f"].

Definition mongo_login_w : MongoWorld MemoryCacheI :=
  @mkWorld MemoryCacheI mongoUserRepo mongoGrantRepo mongoRTRepo sys0
    (list_to_map (map (fun id => (AuthorizeRequestCacheKey id,
       mk_cacheItem (VSession (session_of id)) (Some (demo_epoch + AuthorizeRequestTTL)))) guess_ids))
    users_one grants_one tokens_one ∅ [].

Definition guesses (sched : list nat) : list (proc (MongoWorld MemoryCacheI) Result) * MongoWorld MemoryCacheI :=
  run_schedule sched (map (fun id => CreateAuthCode_proc (guess id)) guess_ids) mongo_login_w.

Definition account (w : MongoWorld MemoryCacheI) : option (Z * option Z) :=
  (fun u => (u_FailedLoginAttempts u, u_LockedUntil u)) <$> (coll_view User (mr_col (w_users w)) !! "u-1").

(** Every form reads the account before the first failure is saved. *)
Definition in_parallel : list nat := List.concat (map (fun i => repeat i 3) (seq 0 6)) ++ List.concat (map (fun i => repeat i 9) (seq 0 6)).
Definition in_turn : list nat := List.concat (map (fun i => repeat i 9) (seq 0 6)).

(** All six passwords are tried, but one failure is counted, and the account is
    not locked; the same six forms in turn lock it. *)
Theorem parallel_guesses_count_once :
  length (takers attempted 6 (guesses in_parallel).1) = 6%nat /\
  account (guesses in_parallel).2 = Some (1, None) /\
  exists t, account (guesses in_turn).2 = Some (5, Some t).
Proof. split_and!; [vm_compute; reflexivity..|]. eexists. vm_compute. reflexivity. Qed.

(** ** The memory cache between its locks

    A read finds an entry that has expired and lets go of the read lock; the entry
    is set anew and counted up, and the janitor sweeps with the instant it read
    before; the read looks again. *)

Definition cache_ops : list CacheOp :=
  [OpGet "k"; OpSet "k" (VInt64 7) (Some Minute); OpIncrWindow "k" Minute; OpDeleteExpired; OpGetAndDelete "k"].

Definition expired_cache : MemoryCache := {["k" := mk_cacheItem (VInt64 1) (Some (demo_epoch - 1))]}.

Definition cache_sched : list nat := [0; 3; 1; 2; 3; 0; 4; 4]%nat.

Notation cache_log := (commit_log cache_sched (map (op_proc destInt64) cache_ops) (sys0, expired_cache)).

Lemma memory_cache_linearizable_witness :
  exists times, length times = length cache_log /\ Sorted Z.le (now sys0 :: times) /\
    (ideal_run destInt64 cache_ops (zip cache_log.*1 times) expired_cache).1 = cache_log.
Proof.
  pose proof (memory_cache_linearizable destInt64 cache_ops cache_sched sys0 expired_cache) as H. cbv zeta in H.
  destruct (run_schedule _ _ _) as [ts [s' m']]. destruct H as [(times & Hlen & Hs & Hl & _) _]. by exists times.
Defined.

(** The read returns what was set and counted in between, not that there is
    nothing, and not the entry it found first. *)
Example cache_log_is :
  cache_log = [(1%nat, ResSet None); (2%nat, ResIncr (8, None)); (3%nat, ResDone); (0%nat, ResGet (Some 8)); (4%nat, ResGet (Some 8))].
Proof. vm_compute. reflexivity. Qed.
